(* ===== verification/_CoqProject ===== *)
-Q . S2P
Prelude.v
Errors.v
Flow.v
Names.v
H2Stream.v
WriterLoop.v
Writer.v
HeaderBlock.v
Conn.v
ConnInv.v
CreditLoop.v
SendPath.v
Uri.v
ResponseWriter.v
Respond.v
FrameLoop.v
Serve.v
Drain.v
Tunnel.v
Handover.v
TunnelEvents.v
Forward.v
Intents.v
Wire.v
EndToEnd.v
Upload.v
Exchange.v
Answer.v
Ended.v
RoundTrip.v
Completes.v
Recycle.v
Proxy.v
AttachedSet.v
Gateway.v
Accept.v
Listen.v
Pool.v
Setup.v
Api.v
Examples.v
Scenarios.v
