(* ===== verification/Prelude.v ===== *)
(** * reverse-http: a verification development

    reverse-http is a reverse proxy whose workers dial in: a worker opens a
    TLS connection to the proxy (a "tunnel"), both sides speak HTTP/2 over it,
    and the proxy, not the dialling side, opens the streams.  The program has
    three layers: [internal/h2], the connection code both roles share; the
    package [internal/proxy], which accepts tunnels and forwards public
    requests over them; the root package, which dials the tunnels and runs an
    [http.Handler] on the requests that arrive.

    ** Files

    Shared connection (src/internal/h2):
    - Errors.v: the error values and protocol limits (errors.go).
    - Flow.v: [SendCredit] (flow.go), each method on wrapping int32 windows,
      and [FlowSystem], any number of writers blocked in [Reserve] with the
      condition variable as a step relation.
    - Names.v: header-name tables, caches and filters (pools.go).
    - H2Stream.v: [Stream], its body ring and the recycled buffer pool
      (stream.go, pools.go), over a store of arrays, so that two slices can
      alias.
    - WriterLoop.v: [runWriter], [submit], [submitAsync], [ShutdownWriter]
      (writer.go) as interleaved steps over the two queues, the done channels
      and their pool.
    - Writer.v: [writeIntent], its constructors, [processIntent] and the HEADERS
      encoders (writer.go); HeaderBlock.v: HEADERS and CONTINUATION
      reassembly, [decodeBlock], and the request round trip (conn.go).
    - Conn.v: [Conn]'s registry, drain, PING watchdog, SETTINGS and inbound
      frames (conn.go); ConnInv.v: the invariant all of them keep; Drain.v:
      the drain operations interleaved at their atomic accesses.
    - CreditLoop.v: the sending half of one [Conn] and the receiving half of
      another, with the DATA and WINDOW_UPDATE frames between them in transit.
    - SendPath.v: what one goroutine sees of [Reserve] and [submit] while the
      others act.

    Worker (src/handler.go, stream.go, writer.go, pool.go, connection.go):
    - FrameLoop.v: the loop of [serve] and [serveTunnel], written once against
      the class [Role] (the operations) with [RoleLaws] (what a role owes the
      loop); Serve.v: the worker's instance, [handleFrame],
      [dispatchInboundHeaders], the teardown.
    - Uri.v: [parseRequestURI]; ResponseWriter.v: [responseWriter] and
      [serveStream] around a handler given as its sequence of calls;
      Respond.v: the response such calls describe, the contract that
      [serveStream] refines.
    - Pool.v: [NewConnectionPool], maintainers, reapers and [Shutdown].
    - Setup.v: [dial] and [startConnection] step by step, with the proxy's
      accept goroutine and [acceptTunnel] as their counterpart.

    Proxy (src/internal/proxy, src/proxy.go):
    - Tunnel.v: [Worker], [clientStream], [openStream], [handleProxyFrame],
      [serveTunnel], and the response round trip; Handover.v: how a stream is
      opened and cleaned up, section by section, with the addressed Stream
      objects of [streamPool], on either side; TunnelEvents.v: everything
      that happens to a tunnel while one forwarder works, and what it does to
      that forwarder's stream.
    - Forward.v: the request that is sent and the body pump; Exchange.v: the
      handler, from opening the stream to its cleanup.
    - Proxy.v: the selectors, the attached set, the public adapters;
      AttachedSet.v: the attached set as Go slices over their backing arrays,
      a refinement of Proxy.v's lists; Gateway.v: the handler over several
      tunnels; Accept.v: the accept loops, [acceptTunnel] and [Shutdown];
      Listen.v: [runTunnelAccept] as the sequential function it is, the errors
      of package net, the listening methods and the public [http.Server];
      Api.v: the public layer, [NewProxy] and [ProxyWorker] (src/proxy.go).

    Examples (src/examples):
    - Examples.v: the handlers and the mux of the example worker, and both
      [main] functions up to what they start.

    Composition:
    - Intents.v: a type system for what an endpoint submits to its writer,
      with an instance for each role.
    - Wire.v: a frame's way from one writer to the other side's frame loop, the
      class [Wire] being what the two framers owe each other; EndToEnd.v: the
      proxy's requests over that wire into the worker's handlers, with the
      [http.Request] each is given; Upload.v: the request's body, from the body
      pump to what the handler reads; Answer.v: a handler's response over the
      wire to the public caller; Ended.v: a body ends cleanly at the proxy only by the
      worker's END_STREAM; RoundTrip.v: both directions in one theorem, from
      the caller's request to the calls of the handler and back; Completes.v:
      when that trip delivers the whole response.
    - Recycle.v: [HeaderPool] and [intentPool] as addressed objects that are
      filled, handed on and put back; the value-level definitions of the other
      files are shown to be what readers of these objects see.
    - Scenarios.v: scenarios of the repository's own tests run on the
      definitions, with the tests' assertions; nothing depends on it.

    Prelude.v holds machine integers, list and sum lemmas, the tactics
    ([range32], [i32_exact], [bool_prop], [deex], [case_goal], [case_hyp]), the
    hint databases and the step closure [steps].

    ** Modelling

    Integers are Z with the wrap-around written out ([i32], [u32], [i64],
    [u64]).  Maps are [gmap]; the order of a Go [range] is an argument that
    permutes [map_to_list].  A function that holds a lock throughout is one
    pure function; where the code releases a lock, waits on a channel or a
    condition variable, or reads shared state in two pieces, the pieces are
    separate steps (Flow.v, WriterLoop.v, Drain.v, Handover.v, CreditLoop.v,
    Recycle.v, Pool.v, Accept.v) or the others' actions are an explicit input between them: batches of credit
    changes (SendPath.v), [Turn]s of the frame loop, [StreamEv], [ForwardEv] and
    [TunnelEv] events, the [Script] of a forwarded request.  Theorems quantify
    over these inputs.  Where a loop of the handler has consumed its script it
    is still running, and says so ([RBlocked], [Waiting], [Copying],
    [PumpParked]); termination is stated separately.

    Tunnel.v and Serve.v take the opening of a stream and its cleanup
    ([RemoveStream], [deregisterStream] or the put of the header map,
    [Release]) and the handling of a frame as one step each, and the files
    over them with them.  Handover.v has the sections one by one, shows that
    Tunnel.v's steps are these run without interruption
    ([openStream_is_its_sections], [closeStream_is_its_sections]), what the
    registries hold between any two of them, and that the bodies go through
    the operations of H2Stream.v as long as nobody uses a pointer to a stream
    that has been released.  The code does not exclude that
    ([found_then_recycled]): frames handled between the lookup of a stream and
    its release are outside of the other files.  On the worker Handover.v takes
    the peer to number its streams upwards, as RFC 9113 demands.

    A handler may close its request's body at any time; after a Close in the
    middle of a chunk the next reads return bytes of which nothing is said
    ([garbled] in H2Stream.v, after [read_after_close_leaks]).  It may keep
    [req.Header] and read it when it has returned (Recycle.v).  In Pool.v and
    Accept.v a peer may at any time stop reading and hold up the writer, on
    which a teardown waits, may leave a dial, a preface or the first SETTINGS
    unanswered, and hooks may take their time: [local] says which steps need
    none of this, from the deadlines the code sets.

    Code outside the repository is a class or an argument: the HTTP/2 framer
    ([Framer]), HPACK ([HpackEncoder], [HpackDecoder], and [HpackCodec], which
    says that a decoder in sync with an encoder undoes it and stays in sync
    over table-size changes), the pair of framers ([Wire]: a frame that fits is
    received as sent, a larger one is refused), what net/http and the network
    return.  HeaderBlock.v's [Plain] and Wire.v's [PlainWire] are
    concrete instances the witnesses use.  The transport is a read deadline and the list of intents
    submitted to the writer ([c_out]); WriterLoop.v says what becomes of them.

    ** Theorems

    End to end ([round_trip]): a request put on a tunnel with any history is
    handed to the handler as the caller made it, and the caller is sent the
    response the handler's calls describe, all of it unless something breaks
    ([round_trip_completes]); forwarded requests reach the
    worker's handlers, each once and in order, with the caller's method, path,
    authority and end-to-end headers; a handler reads its caller's body, byte for
    byte, and sees its end only there; the handler's status, headers and body
    reach that caller.  The same for the example's /hello.  Between two
    endpoints credit circulates: the windows and what is in transit add up to a
    constant, and whatever is pending drains in a bounded number of steps,
    after which the connection window is full.  What an endpoint submits is
    well typed.  A worker's dial passes the proxy's checks and both ends keep to
    each other's stream limit; an accepted connection is served or closed, but
    for a peer that stops inside the preface.  Recycled headers, until their
    exchange puts them back, and intents behave like values; the slices of the attached
    set behave like lists, whatever their holders do.

    Flow control: no credit is lost, nor overdrawn with a peer that keeps the
    window rule of RFC 9113, no wake-up missed.  Bodies: the pooled rings
    refine one byte FIFO per stream; no buffer has two owners.
    Writer: submission order, nothing after the first failure, who gets which
    result, nobody left waiting.  Headers: requests and responses survive
    encoding, transport and decoding; a split block is decoded like a whole
    one, within the size limit.  Connection: inbound DATA, SETTINGS, PING and
    drain as the code means them; one invariant for every state either role
    reaches; teardown releases every waiter.  Worker: whatever a handler does,
    its frames are a well-formed response, the one its calls describe
    ([handler_response]), its bytes arrive in order.  Proxy:
    stream ids are odd and increasing, opening is all or nothing, a forwarded
    request and its body are the caller's, the response is the worker's, the
    handler leaves no trace, the copy loop ends with its stream, 503 means no
    capacity, picks are least loaded or fair, the public handler is the
    internal one.  Listeners: connections are handed over in order, temporary
    errors lose none, nil only after Shutdown.  Pools and accept
    goroutines: the WaitGroups, registries and hooks exact; from its snapshot
    on Shutdown's work is bounded, whoever is left and not waiting for one of
    the things named has a step of its own, and its nil means nothing is left.  Mains: what each configuration leads to.

    Where the code falls short the theorem says how: [read_after_close_leaks],
    [submit_may_return_foreign_error], [drain_may_complete_early],
    [window_overflow_blocks_writers], [reset_does_not_unblock_reserve],
    [write_of_huge_slice_spins], [interim_response_is_final],
    [trailers_are_ignored], [connection_listed_header_is_forwarded],
    [cancel_does_not_end_body], [bad_status_panics],
    [initial_window_read_early], [truncated_body_is_not_signalled],
    [late_attach_is_not_poked], [first_listener_survives_shutdown],
    [shutdown_returns_before_spawn], [large_header_block_ends_tunnel],
    [content_length_is_lost], [retained_header_is_reused],
    [failed_dial_leaves_open], [certificate_is_never_nil],
    [stream_cap_not_enforced], [last_status_wins],
    [public_listener_survives_shutdown], [found_then_recycled],
    [late_edit_reaches_another_request], [silent_peer_holds_slot],
    [silent_worker_holds_goroutine], [listed_before_its_hook],
    [racing_pick_is_refused].

    ** Bounds and fuel

    [write_loop] and [pumpChunk] take the number of bytes as fuel: each pass
    sends at least one, and their specifications exclude the out-of-fuel
    result.  [readAll] takes any fuel above the bytes queued.  A tunnel is
    followed for up to 2^30 streams, after which the uint32 ids would wrap.
    After Shutdown's snapshot a pool's slot has at most six steps left, an
    accept loop thirteen with the goroutine it may start, a connection's
    goroutine eleven.

    ** Not modelled

    TLS, sockets, and the insides of net/http's servers (outcomes are inputs);
    the bytes of frames and of HPACK; logging; test code, but for the scenarios
    of Scenarios.v.  The frame loop takes
    the outcome of a read as classified by [readOutcome] of Listen.v, and a
    read deadline that fires inside a frame is for it one between frames.  Of
    the example's mux nothing is said about paths net/http would clean.
    CreditLoop.v leaves out
    SETTINGS_INITIAL_WINDOW_SIZE, which neither endpoint sends, and the
    teardown, after which no credit is wanted. *)

From stdpp Require Export base gmap strings list fin_maps sorting.
From Stdlib Require Export ZArith Lia.
From Stdlib Require Import Zdiv.

#[global] Open Scope Z_scope.

(** ** Machine integers *)

(** Go's [int32] arithmetic wraps around: the value of a 32-bit signed
    operation is its mathematical result reduced to [-2^31, 2^31). *)
Definition i32 (z : Z) : Z := (z + 2 ^ 31) mod 2 ^ 32 - 2 ^ 31.

(** Go's [uint32] arithmetic: reduction modulo [2^32]. *)
Definition u32 (z : Z) : Z := z mod 2 ^ 32.

(** Go's [int64] arithmetic (also [int] on the supported 64-bit targets). *)
Definition i64 (z : Z) : Z := (z + 2 ^ 63) mod 2 ^ 64 - 2 ^ 63.

(** Go's [uint64] arithmetic. *)
Definition u64 (z : Z) : Z := z mod 2 ^ 64.

Definition MaxInt32 : Z := 2 ^ 31 - 1.
Definition MinInt32 : Z := - 2 ^ 31.
Definition MaxUint32 : Z := 2 ^ 32 - 1.

(** A [Z] that is the value of an [int32] variable. *)
Definition is_i32 (z : Z) : Prop := MinInt32 <= z <= MaxInt32.

(** A [Z] that is the value of a [uint32] variable. *)
Definition is_u32 (z : Z) : Prop := 0 <= z <= MaxUint32.

#[global] Instance is_i32_dec z : Decision (is_i32 z).
Proof. unfold is_i32; apply _. Defined.

#[global] Instance is_u32_dec z : Decision (is_u32 z).
Proof. unfold is_u32; apply _. Defined.

Create HintDb width.
Create Rewrite HintDb width.

Lemma i32_is_i32 z : is_i32 (i32 z).
Proof.
  unfold is_i32, i32, MinInt32, MaxInt32.
  pose proof (Z.mod_pos_bound (z + 2 ^ 31) (2 ^ 32) ltac:(lia)). lia.
Qed.

Lemma i32_small z : is_i32 z -> i32 z = z.
Proof.
  unfold is_i32, i32, MinInt32, MaxInt32. intros H.
  rewrite Z.mod_small; lia.
Qed.

Lemma i32_eqm a b : a mod 2 ^ 32 = b mod 2 ^ 32 -> i32 a = i32 b.
Proof.
  unfold i32. intros H.
  rewrite (Zplus_mod a), (Zplus_mod b), H. reflexivity.
Qed.

Lemma i32_mod z : i32 z mod 2 ^ 32 = z mod 2 ^ 32.
Proof.
  unfold i32. rewrite Zminus_mod_idemp_l. f_equal. lia.
Qed.

Lemma i32_add_l a b : i32 (i32 a + b) = i32 (a + b).
Proof. apply i32_eqm. rewrite Zplus_mod, i32_mod, <- Zplus_mod. reflexivity. Qed.

Lemma i32_add_r a b : i32 (a + i32 b) = i32 (a + b).
Proof. apply i32_eqm. rewrite Zplus_mod, i32_mod, <- Zplus_mod. reflexivity. Qed.

Lemma i32_sub_l a b : i32 (i32 a - b) = i32 (a - b).
Proof. apply i32_eqm. rewrite Zminus_mod, i32_mod, <- Zminus_mod. reflexivity. Qed.

Lemma i32_sub_r a b : i32 (a - i32 b) = i32 (a - b).
Proof. apply i32_eqm. rewrite Zminus_mod, i32_mod, <- Zminus_mod. reflexivity. Qed.

Lemma i32_idem z : i32 (i32 z) = i32 z.
Proof. apply i32_small, i32_is_i32. Qed.

#[export] Hint Rewrite i32_add_l i32_add_r i32_sub_l i32_sub_r i32_idem : width.
#[export] Hint Resolve i32_is_i32 : width.

(** Past [MaxInt32] an [int32] sum becomes negative. *)
Lemma i32_overflow z : MaxInt32 < z <= MaxInt32 + 2 ^ 32 - 2 ^ 31 -> i32 z < 0.
Proof.
  unfold i32, MaxInt32. intros H.
  replace (z + 2 ^ 31) with ((z - 2 ^ 31) + 1 * 2 ^ 32) by lia.
  rewrite Z_mod_plus_full, Z.mod_small; lia.
Qed.

Lemma u32_small z : is_u32 z -> u32 z = z.
Proof. unfold is_u32, u32, MaxUint32. intros H. apply Z.mod_small. lia. Qed.

Lemma u32_is_u32 z : is_u32 (u32 z).
Proof.
  unfold is_u32, u32, MaxUint32.
  pose proof (Z.mod_pos_bound z (2 ^ 32) ltac:(lia)). lia.
Qed.

(** [range32] exposes the bounds of the [int32]/[uint32] facts in the context
    to [lia]. *)
Ltac range32 :=
  unfold is_i32, is_u32, MinInt32, MaxInt32, MaxUint32 in *; lia.

(** [i32_exact] removes the wrap-arounds that cannot happen. *)
Ltac i32_exact :=
  repeat match goal with
  | |- context [i32 ?z] => rewrite (i32_small z) by range32
  | H : context [i32 ?z] |- _ => rewrite (i32_small z) in H by range32
  end.

(** ** Case analysis automation *)

(** Split every conjunction and existential of the context. *)
Ltac deex :=
  repeat match goal with
  | H : exists _, _ |- _ => destruct H
  | H : _ /\ _ |- _ => destruct H
  | H : Some _ = Some _ |- _ => injection H as H; subst
  | H : (_, _) = (_, _) |- _ => injection H as H; subst
  end.

(** Case on the scrutinee of the first [match] or [if] of the goal. *)
Ltac case_goal :=
  match goal with
  | |- context [match ?x with _ => _ end] => destruct x eqn:?
  end.

(** Case on the scrutinee of a [match] of a hypothesis. *)
Ltac case_hyp :=
  match goal with
  | H : context [match ?x with _ => _ end] |- _ => destruct x eqn:?
  end.

(** Turn boolean comparisons on [Z] and [nat] into propositions. *)
Ltac bool_prop :=
  repeat match goal with
  | H : (_ <=? _) = true |- _ => apply Z.leb_le in H
  | H : (_ <=? _) = false |- _ => apply Z.leb_gt in H
  | H : (_ <? _) = true |- _ => apply Z.ltb_lt in H
  | H : (_ <? _) = false |- _ => apply Z.ltb_ge in H
  | H : (_ =? _) = true |- _ => apply Z.eqb_eq in H
  | H : (_ =? _) = false |- _ => apply Z.eqb_neq in H
  | H : (_ <=? _)%nat = true |- _ => apply Nat.leb_le in H
  | H : (_ <=? _)%nat = false |- _ => apply Nat.leb_gt in H
  | H : (_ <? _)%nat = true |- _ => apply Nat.ltb_lt in H
  | H : (_ <? _)%nat = false |- _ => apply Nat.ltb_ge in H
  | H : (_ =? _)%nat = true |- _ => apply Nat.eqb_eq in H
  | H : (_ =? _)%nat = false |- _ => apply Nat.eqb_neq in H
  | H : andb _ _ = true |- _ => apply andb_true_iff in H; destruct H
  | H : orb _ _ = false |- _ => apply orb_false_iff in H; destruct H
  | H : negb _ = true |- _ => apply negb_true_iff in H
  | H : negb _ = false |- _ => apply negb_false_iff in H
  end.

(** ** Sums over lists *)

Definition zsum {A} (f : A -> Z) (l : list A) : Z := foldr (fun x acc => f x + acc) 0 l.

Lemma zsum_app {A} (f : A -> Z) l1 l2 : zsum f (l1 ++ l2) = zsum f l1 + zsum f l2.
Proof. induction l1 as [|x l1 IH]; simpl; lia. Qed.

Lemma zsum_nil {A} (f : A -> Z) : zsum f [] = 0.
Proof. done. Qed.

Lemma zsum_cons {A} (f : A -> Z) x l : zsum f (x :: l) = f x + zsum f l.
Proof. done. Qed.

Lemma zsum_nonneg {A} (f : A -> Z) l : (forall x, x ∈ l -> 0 <= f x) -> 0 <= zsum f l.
Proof.
  induction l as [|x l IH]; simpl; [lia|]. intros H.
  pose proof (H x ltac:(left)). pose proof (IH ltac:(intros; apply H; by right)). lia.
Qed.

(** Replacing one element changes the sum by the difference. *)
Lemma zsum_le {A} (f : A -> Z) (l : list A) k : (forall x, f x <= k) -> zsum f l <= k * Z.of_nat (length l).
Proof.
  intros Hf. induction l as [|x l IH]; [simpl; lia|]. rewrite zsum_cons. cbn [length]. specialize (Hf x). lia.
Qed.

Lemma zsum_insert {A} (f : A -> Z) (l : list A) i x y :
  l !! i = Some x -> zsum f (<[i := y]> l) = zsum f l - f x + f y.
Proof.
  revert i. induction l as [|z l IH]; intros [|i] H; simpl in *; try done; [simplify_eq; lia|].
  rewrite (IH i H). lia.
Qed.

(** A sum of non-negative terms is zero only if every term is. *)
Lemma zsum_zero {A} (f : A -> Z) (l : list A) :
  (forall x, 0 <= f x) -> zsum f l = 0 -> Forall (fun x => f x = 0) l.
Proof.
  intros Hf. induction l as [|x l IH]; simpl; intros H; [constructor|].
  pose proof (Hf x). pose proof (zsum_nonneg f l (fun y _ => Hf y)). constructor; [lia|apply IH; lia].
Qed.

#[export] Hint Rewrite @zsum_app : width.

(** Two maps that agree on a list agree on its elements. *)
Lemma fmap_eq_inv {A B} (f g : A -> B) (l : list A) : f <$> l = g <$> l -> forall x, x ∈ l -> f x = g x.
Proof.
  induction l as [|y l IH]; simpl; intros H x Hx; [by apply elem_of_nil in Hx|].
  injection H as Hy Hl. apply elem_of_cons in Hx as [-> |Hx]; auto.
Qed.

(** A sorted list stays sorted when a larger element is added at the end. *)
Lemma StronglySorted_snoc {A} (R : A -> A -> Prop) (l : list A) x :
  StronglySorted R l -> Forall (fun y => R y x) l -> StronglySorted R (l ++ [x]).
Proof.
  induction 1 as [|y l Hl IH Hy]; intros Hx; simpl; [repeat constructor|].
  apply Forall_cons in Hx as [Hyx Hx]. constructor; [by apply IH|].
  apply Forall_app. split; [done|]. by repeat constructor.
Qed.

Lemma filter_all {A} (P : A -> Prop) `{forall x, Decision (P x)} (l : list A) :
  (forall x, x ∈ l -> P x) -> filter P l = l.
Proof.
  induction l as [|x l IH]; intros Hall; [done|]. rewrite filter_cons, decide_True.
  - f_equal. apply IH. intros y Hy. apply Hall, elem_of_cons. by right.
  - apply Hall, elem_of_cons. by left.
Qed.

Lemma filter_none {A} (P : A -> Prop) `{forall x, Decision (P x)} (l : list A) :
  (forall x, x ∈ l -> ~ P x) -> filter P l = [].
Proof.
  induction l as [|x l IH]; intros Hall; [done|]. rewrite filter_cons, decide_False.
  - apply IH. intros y Hy. apply Hall, elem_of_cons. by right.
  - apply Hall, elem_of_cons. by left.
Qed.

(** ** Step relations *)

(** Naming the result of a run without comparing two copies of it. *)
Lemma some_default {A} (d : A) (x : option A) :
  match x with Some _ => true | None => false end = true -> x = Some (default d x).
Proof. by destruct x. Qed.

Lemma pair_fst {A B} (p : A * B) (b : B) : p.2 = b -> p = (p.1, b).
Proof. destruct p. simpl. by intros ->. Qed.

Lemma triple_fst {A B C} (d : A) (p : option A * B * C) (b : B) (c : C) :
  match p.1.1 with Some _ => true | None => false end = true -> p.1.2 = b -> p.2 = c ->
  p = (Some (default d p.1.1), b, c).
Proof. destruct p as [[[a|] b'] c']; [|done]. simpl. by intros _ -> ->. Qed.

(** Reachability by a labelled step relation, with the list of labels. *)
Inductive steps {S L : Type} (step : S -> L -> S -> Prop) : S -> list L -> S -> Prop :=
| steps_nil s : steps step s [] s
| steps_cons s l s' ls s'' :
    step s l s' -> steps step s' ls s'' -> steps step s (l :: ls) s''.

Lemma steps_inv {S L} (step : S -> L -> S -> Prop) (P : S -> Prop) :
  (forall s l s', P s -> step s l s' -> P s') ->
  forall s ls s', steps step s ls s' -> P s -> P s'.
Proof. intros Hstep s ls s' H. induction H; eauto. Qed.

Lemma steps_app {S L} (step : S -> L -> S -> Prop) s1 l1 s2 l2 s3 :
  steps step s1 l1 s2 -> steps step s2 l2 s3 -> steps step s1 (l1 ++ l2) s3.
Proof. induction 1; simpl; eauto using steps. Qed.
