(* ===== verification/Errors.v ===== *)
(** * Error values and limits (internal/h2/errors.go and the other packages)

    One constructor per error variable of the program; [ErrExternal] stands
    for an error value that comes from code outside the repository (the
    framer, the transport, the user's body reader). *)

From S2P Require Import Prelude.

Inductive gerror :=
(* internal/h2/errors.go *)
| ErrConnClosed | ErrContInterleaved | ErrGoaway | ErrStreamReset | ErrHpackDecode
| ErrPingTimeout | ErrALPN | ErrHeaderListTooLarge | ErrBadSettings
(* internal/proxy/worker.go, proxy.go, forward.go *)
| ErrTunnelSaturated | ErrTunnelDraining | ErrShuttingDown | ErrWorkerDetached | ErrForwardConnDead
| ErrTunnelTLSConfigRequired
(* writer.go, pool.go *)
| errConnDead | errShortContentLength | ErrMTLSRequired | ErrAddrRequired | ErrHandlerRequired
(* net/http *)
| HttpErrContentLength
(* everything the repository does not define *)
| ErrExternal (code : Z).

#[global] Instance gerror_eq_dec : EqDecision gerror.
Proof. solve_decision. Defined.

(** SETTINGS_MAX_HEADER_LIST_SIZE, advertised and enforced. *)
Definition MaxHeaderListSize : Z := 2 ^ 20.

Definition DefaultMaxConcurrentStreams : Z := 100.

(** [^uint32(0)]: no limit on concurrent streams. *)
Definition NoStreamLimit : Z := MaxUint32.
