(* ===== verification/Flow.v ===== *)
(** * Send-side flow control (internal/h2/flow.go)

    [SendCredit] with its operations, each one critical section of [sc.mu],
    and the system of goroutines that call them: a thread inside [Reserve] is
    either returned, parked on [sc.cond] or woken by a [Broadcast] and about
    to take the lock again.  The theorems: no wake-up is lost, credit is
    conserved, the peer's windows are never overdrawn, a change of
    SETTINGS_INITIAL_WINDOW_SIZE is path-independent, and an int32 window
    overflow is not detected. *)

From S2P Require Import Prelude.

(** Per RFC 7540 6.9.2: the initial flow-control window. *)
Definition DefaultInitialWindow : Z := 65535.

(** [cond] is [true] once the condition variable has been allocated. *)
Record SendCredit := mkSendCredit {
  cond : bool;
  ConnSendWindow : Z;
  PeerInitWindow : Z;
  dead : bool
}.

Definition initCond (sc : SendCredit) : SendCredit :=
  mkSendCredit true (ConnSendWindow sc) (PeerInitWindow sc) (dead sc).

Definition set_ConnSendWindow (sc : SendCredit) (v : Z) : SendCredit :=
  mkSendCredit (cond sc) v (PeerInitWindow sc) (dead sc).

Definition set_PeerInitWindow (sc : SendCredit) (v : Z) : SendCredit :=
  mkSendCredit (cond sc) (ConnSendWindow sc) v (dead sc).

(** What one pass of the loop in [Reserve] does: return, or [cond.Wait]. *)
Inductive ReserveResult :=
| Return (got : Z) (dead : bool)
| Wait.

(** The body of the [for] loop of [Reserve], run with [sc.mu] held.  [sw] is
    the value behind the [streamWindow] pointer. *)
Definition reserve_pass (sc : SendCredit) (sw want : Z) : ReserveResult * SendCredit * Z :=
  if dead sc then (Return 0 true, sc, sw)
  else
    let avail := Z.min sw (ConnSendWindow sc) in
    if 0 <? avail then
      let avail := if want <? avail then want else avail in
      (Return avail false,
       set_ConnSendWindow sc (i32 (ConnSendWindow sc - avail)),
       i32 (sw - avail))
    else (Wait, sc, sw).

(** [Reserve] up to its first [cond.Wait]. *)
Definition Reserve (sc : SendCredit) (sw want : Z) : ReserveResult * SendCredit * Z :=
  if want <=? 0 then (Return 0 false, sc, sw)
  else reserve_pass (initCond sc) sw want.

Definition AddConn (sc : SendCredit) (delta : Z) : SendCredit :=
  set_ConnSendWindow sc (i32 (ConnSendWindow sc + delta)).

(** [AddStream] changes only the stream window it is given. *)
Definition AddStream (sw delta : Z) : Z := i32 (sw + delta).

(** The windows of the slice are given by value, in the slice's order. *)
Definition ApplyInitialWindowDelta (sc : SendCredit) (newSize : Z) (sws : list Z)
  : SendCredit * list Z :=
  let delta := i32 (newSize - PeerInitWindow sc) in
  let sc := set_PeerInitWindow sc newSize in
  if delta =? 0 then (sc, sws)
  else (sc, (fun sw => i32 (sw + delta)) <$> sws).

Definition InitialStreamWindow (sc : SendCredit) : Z := PeerInitWindow sc.

Definition MarkDead (sc : SendCredit) : SendCredit :=
  mkSendCredit (cond sc) (ConnSendWindow sc) (PeerInitWindow sc) true.

(** ** The operations one by one *)

(** A grant is positive, at most what was asked for, at most either window;
    both windows shrink by exactly the grant and stay non-negative. *)
Lemma reserve_pass_grant sc sw want got sc' sw' :
  0 < want -> is_i32 sw -> is_i32 (ConnSendWindow sc) ->
  reserve_pass sc sw want = (Return got false, sc', sw') ->
  0 < got <= want /\ got <= sw /\ got <= ConnSendWindow sc /\
  ConnSendWindow sc' = ConnSendWindow sc - got /\ sw' = sw - got /\
  PeerInitWindow sc' = PeerInitWindow sc /\ dead sc = false /\ dead sc' = false /\ cond sc' = cond sc.
Proof.
  unfold reserve_pass. intros Hw Hs Hc H.
  destruct (dead sc) eqn:Hd; [simplify_eq|].
  destruct (0 <? _) eqn:Hav; [|simplify_eq]. bool_prop.
  destruct (want <? _) eqn:Hlt; simplify_eq; bool_prop; simpl;
    i32_exact; repeat split; try lia; done.
Qed.

Lemma reserve_pass_wait sc sw want sc' sw' :
  reserve_pass sc sw want = (Wait, sc', sw') ->
  sc' = sc /\ sw' = sw /\ dead sc = false /\ Z.min sw (ConnSendWindow sc) <= 0.
Proof.
  unfold reserve_pass. intros H.
  destruct (dead sc) eqn:Hd; [simplify_eq|].
  destruct (0 <? _) eqn:Hav; simplify_eq. bool_prop. done.
Qed.

Lemma reserve_pass_dead sc sw want got sc' sw' :
  reserve_pass sc sw want = (Return got true, sc', sw') ->
  got = 0 /\ sc' = sc /\ sw' = sw /\ dead sc = true.
Proof.
  unfold reserve_pass. intros H.
  destruct (dead sc) eqn:Hd; [by simplify_eq|].
  destruct (0 <? _); simplify_eq.
Qed.

(** What a thread that is not blocked by the state gets: the pass returns
    whenever the connection is dead or both windows are positive. *)
Lemma reserve_pass_progress sc sw want :
  dead sc = true \/ 0 < Z.min sw (ConnSendWindow sc) ->
  exists got d sc' sw', reserve_pass sc sw want = (Return got d, sc', sw').
Proof.
  unfold reserve_pass. intros H. destruct (dead sc) eqn:Hd; [by repeat eexists|].
  destruct H as [?|H]; [done|]. apply Z.ltb_lt in H. rewrite H.
  destruct (_ <? _); by repeat eexists.
Qed.

Lemma ApplyInitialWindowDelta_spec sc n sws :
  ApplyInitialWindowDelta sc n (i32 <$> sws) =
    (set_PeerInitWindow sc n, (fun sw => i32 (sw + (n - PeerInitWindow sc))) <$> sws).
Proof.
  unfold ApplyInitialWindowDelta.
  destruct (_ =? 0) eqn:Hd; bool_prop; f_equal;
    rewrite <- ?list_fmap_compose; apply list_fmap_ext; intros ? sw _; simpl; autorewrite with width; [|done].
  rewrite <- i32_add_r, Hd. by rewrite Z.add_0_r.
Qed.

Lemma fmap_i32_id l : Forall is_i32 l -> i32 <$> l = l.
Proof. induction 1; simpl; f_equal; auto using i32_small. Qed.

Lemma Forall_fmap_i32 (f : Z -> Z) l : Forall is_i32 ((fun z => i32 (f z)) <$> l).
Proof. apply Forall_fmap, Forall_true. intros; simpl; auto with width. Qed.

(** ** The goroutines that share one [SendCredit] *)

Module FlowSystem.

(** A goroutine inside [Reserve(w, want)]. *)
Inductive Thread :=
| Parked (w : Z) (want : Z)   (** waiting on [sc.cond] *)
| Woken (w : Z) (want : Z).   (** broadcast to, about to take [sc.mu] again *)

(** [windows] holds the [int32] cells that the [*int32] arguments point to;
    [threads] the goroutines that have called [Reserve] and not returned. *)
Record FlowState := mkFlow {
  credit : SendCredit;
  windows : gmap Z Z;
  threads : gmap nat Thread
}.

Definition wake (th : Thread) : Thread :=
  match th with Parked w want => Woken w want | Woken w want => Woken w want end.

(** [if sc.cond != nil { sc.cond.Broadcast() }] *)
Definition broadcast (s : FlowState) : FlowState :=
  if cond (credit s) then mkFlow (credit s) (windows s) (wake <$> threads s) else s.

(** The critical sections, each with the value it yields to its caller. *)
Inductive Action :=
| AReserve (t : nat) (w want : Z)     (** a goroutine calls [Reserve] *)
| AResume (t : nat)                   (** a woken goroutine runs the loop again *)
| AAddConn (delta : Z)
| AAddStream (w delta : Z)
| AApplyInit (newSize : Z) (ws : list Z)
| ANewStream (w : Z)                  (** a stream initialised by [InitialStreamWindow] *)
| AMarkDead.

Inductive Event :=
| EReturn (t : nat) (w got : Z) (dead : bool)
| EBlocked (t : nat)
| ETau.

(** The effect of one loop pass of thread [t] on the shared state. *)
Definition settle (s : FlowState) (t : nat) (w want : Z)
    (r : ReserveResult * SendCredit * Z) : FlowState * Event :=
  match r with
  | (Return got d, sc, sw) =>
      (mkFlow sc (<[w := sw]> (windows s)) (delete t (threads s)), EReturn t w got d)
  | (Wait, sc, sw) =>
      (mkFlow sc (<[w := sw]> (windows s)) (<[t := Parked w want]> (threads s)), EBlocked t)
  end.

(** The cells that a slice of window pointers refers to, updated in order. *)
Definition write_windows (m : gmap Z Z) (ws : list Z) (vs : list Z) : gmap Z Z :=
  foldr (fun '(w, v) m => <[w := v]> m) m (zip ws vs).

Definition act (s : FlowState) (a : Action) : option (FlowState * Event) :=
  match a with
  | AReserve t w want =>
      match threads s !! t, windows s !! w with
      | None, Some sw => Some (settle s t w want (Reserve (credit s) sw want))
      | _, _ => None
      end
  | AResume t =>
      match threads s !! t with
      | Some (Woken w want) =>
          sw ← windows s !! w; Some (settle s t w want (reserve_pass (credit s) sw want))
      | _ => None
      end
  | AAddConn delta =>
      Some (broadcast (mkFlow (AddConn (credit s) delta) (windows s) (threads s)), ETau)
  | AAddStream w delta =>
      sw ← windows s !! w;
      Some (broadcast (mkFlow (credit s) (<[w := AddStream sw delta]> (windows s)) (threads s)), ETau)
  | AApplyInit n ws =>
      sws ← mapM (fun w => windows s !! w) ws;
      let '(sc, sws') := ApplyInitialWindowDelta (credit s) n sws in
      let s' := mkFlow sc (write_windows (windows s) ws sws') (threads s) in
      Some (if i32 (n - PeerInitWindow (credit s)) =? 0 then s' else broadcast s', ETau)
  | ANewStream w =>
      match windows s !! w with
      | None => Some (mkFlow (credit s) (<[w := InitialStreamWindow (credit s)]> (windows s)) (threads s), ETau)
      | Some _ => None
      end
  | AMarkDead =>
      Some (broadcast (mkFlow (MarkDead (credit s)) (windows s) (threads s)), ETau)
  end.

(** The arguments of the calls are [int32] values. *)
Definition typed (a : Action) : Prop :=
  match a with
  | AReserve _ _ want => is_i32 want
  | AAddConn d | AAddStream _ d => is_i32 d
  | AApplyInit n _ => is_i32 n
  | AResume _ | ANewStream _ | AMarkDead => True
  end.

(** A labelled step: an action together with what its caller observes. *)
Definition flow_step (s : FlowState) (l : Action * Event) (s' : FlowState) : Prop :=
  typed l.1 /\ act s l.1 = Some (s', l.2).

(** Running a schedule of actions. *)
Fixpoint run (s : FlowState) (acts : list Action) : option (FlowState * list (Action * Event)) :=
  match acts with
  | [] => Some (s, [])
  | a :: acts =>
      '(s1, e) ← act s a; '(s2, ls) ← run s1 acts; Some (s2, (a, e) :: ls)
  end.

(** The state [New] starts from: default windows and no goroutine. *)
Definition flow_init : FlowState :=
  mkFlow (mkSendCredit false DefaultInitialWindow DefaultInitialWindow false) ∅ ∅.

(** A parked goroutine has nothing to take: the connection is alive and one
    of its two windows is not positive.  [sc.cond] exists. *)
Definition no_lost_wakeup (s : FlowState) : Prop :=
  forall t w want, threads s !! t = Some (Parked w want) ->
    cond (credit s) = true /\ 0 < want /\ dead (credit s) = false /\
    exists sw, windows s !! w = Some sw /\ Z.min sw (ConnSendWindow (credit s)) <= 0.

(** Every goroutine in [Reserve] asked for something and has a live window. *)
Definition thread_ok (s : FlowState) : Prop :=
  forall t th, threads s !! t = Some th ->
    match th with Parked w want | Woken w want =>
      0 < want /\ is_Some (windows s !! w) /\ cond (credit s) = true end.

(** Every cell and the connection window hold an [int32]. *)
Definition windows_i32 (s : FlowState) : Prop :=
  is_i32 (ConnSendWindow (credit s)) /\ is_i32 (PeerInitWindow (credit s)) /\
  map_Forall (fun _ v => is_i32 v) (windows s).

Definition flow_inv (s : FlowState) : Prop :=
  windows_i32 s /\ thread_ok s /\ no_lost_wakeup s.

(** ** Lemmas of the system *)

Lemma wake_not_parked th w want : wake th <> Parked w want.
Proof. by destruct th. Qed.

Lemma broadcast_credit s : credit (broadcast s) = credit s.
Proof. unfold broadcast. by destruct (cond _). Qed.

Lemma broadcast_windows s : windows (broadcast s) = windows s.
Proof. unfold broadcast. by destruct (cond _). Qed.

(** After a broadcast nobody is parked: with no [cond] nobody was waiting. *)
Lemma broadcast_inv s : windows_i32 s -> thread_ok s -> flow_inv (broadcast s).
Proof.
  intros Hw Hok. unfold broadcast. destruct (cond (credit s)) eqn:Hc.
  - split_and!; [exact Hw| |].
    + intros t th Ht. simpl in *. rewrite lookup_fmap in Ht.
      destruct (threads s !! t) as [th0|] eqn:Ht0; simplify_eq/=.
      specialize (Hok _ _ Ht0). by destruct th0; simpl in *.
    + intros t w want Ht. simpl in Ht. rewrite lookup_fmap in Ht.
      destruct (threads s !! t) as [th0|]; simplify_eq/=.
      by apply wake_not_parked in Ht.
  - split_and!; [exact Hw|exact Hok|]. intros t w want Ht.
    destruct (Hok _ _ Ht) as (_ & _ & ?). congruence.
Qed.

Lemma windows_insert s sc w v :
  windows_i32 s -> is_i32 v -> is_i32 (ConnSendWindow sc) -> is_i32 (PeerInitWindow sc) ->
  forall ths, windows_i32 (mkFlow sc (<[w := v]> (windows s)) ths).
Proof. intros (?&?&?) ????. split_and!; simpl; try done. by apply map_Forall_insert_2. Qed.

(** Replacing the value of a cell keeps every thread's cell alive. *)
Lemma thread_ok_mono s s' :
  thread_ok s -> threads s' = threads s ->
  (forall w, is_Some (windows s !! w) -> is_Some (windows s' !! w)) ->
  (cond (credit s) = true -> cond (credit s') = true) -> thread_ok s'.
Proof.
  intros Hok Ht Hw Hc t th Hth. rewrite Ht in Hth.
  specialize (Hok t th Hth). destruct th; destruct Hok as (?&?&?); auto.
Qed.

Lemma insert_is_Some (m : gmap Z Z) w v k : is_Some (m !! k) -> is_Some (<[w := v]> m !! k).
Proof. intros ?. rewrite lookup_insert. by case_decide. Qed.

Lemma write_windows_id m ws sws :
  mapM (fun w => m !! w) ws = Some sws -> write_windows m ws sws = m.
Proof.
  intros H%mapM_Some. induction H as [|w v ws sws Hw _ IH]; simpl; [done|].
  unfold write_windows in *. simpl. rewrite IH. by apply insert_id.
Qed.

Lemma write_windows_Some m ws vs k : is_Some (m !! k) -> is_Some (write_windows m ws vs !! k).
Proof.
  intros Hk. unfold write_windows. induction (zip ws vs) as [|[w v] l IH]; simpl; [done|].
  by apply insert_is_Some.
Qed.

Lemma write_windows_i32 m ws vs :
  map_Forall (fun _ v => is_i32 v) m -> Forall is_i32 vs ->
  map_Forall (fun _ v => is_i32 v) (write_windows m ws vs).
Proof.
  intros Hm Hv. unfold write_windows. revert ws.
  induction Hv as [|v vs Hv _ IH]; intros [|w ws]; simpl; try done.
  apply map_Forall_insert_2; auto.
Qed.

(** One pass of a live thread, parked or not before: the invariant is kept. *)
Lemma settle_inv s t w want sw s' e :
  flow_inv s -> windows s !! w = Some sw -> 0 < want -> cond (credit s) = true ->
  settle s t w want (reserve_pass (credit s) sw want) = (s', e) -> flow_inv s'.
Proof.
  intros (Hw & Hok & Hn) Hsw Hwant Hc H.
  pose proof Hw as (Hcw & Hp & Hall). pose proof (Hall _ _ Hsw) as Hswi. simpl in Hswi.
  destruct (reserve_pass (credit s) sw want) as [[[got d|] sc] sw'] eqn:Hr; simplify_eq/=.
  - destruct d.
    + apply reserve_pass_dead in Hr as (-> & -> & -> & Hd).
      split_and!; simpl; [by apply windows_insert| |].
      * intros t' th Ht. simpl in Ht. apply lookup_delete_Some in Ht as [_ Ht].
        specialize (Hok _ _ Ht). destruct th, Hok as (?&?&?); split_and!; eauto using insert_is_Some.
      * intros t' w' want' Ht. simpl in Ht. apply lookup_delete_Some in Ht as [_ Ht].
        destruct (Hn _ _ _ Ht) as (_ & _ & ? & _). congruence.
    + apply reserve_pass_grant in Hr as (Hg & Hg1 & Hg2 & Hcs & -> & Hpi & Hd & Hd' & Hcc); [|done..].
      split_and!; simpl.
      * apply windows_insert; [done| | |by rewrite Hpi]; rewrite ?Hcs; range32.
      * intros t' th Ht. simpl in Ht. apply lookup_delete_Some in Ht as [_ Ht].
        specialize (Hok _ _ Ht). simpl. rewrite Hcc.
        destruct th, Hok as (?&?&?); split_and!; eauto using insert_is_Some.
      * intros t' w' want' Ht. simpl in Ht. apply lookup_delete_Some in Ht as [_ Ht].
        destruct (Hn _ _ _ Ht) as (? & ? & ? & swx & Hx & Hmin). simpl.
        rewrite Hcs, Hd', Hcc. split_and!; try done. rewrite lookup_insert.
        case_decide; simplify_eq; eexists; (split; [done|lia]).
  - apply reserve_pass_wait in Hr as (-> & -> & Hd & Hmin).
    rewrite (insert_id (windows s)) by done. split_and!; simpl; [done..| |].
    + intros t' th Ht. simpl in *. apply lookup_insert_Some in Ht as [[-> <-]|[_ Ht]]; [by split_and!|].
      by apply Hok in Ht.
    + intros t' w' want' Ht. simpl in *. apply lookup_insert_Some in Ht as [[-> ?]|[_ Ht]].
      * simplify_eq. split_and!; eauto.
      * by apply Hn in Ht.
Qed.

Lemma initCond_inv s : flow_inv s -> flow_inv (mkFlow (initCond (credit s)) (windows s) (threads s)).
Proof.
  intros (Hw & Hok & Hn). split_and!; [done| |].
  - intros t th Ht. specialize (Hok t th Ht). by destruct th, Hok as (?&?&?).
  - intros t w want Ht. by destruct (Hn t w want Ht) as (?&?&?&?).
Qed.

Lemma map_Forall_lookup_i32 s w sw : flow_inv s -> windows s !! w = Some sw -> is_i32 sw.
Proof. intros ((_&_&H)&_) Hw. by apply (H _ _ Hw). Qed.

Lemma ApplyInit_inv s n ws sws :
  flow_inv s -> is_i32 n -> mapM (fun w => windows s !! w) ws = Some sws ->
  forall sc sws', ApplyInitialWindowDelta (credit s) n sws = (sc, sws') ->
  flow_inv (if i32 (n - PeerInitWindow (credit s)) =? 0
            then mkFlow sc (write_windows (windows s) ws sws') (threads s)
            else broadcast (mkFlow sc (write_windows (windows s) ws sws') (threads s))).
Proof.
  intros (Hw & Hok & Hn) Hn32 Hm sc sws' H. unfold ApplyInitialWindowDelta in H.
  destruct (_ =? 0) eqn:Hd; simplify_eq.
  - rewrite write_windows_id by done. destruct Hw as (?&?&?). by split_and!.
  - apply broadcast_inv.
    + destruct Hw as (?&?&?). split_and!; simpl; [done..|].
      apply write_windows_i32; [done|]. apply Forall_fmap, Forall_true. intros; simpl; auto with width.
    + eapply thread_ok_mono; [exact Hok|done|simpl; eauto using write_windows_Some|done].
Qed.

Lemma flow_inv_step s l s' : flow_inv s -> flow_step s l s' -> flow_inv s'.
Proof.
  intros Hinv [Hty H]. destruct l as [a e]; simpl in *.
  pose proof Hinv as (Hw & Hok & Hn). pose proof Hw as (Hcw & Hpi & Hall).
  destruct a as [t w want|t|d|w d|n ws|w|]; simpl in *.
  - destruct (threads s !! t) eqn:Ht; [done|]. destruct (windows s !! w) as [sw|] eqn:Hsw; [|done].
    simplify_eq. unfold Reserve in *. destruct (want <=? 0) eqn:Hwant; bool_prop.
    + simplify_eq/=. rewrite (insert_id (windows s)), delete_id by done. by destruct s.
    + eapply (settle_inv (mkFlow (initCond (credit s)) (windows s) (threads s)));
        eauto using initCond_inv.
  - destruct (threads s !! t) as [[|w want]|] eqn:Ht; try done.
    destruct (windows s !! w) as [sw|] eqn:Hsw; simplify_eq/=.
    destruct (Hok _ _ Ht) as (?&?&?). eapply settle_inv; eauto.
  - simplify_eq. apply broadcast_inv; [|exact (thread_ok_mono s _ Hok eq_refl (fun _ H => H) (fun H => H))].
    split_and!; simpl; auto with width.
  - destruct (windows s !! w) as [sw|] eqn:Hsw; simplify_eq/=.
    apply broadcast_inv; [by apply windows_insert; unfold AddStream; auto with width|].
    eapply thread_ok_mono; eauto. simpl; eauto using insert_is_Some.
  - destruct (mapM _ ws) as [sws|] eqn:Hm; simplify_eq/=.
    destruct (ApplyInitialWindowDelta _ n sws) as [sc sws'] eqn:Ha; simplify_eq/=.
    by eapply ApplyInit_inv.
  - destruct (windows s !! w) eqn:Hsw; simplify_eq/=. split_and!; simpl.
    + by apply windows_insert.
    + eapply thread_ok_mono; eauto. simpl; eauto using insert_is_Some.
    + intros t w' want Ht. destruct (Hn _ _ _ Ht) as (?&?&?&swx&?&?). simpl. split_and!; try done.
      exists swx. split; [|done]. rewrite lookup_insert_ne; [done|congruence].
  - simplify_eq. apply broadcast_inv; [done|exact (thread_ok_mono s _ Hok eq_refl (fun _ H => H) (fun H => H))].
Qed.

Lemma flow_inv_init : flow_inv flow_init.
Proof. split_and!; [split_and!; simpl; try done; apply map_Forall_empty|intros ?? H; done|intros ??? H; done]. Qed.

Lemma flow_inv_reachable ls s : steps flow_step flow_init ls s -> flow_inv s.
Proof. intros H. eapply (steps_inv flow_step); eauto using flow_inv_step, flow_inv_init. Qed.

(** ** Accounting *)

(** Connection credit that a label adds. *)
Definition conn_credit (l : Action * Event) : Z :=
  match l.1 with AAddConn d => d | _ => 0 end.

(** Credit a label adds to the window in cell [w]. *)
Definition stream_credit (w : Z) (l : Action * Event) : Z :=
  match l.1 with AAddStream w' d => if decide (w = w') then d else 0 | _ => 0 end.

(** Bytes a label allows its goroutine to send. *)
Definition granted (l : Action * Event) : Z :=
  match l.2 with EReturn _ _ got _ => got | _ => 0 end.

(** ... on the stream of cell [w]. *)
Definition granted_on (w : Z) (l : Action * Event) : Z :=
  match l.2 with EReturn _ w' got _ => if decide (w = w') then got else 0 | _ => 0 end.

(** [activeStreamWindows] yields every registered stream's window once: a
    label adjusts cell [w] as a registered stream's. *)
Definition registered_in (w : Z) (l : Action * Event) : Prop :=
  match l.1 with AApplyInit _ ws => NoDup ws /\ w ∈ ws | _ => True end.

(** The account of one pass: what it grants is taken from both windows. *)
Lemma settle_account s t w want sw s' e :
  flow_inv s -> windows s !! w = Some sw -> 0 < want ->
  settle s t w want (reserve_pass (credit s) sw want) = (s', e) ->
  let g := granted (AMarkDead, e) in
  ConnSendWindow (credit s') = ConnSendWindow (credit s) - g /\
  PeerInitWindow (credit s') = PeerInitWindow (credit s) /\
  (0 <= g) /\ (0 < g -> g <= ConnSendWindow (credit s) /\ g <= sw /\ g <= want) /\
  (forall w' v, windows s !! w' = Some v ->
     windows s' !! w' = Some (v - granted_on w' (AMarkDead, e))).
Proof.
  intros Hinv Hsw Hwant H. pose proof (map_Forall_lookup_i32 _ _ _ Hinv Hsw) as Hswi.
  destruct Hinv as ((Hcw & _) & _).
  assert (Hid : forall w' v, windows s !! w' = Some v -> <[w:=sw]> (windows s) !! w' = Some (v - 0)).
  { intros w' v Hv. rewrite insert_id, Z.sub_0_r by done. done. }
  destruct (reserve_pass (credit s) sw want) as [[[got d|] sc] sw'] eqn:Hr; simplify_eq/=.
  - unfold granted, granted_on; simpl. destruct d.
    + apply reserve_pass_dead in Hr as (-> & -> & -> & Hd).
      split_and!; try lia. intros w' v Hv. case_decide; by apply Hid.
    + apply reserve_pass_grant in Hr as (Hg & Hg1 & Hg2 & Hcs & -> & Hpi & _); [|done..].
      split_and!; try lia. intros w' v Hv. case_decide; simplify_map_eq; f_equal; lia.
  - apply reserve_pass_wait in Hr as (-> & -> & _). unfold granted, granted_on; simpl.
    split_and!; try lia. done.
Qed.

Lemma Reserve_account s t w want sw s' e :
  flow_inv s -> windows s !! w = Some sw ->
  settle s t w want (Reserve (credit s) sw want) = (s', e) ->
  let g := granted (AMarkDead, e) in
  ConnSendWindow (credit s') = ConnSendWindow (credit s) - g /\
  PeerInitWindow (credit s') = PeerInitWindow (credit s) /\
  (0 <= g) /\ (0 < g -> g <= ConnSendWindow (credit s) /\ g <= sw /\ g <= want) /\
  (forall w' v, windows s !! w' = Some v ->
     windows s' !! w' = Some (v - granted_on w' (AMarkDead, e))).
Proof.
  intros Hinv Hsw H. unfold Reserve in H. destruct (want <=? 0) eqn:Hw; bool_prop.
  - unfold granted, granted_on. simplify_eq/=. split_and!; try lia.
    intros w' v Hv. rewrite insert_id, Hv by done. case_decide; f_equal; lia.
  - by eapply (settle_account (mkFlow (initCond (credit s)) (windows s) (threads s)));
      eauto using initCond_inv.
Qed.

Lemma account_conn s l s' :
  flow_inv s -> flow_step s l s' ->
  ConnSendWindow (credit s') = i32 (ConnSendWindow (credit s) + conn_credit l - granted l) /\
  0 <= granted l /\ (0 < granted l -> granted l <= ConnSendWindow (credit s) /\ conn_credit l = 0).
Proof.
  intros Hinv Hstep. pose proof (flow_inv_step _ _ _ Hinv Hstep) as ((Hcw' & _) & _).
  pose proof Hinv as ((Hcw & _) & _). destruct Hstep as [Hty H]. destruct l as [a e].
  assert (Hsame : ConnSendWindow (credit s) = i32 (ConnSendWindow (credit s) + 0 - 0))
    by (rewrite Z.add_0_r, Z.sub_0_r, i32_small; done).
  destruct a as [t w want|t|d|w d|n ws|w|]; simpl in *; unfold conn_credit; simpl.
  - destruct (threads s !! t); [done|]. destruct (windows s !! w) as [sw|] eqn:Hsw; simplify_eq.
    destruct (Reserve_account s t w want sw s' e Hinv Hsw) as (Hc & _ & Hg & Hg2 & _); [congruence|].
    change (granted (AMarkDead, e)) with (granted (AReserve t w want, e)) in *.
    rewrite Z.add_0_r, <- Hc, i32_small by done.
    split_and!; [done|done|]. intros Hpos. split; [by apply Hg2|done].
  - destruct (threads s !! t) as [[|w want]|] eqn:Ht; try done.
    destruct (windows s !! w) as [sw|] eqn:Hsw; simplify_eq/=.
    pose proof Hinv as (_ & Hok & _). destruct (Hok _ _ Ht) as (?&_).
    destruct (settle_account s t w want sw s' e Hinv Hsw) as (Hc & _ & Hg & Hg2 & _); [done|congruence|].
    change (granted (AMarkDead, e)) with (granted (AResume t, e)) in *.
    rewrite Z.add_0_r, <- Hc, i32_small by done.
    split_and!; [done|done|]. intros Hpos. split; [by apply Hg2|done].
  - simplify_eq. unfold granted; simpl. rewrite broadcast_credit. simpl.
    rewrite Z.sub_0_r. split_and!; done.
  - destruct (windows s !! w); simplify_eq/=. rewrite broadcast_credit. by split_and!.
  - destruct (mapM _ ws); simplify_eq/=. unfold ApplyInitialWindowDelta in *.
    destruct (_ =? 0); simplify_eq/=; rewrite ?broadcast_credit; by split_and!.
  - destruct (windows s !! w); simplify_eq/=. by split_and!.
  - simplify_eq. rewrite broadcast_credit. by split_and!.
Qed.

Lemma account_conn_steps s ls s' :
  steps flow_step s ls s' -> flow_inv s ->
  ConnSendWindow (credit s') =
    i32 (ConnSendWindow (credit s) + zsum conn_credit ls - zsum granted ls).
Proof.
  induction 1 as [s|s l s1 ls s2 Hst _ IH]; intros Hinv; simpl.
  - rewrite Z.sub_0_r, Z.add_0_r, i32_small; [done|]. apply Hinv.
  - rewrite IH by eauto using flow_inv_step.
    destruct (account_conn _ _ _ Hinv Hst) as (-> & _).
    rewrite <- Z.add_sub_assoc, i32_add_l. f_equal. lia.
Qed.

(** [f] stays an [int32] along a run. *)
Definition within (f : list (Action * Event) -> Z) (ls : list (Action * Event)) : Prop :=
  forall ls1 ls2, ls = ls1 ++ ls2 -> f ls1 <= MaxInt32.

Lemma within_cons f l ls : within f (l :: ls) -> f [l] <= MaxInt32 /\ within (fun ls => f (l :: ls)) ls.
Proof. intros H. split; [by apply (H [l] ls)|]. intros ls1 ls2 ->. by apply (H (l :: ls1) ls2). Qed.

Lemma within_prefixes f ls : Forall (fun n => f (take n ls) <= MaxInt32) (seq 0 (S (length ls))) -> within f ls.
Proof.
  intros H ls1 ls2 ->. rewrite Forall_forall in H. specialize (H (length ls1)). rewrite take_app_length in H. apply H.
  apply elem_of_seq. rewrite length_app. lia.
Qed.

(** Without overflow the connection window is never driven below zero. *)
Lemma conn_window_exact s ls s' :
  steps flow_step s ls s' -> flow_inv s -> 0 <= ConnSendWindow (credit s) ->
  Forall (fun l => 0 <= conn_credit l) ls ->
  within (fun ls => ConnSendWindow (credit s) + zsum conn_credit ls - zsum granted ls) ls ->
  ConnSendWindow (credit s') = ConnSendWindow (credit s) + zsum conn_credit ls - zsum granted ls /\
  0 <= ConnSendWindow (credit s').
Proof.
  induction 1 as [s|s l s1 ls s2 Hst _ IH]; intros Hinv H0 Hpos Hmax; [simpl in *; lia|].
  inv Hpos. destruct (account_conn _ _ _ Hinv Hst) as (Hc & Hg & Hg2).
  apply within_cons in Hmax as [Hm1 Hm]. cbn [zsum foldr] in Hm1.
  assert (0 <= ConnSendWindow (credit s) + conn_credit l - granted l).
  { destruct (Z.lt_trichotomy 0 (granted l)) as [?|[?|?]]; [destruct (Hg2 ltac:(done))|..]; lia. }
  rewrite i32_small in Hc by range32.
  destruct IH as [-> ?]; eauto using flow_inv_step; rewrite ?Hc; try lia.
  - intros ls1 ls2 ->. specialize (Hm ls1 ls2 eq_refl). cbn beta in Hm. rewrite !zsum_cons in Hm. lia.
  - rewrite !zsum_cons. lia.
Qed.

Lemma write_windows_lookup m ws vs i w v :
  NoDup ws -> ws !! i = Some w -> vs !! i = Some v -> write_windows m ws vs !! w = Some v.
Proof.
  intros Hnd. revert vs i. unfold write_windows.
  induction Hnd as [|w' ws Hnin _ IH]; intros [|v' vs] [|i] Hw Hv; simplify_eq/=.
  - by rewrite lookup_insert_eq.
  - rewrite lookup_insert_ne; [by eapply IH|].
    intros ->. apply Hnin. by apply list_elem_of_lookup_2 in Hw.
Qed.

(** A registered stream's window follows the change of the initial window. *)
Lemma ApplyInit_window s n ws sws sc sws' w v :
  flow_inv s -> mapM (fun w => windows s !! w) ws = Some sws ->
  ApplyInitialWindowDelta (credit s) n sws = (sc, sws') ->
  NoDup ws -> w ∈ ws -> windows s !! w = Some v ->
  write_windows (windows s) ws sws' !! w = Some (i32 (v + (n - PeerInitWindow (credit s)))) /\
  PeerInitWindow sc = n.
Proof.
  intros Hinv Hm Ha Hnd Hin Hv. apply mapM_Some in Hm.
  apply list_elem_of_lookup in Hin as [i Hi].
  destruct (Forall2_lookup_l _ _ _ _ _ Hm Hi) as (v0 & Hi0 & Hv0). simplify_eq.
  pose proof (map_Forall_lookup_i32 _ _ _ Hinv Hv) as Hvi.
  assert (Hsws : sws = i32 <$> sws).
  { clear Ha Hi Hi0. induction Hm as [|x y ws sws Hxy _ IH]; simpl; [done|].
    inv Hnd. f_equal; [|by apply IH]. by rewrite i32_small by eauto using map_Forall_lookup_i32. }
  rewrite Hsws, ApplyInitialWindowDelta_spec in Ha. simplify_eq. split; [|done].
  eapply write_windows_lookup; [done..|]. by rewrite list_lookup_fmap, Hi0.
Qed.

Lemma account_stream s l s' w v :
  flow_inv s -> flow_step s l s' -> registered_in w l -> windows s !! w = Some v ->
  windows s' !! w = Some (i32 (v + stream_credit w l
    + (PeerInitWindow (credit s') - PeerInitWindow (credit s)) - granted_on w l)).
Proof.
  intros Hinv Hstep Hreg Hv. pose proof (map_Forall_lookup_i32 _ _ _ Hinv Hv) as Hvi.
  pose proof (flow_inv_step _ _ _ Hinv Hstep) as Hinv'.
  destruct Hstep as [Hty H]. destruct l as [a e].
  assert (Hsame : forall d, windows s !! w = Some (i32 (v + 0 + (d - d) - 0))).
  { intros d. rewrite Z.sub_diag, !Z.add_0_r, Z.sub_0_r, i32_small; done. }
  destruct a as [t w' want|t|d|w' d|n ws|w'|]; simpl in *; unfold stream_credit; simpl.
  - destruct (threads s !! t); [done|]. destruct (windows s !! w') as [sw|] eqn:Hsw; simplify_eq.
    destruct (Reserve_account s t w' want sw s' e Hinv Hsw) as (_ & -> & _ & _ & Hw'); [congruence|].
    specialize (Hw' _ _ Hv). change (granted_on w (AMarkDead, e)) with (granted_on w (AReserve t w' want, e)) in Hw'.
    rewrite Z.sub_diag, !Z.add_0_r, i32_small; eauto using map_Forall_lookup_i32.
  - destruct (threads s !! t) as [[|w1 want]|] eqn:Ht; try done.
    destruct (windows s !! w1) as [sw|] eqn:Hsw; simplify_eq/=.
    pose proof Hinv as (_ & Hok & _). destruct (Hok _ _ Ht) as (?&_).
    destruct (settle_account s t w1 want sw s' e Hinv Hsw) as (_ & -> & _ & _ & Hw'); [done|congruence|].
    specialize (Hw' _ _ Hv). change (granted_on w (AMarkDead, e)) with (granted_on w (AResume t, e)) in Hw'.
    rewrite Z.sub_diag, !Z.add_0_r, i32_small; eauto using map_Forall_lookup_i32.
  - simplify_eq. rewrite broadcast_windows, broadcast_credit. apply Hsame.
  - destruct (windows s !! w') as [sw|] eqn:Hsw; simplify_eq/=.
    rewrite broadcast_windows, broadcast_credit. simpl. rewrite lookup_insert.
    case_decide; simplify_eq; rewrite ?decide_True, ?decide_False by congruence; [|apply Hsame].
    unfold AddStream, granted_on; simpl. do 2 f_equal. lia.
  - destruct (mapM _ ws) as [sws|] eqn:Hm; simplify_eq/=.
    destruct (ApplyInitialWindowDelta _ n sws) as [sc sws'] eqn:Ha; simplify_eq/=.
    destruct Hreg as [Hnd Hin]. unfold granted_on; simpl.
    destruct (ApplyInit_window s n ws sws sc sws' w v) as [Hw Hp]; [done..|].
    destruct (_ =? 0); rewrite ?broadcast_windows, ?broadcast_credit; simpl; rewrite Hw, Hp;
      do 2 f_equal; lia.
  - destruct (windows s !! w') eqn:Hsw; simplify_eq/=.
    rewrite lookup_insert_ne by congruence. apply Hsame.
  - simplify_eq. rewrite broadcast_windows, broadcast_credit. apply Hsame.
Qed.

Lemma account_stream_steps s ls s' w v :
  steps flow_step s ls s' -> flow_inv s -> Forall (registered_in w) ls -> windows s !! w = Some v ->
  windows s' !! w = Some (i32 (v + zsum (stream_credit w) ls
    + (PeerInitWindow (credit s') - PeerInitWindow (credit s)) - zsum (granted_on w) ls)).
Proof.
  intros H. revert v. induction H as [s|s l s1 ls s2 Hst _ IH]; intros v Hinv Hreg Hv; simpl.
  - rewrite Z.sub_diag, Z.sub_0_r, !Z.add_0_r, i32_small; eauto using map_Forall_lookup_i32.
  - inv Hreg. erewrite IH; eauto using flow_inv_step, account_stream.
    f_equal. rewrite <- Z.add_sub_assoc, <- Z.add_assoc, <- Z.add_assoc, i32_add_l. f_equal. lia.
Qed.

(** The peer's initial window size after a run. *)
Definition init_of (l : Action * Event) (pi : Z) : Z := match l.1 with AApplyInit n _ => n | _ => pi end.

Definition init_after (pi : Z) (ls : list (Action * Event)) : Z := foldl (fun pi l => init_of l pi) pi ls.

(** SETTINGS_INITIAL_WINDOW_SIZE is unsigned. *)
Definition init_nonneg (l : Action * Event) : Prop := match l.1 with AApplyInit n _ => 0 <= n | _ => True end.

(** The credit the peer has issued on the stream of cell [w] since it was
    registered, when the initial window size was [pi]. *)
Definition issued (w : Z) (pi : Z) (ls : list (Action * Event)) : Z := init_after pi ls + zsum (stream_credit w) ls.

Lemma account_init s l s' :
  flow_inv s -> flow_step s l s' -> PeerInitWindow (credit s') = init_of l (PeerInitWindow (credit s)).
Proof.
  intros ((_ & Hp & _) & _) [Hty H]. destruct l as [a e]. cbn [fst snd] in *.
  assert (Hpass : forall sc sw want, PeerInitWindow (reserve_pass sc sw want).1.2 = PeerInitWindow sc)
    by (intros; unfold reserve_pass; by repeat case_match).
  assert (Hset : forall t w want r s1 e1, settle s t w want r = (s1, e1) -> credit s1 = r.1.2)
    by (intros t w want [[[got d|] sc] sw] s1 e1 E; by simplify_eq/=).
  destruct a as [t w want|t|d|w d|n ws|w|]; cbn [act init_of fst] in *.
  - destruct (threads s !! t); [done|]. destruct (windows s !! w) as [sw|]; simplify_eq.
    destruct (settle _ _ _ _ _) as [s1 e1] eqn:E in H. simplify_eq. rewrite (Hset _ _ _ _ _ _ E).
    unfold Reserve. destruct (_ <=? 0); [done|]. by rewrite Hpass.
  - destruct (threads s !! t) as [[|w want]|]; try done. destruct (windows s !! w) as [sw|]; simplify_eq/=.
    destruct (settle _ _ _ _ _) as [s1 e1] eqn:E in H. simplify_eq. by rewrite (Hset _ _ _ _ _ _ E).
  - simplify_eq. by rewrite broadcast_credit.
  - destruct (windows s !! w); simplify_eq/=. by rewrite broadcast_credit.
  - destruct (mapM _ ws); simplify_eq/=. unfold ApplyInitialWindowDelta in *.
    destruct (_ =? 0); simplify_eq/=; by rewrite ?broadcast_credit.
  - destruct (windows s !! w); by simplify_eq/=.
  - simplify_eq. by rewrite broadcast_credit.
Qed.

Lemma init_of_nonneg l pi : init_nonneg l -> 0 <= pi -> 0 <= init_of l pi.
Proof. unfold init_nonneg, init_of. by destruct l.1. Qed.

Lemma account_inits s ls s' :
  steps flow_step s ls s' -> flow_inv s -> PeerInitWindow (credit s') = init_after (PeerInitWindow (credit s)) ls.
Proof.
  induction 1 as [|s l s1 ls s2 Hst _ IH]; intros Hinv; [done|].
  rewrite IH by by eapply flow_inv_step. by rewrite (account_init _ _ _ Hinv Hst).
Qed.

Lemma init_nonneg_steps ls s :
  steps flow_step flow_init ls s -> Forall init_nonneg ls -> 0 <= PeerInitWindow (credit s).
Proof.
  intros H Hn. rewrite (account_inits _ _ _ H flow_inv_init). cbn [flow_init credit PeerInitWindow].
  assert (H0 : 0 <= DefaultInitialWindow) by done. revert H0. generalize DefaultInitialWindow. clear H.
  induction Hn as [|l ls Hl _ IH]; intros pi Hp; [done|]. apply IH. by apply init_of_nonneg.
Qed.

(** What is granted on a cell comes out of its window, and of nothing else. *)
Lemma account_grant s l s' w :
  flow_inv s -> flow_step s l s' -> 0 <= granted_on w l /\
  (0 < granted_on w l -> stream_credit w l = 0 /\ init_of l (PeerInitWindow (credit s)) = PeerInitWindow (credit s) /\
    exists v, windows s !! w = Some v /\ granted_on w l <= v).
Proof.
  intros Hinv [Hty H]. pose proof Hinv as (_ & Hok & _). destruct l as [a e]. cbn [fst snd] in *.
  assert (Hpass : forall t w0 want r, act s a = Some (settle s t w0 want r) -> forall sw, windows s !! w0 = Some sw ->
    (0 <= granted (a, e) /\ (0 < granted (a, e) -> granted (a, e) <= sw)) ->
    0 <= granted_on w (a, e) /\ (0 < granted_on w (a, e) -> exists v, windows s !! w = Some v /\ granted_on w (a, e) <= v)).
  { intros t w0 want [[r sc] sw1] E sw Hsw [Hg Hg2]. rewrite E in H. unfold granted, granted_on in *. cbn [snd] in *.
    destruct r as [got d|]; simplify_eq/=; [|split; lia]. destruct (decide (w = w0)) as [->|]; [|split; lia].
    split; [done|]. intros Hp. by exists sw; auto. }
  destruct a as [t w0 want|t|d|w0 d|n ws|w0|]; cbn [act] in *.
  - destruct (threads s !! t); [done|]. destruct (windows s !! w0) as [sw|] eqn:Hsw; simplify_eq.
    destruct (settle _ _ _ _ _) as [s1 e1] eqn:E in H. simplify_eq.
    destruct (Reserve_account s t w0 want sw s' e Hinv Hsw E) as (_ & _ & Hg & Hg2 & _).
    destruct (Hpass t w0 want _ eq_refl sw Hsw) as [? Hx]; [split; [exact Hg|intros; by apply Hg2]|].
    split; [done|]. intros Hp. by split_and!; [..|apply Hx].
  - destruct (threads s !! t) as [[|w0 want]|] eqn:Ht; try done. destruct (windows s !! w0) as [sw|] eqn:Hsw; simplify_eq/=.
    destruct (settle _ _ _ _ _) as [s1 e1] eqn:E in H. simplify_eq. destruct (Hok _ _ Ht) as [Hpos _].
    destruct (settle_account s t w0 want sw s' e Hinv Hsw Hpos E) as (_ & _ & Hg & Hg2 & _).
    destruct (Hpass t w0 want _ eq_refl sw Hsw) as [? Hx]; [split; [exact Hg|intros; by apply Hg2]|].
    split; [done|]. intros Hp. by split_and!; [..|apply Hx].
  - simplify_eq. split; cbn; lia.
  - destruct (windows s !! w0); simplify_eq/=. split; cbn; lia.
  - destruct (mapM _ ws); simplify_eq/=. destruct (ApplyInitialWindowDelta _ _ _). simplify_eq/=. split; cbn; lia.
  - destruct (windows s !! w0); simplify_eq/=. split; cbn; lia.
  - simplify_eq. split; cbn; lia.
Qed.

(** Nor does a stream's window wrap: it is below its initial size only by a
    reduction of that size. *)
Lemma stream_window_exact s ls s' w v :
  let left ls := v - PeerInitWindow (credit s) + issued w (PeerInitWindow (credit s)) ls - zsum (granted_on w) ls in
  steps flow_step s ls s' -> flow_inv s -> Forall (registered_in w) ls -> Forall (fun l => 0 <= stream_credit w l) ls ->
  Forall init_nonneg ls -> 0 <= PeerInitWindow (credit s) -> windows s !! w = Some v ->
  PeerInitWindow (credit s) - v <= MaxInt32 -> within left ls -> windows s' !! w = Some (left ls).
Proof.
  intros left H. unfold left, issued. clear left. revert v.
  induction H as [s|s l s1 ls s2 Hst _ IH]; intros v Hinv Hreg Hcr Hn Hp Hv Hlow Hmax.
  { rewrite Hv. f_equal. cbn. lia. }
  apply Forall_cons in Hreg as [Hr Hreg]. apply Forall_cons in Hcr as [Hc Hcr]. apply Forall_cons in Hn as [Hn0 Hn].
  pose proof (flow_inv_step _ _ _ Hinv Hst) as Hinv1. pose proof (account_stream _ _ _ _ _ Hinv Hst Hr Hv) as Hv1.
  pose proof (account_init _ _ _ Hinv Hst) as Hpi. destruct (account_grant _ _ _ w Hinv Hst) as [Hg Hg2].
  pose proof (init_of_nonneg _ _ Hn0 Hp) as Hp1. rewrite <- Hpi in Hp1.
  apply within_cons in Hmax as [Hm1 Hm]. cbn [init_after foldl zsum foldr] in Hm1, Hm.
  rewrite <- Hpi in *. pose proof Hinv1 as ((_ & Hi1 & _) & _). unfold is_i32 in Hi1.
  assert (Hx : PeerInitWindow (credit s1) - (v + stream_credit w l + (PeerInitWindow (credit s1) - PeerInitWindow (credit s)) - granted_on w l) <= MaxInt32).
  { destruct (decide (0 < granted_on w l)) as [Hpos|?]; [|lia]. destruct (Hg2 Hpos) as (E1 & E2 & v' & Hv' & Hle).
    simplify_eq. lia. }
  rewrite i32_small in Hv1 by range32. erewrite IH; [|done..|exact Hv1|exact Hx|].
  - f_equal. cbn [init_after foldl zsum foldr]. rewrite Hpi. unfold zsum, init_after. lia.
  - intros ls1 ls2 ->. specialize (Hm ls1 ls2 eq_refl). cbn in Hm. unfold zsum, init_after. lia.
Qed.


Lemma run_steps acts s s' ls :
  run s acts = Some (s', ls) -> Forall typed acts -> steps flow_step s ls s'.
Proof.
  revert s ls. induction acts as [|a acts IH]; intros s ls H Hty; simplify_eq/=; [constructor|].
  inv Hty. destruct (act s a) as [[s1 e]|] eqn:Ha; simplify_eq/=.
  destruct (run s1 acts) as [[s2 ls2]|] eqn:Hr; simplify_eq/=.
  econstructor; [split; [|exact Ha]; done|by apply IH].
Qed.

(** ** The properties *)

(** C10. No wake-up is lost: in every state reachable from a fresh connection,
    a goroutine blocked in [Reserve] for which there is credit on both windows
    (or whose connection is dead) is not parked, it has been woken, and its
    next pass through the loop returns to its caller. *)
Theorem waiter_is_released ls s t w want th sw :
  steps flow_step flow_init ls s ->
  threads s !! t = Some th -> (th = Parked w want \/ th = Woken w want) ->
  windows s !! w = Some sw ->
  dead (credit s) = true \/ 0 < Z.min sw (ConnSendWindow (credit s)) ->
  th = Woken w want /\
  exists got d s', flow_step s (AResume t, EReturn t w got d) s' /\ threads s' !! t = None.
Proof.
  intros Hr Ht Hth Hsw Hcred. pose proof (flow_inv_reachable _ _ Hr) as (_ & _ & Hn).
  assert (th = Woken w want) as ->.
  { destruct Hth as [-> | ->]; [|done]. destruct (Hn _ _ _ Ht) as (_ & _ & Hd & sw' & ? & ?).
    simplify_eq. destruct Hcred; [congruence|lia]. }
  split; [done|].
  destruct (reserve_pass_progress (credit s) sw want Hcred) as (got & d & sc' & sw' & Hp).
  exists got, d. eexists. unfold flow_step; simpl. rewrite Ht; simpl. rewrite Hsw; simpl.
  rewrite Hp; simpl. split; [by split|]. simpl. apply lookup_delete_eq.
Qed.

(** C8. Credit is conserved: along any run, the connection window is the
    starting window plus the WINDOW_UPDATE increments minus the bytes granted
    to writers, and a registered stream's window is its own starting window
    plus its increments plus the net change of the peer's initial window
    minus the bytes granted on it, both in int32 arithmetic. *)
Theorem credit_is_conserved s ls s' w v :
  flow_inv s -> steps flow_step s ls s' ->
  Forall (registered_in w) ls -> windows s !! w = Some v ->
  ConnSendWindow (credit s') =
    i32 (ConnSendWindow (credit s) + zsum conn_credit ls - zsum granted ls) /\
  windows s' !! w = Some (i32 (v + zsum (stream_credit w) ls
    + (PeerInitWindow (credit s') - PeerInitWindow (credit s)) - zsum (granted_on w) ls)).
Proof. eauto using account_conn_steps, account_stream_steps. Qed.

(** C9. The peer is never overdrawn, as long as it keeps RFC 9113's rule that
    no WINDOW_UPDATE or SETTINGS takes a window past 2^31-1 (the code does not
    check it: [window_overflow_blocks_writers]).  On the connection, the bytes
    all writers together may send never exceed the credit the peer has issued,
    and the window holds exactly the rest.  On a stream from its registration
    on, the window is exactly its starting value plus the increments plus the
    net change of the initial window minus the bytes granted on it (a
    reduction can leave it negative), and no grant takes the sum of grants
    past that credit. *)
Theorem never_overdrawn ls s :
  steps flow_step flow_init ls s -> Forall (fun l => 0 <= conn_credit l) ls ->
  within (fun ls => DefaultInitialWindow + zsum conn_credit ls - zsum granted ls) ls ->
  (zsum granted ls <= DefaultInitialWindow + zsum conn_credit ls /\
   ConnSendWindow (credit s) = DefaultInitialWindow + zsum conn_credit ls - zsum granted ls) /\
  forall ls0 s0 ls1 w, ls = ls0 ++ ls1 -> steps flow_step flow_init ls0 s0 -> steps flow_step s0 ls1 s ->
  windows s0 !! w = Some (PeerInitWindow (credit s0)) ->
  Forall (registered_in w) ls1 -> Forall (fun l => 0 <= stream_credit w l) ls1 -> Forall init_nonneg ls ->
  within (fun ls => issued w (PeerInitWindow (credit s0)) ls - zsum (granted_on w) ls) ls1 ->
  windows s !! w = Some (issued w (PeerInitWindow (credit s0)) ls1 - zsum (granted_on w) ls1) /\
  forall l s', flow_step s l s' -> 0 < granted_on w l ->
    zsum (granted_on w) (ls1 ++ [l]) <= issued w (PeerInitWindow (credit s0)) ls1.
Proof.
  intros Hs Hpos Hmax. split.
  - destruct (conn_window_exact _ _ _ Hs flow_inv_init ltac:(done) Hpos Hmax) as [Hc H0].
    simpl in *. lia.
  - intros ls0 s0 ls1 w -> H0 H1 Hw Hreg Hcr [Hn0 Hn1]%Forall_app Hmax1. pose proof (flow_inv_reachable _ _ H0) as Hinv.
    pose proof (init_nonneg_steps _ _ H0 Hn0) as Hp.
    pose proof (stream_window_exact s0 ls1 s w _ H1 Hinv Hreg Hcr Hn1 Hp Hw) as He. cbv zeta in He.
    rewrite Z.sub_diag in He. specialize (He ltac:(done) Hmax1). rewrite Z.add_0_l in He.
    split; [done|]. intros l s' Hst Hg.
    destruct (account_grant s l s' w (flow_inv_reachable _ _ Hs) Hst) as [_ Hle].
    destruct (Hle Hg) as (_ & _ & v & Hv & Hle'). rewrite He in Hv. simplify_eq.
    rewrite zsum_app. cbn. lia.
Qed.

(** Teardown releases every writer: after [MarkDead], every goroutine that
    is still inside [Reserve] has been woken and its next pass returns
    [(0, true)]. *)
Theorem mark_dead_releases_all ls s s' t th :
  steps flow_step flow_init ls s -> flow_step s (AMarkDead, ETau) s' ->
  threads s' !! t = Some th ->
  exists w want s'', th = Woken w want /\ flow_step s' (AResume t, EReturn t w 0 true) s''.
Proof.
  intros Hr Hd Ht. pose proof (flow_inv_reachable _ _ Hr) as Hinv.
  destruct (flow_inv_step _ _ _ Hinv Hd) as (_ & Hok & Hn).
  assert (Hdead : dead (credit s') = true).
  { destruct Hd as [_ Ha]. simpl in Ha. simplify_eq. by rewrite broadcast_credit. }
  destruct th as [w want|w want].
  - destruct (Hn _ _ _ Ht) as (_ & _ & ? & _). congruence.
  - destruct (Hok _ _ Ht) as (? & [sw Hsw] & _). exists w, want. eexists. split; [done|].
    unfold flow_step; simpl. rewrite Ht; simpl. rewrite Hsw; simpl.
    unfold reserve_pass. rewrite Hdead. by split.
Qed.

(** A concrete run: one stream, two writers, the second one blocked until the
    peer refills both windows. *)
Definition demo_acts : list Action :=
  [ANewStream 1; AReserve 0 1 65535; AReserve 1 1 10; AAddConn 100; AAddStream 1 50].

Definition demo_run : FlowState * list (Action * Event) :=
  default (flow_init, []) (run flow_init demo_acts).

Lemma demo_steps : steps flow_step flow_init demo_run.2 demo_run.1.
Proof.
  apply (run_steps demo_acts); [vm_compute; reflexivity|].
  unfold demo_acts. repeat constructor; range32.
Qed.

Lemma waiter_is_released_witness :
  exists got d s', flow_step demo_run.1 (AResume 1, EReturn 1 1 got d) s' /\ threads s' !! 1%nat = None.
Proof.
  refine (proj2 (waiter_is_released demo_run.2 demo_run.1 1%nat 1 10 (Woken 1 10) 50 demo_steps _ _ _ _));
    vm_compute; auto.
Defined.

Lemma credit_is_conserved_witness :
  ConnSendWindow (credit demo_run.1) = i32 (65535 + 100 - 65535).
Proof.
  refine (proj1 (credit_is_conserved (mkFlow (credit flow_init) {[1 := 65535]} ∅)
    (tail demo_run.2) demo_run.1 1 65535 _ _ _ _)).
  - split_and!; [split_and!; simpl; try done; by apply map_Forall_singleton|intros ?? H; done|intros ??? H; done].
  - apply (run_steps (tail demo_acts)); [vm_compute; reflexivity|].
    unfold demo_acts; simpl. repeat constructor; range32.
  - vm_compute. repeat constructor.
  - reflexivity.
Defined.

(** The stream is registered by the first step; the last grant takes all. *)
Lemma never_overdrawn_witness :
  zsum granted demo_run.2 <= 65635 /\ windows demo_run.1 !! 1 = Some (65535 + 50 - 65535) /\
  (granted_on 1 (AResume 1, EReturn 1 1 10 false) = 10 ->
   zsum (granted_on 1) (tail demo_run.2 ++ [(AResume 1, EReturn 1 1 10 false)]) <= 65585).
Proof.
  destruct (never_overdrawn demo_run.2 demo_run.1 demo_steps) as [[H1 _] H2].
  - vm_compute. repeat constructor; done.
  - apply within_prefixes. apply (bool_decide_unpack _). vm_compute. exact I.
  - split; [exact H1|].
    destruct (H2 (take 1 demo_run.2) (mkFlow (credit flow_init) {[1 := 65535]} ∅) (tail demo_run.2) 1) as [H3 H4].
    + reflexivity.
    + apply (run_steps [ANewStream 1]); [vm_compute; reflexivity|]. by repeat constructor.
    + apply (run_steps (tail demo_acts)); [vm_compute; reflexivity|].
      unfold demo_acts; simpl. repeat constructor; range32.
    + reflexivity.
    + vm_compute. repeat constructor.
    + vm_compute. repeat constructor; done.
    + vm_compute. repeat constructor; done.
    + apply within_prefixes. apply (bool_decide_unpack _). vm_compute. exact I.
    + split; [rewrite H3; vm_compute; reflexivity|]. intros _. eapply H4; [|vm_compute; reflexivity].
      split; [exact I|]. vm_compute. reflexivity.
Defined.

Lemma mark_dead_releases_all_witness :
  exists w want s'', Woken 1 10 = Woken w want /\
    flow_step (broadcast (mkFlow (MarkDead (credit demo_run.1)) (windows demo_run.1) (threads demo_run.1)))
      (AResume 1, EReturn 1 w 0 true) s''.
Proof.
  refine (mark_dead_releases_all demo_run.2 demo_run.1 _ 1%nat (Woken 1 10) demo_steps _ _).
  - split; [done|reflexivity].
  - vm_compute. reflexivity.
Defined.

End FlowSystem.

(** A WINDOW_UPDATE that takes the connection window past 2^31-1 is not
    reported: the window wraps to a negative value, and the next [Reserve] on
    any stream blocks although the peer has just issued credit. *)
Theorem window_overflow_blocks_writers sc delta sw want :
  0 <= ConnSendWindow sc <= MaxInt32 -> 0 <= delta <= MaxInt32 ->
  MaxInt32 < ConnSendWindow sc + delta -> dead sc = false -> 0 < want ->
  ConnSendWindow (AddConn sc delta) < 0 /\
  Reserve (AddConn sc delta) sw want = (Wait, initCond (AddConn sc delta), sw).
Proof.
  intros Hc Hd Hov Hdead Hw.
  assert (Hneg : ConnSendWindow (AddConn sc delta) < 0).
  { apply i32_overflow. range32. }
  split; [done|]. unfold Reserve, reserve_pass.
  rewrite (proj2 (Z.leb_gt _ _) Hw). simpl in *. rewrite Hdead, (proj2 (Z.ltb_ge _ _)) by lia. done.
Qed.

Lemma window_overflow_blocks_writers_witness :
  ConnSendWindow (AddConn (mkSendCredit true 1 65535 false) MaxInt32) < 0.
Proof. refine (proj1 (window_overflow_blocks_writers _ _ 65535 1 _ _ _ _ _)); done. Defined.

(** A change of SETTINGS_INITIAL_WINDOW_SIZE is path-independent: however
    many times the peer changes it in between, the stream windows after the
    last change are those of that change alone; int32 wrap-around included. *)
Theorem initial_window_path_independent sc ns n sws :
  Forall is_i32 sws ->
  (let '(sc1, sws1) :=
     fold_left (fun '(c, ws) m => ApplyInitialWindowDelta c m ws) ns (sc, sws) in
   ApplyInitialWindowDelta sc1 n sws1) = ApplyInitialWindowDelta sc n sws.
Proof.
  intros Hs. rewrite <- (fmap_i32_id sws Hs). revert sc sws Hs.
  induction ns as [|m ns IH]; intros sc sws Hs; [done|]. simpl.
  rewrite ApplyInitialWindowDelta_spec, <- (fmap_i32_id (_ <$> sws)), IH
    by apply Forall_fmap_i32.
  rewrite !ApplyInitialWindowDelta_spec. f_equal.
  rewrite <- list_fmap_compose. apply list_fmap_ext. intros i sw _. simpl.
  rewrite i32_add_l. f_equal. lia.
Qed.

Lemma initial_window_path_independent_witness :
  fold_left (fun '(c, ws) m => ApplyInitialWindowDelta c m ws) [100000; 10; 65535; 20]
    (mkSendCredit true 65535 65535 false, [65535; 40000])
  = ApplyInitialWindowDelta (mkSendCredit true 65535 65535 false) 20 [65535; 40000].
Proof.
  refine (initial_window_path_independent (mkSendCredit true 65535 65535 false)
    [100000; 10; 65535] 20 [65535; 40000] _).
  repeat constructor; range32.
Defined.
