(* ===== verification/Names.v ===== *)
(** * Header names and status strings (internal/h2/pools.go)

    The string helpers of the HEADERS paths, the per-connection name caches
    and the header filters of both roles, with the parts of net/textproto and
    net/http they use: [CanonicalMIMEHeaderKey] and the [http.Header]
    methods.  The theorems: the zero-allocation [ToLower] is ASCII lowering,
    the pre-seeded caches agree with the functions they cache, canonical
    names survive the lower-case wire form. *)

From Stdlib Require Import Ascii String.
From stdpp Require Import pretty.
From S2P Require Import Prelude.

Abbreviation header := (gmap string (list string)).

(** ** Bytes *)

Definition is_upper (c : ascii) : bool :=
  ((65 <=? N_of_ascii c) && (N_of_ascii c <=? 90))%N.

Definition is_lower (c : ascii) : bool :=
  ((97 <=? N_of_ascii c) && (N_of_ascii c <=? 122))%N.

Definition is_digit (c : ascii) : bool :=
  ((48 <=? N_of_ascii c) && (N_of_ascii c <=? 57))%N.

(** [b += 'a' - 'A'] on an upper-case letter. *)
Definition lower_byte (c : ascii) : ascii :=
  if is_upper c then ascii_of_N (N_of_ascii c + 32) else c.

Definition upper_byte (c : ascii) : ascii :=
  if is_lower c then ascii_of_N (N_of_ascii c - 32) else c.

(** ** pools.go *)

(** The outer loop of [ToLower]: the index of the first upper-case byte. *)
Fixpoint first_upper (l : list ascii) (i : nat) : option nat :=
  match l with
  | [] => None
  | c :: l => if is_upper c then Some i else first_upper l (S i)
  end.

Definition ToLower (s : string) : string :=
  let l := list_ascii_of_string s in
  match first_upper l 0 with
  | None => s
  | Some i => string_of_list_ascii (take i l ++ (lower_byte <$> drop i l))
  end.

(** [strconv.Itoa] *)
Definition Itoa (code : Z) : string := pretty code.

(** The table filled in by [init]. *)
Definition statusStrings : list string := (fun i => Itoa (Z.of_nat i)) <$> seq 0 600.

Definition StatusString (code : Z) : string :=
  if (0 <=? code) && (code <? Z.of_nat (length statusStrings)) then
    default ""%string (statusStrings !! Z.to_nat code)
  else Itoa code.

Definition CommonCanonNamesTable : list (string * string) :=
  [("accept", "Accept"); ("accept-encoding", "Accept-Encoding");
   ("accept-language", "Accept-Language"); ("authorization", "Authorization");
   ("cache-control", "Cache-Control"); ("content-encoding", "Content-Encoding");
   ("content-length", "Content-Length"); ("content-type", "Content-Type");
   ("cookie", "Cookie"); ("host", "Host");
   ("if-modified-since", "If-Modified-Since"); ("if-none-match", "If-None-Match");
   ("origin", "Origin"); ("range", "Range"); ("referer", "Referer");
   ("user-agent", "User-Agent"); ("x-forwarded-for", "X-Forwarded-For");
   ("x-forwarded-proto", "X-Forwarded-Proto"); ("x-real-ip", "X-Real-Ip");
   ("x-request-id", "X-Request-Id")]%string.

Definition CommonCanonNames : gmap string string := list_to_map CommonCanonNamesTable.

Definition CommonLowerNamesTable : list (string * string) :=
  [("Content-Type", "content-type"); ("Content-Length", "content-length");
   ("Content-Encoding", "content-encoding"); ("Cache-Control", "cache-control");
   ("Date", "date"); ("Etag", "etag"); ("Expires", "expires");
   ("Last-Modified", "last-modified"); ("Location", "location"); ("Server", "server");
   ("Set-Cookie", "set-cookie"); ("Vary", "vary"); ("X-Request-Id", "x-request-id");
   ("X-Content-Type-Options", "x-content-type-options")]%string.

Definition CommonLowerNames : gmap string string := list_to_map CommonLowerNamesTable.

(** ** net/textproto and net/http *)

(** [validHeaderFieldByte]: the token characters of RFC 7230. *)
Definition validHeaderFieldByte (c : ascii) : bool :=
  is_upper c || is_lower c || is_digit c ||
  existsb (Ascii.eqb c) ["!"; "#"; "$"; "%"; "&"; "'"; "*"; "+"; "-"; "."; "^"; "_"; "`"; "|"; "~"]%char.

(** The canonicalising loop: [up] is set at the start and after a hyphen. *)
Fixpoint canon_loop (up : bool) (l : list ascii) : list ascii :=
  match l with
  | [] => []
  | c :: l =>
      (if up then upper_byte c else lower_byte c) :: canon_loop (Ascii.eqb c "-") l
  end.

(** A name with a byte that is not a token character is returned unchanged. *)
Definition CanonicalMIMEHeaderKey (s : string) : string :=
  let l := list_ascii_of_string s in
  if forallb validHeaderFieldByte l then string_of_list_ascii (canon_loop true l) else s.

Definition headerAdd (h : header) (k v : string) : header :=
  let k := CanonicalMIMEHeaderKey k in <[k := default [] (h !! k) ++ [v]]> h.

Definition headerGet (h : header) (k : string) : string :=
  match h !! CanonicalMIMEHeaderKey k with Some (v :: _) => v | _ => ""%string end.

Definition headerDel (h : header) (k : string) : header := delete (CanonicalMIMEHeaderKey k) h.

(** ** Header filters *)

(** internal/h2/writer.go: connection-specific headers, lower case. *)
Definition forbiddenForwardHeader (lk : string) : bool :=
  existsb (String.eqb lk)
    ["connection"; "proxy-connection"; "keep-alive"; "upgrade"; "transfer-encoding"]%string.

(** internal/proxy/forward.go: hop-by-hop headers, canonical form. *)
Definition isHopByHop (name : string) : bool :=
  existsb (String.eqb name)
    ["Connection"; "Keep-Alive"; "Proxy-Authenticate"; "Proxy-Authorization";
     "Te"; "Trailer"; "Transfer-Encoding"; "Upgrade"; "Proxy-Connection"]%string.

(** ** Name caches *)

(** [v, ok := cache[k]; if !ok { v = f(k); cache[k] = v }] *)
Definition cached (f : string -> string) (cache : gmap string string) (k : string)
  : string * gmap string string :=
  match cache !! k with
  | Some v => (v, cache)
  | None => (f k, <[k := f k]> cache)
  end.

(** A cache that agrees with the function it caches. *)
Definition cache_ok (f : string -> string) (cache : gmap string string) : Prop :=
  map_Forall (fun k v => v = f k) cache.

(** ** Lemmas *)

Lemma cached_ok f cache k :
  cache_ok f cache -> (cached f cache k).1 = f k /\ cache_ok f (cached f cache k).2.
Proof.
  intros H. unfold cached. destruct (cache !! k) as [v|] eqn:Hk; simpl.
  - split; [|done]. exact (H _ _ Hk).
  - split; [done|]. by apply map_Forall_insert_2.
Qed.

Lemma CommonCanonNames_ok : cache_ok CanonicalMIMEHeaderKey CommonCanonNames.
Proof. unfold cache_ok. apply (bool_decide_unpack _). vm_compute. exact I. Qed.

Lemma CommonLowerNames_ok : cache_ok ToLower CommonLowerNames.
Proof. unfold cache_ok. apply (bool_decide_unpack _). vm_compute. exact I. Qed.

Lemma first_upper_spec l i :
  match first_upper l i with
  | None => lower_byte <$> l = l
  | Some j => exists n, j = (i + n)%nat /\ lower_byte <$> take n l = take n l
  end.
Proof.
  revert i. induction l as [|c l IH]; intros i; [done|]. cbn [first_upper].
  destruct (is_upper c) eqn:Hc.
  - exists 0%nat. split; [lia|done].
  - assert (Hl : lower_byte c = c) by (unfold lower_byte; by rewrite Hc).
    specialize (IH (S i)). destruct (first_upper l (S i)) as [j|].
    + destruct IH as (n & -> & E). exists (S n). split; [lia|].
      by rewrite firstn_cons, fmap_cons, Hl, E.
    + by rewrite fmap_cons, Hl, IH.
Qed.

(** Every byte test below is decided by the 256 cases. *)
Ltac each_byte c := destruct c as [[] [] [] [] [] [] [] []]; vm_compute; try done.

Lemma lower_byte_idem c : lower_byte (lower_byte c) = lower_byte c.
Proof. each_byte c. Qed.

Lemma upper_lower_byte c : upper_byte (lower_byte c) = upper_byte c.
Proof. each_byte c. Qed.

Lemma lower_hyphen c : Ascii.eqb (lower_byte c) "-" = Ascii.eqb c "-".
Proof. each_byte c. Qed.

Lemma lower_valid c : validHeaderFieldByte (lower_byte c) = validHeaderFieldByte c.
Proof. each_byte c. Qed.

Lemma lower_not_upper c : is_upper (lower_byte c) = false.
Proof. each_byte c. Qed.

(** The reference definition of [ToLower]: lower every byte. *)
Lemma ToLower_bytes s : list_ascii_of_string (ToLower s) = lower_byte <$> list_ascii_of_string s.
Proof.
  unfold ToLower. pose proof (first_upper_spec (list_ascii_of_string s) 0) as H.
  destruct (first_upper _ 0) as [j|]; [|done].
  destruct H as (n & -> & E). rewrite list_ascii_of_string_of_list_ascii. simpl.
  rewrite <- E, <- fmap_app, take_drop. done.
Qed.

Lemma ToLower_idem s : ToLower (ToLower s) = ToLower s.
Proof.
  rewrite <- (string_of_list_ascii_of_string (ToLower (ToLower s))), !ToLower_bytes.
  rewrite <- list_fmap_compose.
  rewrite <- (string_of_list_ascii_of_string (ToLower s)), ToLower_bytes. f_equal.
  apply list_fmap_ext. intros; simpl; apply lower_byte_idem.
Qed.

Lemma canon_loop_lower up l : canon_loop up (lower_byte <$> l) = canon_loop up l.
Proof.
  revert up. induction l as [|c l IH]; intros up; [done|]. rewrite fmap_cons. cbn [canon_loop].
  rewrite lower_hyphen, IH. f_equal. destruct up; [apply upper_lower_byte|apply lower_byte_idem].
Qed.

Lemma forallb_valid_lower l :
  forallb validHeaderFieldByte (lower_byte <$> l) = forallb validHeaderFieldByte l.
Proof.
  induction l as [|c l IH]; [done|]. rewrite fmap_cons. cbn [forallb]. by rewrite lower_valid, IH.
Qed.

(** A token: every byte may appear in a header name. *)
Definition is_token (s : string) : bool := forallb validHeaderFieldByte (list_ascii_of_string s).

(** The wire form of a name has the same canonical form as the name. *)
Lemma canonical_of_lower s :
  is_token s = true -> CanonicalMIMEHeaderKey (ToLower s) = CanonicalMIMEHeaderKey s.
Proof.
  unfold is_token, CanonicalMIMEHeaderKey. intros H.
  by rewrite ToLower_bytes, forallb_valid_lower, canon_loop_lower, H.
Qed.

Lemma is_token_lower s : is_token (ToLower s) = is_token s.
Proof. unfold is_token. by rewrite ToLower_bytes, forallb_valid_lower. Qed.

Lemma StatusString_Itoa code : StatusString code = Itoa code.
Proof.
  unfold StatusString. destruct (_ && _) eqn:H; [|done]. bool_prop.
  assert (Hn : (Z.to_nat code < 600)%nat).
  { unfold statusStrings in H0. rewrite length_fmap, length_seq in H0. lia. }
  unfold statusStrings. rewrite list_lookup_fmap, lookup_seq_lt by done. simpl. by rewrite Z2Nat.id.
Qed.
