(* ===== verification/H2Stream.v ===== *)
(** * The per-stream body queue (internal/h2/stream.go, buffer pool of pools.go)

    A stream's inbound DATA is a queue of chunks whose bytes live in buffers
    drawn from a process-wide pool.  The model keeps the store explicit: byte
    arrays, the pool handles [*[]byte] that own them, and the slices that
    point into them, so that returning a buffer while a slice still refers to
    it is visible.  The abstract specification is a byte FIFO with an
    end-of-stream mark, and with the number of bytes that a reader closed in
    the middle of a chunk still returns from a buffer it has given back; the
    refinement theorem says that every interleaving of operations on every
    stream behaves like it. *)

From Stdlib Require Import Strings.Byte.
From S2P Require Import Prelude Errors Flow Names.

(** ** The buffer store *)

(** A Go byte slice: [len] bytes of array [arr] from [off]. *)
Record Slice := mkSlice { sl_arr : nat; sl_off : nat; sl_len : nat }.

Definition nilSlice : Slice := mkSlice 0 0 0.

(** [arrays]: the byte arrays by identity; [handles]: what each [*[]byte]
    points to; [free]: the handles in [dataPool]; [next]: the next identity. *)
Record Mem := mkMem {
  arrays : gmap nat (list byte);
  handles : gmap nat nat;
  free : list nat;
  next : nat
}.

Definition sl_bytes (m : Mem) (sl : Slice) : list byte :=
  take (sl_len sl) (drop (sl_off sl) (default [] (arrays m !! sl_arr sl))).

(** The capacity [dataPool.New] allocates. *)
Definition dataCap : nat := Z.to_nat 16384.
#[global] Opaque dataCap.

(** [dataPool.New] *)
Definition pool_new (m : Mem) : Mem * nat :=
  (mkMem (<[S (next m) := replicate dataCap x00]> (arrays m))
         (<[next m := S (next m)]> (handles m)) (free m) (S (S (next m))), next m).

(** [dataPool.Get()]: [sync.Pool] may hand out any pooled handle or a new one;
    [choice] says which. *)
Definition pool_get (m : Mem) (choice : option nat) : Mem * nat :=
  match choice with
  | Some h =>
      if decide (h ∈ free m) then
        (mkMem (arrays m) (handles m) (filter (fun x => x <> h) (free m)) (next m), h)
      else pool_new m
  | None => pool_new m
  end.

(** A slice of length [n] and its handle; a too small array is replaced. *)
Definition GetDataSlice (m : Mem) (choice : option nat) (n : nat) : Mem * Slice * nat :=
  let '(m, h) := pool_get m choice in
  let a := default 0%nat (handles m !! h) in
  if (length (default [] (arrays m !! a)) <? n)%nat then
    (mkMem (<[next m := replicate n x00]> (arrays m)) (<[h := next m]> (handles m))
           (free m) (S (next m)), mkSlice (next m) 0 n, h)
  else (m, mkSlice a 0 n, h).

Definition PutDataSlice (m : Mem) (bp : option nat) : Mem :=
  match bp with
  | Some h => mkMem (arrays m) (handles m) (h :: free m) (next m)
  | None => m
  end.

(** [copy(buf, data)] for a destination at least as long as the source. *)
Definition copy_into (m : Mem) (dst : Slice) (data : list byte) : Mem :=
  let arr := default [] (arrays m !! sl_arr dst) in
  mkMem (<[sl_arr dst := take (sl_off dst) arr ++ data ++ drop (sl_off dst + length data) arr]> (arrays m))
        (handles m) (free m) (next m).

(** ** Streams *)

Record DataChunk := mkDataChunk { Bp : option nat; Data : Slice }.

(** [DataChunk{}] *)
Definition zeroChunk : DataChunk := mkDataChunk None nilSlice.

Record bodyReader := mkBody { bp : option nat; buf : Slice }.

(** [s_ctx]: [None] when [Ctx]/[Cancel] are nil, else whether the context is
    cancelled.  [s_conn]: the connection the stream belongs to, nil in the
    pool. *)
Record Stream := mkStream {
  s_ID : Z;
  s_conn : option nat;
  s_queue : list DataChunk;
  s_qHead : nat;
  s_dataDone : bool;
  s_dataErr : option gerror;
  s_SendWindow : Z;
  s_Header : header;
  s_ctx : option bool;
  s_body : bodyReader
}.

(** What [streamPool.New] builds. *)
Definition newStream : Stream :=
  mkStream 0 None [] 0 false None 0 ∅ None (mkBody None nilSlice).

(** [Acquire] re-initialises the stream [s] that the pool hands out. *)
Definition Acquire (s : Stream) (id : Z) (conn : nat) (initialWindow : Z) : Stream :=
  mkStream id (Some conn) [] 0 false None initialWindow ∅ (Some false) (mkBody None nilSlice).

(** [r.returnBuf()] *)
Definition returnBuf (m : Mem) (r : bodyReader) : Mem * bodyReader :=
  match bp r with
  | Some h => (PutDataSlice m (Some h), mkBody None (buf r))
  | None => (m, r)
  end.

(** The loop over the undelivered chunks in [Release] and [Close]. *)
Definition putChunks (m : Mem) (q : list DataChunk) : Mem :=
  foldl (fun m c => PutDataSlice m (Bp c)) m q.

Definition Release (m : Mem) (s : Stream) : Mem * Stream :=
  let '(m, body) := returnBuf m (s_body s) in
  let m := putChunks m (drop (s_qHead s) (s_queue s)) in
  (m, mkStream (s_ID s) None [] 0 (s_dataDone s) None (s_SendWindow s) (s_Header s) None body).

Definition PushData (s : Stream) (c : DataChunk) : Stream :=
  mkStream (s_ID s) (s_conn s) (s_queue s ++ [c]) (s_qHead s) (s_dataDone s) (s_dataErr s)
    (s_SendWindow s) (s_Header s) (s_ctx s) (s_body s).

Definition CloseData (s : Stream) : Stream :=
  mkStream (s_ID s) (s_conn s) (s_queue s) (s_qHead s) true (s_dataErr s)
    (s_SendWindow s) (s_Header s) (s_ctx s) (s_body s).

(** The first failure is kept; the context is cancelled. *)
Definition FailBody (s : Stream) (err : gerror) : Stream :=
  mkStream (s_ID s) (s_conn s) (s_queue s) (s_qHead s) true
    (match s_dataErr s with None => Some err | Some e => Some e end)
    (s_SendWindow s) (s_Header s) (match s_ctx s with Some _ => Some true | None => None end) (s_body s).

Definition DataDone (s : Stream) : bool := s_dataDone s.

Definition set_body (s : Stream) (r : bodyReader) : Stream :=
  mkStream (s_ID s) (s_conn s) (s_queue s) (s_qHead s) (s_dataDone s) (s_dataErr s)
    (s_SendWindow s) (s_Header s) (s_ctx s) r.

Definition set_queue (s : Stream) (q : list DataChunk) (h : nat) : Stream :=
  mkStream (s_ID s) (s_conn s) q h (s_dataDone s) (s_dataErr s)
    (s_SendWindow s) (s_Header s) (s_ctx s) (s_body s).

Definition set_SendWindow (s : Stream) (w : Z) : Stream :=
  mkStream (s_ID s) (s_conn s) (s_queue s) (s_qHead s) (s_dataDone s) (s_dataErr s)
    w (s_Header s) (s_ctx s) (s_body s).

Definition set_Header (s : Stream) (h : header) : Stream :=
  mkStream (s_ID s) (s_conn s) (s_queue s) (s_qHead s) (s_dataDone s) (s_dataErr s)
    (s_SendWindow s) h (s_ctx s) (s_body s).

(** The result of [Read]: the bytes copied into [p], the failure, [io.EOF], or
    a goroutine parked in [cond.Wait]. *)
Inductive ReadResult :=
| RRead (bs : list byte)
| RErr (e : gerror)
| REOF
| RBlocked.

(** Lazy compaction of the consumed prefix. *)
Definition compact (q : list DataChunk) (h : nat) : list DataChunk * nat :=
  if ((8 <? h) && (length q <=? h * 2))%nat then (drop h q, 0%nat) else (q, h).

(** [data[n:]] *)
Definition sl_advance (sl : Slice) (n : nat) : Slice :=
  mkSlice (sl_arr sl) (sl_off sl + n) (sl_len sl - n).

(** [data[:n]] *)
Definition sl_prefix (sl : Slice) (n : nat) : Slice := mkSlice (sl_arr sl) (sl_off sl) n.

(** [Read(p)] with [plen = len(p)]. *)
Definition Read (m : Mem) (s : Stream) (plen : nat) : Mem * Stream * ReadResult :=
  let r := s_body s in
  if (0 <? sl_len (buf r))%nat then
    let n := Nat.min plen (sl_len (buf r)) in
    let bs := sl_bytes m (sl_prefix (buf r) n) in
    let r := mkBody (bp r) (sl_advance (buf r) n) in
    if (sl_len (buf r) =? 0)%nat then
      let '(m, r) := returnBuf m r in (m, set_body s r, RRead bs)
    else (m, set_body s r, RRead bs)
  else if (s_qHead s =? length (s_queue s))%nat && negb (s_dataDone s) then (m, s, RBlocked)
  else
    match s_queue s !! s_qHead s with
    | None =>
        (m, s, match s_dataErr s with Some e => RErr e | None => REOF end)
    | Some chunk =>
        let '(q, h) := compact (<[s_qHead s := zeroChunk]> (s_queue s)) (S (s_qHead s)) in
        let s := set_queue s q h in
        let n := Nat.min plen (sl_len (Data chunk)) in
        let bs := sl_bytes m (sl_prefix (Data chunk) n) in
        if (n <? sl_len (Data chunk))%nat then
          (m, set_body s (mkBody (Bp chunk) (sl_advance (Data chunk) n)), RRead bs)
        else
          let '(m, r) := returnBuf m (mkBody (Bp chunk) (buf r)) in
          (m, set_body s r, RRead bs)
    end.

(** [Close] on the body reader. *)
Definition BodyClose (m : Mem) (s : Stream) : Mem * Stream :=
  let '(m, r) := returnBuf m (s_body s) in
  let m := putChunks m (drop (s_qHead s) (s_queue s)) in
  (m, set_body (set_queue s [] 0) r).

(** Queueing the bytes of one DATA frame: the body of the
    [if len(data) > 0] of [HandleInboundData]. *)
Definition pushBytes (m : Mem) (s : Stream) (choice : option nat) (data : list byte) : Mem * Stream :=
  if (0 <? length data)%nat then
    let '(m, b, h) := GetDataSlice m choice (length data) in
    (copy_into m b data, PushData s (mkDataChunk (Some h) b))
  else (m, s).

(** ** Streams that share the store *)

Record BodySys := mkBodySys { bs_mem : Mem; bs_streams : gmap Z Stream }.

(** The operations on the bodies of the streams of the process. *)
Inductive BOp :=
| BAcquire (i : Z) (conn : nat) (w : Z)
| BPush (i : Z) (choice : option nat) (data : list byte)
| BCloseData (i : Z)
| BFail (i : Z) (e : gerror)
| BRead (i : Z) (plen : nat)
| BClose (i : Z)
| BRelease (i : Z).

Definition body_op (y : BodySys) (o : BOp) : option (BodySys * option ReadResult) :=
  let 'mkBodySys m ss := y in
  match o with
  | BAcquire i c w =>
      match ss !! i with
      | None => Some (mkBodySys m (<[i := Acquire newStream i c w]> ss), None)
      | Some _ => None
      end
  | BPush i choice data =>
      s ← ss !! i;
      let '(m, s) := pushBytes m s choice data in
      Some (mkBodySys m (<[i := s]> ss), None)
  | BCloseData i => s ← ss !! i; Some (mkBodySys m (<[i := CloseData s]> ss), None)
  | BFail i e => s ← ss !! i; Some (mkBodySys m (<[i := FailBody s e]> ss), None)
  | BRead i plen =>
      s ← ss !! i;
      let '(m, s, r) := Read m s plen in
      Some (mkBodySys m (<[i := s]> ss), Some r)
  | BClose i =>
      s ← ss !! i;
      let '(m, s) := BodyClose m s in
      Some (mkBodySys m (<[i := s]> ss), None)
  | BRelease i =>
      s ← ss !! i;
      let '(m, _) := Release m s in
      Some (mkBodySys m (delete i ss), None)
  end.

(** ** The specification: byte FIFOs *)

(** [garbled]: how many bytes the next reads take from a buffer that is not
    the stream's any more. *)
Record Fifo := mkReader { garbled : nat; pending : list byte; ended : bool; failure : option gerror }.

Abbreviation mkFifo := (mkReader 0).

(** What a reader with a buffer of [plen] bytes may observe. *)
Inductive fifo_read (plen : nat) : Fifo -> ReadResult -> Fifo -> Prop :=
| fifo_garbled n bs p d e :
    (0 < n)%nat -> (length bs <= Nat.min plen n)%nat ->
    fifo_read plen (mkReader n p d e) (RRead bs) (mkReader (n - Nat.min plen n) p d e)
| fifo_some bs rest d e :
    bs ++ rest <> [] -> (length bs <= plen)%nat -> ((0 < plen)%nat -> bs <> []) ->
    fifo_read plen (mkFifo (bs ++ rest) d e) (RRead bs) (mkFifo rest d e)
| fifo_eof : fifo_read plen (mkFifo [] true None) REOF (mkFifo [] true None)
| fifo_err e : fifo_read plen (mkFifo [] true (Some e)) (RErr e) (mkFifo [] true (Some e))
| fifo_block e : fifo_read plen (mkFifo [] false e) RBlocked (mkFifo [] false e).

Inductive fifo_op : gmap Z Fifo -> BOp -> option ReadResult -> gmap Z Fifo -> Prop :=
| fo_acquire fs i c w :
    fs !! i = None -> fifo_op fs (BAcquire i c w) None (<[i := mkFifo [] false None]> fs)
| fo_push fs i ch data f :
    fs !! i = Some f ->
    fifo_op fs (BPush i ch data) None (<[i := mkReader (garbled f) (pending f ++ data) (ended f) (failure f)]> fs)
| fo_close_data fs i f :
    fs !! i = Some f ->
    fifo_op fs (BCloseData i) None (<[i := mkReader (garbled f) (pending f) true (failure f)]> fs)
| fo_fail fs i e f :
    fs !! i = Some f ->
    fifo_op fs (BFail i e) None
      (<[i := mkReader (garbled f) (pending f) true (match failure f with None => Some e | x => x end)]> fs)
| fo_read fs i plen f r f' :
    fs !! i = Some f -> fifo_read plen f r f' -> fifo_op fs (BRead i plen) (Some r) (<[i := f']> fs)
| fo_close fs i f n :
    fs !! i = Some f -> (garbled f = 0 -> n <= length (pending f))%nat -> (0 < garbled f -> n = garbled f)%nat ->
    fifo_op fs (BClose i) None (<[i := mkReader n [] (ended f) (failure f)]> fs)
| fo_release fs i : is_Some (fs !! i) -> fifo_op fs (BRelease i) None (delete i fs).

(** ** Abstraction and invariant *)

(** The undelivered chunks of a stream: what is left of the current one, then
    the live part of the ring. *)
Definition held (s : Stream) : list DataChunk :=
  match bp (s_body s) with
  | Some h => [mkDataChunk (Some h) (buf (s_body s))]
  | None => []
  end ++ drop (s_qHead s) (s_queue s).

Definition chunks_bytes (m : Mem) (cs : list DataChunk) : list byte :=
  concat ((fun c => sl_bytes m (Data c)) <$> cs).

(** What is left of a slice whose buffer has been given back. *)
Definition stale (s : Stream) : nat :=
  match bp (s_body s) with Some _ => 0 | None => sl_len (buf (s_body s)) end.

Definition abs_stream (m : Mem) (s : Stream) : Fifo :=
  mkReader (stale s) (chunks_bytes m (held s)) (s_dataDone s) (s_dataErr s).

Definition abs (y : BodySys) : gmap Z Fifo := abs_stream (bs_mem y) <$> bs_streams y.

(** A live chunk: a non-empty slice of the array its handle owns. *)
Definition chunk_wf (m : Mem) (c : DataChunk) : Prop :=
  exists h, Bp c = Some h /\ handles m !! h = Some (sl_arr (Data c)) /\
    (0 < sl_len (Data c))%nat /\
    (sl_off (Data c) + sl_len (Data c) <= length (default [] (arrays m !! sl_arr (Data c))))%nat.

Definition owned (cs : list DataChunk) : list nat := omap Bp cs.

(** The dead prefix of the ring is bounded: at most 8 slots or less than half. *)
Definition ring_wf (s : Stream) : Prop :=
  (s_qHead s <= length (s_queue s))%nat /\
  ((s_qHead s <= 8)%nat \/ (s_qHead s * 2 < length (s_queue s))%nat).

Definition stream_wf (m : Mem) (s : Stream) : Prop :=
  ring_wf s /\ Forall (chunk_wf m) (held s) /\ NoDup (owned (held s)).

Definition mem_wf (m : Mem) : Prop :=
  NoDup (free m) /\ (forall h, h ∈ free m -> is_Some (handles m !! h)) /\
  (forall h1 h2 a, handles m !! h1 = Some a -> handles m !! h2 = Some a -> h1 = h2) /\
  (forall h a, handles m !! h = Some a -> (h < next m)%nat /\ (a < next m)%nat).

(** No buffer has two owners: not two streams, not a stream and the pool. *)
Definition sys_wf (y : BodySys) : Prop :=
  mem_wf (bs_mem y) /\
  (forall i s, bs_streams y !! i = Some s -> stream_wf (bs_mem y) s) /\
  (forall i s h, bs_streams y !! i = Some s -> h ∈ owned (held s) -> h ∉ free (bs_mem y)) /\
  (forall i j si sj h, bs_streams y !! i = Some si -> bs_streams y !! j = Some sj ->
     h ∈ owned (held si) -> h ∈ owned (held sj) -> i = j).

(** The process starts with empty pools. *)
Definition body_init : BodySys := mkBodySys (mkMem ∅ ∅ [] 0) ∅.

(** ** Lemmas: the store *)

(** What a fresh buffer guarantees to its new owner and to everybody else. *)
Record fresh_buffer (m m' : Mem) (sl : Slice) (h : nat) (n : nat) : Prop := {
  fb_wf : mem_wf m';
  fb_free : (h ∉ free m') /\ (forall x, x ∈ free m' -> x ∈ free m);
  fb_new : h ∈ free m \/ handles m !! h = None;
  fb_handle : handles m' !! h = Some (sl_arr sl);
  fb_slice : sl_off sl = 0%nat /\ sl_len sl = n;
  fb_room : (n <= length (default [] (arrays m' !! sl_arr sl)))%nat;
  fb_frame : forall h2 a, h2 <> h -> handles m !! h2 = Some a ->
    handles m' !! h2 = Some a /\ arrays m' !! a = arrays m !! a /\ a <> sl_arr sl
}.

Lemma mem_wf_next m h a : mem_wf m -> handles m !! h = Some a -> (h < next m)%nat /\ (a < next m)%nat.
Proof. intros (_&_&_&H). apply H. Qed.

Lemma pool_new_wf m : mem_wf m -> mem_wf (pool_new m).1.
Proof.
  intros (Hnd & Hf & Hinj & Hlt). split_and!; simpl; [done|..].
  - intros h Hh. rewrite lookup_insert. case_decide; eauto.
  - intros h1 h2 a H1 H2. rewrite lookup_insert in H1, H2.
    repeat case_decide; simplify_eq; eauto;
      match goal with H : handles m !! _ = Some _ |- _ => apply Hlt in H end; lia.
  - intros h a H. rewrite lookup_insert in H. case_decide; simplify_eq; [lia|].
    apply Hlt in H. lia.
Qed.

Lemma pool_get_fresh m ch m' h :
  mem_wf m -> pool_get m ch = (m', h) ->
  exists a, handles m' !! h = Some a /\ fresh_buffer m m' (mkSlice a 0 0) h 0.
Proof.
  intros Hwf H. pose proof Hwf as (Hnd & Hf & Hinj & Hlt).
  assert (Hnew : pool_new m = (m', h) ->
    exists a, handles m' !! h = Some a /\ fresh_buffer m m' (mkSlice a 0 0) h 0).
  { intros [= <- <-]. exists (S (next m)). split; [apply lookup_insert_eq|].
    assert (Hnone : handles m !! next m = None).
    { destruct (handles m !! next m) eqn:E; [|done]. apply Hlt in E. lia. }
    split; simpl; eauto.
    - by apply pool_new_wf.
    - split; [|done]. intros Hin%Hf. rewrite Hnone in Hin. by destruct Hin.
    - apply lookup_insert_eq.
    - lia.
    - intros h2 a Hne Ha. pose proof (Hlt _ _ Ha). rewrite !lookup_insert_ne by lia.
      split_and!; [done..|lia]. }
  unfold pool_get in H. destruct ch as [h0|]; [|by apply Hnew].
  case_decide as Hin; [|by apply Hnew]. simplify_eq.
  destruct (Hf _ Hin) as [a Ha]. exists a. split; [done|]. split; simpl; eauto.
  - split_and!; simpl; [by apply NoDup_filter| |done|done].
    intros x [_ Hx]%list_elem_of_filter. by apply Hf.
  - split; [by intros [? _]%list_elem_of_filter|]. by intros x [_ ?]%list_elem_of_filter.
  - lia.
  - intros h2 a2 Hne Ha2. split_and!; try done. intros ->. apply Hne. eauto.
Qed.

Lemma GetDataSlice_fresh m ch n m' sl h :
  mem_wf m -> GetDataSlice m ch n = (m', sl, h) -> fresh_buffer m m' sl h n.
Proof.
  intros Hwf H. unfold GetDataSlice in H.
  destruct (pool_get m ch) as [m1 h1] eqn:Hg.
  destruct (pool_get_fresh _ _ _ _ Hwf Hg) as (a & Ha & [Hwf1 Hfr Hnew Hh _ _ Hframe]).
  rewrite Ha in H; simpl in *.
  destruct (_ <? n)%nat eqn:Hlen; simplify_eq; bool_prop; [|by split].
  pose proof Hwf1 as (Hnd & Hf & Hinj & Hlt). pose proof (Hlt _ _ Ha).
  split; simpl; eauto.
  - split_and!; simpl; [done|..].
    + intros x Hx. rewrite lookup_insert. case_decide; eauto.
    + intros x y b Hx Hy. rewrite lookup_insert in Hx, Hy. repeat case_decide; simplify_eq; eauto;
        match goal with H : handles m1 !! _ = Some _ |- _ => apply Hlt in H end; lia.
    + intros x b Hx. rewrite lookup_insert in Hx. case_decide; simplify_eq; [lia|].
      apply Hlt in Hx. lia.
  - apply lookup_insert_eq.
  - rewrite lookup_insert_eq. simpl. by rewrite length_replicate.
  - intros h2 b Hne Hb. destruct (Hframe _ _ Hne Hb) as (H1 & H2 & _).
    pose proof (Hlt _ _ H1). rewrite !lookup_insert_ne by (done || lia). split_and!; [done..|lia].
Qed.

(** A chunk keeps its bytes when its array is untouched. *)
Lemma chunk_frame m m' c :
  chunk_wf m c ->
  (forall h, Bp c = Some h ->
     handles m' !! h = handles m !! h /\ arrays m' !! sl_arr (Data c) = arrays m !! sl_arr (Data c)) ->
  chunk_wf m' c /\ sl_bytes m' (Data c) = sl_bytes m (Data c).
Proof.
  intros (h & Hb & Hh & Hl & Ho) Hf. destruct (Hf _ Hb) as [H1 H2].
  split; [exists h; rewrite H1, H2; by split_and!|]. unfold sl_bytes. by rewrite H2.
Qed.

Lemma chunks_bytes_cons m c cs : chunks_bytes m (c :: cs) = sl_bytes m (Data c) ++ chunks_bytes m cs.
Proof. done. Qed.

Lemma chunks_bytes_app m cs1 cs2 :
  chunks_bytes m (cs1 ++ cs2) = chunks_bytes m cs1 ++ chunks_bytes m cs2.
Proof. unfold chunks_bytes. by rewrite fmap_app, concat_app. Qed.

Lemma chunks_frame m m' cs :
  Forall (chunk_wf m) cs ->
  (forall c h, c ∈ cs -> Bp c = Some h ->
     handles m' !! h = handles m !! h /\ arrays m' !! sl_arr (Data c) = arrays m !! sl_arr (Data c)) ->
  Forall (chunk_wf m') cs /\ chunks_bytes m' cs = chunks_bytes m cs.
Proof.
  induction 1 as [|c cs Hc _ IH]; intros Hf; [done|]. rewrite !chunks_bytes_cons.
  destruct (chunk_frame m m' c Hc) as [? ->]; [intros; apply Hf; [left|done]|].
  destruct IH as [? ->]; [intros; apply Hf; [by right|done]|]. split; [by constructor|done].
Qed.

Lemma owned_elem cs h : h ∈ owned cs <-> exists c, c ∈ cs /\ Bp c = Some h.
Proof. unfold owned. rewrite list_elem_of_omap. naive_solver. Qed.

(** Returning handles to the pool moves no byte. *)
Lemma putChunks_mem m cs :
  arrays (putChunks m cs) = arrays m /\ handles (putChunks m cs) = handles m /\
  next (putChunks m cs) = next m /\ free (putChunks m cs) = reverse (owned cs) ++ free m.
Proof.
  unfold putChunks, owned. revert m. induction cs as [|c cs IH]; intros m; simpl; [done|].
  destruct (IH (PutDataSlice m (Bp c))) as (-> & -> & -> & ->).
  destruct (Bp c); simpl; split_and!; try done. by rewrite reverse_cons, <- app_assoc.
Qed.

Lemma put_bytes m h cs : chunks_bytes (PutDataSlice m h) cs = chunks_bytes m cs.
Proof. by destruct h. Qed.

Lemma put_chunk_wf m h c : chunk_wf (PutDataSlice m h) c <-> chunk_wf m c.
Proof. by destruct h. Qed.

(** ** Lemmas: one stream *)

Lemma compact_spec q h :
  (h <= length q)%nat ->
  let '(q', h') := compact q h in
  drop h' q' = drop h q /\ (h' <= length q')%nat /\ ((h' <= 8)%nat \/ (h' * 2 < length q')%nat).
Proof.
  intros Hle. unfold compact. destruct (_ && _) eqn:Hc.
  - by rewrite drop_0; split_and!; [|lia|left; lia].
  - split_and!; [done|done|]. apply andb_false_iff in Hc as [Hc|Hc]; bool_prop; lia.
Qed.

(** What [Read] does, in terms of the undelivered chunks. *)
Lemma Read_spec m s plen m' s' r :
  stream_wf m s -> stale s = 0%nat -> Read m s plen = (m', s', r) ->
  s_dataDone s' = s_dataDone s /\ s_dataErr s' = s_dataErr s /\ ring_wf s' /\ stale s' = 0%nat /\
  match held s with
  | [] => m' = m /\ held s' = [] /\
      r = (if s_dataDone s then match s_dataErr s with Some e => RErr e | None => REOF end else RBlocked)
  | c :: rest =>
      let n := Nat.min plen (sl_len (Data c)) in
      r = RRead (sl_bytes m (sl_prefix (Data c) n)) /\
      ((n < sl_len (Data c))%nat /\ m' = m /\
         held s' = mkDataChunk (Bp c) (sl_advance (Data c) n) :: rest \/
       n = sl_len (Data c) /\ m' = PutDataSlice m (Bp c) /\ held s' = rest)
  end.
Proof.
  intros ((Hq & Hring) & Hall & Hnd) Hnone H. unfold Read in H. unfold held, stale in *.
  destruct s as [id cn q h d e sw hd ctx [ob bf]]; simpl in *.
  destruct ob as [hb|]; simpl in *.
  - inv Hall. destruct H2 as (? & ? & ? & Hlen & ?). simpl in *.
    rewrite (proj2 (Nat.ltb_lt 0 (sl_len bf)) Hlen) in H.
    destruct (_ =? 0)%nat eqn:Hz; simplify_eq; bool_prop; simpl in *; split_and!; try done.
    + right. split; [lia|done].
    + left. split; [lia|done].
  - rewrite Hnone in H; simpl in H.
    destruct (h =? length q)%nat eqn:Hh; bool_prop; simpl in *.
    + subst h. rewrite drop_all. destruct d; simpl in *.
      * rewrite lookup_ge_None_2 in H by lia. simplify_eq; simpl. by rewrite drop_all; split_and!.
      * simplify_eq; simpl. by rewrite drop_all; split_and!.
    + destruct (q !! h) as [chunk|] eqn:Hc; [|apply lookup_ge_None in Hc; lia].
      rewrite (drop_S _ _ _ Hc) in *. simpl in *. inv Hall.
      pose proof (compact_spec (<[h:=zeroChunk]> q) (S h) ltac:(rewrite length_insert; lia)) as Hcs.
      rewrite drop_insert_lt in Hcs by lia.
      destruct (compact _ _) as [q' h'] eqn:Hcomp. destruct Hcs as (Hd & Hle & Hb).
      destruct H2 as (hc & Hbc & ? & Hlen & ?). rewrite Hbc in *; simpl in *.
      destruct (_ <? _)%nat eqn:Hn; simplify_eq; bool_prop; simpl in *; split_and!; try done.
      * left. split_and!; [done..|]. by rewrite Hd.
      * right. split_and!; [lia|done|done].
Qed.

(** A reader that has kept its slice reads what the buffer holds now. *)
Lemma Read_stale m s plen :
  (0 < stale s)%nat ->
  exists s' bs, Read m s plen = (m, s', RRead bs) /\ (length bs <= Nat.min plen (stale s))%nat /\
    s_queue s' = s_queue s /\ s_qHead s' = s_qHead s /\ s_dataDone s' = s_dataDone s /\ s_dataErr s' = s_dataErr s /\
    held s' = held s /\ stale s' = (stale s - Nat.min plen (stale s))%nat.
Proof.
  unfold stale, Read, held. destruct (bp (s_body s)) as [h|] eqn:Hb; [lia|]. intros Hlen.
  rewrite (proj2 (Nat.ltb_lt _ _) Hlen). unfold returnBuf. cbn [bp buf sl_advance sl_len].
  destruct (_ =? 0)%nat eqn:Hz; bool_prop; do 2 eexists; (split; [done|]); unfold sl_bytes; cbn;
    rewrite length_take; split_and!; try done; lia.
Qed.

Lemma pushBytes_held s c : held (PushData s c) = held s ++ [c] \/ (length (s_queue s) < s_qHead s)%nat.
Proof.
  destruct (decide (length (s_queue s) < s_qHead s)%nat); [by right|left].
  unfold held; simpl. rewrite drop_app_le by lia. by rewrite app_assoc.
Qed.

Lemma copy_into_bytes m sl data :
  sl_off sl = 0%nat -> sl_len sl = length data ->
  sl_bytes (copy_into m sl data) sl = data.
Proof.
  intros Ho Hl. unfold sl_bytes, copy_into; simpl. rewrite lookup_insert_eq, Ho, Hl; simpl.
  by rewrite drop_0, take_app_length.
Qed.

(** Queueing a frame: the new owner gets a private buffer with the bytes. *)
Lemma pushBytes_spec m s ch data m' s' :
  mem_wf m -> stream_wf m s -> (forall h, h ∈ owned (held s) -> h ∉ free m) ->
  pushBytes m s ch data = (m', s') -> (0 < length data)%nat ->
  exists sl h, fresh_buffer m m' sl h (length data) /\
    held s' = held s ++ [mkDataChunk (Some h) sl] /\ sl_bytes m' sl = data /\
    chunk_wf m' (mkDataChunk (Some h) sl) /\ s' = PushData s (mkDataChunk (Some h) sl).
Proof.
  intros Hm Hs Hfree H Hlen. unfold pushBytes in H.
  rewrite (proj2 (Nat.ltb_lt _ _) Hlen) in H.
  destruct (GetDataSlice m ch (length data)) as [[m1 sl] h] eqn:Hg. simplify_eq.
  destruct (GetDataSlice_fresh _ _ _ _ _ _ Hm Hg) as [Hwf Hfr Hnew Hh [Ho Hl] Hroom Hframe].
  assert (Hfb : fresh_buffer m (copy_into m1 sl data) sl h (length data)).
  { split; simpl; eauto.
    - rewrite lookup_insert_eq; simpl. rewrite Ho, !length_app, length_drop; simpl. lia.
    - intros h2 a Hne Ha. destruct (Hframe _ _ Hne Ha) as (? & ? & ?).
      by rewrite lookup_insert_ne by done. }
  exists sl, h. split_and!; [done| | | |done].
  - destruct (pushBytes_held s (mkDataChunk (Some h) sl)) as [?|Hlt]; [done|].
    destruct Hs as ((? & _) & _). lia.
  - by apply copy_into_bytes.
  - exists h. simpl. split_and!; [done| |lia|].
    + done.
    + pose proof (fb_room _ _ _ _ _ Hfb) as Hr. simpl in Hr. lia.
Qed.

Lemma Acquire_held s i c w : held (Acquire s i c w) = [].
Proof. done. Qed.

Lemma held_bp_none s : held s = [] -> bp (s_body s) = None.
Proof. unfold held. by destruct (bp _). Qed.

(** [Release] and [Close] give back exactly the buffers the stream holds. *)
Lemma give_back_free m s m' r :
  returnBuf m (s_body s) = (m', r) ->
  let m'' := putChunks m' (drop (s_qHead s) (s_queue s)) in
  arrays m'' = arrays m /\ handles m'' = handles m /\ next m'' = next m /\
  free m'' ≡ₚ owned (held s) ++ free m.
Proof.
  intros H. simpl. destruct (putChunks_mem m' (drop (s_qHead s) (s_queue s))) as (-> & -> & -> & ->).
  unfold returnBuf, held in *. destruct (bp (s_body s)) as [h|] eqn:Hb; simplify_eq; simpl;
    split_and!; try done; unfold owned; rewrite reverse_Permutation; [|done].
  simpl. by rewrite <- Permutation_middle.
Qed.

(** ** The refinement *)

(** Stream [i] is replaced (or removed, [o' = None]) and the store changes
    from [bs_mem y] to [m'] without touching what the others hold. *)
Lemma sys_change y i m' o' :
  sys_wf y -> mem_wf m' ->
  (forall s', o' = Some s' -> stream_wf m' s' /\ (forall h, h ∈ owned (held s') -> h ∉ free m')) ->
  (forall j sj c h, j <> i -> bs_streams y !! j = Some sj -> c ∈ held sj -> Bp c = Some h ->
     handles m' !! h = handles (bs_mem y) !! h /\
     arrays m' !! sl_arr (Data c) = arrays (bs_mem y) !! sl_arr (Data c) /\
     (h ∉ free m') /\ (forall s', o' = Some s' -> h ∉ owned (held s'))) ->
  let y' := mkBodySys m' (partial_alter (fun _ => o') i (bs_streams y)) in
  sys_wf y' /\ abs y' = partial_alter (fun _ => abs_stream m' <$> o') i (abs y).
Proof.
  intros (Hm & Hs & Hfree & Hdisj) Hm' Hnew Hframe. simpl.
  assert (Hother : forall j sj, j <> i -> bs_streams y !! j = Some sj ->
    Forall (chunk_wf m') (held sj) /\ chunks_bytes m' (held sj) = chunks_bytes (bs_mem y) (held sj)).
  { intros j sj Hne Hj. apply chunks_frame; [apply (Hs _ _ Hj)|].
    intros c h Hc Hb. destruct (Hframe j sj c h Hne Hj Hc Hb) as (?&?&_). done. }
  split; [split_and!; simpl; [done|..]|].
  - intros j s Hj. rewrite lookup_partial_alter in Hj. case_decide; [by apply Hnew|].
    destruct (Hs _ _ Hj) as (?&?&?). split_and!; try done. by apply (Hother j).
  - intros j s h Hj Hh. rewrite lookup_partial_alter in Hj. case_decide; [subst j|].
    + destruct (Hnew _ Hj) as [_ H]. by apply H.
    + apply owned_elem in Hh as (c & Hc & Hb). by eapply Hframe.
  - intros j k sj sk h Hj Hk Hhj Hhk. rewrite lookup_partial_alter in Hj, Hk.
    destruct (decide (i = j)), (decide (i = k)); [congruence| | |by eapply Hdisj]; exfalso.
    + apply owned_elem in Hhk as (c & Hc & Hb).
      destruct (Hframe k sk c h ltac:(congruence) Hk Hc Hb) as (_&_&_&Hno). by eapply Hno.
    + apply owned_elem in Hhj as (c & Hc & Hb).
      destruct (Hframe j sj c h ltac:(congruence) Hj Hc Hb) as (_&_&_&Hno). by eapply Hno.
  - apply map_eq. intros j. unfold abs; simpl.
    rewrite lookup_partial_alter, lookup_fmap, lookup_partial_alter. case_decide; [done|].
    rewrite lookup_fmap. destruct (bs_streams y !! j) as [sj|] eqn:Hj; simpl; [|done].
    unfold abs_stream. by destruct (Hother j sj) as [_ ->].
Qed.

(** The store is unchanged and so are the undelivered chunks. *)
Lemma sys_same_chunks y i s s' :
  sys_wf y -> bs_streams y !! i = Some s -> stream_wf (bs_mem y) s' ->
  (forall h, h ∈ owned (held s') -> h ∈ owned (held s)) ->
  let y' := mkBodySys (bs_mem y) (<[i := s']> (bs_streams y)) in
  sys_wf y' /\ abs y' = <[i := abs_stream (bs_mem y) s']> (abs y).
Proof.
  intros Hy Hi Hwf Hsub. pose proof Hy as (Hm & Hs & Hfree & Hdisj).
  apply (sys_change y i (bs_mem y) (Some s')); [done..| |].
  - intros ? [= <-]. split; [done|]. intros h Hh. eapply Hfree; eauto.
  - intros j sj c h Hne Hj Hc Hb.
    assert (Ho : h ∈ owned (held sj)) by (apply owned_elem; eauto).
    split_and!; [done..|by eapply Hfree|]. intros ? [= <-] Hh. apply Hne. eauto.
Qed.

(** A free buffer goes back to the pool. *)
Lemma mem_wf_put m m' hs :
  mem_wf m -> arrays m' = arrays m -> handles m' = handles m -> next m' = next m ->
  free m' ≡ₚ hs ++ free m -> NoDup hs ->
  (forall h, h ∈ hs -> (h ∉ free m) /\ is_Some (handles m !! h)) -> mem_wf m'.
Proof.
  intros (Hnd & Hf & Hinj & Hlt) Ha Hh Hn Hp Hnds Hhs.
  split_and!; rewrite ?Hh, ?Hn; [|..|done|done].
  - rewrite Hp. apply NoDup_app. split_and!; [done| |done]. intros x Hx. by apply Hhs.
  - intros h Hin. rewrite Hp in Hin. apply elem_of_app in Hin as [Hin|Hin]; [by apply Hhs|by apply Hf].
Qed.

(** Stream [i] returns the buffers [hs] of its chunks to the pool and keeps
    [o']. *)
Lemma sys_give_back y i s m' o' hs :
  sys_wf y -> bs_streams y !! i = Some s ->
  arrays m' = arrays (bs_mem y) -> handles m' = handles (bs_mem y) -> next m' = next (bs_mem y) ->
  free m' ≡ₚ hs ++ free (bs_mem y) -> NoDup hs -> (forall h, h ∈ hs -> h ∈ owned (held s)) ->
  (forall s', o' = Some s' -> stream_wf m' s' /\
     (forall h, h ∈ owned (held s') -> h ∈ owned (held s) /\ h ∉ hs)) ->
  let y' := mkBodySys m' (partial_alter (fun _ => o') i (bs_streams y)) in
  sys_wf y' /\ abs y' = partial_alter (fun _ => abs_stream m' <$> o') i (abs y).
Proof.
  intros Hy Hi Ha Hh Hn Hp Hnd Hsub Hnew. pose proof Hy as (Hm & Hs & Hfree & Hdisj).
  apply sys_change; [done|..].
  - eapply mem_wf_put; eauto. intros h Hin%Hsub. split; [by eapply Hfree|].
    apply owned_elem in Hin as (c & Hc & Hb). destruct (Hs _ _ Hi) as (_ & Hall & _).
    eapply Forall_forall in Hc; [|exact Hall]. destruct Hc as (h' & ? & ? & _). simplify_eq. eauto.
  - intros s' Hs'. destruct (Hnew _ Hs') as [? Hown]. split; [done|]. intros h [Ho Hno]%Hown.
    rewrite Hp. intros [?|?]%elem_of_app; [done|]. by eapply Hfree.
  - intros j sj c h Hne Hj Hc Hb. rewrite Ha, Hh. split_and!; [done..| |].
    + assert (Ho : h ∈ owned (held sj)) by (apply owned_elem; eauto).
      rewrite Hp. intros [Hin|Hin]%elem_of_app; [|by eapply Hfree in Hin].
      apply Hne. eauto.
    + intros s' Hs' Hin. destruct (Hnew _ Hs') as [_ Hown].
      destruct (Hown _ Hin) as [Hin' _]. apply Hne. eapply Hdisj; eauto. apply owned_elem; eauto.
Qed.

Lemma sl_bytes_split m sl n :
  (n <= sl_len sl)%nat -> sl_bytes m sl = sl_bytes m (sl_prefix sl n) ++ sl_bytes m (sl_advance sl n).
Proof.
  intros Hn. unfold sl_bytes; simpl. rewrite <- drop_drop.
  set (l := drop _ _). rewrite <- (take_drop n (take (sl_len sl) l)), take_take, Nat.min_l by lia.
  by rewrite skipn_firstn_comm.
Qed.

Lemma sl_bytes_length m c :
  chunk_wf m c -> forall n, (n <= sl_len (Data c))%nat -> length (sl_bytes m (sl_prefix (Data c) n)) = n.
Proof.
  intros (h & _ & _ & _ & Ho) n Hn. unfold sl_bytes; simpl. rewrite length_take, length_drop. lia.
Qed.

Lemma chunk_wf_advance m c n :
  chunk_wf m c -> (n < sl_len (Data c))%nat ->
  chunk_wf m (mkDataChunk (Bp c) (sl_advance (Data c) n)).
Proof. intros (h & ? & ? & ? & ?) Hn. exists h; simpl. split_and!; try done; lia. Qed.

(** What a read of the first chunk is to the FIFO. *)
Lemma head_read m s c rest plen :
  held s = c :: rest -> stale s = 0%nat -> chunk_wf m c ->
  let n := Nat.min plen (sl_len (Data c)) in
  forall rest', chunks_bytes m (c :: rest) = sl_bytes m (sl_prefix (Data c) n) ++ rest' ->
  fifo_read plen (abs_stream m s) (RRead (sl_bytes m (sl_prefix (Data c) n))) (mkFifo rest' (s_dataDone s) (s_dataErr s)).
Proof.
  intros Hh Hst Hc n rest' Heq. assert (Hn : (n <= sl_len (Data c))%nat) by lia.
  pose proof (sl_bytes_length _ _ Hc _ Hn) as Hlen. pose proof Hc as (hc & _ & _ & Hpos & _).
  unfold abs_stream. rewrite Hh, Hst, Heq. constructor; [|lia|].
  - rewrite <- Heq. intros Hnil%(f_equal length). rewrite chunks_bytes_cons, length_app in Hnil.
    rewrite (sl_bytes_split _ _ _ Hn), length_app, Hlen in Hnil. simpl in Hnil.
    pose proof (sl_bytes_length _ _ Hc (sl_len (Data c)) ltac:(lia)) as Hl2.
    unfold sl_bytes in *; simpl in *. rewrite !length_take, !length_drop in *. lia.
  - intros Hp Hnil. rewrite Hnil in Hlen. simpl in Hlen. lia.
Qed.

Lemma stale_read_refines y i s plen m' s' r :
  sys_wf y -> bs_streams y !! i = Some s -> (0 < stale s)%nat -> Read (bs_mem y) s plen = (m', s', r) ->
  sys_wf (mkBodySys m' (<[i := s']> (bs_streams y))) /\
  fifo_op (abs y) (BRead i plen) (Some r) (abs (mkBodySys m' (<[i := s']> (bs_streams y)))).
Proof.
  intros Hy Hi Hpos H. destruct (Read_stale (bs_mem y) s plen Hpos) as (s1 & bs & E & Hl & Eq & Eh & Ed & Ee & Ec & Est).
  rewrite E in H. simplify_eq. pose proof Hy as (_ & Hs & _). pose proof (Hs _ _ Hi) as ((Hq & Hr) & Hall & Hnd).
  destruct (sys_same_chunks y i s s') as [? ->]; [done|done| |by rewrite Ec|].
  { unfold stream_wf, ring_wf. rewrite Ec, Eq, Eh. by split_and!. }
  split; [done|].
  apply (fo_read _ _ _ (abs_stream (bs_mem y) s)); [unfold abs; by rewrite lookup_fmap, Hi|].
  unfold abs_stream. rewrite Ec, Ed, Ee, Est. by constructor.
Qed.

Lemma read_refines y i s plen m' s' r :
  sys_wf y -> bs_streams y !! i = Some s -> Read (bs_mem y) s plen = (m', s', r) ->
  sys_wf (mkBodySys m' (<[i := s']> (bs_streams y))) /\
  fifo_op (abs y) (BRead i plen) (Some r) (abs (mkBodySys m' (<[i := s']> (bs_streams y)))).
Proof.
  intros Hy Hi H. pose proof Hy as (Hm & Hs & Hfree & Hdisj).
  pose proof (Hs _ _ Hi) as Hwf. pose proof Hwf as (_ & Hall & Hnd).
  assert (Hi' : abs y !! i = Some (abs_stream (bs_mem y) s)) by (unfold abs; by rewrite lookup_fmap, Hi).
  destruct (decide (0 < stale s)%nat) as [Hpos|Hz].
  { by apply (stale_read_refines y i s plen). }
  assert (Hst : stale s = 0%nat) by lia.
  destruct (Read_spec _ _ _ _ _ _ Hwf Hst H) as (Hd & He & Hring & Hnone & Hcase).
  destruct (held s) as [|c rest] eqn:Hh.
  - destruct Hcase as (-> & Hh' & ->).
    destruct (sys_same_chunks y i s s') as [? ->]; [done|done| |rewrite Hh'; by intros ? ?%not_elem_of_nil|].
    { split_and!; rewrite ?Hh'; [done|constructor|constructor]. }
    split; [done|]. econstructor; [done|]. unfold abs_stream. rewrite Hh, Hh', Hst, Hnone, Hd, He.
    destruct (s_dataDone s), (s_dataErr s); constructor.
  - inv Hall. rename H2 into Hc, H3 into Hall.
    assert (Hn : (Nat.min plen (sl_len (Data c)) <= sl_len (Data c))%nat) by lia.
    pose proof Hc as (hc & Hbc & _ & _ & _).
    pose proof (head_read (bs_mem y) s c rest plen Hh Hst Hc) as Hread.
    destruct Hcase as [-> [(Hlt & -> & Hh')|(Heq & -> & Hh')]].
    + destruct (sys_same_chunks y i s s') as [? ->]; [done|done| | |].
      { split_and!; rewrite ?Hh'; [done| |].
        - constructor; [by apply chunk_wf_advance|done].
        - unfold owned in *. simpl in *. by rewrite Hbc in *. }
      { rewrite Hh, Hh'. unfold owned; simpl. done. }
      split; [done|]. econstructor; [done|]. unfold abs_stream at 2. rewrite Hh', Hnone, Hd, He.
      apply Hread. rewrite !chunks_bytes_cons, (sl_bytes_split _ (Data c) _ Hn). by rewrite <- app_assoc.
    + rewrite Hbc in *.
      destruct (sys_give_back y i s (PutDataSlice (bs_mem y) (Some hc)) (Some s') [hc]) as [? Habs];
        [done..|by apply NoDup_singleton| | |].
      { intros h ->%list_elem_of_singleton. rewrite Hh. unfold owned; simpl. rewrite Hbc. left. }
      { intros ? [= <-]. split.
        - split_and!; rewrite ?Hh'; [done| |].
          + eapply Forall_impl; [done|]. intros ? ?. by apply put_chunk_wf.
          + unfold owned in *; simpl in Hnd. rewrite Hbc in Hnd. by inv Hnd.
        - rewrite Hh, Hh'. unfold owned in *; simpl in *. rewrite Hbc in *. intros h Hin. inv Hnd.
          split; [by right|]. intros ->%list_elem_of_singleton. done. }
      split; [done|]. unfold insert, map_insert; rewrite Habs.
      apply (fo_read _ _ _ (abs_stream (bs_mem y) s)); [done|]. unfold abs_stream at 2.
      rewrite Hh', Hnone, Hd, He, put_bytes. apply Hread. by rewrite chunks_bytes_cons, Heq.
Qed.

(** A buffer just handed out belongs to no stream. *)
Lemma fresh_handle y h :
  sys_wf y -> (h ∈ free (bs_mem y)) \/ handles (bs_mem y) !! h = None ->
  forall j sj c h2, bs_streams y !! j = Some sj -> c ∈ held sj -> Bp c = Some h2 ->
  h2 <> h /\ handles (bs_mem y) !! h2 = Some (sl_arr (Data c)).
Proof.
  intros (Hm & Hs & Hfree & Hdisj) Hnew j sj c h2 Hj Hc2 Hb2. assert (h2 ∈ owned (held sj)) by (apply owned_elem; eauto).
  destruct (Hs _ _ Hj) as (_ & Hall & _). eapply Forall_forall in Hall; [|done].
  destruct Hall as (h3 & ? & ? & _). simplify_eq. split; [|done]. intros ->.
  destruct Hnew as [?|?]; [by eapply Hfree|congruence].
Qed.

Lemma push_refines y i s ch data m' s' :
  sys_wf y -> bs_streams y !! i = Some s -> pushBytes (bs_mem y) s ch data = (m', s') ->
  sys_wf (mkBodySys m' (<[i := s']> (bs_streams y))) /\
  fifo_op (abs y) (BPush i ch data) None (abs (mkBodySys m' (<[i := s']> (bs_streams y)))).
Proof.
  intros Hy Hi H. pose proof Hy as (Hm & Hs & Hfree & Hdisj). pose proof (Hs _ _ Hi) as Hwf.
  assert (Hi' : abs y !! i = Some (abs_stream (bs_mem y) s)) by (unfold abs; by rewrite lookup_fmap, Hi).
  destruct (decide (0 < length data)%nat) as [Hl|Hl].
  - destruct (pushBytes_spec _ _ _ _ _ _ Hm Hwf (fun h => Hfree i s h Hi) H Hl)
      as (sl & h & [Hm' [Hfr Hfr'] Hnew Hh _ _ Hframe] & Hheld & Hb & Hc & ->).
    pose proof (fresh_handle y h Hy Hnew) as Hne.
    destruct Hwf as ((Hq & Hr) & Hall & Hnd).
    assert (Hf : Forall (chunk_wf m') (held s) /\ chunks_bytes m' (held s) = chunks_bytes (bs_mem y) (held s)).
    { apply chunks_frame; [done|]. intros c h2 Hc2 Hb2. destruct (Hne _ _ _ _ Hi Hc2 Hb2) as [? Ha].
      destruct (Hframe h2 _ ltac:(done) Ha) as (-> & -> & _). done. }
    destruct (sys_change y i m' (Some (PushData s (mkDataChunk (Some h) sl)))) as [? Habs]; [done|done|..].
    { intros ? [= <-]. split.
      - split_and!; [split; simpl; rewrite length_app; simpl; lia|..].
        + rewrite Hheld. apply Forall_app. split; [apply Hf|by constructor].
        + rewrite Hheld. unfold owned in *. rewrite omap_app; simpl. apply NoDup_app. split_and!; [done| |by apply NoDup_singleton].
          intros h2 Hin ->%list_elem_of_singleton. apply owned_elem in Hin as (c & Hc2 & Hb2).
          by destruct (Hne _ _ _ _ Hi Hc2 Hb2).
      - rewrite Hheld. unfold owned. rewrite omap_app; simpl. intros h2 [Hin|Hin]%elem_of_app.
        + intros Hin'%Hfr'. by eapply Hfree.
        + apply list_elem_of_singleton in Hin as ->. done. }
    { intros j sj c h2 Hne' Hj Hc2 Hb2. destruct (Hne _ _ _ _ Hj Hc2 Hb2) as [Hx Ha].
      destruct (Hframe h2 _ Hx Ha) as (-> & -> & _). split_and!; [done|done| |].
      - intros ?%Hfr'. eapply Hfree; eauto. apply owned_elem; eauto.
      - intros ? [= <-]. rewrite Hheld. unfold owned. rewrite omap_app; simpl.
        intros [Hin|Hin%list_elem_of_singleton]%elem_of_app; [|done].
        apply Hne'. eapply Hdisj; eauto. apply owned_elem; eauto. }
    split; [done|]. unfold insert, map_insert. rewrite Habs. simpl.
    replace (abs_stream m' (PushData s (mkDataChunk (Some h) sl)))
      with (mkReader (garbled (abs_stream (bs_mem y) s)) (pending (abs_stream (bs_mem y) s) ++ data) (ended (abs_stream (bs_mem y) s))
              (failure (abs_stream (bs_mem y) s))); [by apply (fo_push (abs y) i ch data)|].
    unfold abs_stream; simpl. rewrite Hheld, chunks_bytes_app, (proj2 Hf). f_equal. f_equal.
    unfold chunks_bytes; simpl. by rewrite app_nil_r.
  - destruct data; simpl in Hl; [|lia]. unfold pushBytes in H. simplify_eq/=.
    destruct (sys_same_chunks y i s' s') as [? ->]; [done..|]. split; [done|].
    replace (abs_stream (bs_mem y) s')
      with (mkReader (garbled (abs_stream (bs_mem y) s')) (pending (abs_stream (bs_mem y) s') ++ []) (ended (abs_stream (bs_mem y) s'))
              (failure (abs_stream (bs_mem y) s'))); [by constructor|].
    simpl. by rewrite app_nil_r.
Qed.

Lemma owned_NoDup y i s : sys_wf y -> bs_streams y !! i = Some s -> NoDup (owned (held s)).
Proof. intros (_ & Hs & _) Hi. apply (Hs _ _ Hi). Qed.

(** What is left of the current chunk is undelivered. *)
Lemma current_undelivered m s h :
  stream_wf m s -> bp (s_body s) = Some h -> (sl_len (buf (s_body s)) <= length (chunks_bytes m (held s)))%nat.
Proof.
  intros (_ & Hall & _) Hb. unfold held in *. rewrite Hb in *. apply Forall_cons in Hall as [Hc _]. cbn [app].
  rewrite chunks_bytes_cons, length_app.
  pose proof (sl_bytes_length _ _ Hc (sl_len (buf (s_body s))) ltac:(done)) as E.
  unfold sl_bytes in *. cbn [Data sl_prefix sl_len sl_off sl_arr] in *. lia.
Qed.

(** [Close], whether or not the current chunk has been consumed. *)
Lemma close_refines y i s m' s' :
  sys_wf y -> bs_streams y !! i = Some s -> BodyClose (bs_mem y) s = (m', s') ->
  sys_wf (mkBodySys m' (<[i := s']> (bs_streams y))) /\
  fifo_op (abs y) (BClose i) None (abs (mkBodySys m' (<[i := s']> (bs_streams y)))).
Proof.
  intros Hy Hi H. unfold BodyClose in H.
  destruct (returnBuf (bs_mem y) (s_body s)) as [m1 r] eqn:Hr. simplify_eq.
  destruct (give_back_free _ _ _ _ Hr) as (Ha & Hh & Hn & Hp).
  assert (Hr' : bp r = None /\ buf r = buf (s_body s)).
  { unfold returnBuf in Hr. by destruct (bp (s_body s)) eqn:?; simplify_eq. }
  destruct Hr' as [Hr1 Hr2].
  assert (Hheld : held (set_body (set_queue s [] 0) r) = []) by (unfold held; simpl; by rewrite Hr1).
  destruct (sys_give_back y i s _ (Some (set_body (set_queue s [] 0) r)) _ Hy Hi Ha Hh Hn Hp)
    as [? Habs]; [by eapply owned_NoDup|done| |].
  { intros ? [= <-]. rewrite Hheld. split; [|by intros ? ?%not_elem_of_nil].
    split_and!; simpl; rewrite ?Hheld; [split; simpl; lia|constructor|constructor]. }
  split; [done|]. unfold insert, map_insert. rewrite Habs. simpl. unfold abs_stream. rewrite Hheld.
  apply (fo_close (abs y) i (abs_stream (bs_mem y) s)); [unfold abs; by rewrite lookup_fmap, Hi|..];
    unfold stale; cbn; rewrite Hr1, Hr2; unfold stale.
  - destruct (bp (s_body s)) as [h|] eqn:Hb; [|lia]. intros _. eapply current_undelivered; [|done].
    by apply (proj1 (proj2 Hy) i).
  - destruct (bp (s_body s)); [lia|done].
Qed.

Lemma release_refines y i s m' s' :
  sys_wf y -> bs_streams y !! i = Some s -> Release (bs_mem y) s = (m', s') ->
  sys_wf (mkBodySys m' (delete i (bs_streams y))) /\
  fifo_op (abs y) (BRelease i) None (abs (mkBodySys m' (delete i (bs_streams y)))).
Proof.
  intros Hy Hi H. unfold Release in H.
  destruct (returnBuf (bs_mem y) (s_body s)) as [m1 r] eqn:Hr. simplify_eq.
  destruct (give_back_free _ _ _ _ Hr) as (Ha & Hh & Hn & Hp).
  destruct (sys_give_back y i s _ None _ Hy Hi Ha Hh Hn Hp) as [? Habs];
    [by eapply owned_NoDup|done|done|].
  split; [done|]. unfold delete, map_delete. rewrite Habs. apply (fo_release (abs y) i).
  unfold abs. rewrite lookup_fmap, Hi. by eexists.
Qed.

(** A step of the streams of the process. *)
Definition body_step (y : BodySys) (l : BOp * option ReadResult) (y' : BodySys) : Prop :=
  body_op y l.1 = Some (y', l.2).

Definition fifo_step (fs : gmap Z Fifo) (l : BOp * option ReadResult) (fs' : gmap Z Fifo) : Prop :=
  fifo_op fs l.1 l.2 fs'.

Lemma body_step_refines y l y' :
  sys_wf y -> body_step y l y' -> sys_wf y' /\ fifo_step (abs y) l (abs y').
Proof.
  intros Hy H. destruct y as [m ss], l as [o r]. unfold fifo_step, body_step in *. simpl in *.
  assert (Habs : forall i s, ss !! i = Some s -> abs (mkBodySys m ss) !! i = Some (abs_stream m s)).
  { intros i s Hi. unfold abs; simpl. by rewrite lookup_fmap, Hi. }
  destruct o as [i c w|i ch data|i|i e|i plen|i|i]; simpl in *;
    destruct (ss !! i) as [s|] eqn:Hi; simplify_eq/=.
  - pose proof Hy as (Hm & Hs & Hfree & Hdisj).
    destruct (sys_change (mkBodySys m ss) i m (Some (Acquire newStream i c w))) as [? Ha]; [done|done|..].
    { intros ? [= <-]. split; [|by intros ? ?%not_elem_of_nil].
      split_and!; [split; simpl; lia|constructor|constructor]. }
    { intros j sj ch h Hne Hj Hc Hb. split_and!; [done..| |by intros ? [= <-] ?%not_elem_of_nil].
      eapply Hfree; [done|]. apply owned_elem; eauto. }
    split; [done|]. unfold insert, map_insert. simpl in Ha. rewrite Ha.
    apply fo_acquire. unfold abs; simpl. by rewrite lookup_fmap, Hi.
  - destruct (pushBytes m s ch data) as [m' s'] eqn:Hp; simplify_eq/=.
    by apply (push_refines (mkBodySys m ss) i s).
  - destruct (sys_same_chunks (mkBodySys m ss) i s (CloseData s)) as [? Ha]; [done|done| |done|].
    { pose proof Hy as (_ & Hs & _). apply (Hs _ _ Hi). }
    simpl in Ha. rewrite Ha. split; [done|]. by apply (fo_close_data _ i (abs_stream m s)), Habs.
  - destruct (sys_same_chunks (mkBodySys m ss) i s (FailBody s e)) as [? Ha]; [done|done| |done|].
    { pose proof Hy as (_ & Hs & _). apply (Hs _ _ Hi). }
    simpl in Ha. rewrite Ha. split; [done|].
    replace (abs_stream m (FailBody s e)) with
      (mkReader (garbled (abs_stream m s)) (pending (abs_stream m s)) true (match failure (abs_stream m s) with None => Some e | x => x end)).
    2: { unfold abs_stream; simpl. by destruct (s_dataErr s). }
    by apply (fo_fail _ i e (abs_stream m s)), Habs.
  - destruct (Read m s plen) as [[m' s'] r'] eqn:Hr; simplify_eq/=.
    by apply (read_refines (mkBodySys m ss) i s).
  - destruct (BodyClose m s) as [m' s'] eqn:Hr; simplify_eq/=.
    by apply (close_refines (mkBodySys m ss) i s).
  - destruct (Release m s) as [m' s'] eqn:Hr; simplify_eq/=.
    by apply (release_refines (mkBodySys m ss) i s m' s').
Qed.

Lemma sys_wf_init : sys_wf body_init.
Proof.
  split_and!; simpl; try done.
  split_and!; simpl; try done; [constructor|by intros ? ?%not_elem_of_nil].
Qed.

Lemma body_steps_refine y ls y' :
  steps body_step y ls y' -> sys_wf y -> sys_wf y' /\ steps fifo_step (abs y) ls (abs y').
Proof.
  induction 1 as [y|y l y1 ls y2 Hst _ IH]; intros Hy; [by split; [|constructor]|].
  destruct (body_step_refines _ _ _ Hy Hst) as [Hy1 Hf].
  destruct (IH Hy1) as [? ?]. split; [done|]. by econstructor.
Qed.

(** Bytes pushed to / read from stream [i] by a label. *)
Definition pushed (i : Z) (l : BOp * option ReadResult) : list byte :=
  match l.1 with BPush j _ data => if decide (i = j) then data else [] | _ => [] end.

Definition delivered (i : Z) (l : BOp * option ReadResult) : list byte :=
  match l with
  | (BRead j _, Some (RRead bs)) => if decide (i = j) then bs else []
  | _ => []
  end.

(** The label leaves the queue of stream [i] alive. *)
Definition keeps (i : Z) (l : BOp * option ReadResult) : Prop :=
  match l.1 with BClose j | BRelease j | BAcquire j _ _ => i <> j | _ => True end.

Lemma fifo_step_order fs l fs' i f :
  fifo_step fs l fs' -> keeps i l -> fs !! i = Some f -> garbled f = 0%nat ->
  exists f', fs' !! i = Some f' /\ garbled f' = 0%nat /\ pending f ++ pushed i l = delivered i l ++ pending f'.
Proof.
  intros H Hk Hf Hg. destruct l as [o r]. unfold fifo_step, keeps, pushed in *. simpl in *.
  destruct H as [fs j c w Hj|fs j ch data g Hj|fs j g Hj|fs j e g Hj|fs j plen g r g' Hj Hr|fs j g n Hj|fs j Hj];
    simpl in *; try (exists f; rewrite app_nil_r; by rewrite ?lookup_insert_ne, ?lookup_delete_ne by done);
    (destruct (decide (i = j)) as [<-|Hne];
      [|exists f; rewrite app_nil_r, lookup_insert_ne by done; split_and!; [done|done|]; try destruct r; done]);
    rewrite lookup_insert_eq; simplify_eq; eexists; (split; [done|]); simpl; rewrite ?app_nil_r; try done.
  inv Hr; simpl in *; [lia|done..].
Qed.

Lemma fifo_steps_order fs ls fs' i f :
  steps fifo_step fs ls fs' -> Forall (keeps i) ls -> fs !! i = Some f -> garbled f = 0%nat ->
  exists f', fs' !! i = Some f' /\
    pending f ++ concat (pushed i <$> ls) = concat (delivered i <$> ls) ++ pending f'.
Proof.
  intros H. revert f. induction H as [fs|fs l fs1 ls fs2 Hst _ IH]; intros f Hk Hf Hg.
  - exists f. split; [done|]. apply app_nil_r.
  - inv Hk. destruct (fifo_step_order _ _ _ _ _ Hst H1 Hf Hg) as (f1 & Hf1 & Hg1 & E1).
    destruct (IH f1) as (f2 & Hf2 & E2); [done..|]. exists f2. split; [done|].
    rewrite !fmap_cons, !concat_cons, app_assoc, E1, <- !app_assoc. by f_equal.
Qed.

Lemma fifo_op_read_inv fs i plen r fs' f :
  fifo_op fs (BRead i plen) (Some r) fs' -> fs !! i = Some f ->
  exists f', fifo_read plen f r f' /\ fs' !! i = Some f'.
Proof. intros H Hf. inv H. simplify_eq. eexists. by rewrite lookup_insert_eq. Qed.

(** Reading until something other than bytes comes back, with a buffer of
    [plen] bytes: the loop of [io.ReadAll] and of [writeResponse]. *)
Fixpoint readAll (fuel : nat) (m : Mem) (s : Stream) (plen : nat) : Mem * Stream * list byte * option ReadResult :=
  match fuel with
  | O => (m, s, [], None)
  | S fuel =>
      let '(m, s, r) := Read m s plen in
      match r with
      | RRead bs =>
          let '(m, s, rest, e) := readAll fuel m s plen in (m, s, bs ++ rest, e)
      | r => (m, s, [], Some r)
      end
  end.

(** ** The properties *)


(** Nothing is lost, duplicated or reordered: from any reachable state on,
    what was queued for a stream followed by what is pushed to it equals what
    its reader gets followed by what is still queued, as long as it is not
    closed, whatever happens on the other streams in between. *)
Theorem bytes_delivered_in_order ls0 y ls y' i s :
  steps body_step body_init ls0 y -> steps body_step y ls y' -> Forall (keeps i) ls ->
  bs_streams y !! i = Some s -> stale s = 0%nat ->
  exists s', bs_streams y' !! i = Some s' /\
    chunks_bytes (bs_mem y) (held s) ++ concat (pushed i <$> ls) =
    concat (delivered i <$> ls) ++ chunks_bytes (bs_mem y') (held s').
Proof.
  intros H0 H Hk Hi Hst. destruct (body_steps_refine _ _ _ H0 sys_wf_init) as [Hy _].
  destruct (body_steps_refine _ _ _ H Hy) as [Hy' Hf].
  destruct (fifo_steps_order _ _ _ i (abs_stream (bs_mem y) s) Hf Hk) as (f' & Hf' & E).
  { unfold abs. by rewrite lookup_fmap, Hi. }
  { done. }
  unfold abs in Hf'. rewrite lookup_fmap in Hf'.
  destruct (bs_streams y' !! i) as [s'|]; simplify_eq/=. by exists s'.
Qed.

(** C40. Every pooled buffer has one owner, and the ring stays compact: in a
    reachable state no handle is held twice, by two streams or by a stream and
    the pool (so no buffer is returned twice); the bytes a stream has not
    delivered yet lie in arrays that no other stream's bytes and no pooled
    handle lie in; and a stream's slice has at most [2 * live + 8] slots.  The
    slice that a reader closed in the middle of a chunk keeps is not among
    them: its buffer has been given back. *)
Theorem buffers_owned_once_and_ring_bounded ls y i j si sj :
  steps body_step body_init ls y -> i <> j ->
  bs_streams y !! i = Some si -> bs_streams y !! j = Some sj ->
  NoDup (free (bs_mem y) ++ owned (held si) ++ owned (held sj)) /\
  (forall c, c ∈ held si ->
     (forall c', c' ∈ held sj -> sl_arr (Data c) <> sl_arr (Data c')) /\
     (forall h, h ∈ free (bs_mem y) -> handles (bs_mem y) !! h <> Some (sl_arr (Data c)))) /\
  (length (s_queue si) <= 2 * length (drop (s_qHead si) (s_queue si)) + 8)%nat.
Proof.
  intros H Hne Hi Hj. destruct (body_steps_refine _ _ _ H sys_wf_init) as [(Hm & Hs & Hfree & Hdisj) _].
  destruct (Hs _ _ Hi) as ((Hq & Hr) & Hci & Hndi). destruct (Hs _ _ Hj) as (_ & Hcj & Hndj).
  pose proof Hm as (Hndf & _ & Hinj & _). split_and!; [| |rewrite length_drop; lia].
  - apply NoDup_app. split_and!; [done| |].
    + intros h Hf [Ho|Ho]%elem_of_app; [eapply (Hfree i)|eapply (Hfree j)]; eauto.
    + apply NoDup_app. split_and!; [done| |done]. intros h H1 H2. apply Hne. eauto.
  - intros c Hc. pose proof (proj1 (Forall_forall _ _) Hci c Hc) as (h & Hb & Hh & _).
    assert (Ho : h ∈ owned (held si)) by (apply owned_elem; eauto). split.
    + intros c' Hc' E. pose proof (proj1 (Forall_forall _ _) Hcj c' Hc') as (h' & Hb' & Hh' & _). rewrite <- E in Hh'.
      rewrite <- (Hinj _ _ _ Hh Hh') in Hb'. apply Hne. eapply Hdisj; eauto. apply owned_elem; eauto.
    + intros h' Hf Hh'. rewrite (Hinj _ _ _ Hh' Hh) in Hf. by eapply (Hfree i).
Qed.

(** A reader that keeps reading drains the body: on a stream whose peer
    has ended it, at most one read per queued byte plus one returns everything
    queued, in order, followed by EOF or the recorded failure. *)
Theorem readAll_drains y i s plen fuel :
  sys_wf y -> bs_streams y !! i = Some s -> stale s = 0%nat -> (0 < plen)%nat -> s_dataDone s = true ->
  (length (chunks_bytes (bs_mem y) (held s)) < fuel)%nat ->
  exists m' s', readAll fuel (bs_mem y) s plen =
    (m', s', chunks_bytes (bs_mem y) (held s),
     Some (match s_dataErr s with Some e => RErr e | None => REOF end)).
Proof.
  intros Hy Hi Hst Hp. revert y s Hy Hi Hst. induction fuel as [|fuel IH]; intros y s Hy Hi Hst Hd Hl; [lia|].
  simpl. destruct (Read (bs_mem y) s plen) as [[m' s'] r] eqn:Hr.
  pose proof Hy as (_ & Hs & _).
  destruct (Read_spec _ _ _ _ _ _ (Hs _ _ Hi) Hst Hr) as (Hd' & He' & _ & Hst' & Hcase).
  destruct (read_refines _ _ _ _ _ _ _ Hy Hi Hr) as [Hy' Hf].
  destruct (held s) as [|c rest] eqn:Hh.
  - destruct Hcase as (-> & _ & ->). rewrite Hd. destruct (s_dataErr s); eauto.
  - destruct Hcase as [-> _].
    destruct (fifo_op_read_inv _ _ _ _ _ (abs_stream (bs_mem y) s) Hf) as (f' & Hfr & Hf').
    { unfold abs. by rewrite lookup_fmap, Hi. }
    unfold abs in Hf'; simpl in Hf'. rewrite lookup_fmap, lookup_insert_eq in Hf'. simplify_eq/=.
    unfold abs_stream in Hfr. rewrite Hh, Hst in Hfr. inv Hfr; [lia|].
    destruct (IH (mkBodySys m' (<[i:=s']> (bs_streams y))) s' Hy') as (m2 & s2 & E);
      [apply lookup_insert_eq|done|congruence| |].
    { simpl. match goal with E : _ ++ _ = chunks_bytes _ (c :: rest) |- _ => rewrite <- E, length_app in Hl end.
      assert (sl_bytes (bs_mem y) (sl_prefix (Data c) (plen `min` sl_len (Data c))) <> []) by auto.
      destruct (sl_bytes (bs_mem y) _); simpl in *; [done|lia]. }
    simpl in E. rewrite E. exists m2, s2. rewrite He'. by do 3 f_equal.
Qed.

(** After [Close] a partially read body leaks another stream's data: the
    reader keeps its slice into the buffer it has returned to the pool, so
    when that buffer is reused for a DATA frame of stream [t], the next [Read]
    on the closed body returns bytes of that frame. *)
Theorem read_after_close_leaks m s t h data plen m1 s1 m2 t2 :
  bp (s_body s) = Some h -> handles m !! h = Some (sl_arr (buf (s_body s))) ->
  (0 < sl_len (buf (s_body s)))%nat ->
  (sl_off (buf (s_body s)) + sl_len (buf (s_body s)) <= length data)%nat ->
  (length data <= length (default [] (arrays m !! sl_arr (buf (s_body s)))))%nat ->
  BodyClose m s = (m1, s1) -> pushBytes m1 t (Some h) data = (m2, t2) ->
  exists m3 s3, Read m2 s1 plen =
    (m3, s3, RRead (take (Nat.min plen (sl_len (buf (s_body s)))) (drop (sl_off (buf (s_body s))) data))).
Proof.
  intros Hb Hh Hlen Hoff Hcap Hc Hp. unfold BodyClose in Hc.
  destruct (returnBuf m (s_body s)) as [m0 r] eqn:Hr. unfold returnBuf in Hr. rewrite Hb in Hr.
  simplify_eq. set (q := drop _ _) in *.
  destruct (putChunks_mem (PutDataSlice m (Some h)) q) as (Ha & Hhd & _ & Hfr).
  destruct (putChunks (PutDataSlice m (Some h)) q) as [ars hds frs nx]. simpl in Ha, Hhd, Hfr. subst.
  unfold pushBytes in Hp. rewrite (proj2 (Nat.ltb_lt 0 _)) in Hp by lia.
  unfold GetDataSlice, pool_get in Hp.
  rewrite decide_True in Hp by (simpl; apply elem_of_app; right; left).
  simpl in Hp. rewrite Hh in Hp; simpl in Hp.
  rewrite (proj2 (Nat.ltb_ge _ _)) in Hp by done. simplify_eq.
  unfold Read; simpl. rewrite (proj2 (Nat.ltb_lt 0 _) Hlen). unfold sl_bytes; simpl.
  rewrite lookup_insert_eq; simpl.
  assert (E : forall rest, take (plen `min` sl_len (buf (s_body s)))
      (drop (sl_off (buf (s_body s))) (data ++ rest)) =
    take (plen `min` sl_len (buf (s_body s))) (drop (sl_off (buf (s_body s))) data)).
  { intros rest. rewrite drop_app_le, take_app_le; [done|rewrite length_drop; lia|lia]. }
  rewrite E. destruct (_ =? 0)%nat; eauto.
Qed.

(** ** Witnesses *)

(** Running a sequence of body operations. *)
Fixpoint body_run (y : BodySys) (os : list BOp) : option (BodySys * list (BOp * option ReadResult)) :=
  match os with
  | [] => Some (y, [])
  | o :: os =>
      '(y1, r) ← body_op y o; '(y2, ls) ← body_run y1 os; Some (y2, (o, r) :: ls)
  end.

Lemma body_run_steps os y y' ls : body_run y os = Some (y', ls) -> steps body_step y ls y'.
Proof.
  revert y ls. induction os as [|o os IH]; intros y ls H; simplify_eq/=; [constructor|].
  destruct (body_op y o) as [[y1 r]|] eqn:Ho; simplify_eq/=.
  destruct (body_run y1 os) as [[y2 ls2]|] eqn:Hr; simplify_eq/=.
  econstructor; [exact Ho|by apply IH].
Qed.

(** Two streams; the first one is read in part. *)
Definition demo_ops : list BOp :=
  [BAcquire 1 0 65535; BAcquire 3 0 65535; BPush 1 None [x61; x62; x63]; BPush 3 None [x70];
   BRead 1 2; BPush 1 None [x64]; BCloseData 1].

Definition demo_body : BodySys * list (BOp * option ReadResult) :=
  default (body_init, []) (body_run body_init demo_ops).

Lemma demo_body_steps : steps body_step body_init demo_body.2 demo_body.1.
Proof.
  apply (body_run_steps demo_ops). vm_compute. reflexivity.
Qed.

Lemma demo_body_wf : sys_wf demo_body.1.
Proof. exact (proj1 (body_steps_refine _ _ _ demo_body_steps sys_wf_init)). Qed.





Definition demo_stream : Stream := default newStream (bs_streams demo_body.1 !! 1).

Lemma demo_stream_eq : bs_streams demo_body.1 !! 1 = Some demo_stream.
Proof. vm_compute. reflexivity. Qed.

Lemma bytes_delivered_in_order_witness :
  exists s', bs_streams demo_body.1 !! 1 = Some s' /\
    chunks_bytes (bs_mem demo_body.1) (held demo_stream) ++ [] =
    [] ++ chunks_bytes (bs_mem demo_body.1) (held s').
Proof.
  exact (bytes_delivered_in_order _ _ [] _ 1 _ demo_body_steps (steps_nil _ _)
    (Forall_nil_2 _) demo_stream_eq eq_refl).
Defined.

Lemma buffers_owned_once_and_ring_bounded_witness :
  (length (s_queue demo_stream) <= 2 * length (drop (s_qHead demo_stream) (s_queue demo_stream)) + 8)%nat.
Proof.
  refine (proj2 (proj2 (buffers_owned_once_and_ring_bounded _ _ 1 3 demo_stream
    (default newStream (bs_streams demo_body.1 !! 3)) demo_body_steps _ demo_stream_eq _))).
  - done.
  - vm_compute. reflexivity.
Defined.

Lemma readAll_drains_witness :
  exists m' s', readAll 3 (bs_mem demo_body.1) demo_stream 16 =
    (m', s', chunks_bytes (bs_mem demo_body.1) (held demo_stream), Some REOF).
Proof.
  refine (readAll_drains demo_body.1 1 demo_stream 16 3 demo_body_wf demo_stream_eq eq_refl _ _ _).
  - lia.
  - vm_compute. reflexivity.
  - apply Nat.ltb_lt. vm_compute. reflexivity.
Defined.

(** Stream 1 closed with a byte left, its buffer reused for stream 3. *)
Lemma read_after_close_leaks_witness :
  exists m3 s3, Read (pushBytes (BodyClose (bs_mem demo_body.1) demo_stream).1 newStream (Some 0%nat) [x78; x79; x7a]).1
    (BodyClose (bs_mem demo_body.1) demo_stream).2 4 = (m3, s3, RRead [x7a]).
Proof.
  refine (read_after_close_leaks (bs_mem demo_body.1) demo_stream newStream 0 [x78; x79; x7a] 4
    _ _ _ _ _ _ _ _ _ (surjective_pairing _) (surjective_pairing _)).
  - vm_compute. reflexivity.
  - vm_compute. reflexivity.
  - apply Nat.ltb_lt. vm_compute. reflexivity.
  - apply Nat.leb_le. vm_compute. reflexivity.
  - apply Nat.leb_le. vm_compute. reflexivity.
Defined.
