(* ===== verification/WriterLoop.v ===== *)
(** * The writer goroutine and its submitters (internal/h2/writer.go)

    [runWriter], [submit], [submitAsync] and [ShutdownWriter] as a system of
    goroutines: any number of connections, each with its writer and its
    bounded queue, and any number of submitters, all sharing the process-wide
    pool of [done] channels.  The intents and what processing one does are
    parameters here; Writer.v instantiates them.  Every step is one
    synchronisation point of the code (a channel operation or a close).

    The theorems: intents are handled in submission order and at most once,
    nothing is written after the first failure, no submitter is left hanging
    once the writer is dead, and a submitter gets the result of its own intent
    as long as no submitter has given up waiting; a run shows that this
    condition is needed. *)

From S2P Require Import Prelude Errors.

(** Capacity of [writeQ]. *)
Definition writeQSize : nat := 256.

Section WriterLoop.

Context {I W : Type}.
Variable proc : W -> I -> W * option gerror.   (* processIntent *)

(** Where [runWriter] is: in its loop, past the loop with [loopErr] set,
    draining after [close(writeDeadCh)], or gone. *)
Inductive Phase :=
| PRun
| PClosing (e : gerror)
| PDraining (e : gerror)
| PExit.

(** What became of an intent: its submission number, the intent, the value
    for its [done] channel and whether it was handed to [processIntent]. *)
Record Outcome := mkOutcome { o_id : nat; o_intent : I; o_res : option gerror; o_written : bool }.

(** An entry of [writeQ]: the intent with its [done] channel (nil for
    fire-and-forget) and its submission number. *)
Record Entry := mkEntry { e_id : nat; e_intent : I; e_done : option nat }.

(** One connection.  [w_enq] and [w_log] are history: the submissions accepted
    by the queue and their outcomes, both in order. *)
Record WState := mkW {
  w_queue : list Entry;
  w_phase : Phase;
  w_dead : bool;                 (* writeDeadCh is closed *)
  w_err : option gerror;         (* writeErr *)
  w_shutdown : bool;             (* writeShutdown is closed *)
  w_core : W;
  w_enq : list (nat * I);
  w_log : list Outcome
}.

(** A submitter: at its first select, or waiting for its result. *)
Inductive Sub :=
| SubEnq (c : nat) (i : I) (ch : option nat)
| SubWait (c : nat) (i : I) (ch : nat).

(** [y_chan]: the value buffered in a [done] channel (capacity 1), if any.
    [y_pool]: [donePool].  [y_next]: the next channel / submission number. *)
Record WSys := mkWSys {
  y_conns : gmap nat WState;
  y_chan : gmap nat (option gerror);
  y_pool : list nat;
  y_next : nat;
  y_subs : gmap nat Sub
}.

Inductive WLabel :=
| LSubmit (c : nat) (i : I) (choice : option nat)   (* submit, up to the first select *)
| LSubmitAsync (c : nat) (i : I)                    (* submitAsync *)
| LEnqueue (t : nat)                                (* case c.writeQ <- intent *)
| LEnqDead (t : nat)                                (* case <-c.writeDeadCh (first select) *)
| LRecv (t : nat)                                   (* case err := <-done *)
| LGiveUp (t : nat)                                 (* case <-c.writeDeadCh, done empty *)
| LProcess (c : nat)                                (* writer: case intent := <-c.writeQ *)
| LStop (c : nat)                                   (* writer: case <-c.writeShutdown *)
| LCloseDead (c : nat)                              (* writer's defer: writeErr, close(writeDeadCh) *)
| LDrain (c : nat)                                  (* writer's defer: one buffered intent *)
| LExit (c : nat)                                   (* writer's defer: default: return *)
| LShutdown (c : nat).                              (* ShutdownWriter: close(c.writeShutdown) *)

(** What a submitter's call returns. *)
Inductive WObs :=
| OReturn (t : nat) (i : I) (r : option gerror)
| ONone.

Definition new_writer (w : W) : WState := mkW [] PRun false None false w [] [].

Definition set_conn (y : WSys) (c : nat) (w : WState) : WSys :=
  mkWSys (<[c := w]> (y_conns y)) (y_chan y) (y_pool y) (y_next y) (y_subs y).

(** [donePool.Get]: a pooled channel or a new one. *)
Definition get_done (y : WSys) (choice : option nat) : WSys * nat :=
  match choice with
  | Some ch =>
      if decide (ch ∈ y_pool y) then
        (mkWSys (y_conns y) (y_chan y) (filter (fun x => x <> ch) (y_pool y)) (y_next y) (y_subs y), ch)
      else (mkWSys (y_conns y) (y_chan y) (y_pool y) (S (y_next y)) (y_subs y), y_next y)
  | None => (mkWSys (y_conns y) (y_chan y) (y_pool y) (S (y_next y)) (y_subs y), y_next y)
  end.

(** A new submitter [t]. *)
Definition spawn (y : WSys) (s : Sub) : WSys :=
  mkWSys (y_conns y) (y_chan y) (y_pool y) (S (y_next y)) (<[y_next y := s]> (y_subs y)).

(** The deferred function of [submit]: empty [done], return it to the pool. *)
Definition put_done (y : WSys) (ch : option nat) : WSys :=
  match ch with
  | Some ch => mkWSys (y_conns y) (delete ch (y_chan y)) (ch :: y_pool y) (y_next y) (y_subs y)
  | None => y
  end.

Definition finish (y : WSys) (t : nat) (ch : option nat) : WSys :=
  let y := put_done y ch in
  mkWSys (y_conns y) (y_chan y) (y_pool y) (y_next y) (delete t (y_subs y)).

(** [intent.done <- err]: blocks when the buffer is full, nothing on nil. *)
Definition send_done (y : WSys) (ch : option nat) (v : option gerror) : option WSys :=
  match ch with
  | None => Some y
  | Some ch =>
      match y_chan y !! ch with
      | Some _ => None
      | None => Some (mkWSys (y_conns y) (<[ch := v]> (y_chan y)) (y_pool y) (y_next y) (y_subs y))
      end
  end.

(** The writer takes the oldest entry, sends [v] on its channel and records
    the outcome. *)
Definition retire (y : WSys) (c : nat) (w : WState) (en : Entry) (q : list Entry)
    (v : option gerror) (written : bool) (core : W) (ph : Phase) : option WSys :=
  y ← send_done y (e_done en) v;
  Some (set_conn y c (mkW q ph (w_dead w) (w_err w) (w_shutdown w) core (w_enq w)
    (w_log w ++ [mkOutcome (e_id en) (e_intent en) v written]))).

Definition wact (y : WSys) (l : WLabel) : option (WSys * WObs) :=
  match l with
  | LSubmit c i choice =>
      _ ← y_conns y !! c;
      let '(y, ch) := get_done y choice in
      Some (spawn y (SubEnq c i (Some ch)), ONone)
  | LSubmitAsync c i =>
      _ ← y_conns y !! c;
      Some (spawn y (SubEnq c i None), ONone)
  | LEnqueue t =>
      match y_subs y !! t with
      | Some (SubEnq c i ch) =>
          w ← y_conns y !! c;
          if (length (w_queue w) <? writeQSize)%nat then
            let w' := mkW (w_queue w ++ [mkEntry t i ch]) (w_phase w) (w_dead w) (w_err w)
                        (w_shutdown w) (w_core w) (w_enq w ++ [(t, i)]) (w_log w) in
            let y' := set_conn y c w' in
            Some (match ch with
                  | Some ch => mkWSys (y_conns y') (y_chan y') (y_pool y') (y_next y')
                                 (<[t := SubWait c i ch]> (y_subs y'))
                  | None => mkWSys (y_conns y') (y_chan y') (y_pool y') (y_next y') (delete t (y_subs y'))
                  end, ONone)
          else None
      | _ => None
      end
  | LEnqDead t =>
      match y_subs y !! t with
      | Some (SubEnq c i ch) =>
          w ← y_conns y !! c;
          if w_dead w then Some (finish y t ch, OReturn t i (w_err w)) else None
      | _ => None
      end
  | LRecv t =>
      match y_subs y !! t with
      | Some (SubWait c i ch) => v ← y_chan y !! ch; Some (finish y t (Some ch), OReturn t i v)
      | _ => None
      end
  | LGiveUp t =>
      match y_subs y !! t with
      | Some (SubWait c i ch) =>
          w ← y_conns y !! c;
          match y_chan y !! ch with
          | None => if w_dead w then Some (finish y t (Some ch), OReturn t i (w_err w)) else None
          | Some _ => None
          end
      | _ => None
      end
  | LProcess c =>
      w ← y_conns y !! c;
      match w_phase w, w_queue w with
      | PRun, en :: q =>
          let '(core, err) := proc (w_core w) (e_intent en) in
          y' ← retire y c w en q err true core (match err with Some e => PClosing e | None => PRun end);
          Some (y', ONone)
      | _, _ => None
      end
  | LStop c =>
      w ← y_conns y !! c;
      match w_phase w with
      | PRun =>
          if w_shutdown w then
            Some (set_conn y c (mkW (w_queue w) (PClosing ErrConnClosed) (w_dead w) (w_err w)
                    (w_shutdown w) (w_core w) (w_enq w) (w_log w)), ONone)
          else None
      | _ => None
      end
  | LCloseDead c =>
      w ← y_conns y !! c;
      match w_phase w with
      | PClosing e =>
          Some (set_conn y c (mkW (w_queue w) (PDraining e) true (Some e)
                  (w_shutdown w) (w_core w) (w_enq w) (w_log w)), ONone)
      | _ => None
      end
  | LDrain c =>
      w ← y_conns y !! c;
      match w_phase w, w_queue w with
      | PDraining e, en :: q =>
          y' ← retire y c w en q (Some e) false (w_core w) (PDraining e);
          Some (y', ONone)
      | _, _ => None
      end
  | LExit c =>
      w ← y_conns y !! c;
      match w_phase w, w_queue w with
      | PDraining _, [] =>
          Some (set_conn y c (mkW [] PExit (w_dead w) (w_err w)
                  (w_shutdown w) (w_core w) (w_enq w) (w_log w)), ONone)
      | _, _ => None
      end
  | LShutdown c =>
      w ← y_conns y !! c;
      if w_shutdown w then None
      else Some (set_conn y c (mkW (w_queue w) (w_phase w) (w_dead w) (w_err w) true
                   (w_core w) (w_enq w) (w_log w)), ONone)
  end.

Definition wstep (y : WSys) (l : WLabel * WObs) (y' : WSys) : Prop := wact y l.1 = Some (y', l.2).

Fixpoint wrun (y : WSys) (ls : list WLabel) : option (WSys * list (WLabel * WObs)) :=
  match ls with
  | [] => Some (y, [])
  | l :: ls => '(y1, o) ← wact y l; '(y2, os) ← wrun y1 ls; Some (y2, (l, o) :: os)
  end.

(** Freshly started connections, empty pool, no submitter. *)
Definition winit (ws : gmap nat W) : WSys := mkWSys (new_writer <$> ws) ∅ [] 0 ∅.

(** ** One connection's history *)

(** Everything accepted is either handled, in order, or still queued. *)
Definition fifo_ok (w : WState) : Prop :=
  w_enq w = ((fun o => (o_id o, o_intent o)) <$> w_log w) ++ ((fun e => (e_id e, e_intent e)) <$> w_queue w).

(** The shape of the log: successful writes, then at most one failed write,
    then only intents that were not written. *)
Definition log_ok (w : WState) : Prop :=
  exists oks tl,
    w_log w = oks ++ tl /\ Forall (fun o => o_res o = None /\ o_written o = true) oks /\
    match w_phase w with
    | PRun => tl = [] /\ w_dead w = false
    | PClosing e => w_dead w = false /\
        (tl = [] \/ exists id i, tl = [mkOutcome id i (Some e) true])
    | PDraining e => w_dead w = true /\ w_err w = Some e /\
        exists first drained, tl = first ++ drained /\
          (first = [] \/ exists id i, first = [mkOutcome id i (Some e) true]) /\
          Forall (fun o => o_res o = Some e /\ o_written o = false) drained
    | PExit => w_dead w = true /\ is_Some (w_err w) /\
        exists e first drained, tl = first ++ drained /\
          (first = [] \/ exists id i, first = [mkOutcome id i (Some e) true]) /\
          Forall (fun o => o_res o = Some e /\ o_written o = false) drained
    end.

Definition conn_ok (w : WState) : Prop := fifo_ok w /\ log_ok w /\ (length (w_queue w) <= writeQSize)%nat.

Definition conns_ok (y : WSys) : Prop := map_Forall (fun _ w => conn_ok w) (y_conns y).

(** ** Ownership of the [done] channels *)

Definition sub_ch (s : Sub) : option nat :=
  match s with SubEnq _ _ ch => ch | SubWait _ _ ch => Some ch end.

(** Who may use a channel: one submitter at a time; the entry that carries it
    belongs to that submitter; a buffered value is that submitter's result. *)
Record chan_ok (y : WSys) : Prop := {
  co_fresh : forall t s, y_subs y !! t = Some s -> (t < y_next y)%nat;
  co_lt : forall t s ch, y_subs y !! t = Some s -> sub_ch s = Some ch -> (ch < y_next y)%nat;
  co_pool_lt : forall ch, ch ∈ y_pool y -> (ch < y_next y)%nat;
  co_inj : forall t1 t2 s1 s2 ch, y_subs y !! t1 = Some s1 -> y_subs y !! t2 = Some s2 ->
    sub_ch s1 = Some ch -> sub_ch s2 = Some ch -> t1 = t2;
  co_pool : forall t s ch, y_subs y !! t = Some s -> sub_ch s = Some ch -> ch ∉ y_pool y;
  co_queue : forall c w en ch, y_conns y !! c = Some w -> en ∈ w_queue w -> e_done en = Some ch ->
    y_subs y !! e_id en = Some (SubWait c (e_intent en) ch) /\ y_chan y !! ch = None;
  co_queue_nodup : forall c w, y_conns y !! c = Some w -> NoDup (omap e_done (w_queue w));
  co_chan : forall ch v, y_chan y !! ch = Some v ->
    exists t c i w o, y_subs y !! t = Some (SubWait c i ch) /\ y_conns y !! c = Some w /\
      o ∈ w_log w /\ o_id o = t /\ o_intent o = i /\ o_res o = v
}.

(** No submitter stops waiting without its result. *)
Definition no_give_up (l : WLabel * WObs) : Prop :=
  match l.1 with LGiveUp _ => False | _ => True end.

End WriterLoop.

Arguments WState : clear implicits.
Arguments WSys : clear implicits.
Arguments Sub : clear implicits.
Arguments WLabel : clear implicits.
Arguments WObs : clear implicits.
Arguments Outcome : clear implicits.
Arguments Entry : clear implicits.

Section WriterLoopFacts.

Context {I W : Type}.
Variable proc : W -> I -> W * option gerror.

Implicit Types (y : WSys I W) (w : WState I W).

Lemma send_done_conns y ch v y' : send_done y ch v = Some y' -> y_conns y' = y_conns y.
Proof. unfold send_done. intros. repeat case_match; by simplify_eq. Qed.

Lemma retire_conns y c w en q v b core ph y' :
  retire y c w en q v b core ph = Some y' ->
  exists w', y_conns y' = <[c := w']> (y_conns y) /\ w_queue w' = q /\ w_phase w' = ph /\
    w_log w' = w_log w ++ [mkOutcome (e_id en) (e_intent en) v b] /\ w_enq w' = w_enq w /\
    w_dead w' = w_dead w /\ w_err w' = w_err w.
Proof.
  unfold retire. destruct (send_done y (e_done en) v) as [y1|] eqn:H; intros; simplify_eq/=.
  rewrite (send_done_conns _ _ _ _ H). eexists. by split_and!.
Qed.

Lemma fifo_retire w w' en q v b :
  fifo_ok w -> w_queue w = en :: q -> w_queue w' = q ->
  w_log w' = w_log w ++ [mkOutcome (e_id en) (e_intent en) v b] -> w_enq w' = w_enq w -> fifo_ok w'.
Proof.
  unfold fifo_ok. intros H Hq Hq' Hl He. rewrite He, Hl, Hq', H, Hq.
  rewrite fmap_app, <- app_assoc. done.
Qed.

Lemma log_process w w' en v e' :
  log_ok w -> w_phase w = PRun -> w_dead w' = w_dead w ->
  w_log w' = w_log w ++ [mkOutcome (e_id en) (e_intent en) v true] ->
  e' = v -> w_phase w' = (match e' with Some e => PClosing e | None => PRun end) -> log_ok w'.
Proof.
  intros (oks & tl & Hl & Hok & Hm) Hp Hd Hl' -> Hp'. rewrite Hp in Hm. destruct Hm as [-> Hdead].
  rewrite app_nil_r in Hl. unfold log_ok. rewrite Hp', Hl', Hl, Hd, Hdead. destruct v as [e|].
  - exists oks. eexists. split; [done|]. split; [done|]. split; [done|]. right. by eexists _, _.
  - exists (oks ++ [mkOutcome (e_id en) (e_intent en) None true]), []. rewrite app_nil_r.
    split; [done|]. split; [|done]. apply Forall_app. split; [done|]. by repeat constructor.
Qed.

Lemma log_drain w w' en e :
  log_ok w -> w_phase w = PDraining e -> w_phase w' = PDraining e ->
  w_dead w' = w_dead w -> w_err w' = w_err w ->
  w_log w' = w_log w ++ [mkOutcome (e_id en) (e_intent en) (Some e) false] -> log_ok w'.
Proof.
  intros (oks & tl & Hl & Hok & Hm) Hp Hp' Hd He Hl'. rewrite Hp in Hm.
  destruct Hm as (Hdead & Herr & first & dr & -> & Hf & Hdr).
  unfold log_ok. rewrite Hp', Hl', Hl, Hd, He.
  eexists oks, _. rewrite <- !app_assoc. split; [done|]. split_and!; [done..|].
  exists first, (dr ++ [mkOutcome (e_id en) (e_intent en) (Some e) false]).
  split_and!; [done..|]. apply Forall_app. split; [done|]. by repeat constructor.
Qed.

(** The writer has handled the oldest entry of [w]. *)
Definition handled w w' (en : Entry I) (v : option gerror) (written : bool) : Prop :=
  w_queue w = en :: w_queue w' /\ w_log w' = w_log w ++ [mkOutcome (e_id en) (e_intent en) v written] /\
  w_enq w' = w_enq w /\ w_dead w' = w_dead w /\ w_err w' = w_err w.

(** What a step of the system does to one connection. *)
Inductive conn_step (w : WState I W) : WState I W -> Prop :=
| cs_enqueue t i ch :
    (length (w_queue w) < writeQSize)%nat ->
    conn_step w (mkW (w_queue w ++ [mkEntry t i ch]) (w_phase w) (w_dead w) (w_err w) (w_shutdown w) (w_core w)
                   (w_enq w ++ [(t, i)]) (w_log w))
| cs_process w' en v :
    w_phase w = PRun -> handled w w' en v true ->
    w_phase w' = (match v with Some e => PClosing e | None => PRun end) -> conn_step w w'
| cs_drain w' en e :
    w_phase w = PDraining e -> handled w w' en (Some e) false -> w_phase w' = PDraining e -> conn_step w w'
| cs_stop :
    w_phase w = PRun ->
    conn_step w (mkW (w_queue w) (PClosing ErrConnClosed) (w_dead w) (w_err w) (w_shutdown w) (w_core w) (w_enq w) (w_log w))
| cs_close e :
    w_phase w = PClosing e ->
    conn_step w (mkW (w_queue w) (PDraining e) true (Some e) (w_shutdown w) (w_core w) (w_enq w) (w_log w))
| cs_exit e :
    w_phase w = PDraining e -> w_queue w = [] ->
    conn_step w (mkW [] PExit (w_dead w) (w_err w) (w_shutdown w) (w_core w) (w_enq w) (w_log w))
| cs_shutdown :
    conn_step w (mkW (w_queue w) (w_phase w) (w_dead w) (w_err w) true (w_core w) (w_enq w) (w_log w)).

Lemma retire_handled y c w en q v b core ph y' :
  w_queue w = en :: q -> retire y c w en q v b core ph = Some y' ->
  exists w', y_conns y' = <[c := w']> (y_conns y) /\ handled w w' en v b /\ w_phase w' = ph.
Proof.
  intros Hq Hr. destruct (retire_conns _ _ _ _ _ _ _ _ _ _ Hr) as (w' & E & Hq' & Hp & Hl & He & Hd & Hx).
  exists w'. unfold handled. rewrite Hq'. by split_and!.
Qed.

Lemma finish_conns y t ch : y_conns (finish y t ch) = y_conns y.
Proof. by destruct ch. Qed.

(** A step touches at most one connection. *)
Lemma wstep_conns y l y' :
  wstep proc y l y' ->
  y_conns y' = y_conns y \/
  exists d w w', y_conns y !! d = Some w /\ y_conns y' = <[d := w']> (y_conns y) /\ conn_step w w'.
Proof.
  intros Hst. destruct l as [l o]. unfold wstep in Hst; simpl in Hst.
  destruct l as [d i ch|d i|t|t|t|t|d|d|d|d|d|d]; simpl in Hst.
  1: { left. unfold get_done in Hst. destruct (y_conns y !! d); simplify_eq/=. repeat case_match; by simplify_eq/=. }
  1: { left. by destruct (y_conns y !! d); simplify_eq/=. }
  1: { right. destruct (y_subs y !! t) as [[d i ch|]|]; try done. destruct (y_conns y !! d) as [w|] eqn:Hd; simplify_eq/=.
       destruct (_ <? _)%nat eqn:Hlen; simplify_eq; bool_prop. exists d, w. eexists.
       split_and!; [done| |by apply cs_enqueue]. by destruct ch. }
  1-3: left; destruct (y_subs y !! t) as [[d i ch|d i ch]|]; try done; simpl in Hst.
  - destruct (y_conns y !! d); simplify_eq/=. case_match; simplify_eq. apply finish_conns.
  - destruct (y_chan y !! ch); simplify_eq/=. apply (finish_conns y t (Some ch)).
  - destruct (y_conns y !! d); simplify_eq/=. repeat case_match; simplify_eq/=. apply (finish_conns y t (Some ch)).
  - right. destruct (y_conns y !! d) as [w|] eqn:Hd; simplify_eq/=.
    destruct (w_phase w) eqn:Hp; try done. destruct (w_queue w) as [|en q] eqn:Hq; [done|].
    destruct (proc (w_core w) (e_intent en)) as [core err]. destruct (retire _ _ _ _ _ _ _ _ _) as [y1|] eqn:Hr; simplify_eq/=.
    destruct (retire_handled _ _ _ _ _ _ _ _ _ _ Hq Hr) as (w' & E & Hh & Hp'). exists d, w, w'. eauto using cs_process.
  - right. destruct (y_conns y !! d) as [w|] eqn:Hd; simplify_eq/=.
    destruct (w_phase w) eqn:Hp; try done. destruct (w_shutdown w) eqn:Hsh; simplify_eq/=.
    exists d, w. eexists. split_and!; [done..|]. rewrite <- Hsh. by apply cs_stop.
  - right. destruct (y_conns y !! d) as [w|] eqn:Hd; simplify_eq/=.
    destruct (w_phase w) eqn:Hp; simplify_eq/=. exists d, w. eexists. eauto using cs_close.
  - right. destruct (y_conns y !! d) as [w|] eqn:Hd; simplify_eq/=.
    destruct (w_phase w) eqn:Hp; try done. destruct (w_queue w) as [|en q] eqn:Hq; [done|].
    destruct (retire _ _ _ _ _ _ _ _ _) as [y1|] eqn:Hr; simplify_eq/=.
    destruct (retire_handled _ _ _ _ _ _ _ _ _ _ Hq Hr) as (w' & E & Hh & Hp'). exists d, w, w'. eauto using cs_drain.
  - right. destruct (y_conns y !! d) as [w|] eqn:Hd; simplify_eq/=.
    destruct (w_phase w) eqn:Hp; try done. destruct (w_queue w) eqn:Hq; simplify_eq/=. exists d, w. eexists. eauto using cs_exit.
  - right. destruct (y_conns y !! d) as [w|] eqn:Hd; simplify_eq/=.
    destruct (w_shutdown w); simplify_eq/=. exists d, w. eexists. eauto using cs_shutdown.
Qed.

Lemma handled_fifo w w' en v b :
  handled w w' en v b -> fifo_ok w -> (length (w_queue w) <= writeQSize)%nat ->
  fifo_ok w' /\ (length (w_queue w') <= writeQSize)%nat.
Proof.
  intros (Hq & Hl & He & _) Hf Hlen. split; [by eapply fifo_retire|]. rewrite Hq in Hlen. simpl in Hlen. lia.
Qed.

(** Each of these keeps the connection's history well formed. *)
Lemma conn_step_ok w w' : conn_ok w -> conn_step w w' -> conn_ok w'.
Proof.
  intros (Hf & Hlog & Hlen) Hst.
  destruct Hst as [t i ch Hl|w' en v Hp Hh Hp'|w' en e Hp Hh Hp'|Hp|e Hp|e Hp Hq|].
  - split_and!; simpl; [|exact Hlog|rewrite length_app; simpl; lia].
    unfold fifo_ok in *; simpl. by rewrite Hf, fmap_app, app_assoc.
  - destruct (handled_fifo _ _ _ _ _ Hh Hf Hlen), Hh as (_ & ? & _ & ? & _). split_and!; [done| |done]. by eapply log_process.
  - destruct (handled_fifo _ _ _ _ _ Hh Hf Hlen), Hh as (_ & ? & _ & ? & ?). split_and!; [done| |done]. by eapply log_drain.
  - destruct Hlog as (oks & tl & Hl & Ho & Hm). rewrite Hp in Hm. destruct Hm as [-> Hdead].
    split_and!; [done| |done]. exists oks, []. simpl. naive_solver.
  - destruct Hlog as (oks & tl & Hl & Ho & Hm). rewrite Hp in Hm. destruct Hm as [Hdead Htl].
    split_and!; [done| |done]. exists oks, tl. simpl. split_and!; try done.
    exists tl, []. rewrite app_nil_r. split_and!; [done|done|constructor].
  - destruct Hlog as (oks & tl & Hl & Ho & Hm). rewrite Hp in Hm. destruct Hm as (Hdead & He & Hm).
    split_and!; [unfold fifo_ok in *; simpl; by rewrite Hq in Hf| |simpl; lia].
    exists oks, tl. simpl. rewrite He. split_and!; try done; eauto.
  - by split_and!.
Qed.

Lemma conns_ok_step y l y' : conns_ok y -> wstep proc y l y' -> conns_ok y'.
Proof.
  intros Hok Hst. destruct (wstep_conns _ _ _ Hst) as [E|(d & w & w' & Hd & E & Hs)]; unfold conns_ok; rewrite E; [done|].
  apply map_Forall_insert_2; [|done]. eapply conn_step_ok; [|done]. exact (Hok _ _ Hd).
Qed.

Lemma conns_ok_init (ws : gmap nat W) : conns_ok (winit (I:=I) ws).
Proof.
  intros c w H. simpl in H. rewrite lookup_fmap in H. destruct (ws !! c); simplify_eq/=.
  split_and!; [done| |simpl; lia]. exists [], []. split; [done|].
  split; [constructor|done].
Qed.

Lemma conns_ok_reachable (ws : gmap nat W) ls y : steps (wstep proc) (winit ws) ls y -> conns_ok y.
Proof. intros H. eapply (steps_inv (wstep proc)); eauto using conns_ok_step, conns_ok_init. Qed.

(** *** Channel ownership *)

Lemma omap_e_done_elem (q : list (Entry I)) ch :
  ch ∈ omap e_done q <-> exists en, en ∈ q /\ e_done en = Some ch.
Proof. rewrite list_elem_of_omap. naive_solver. Qed.

(** The connections may change as long as no entry appears and no outcome is
    forgotten. *)
Lemma chan_ok_conns y conns :
  chan_ok y ->
  (forall c w', conns !! c = Some w' -> exists w, y_conns y !! c = Some w /\
     (forall en, en ∈ w_queue w' -> en ∈ w_queue w) /\ NoDup (omap e_done (w_queue w'))) ->
  (forall c w, y_conns y !! c = Some w -> exists w', conns !! c = Some w' /\
     (forall o, o ∈ w_log w -> o ∈ w_log w')) ->
  chan_ok (mkWSys conns (y_chan y) (y_pool y) (y_next y) (y_subs y)).
Proof.
  intros [] Hback Hfwd. split; simpl; eauto.
  - intros c w en ch Hc Hen Hd. destruct (Hback _ _ Hc) as (w0 & Hw0 & Hin & _). eauto.
  - intros c w Hc. by destruct (Hback _ _ Hc) as (w0 & _ & _ & ?).
  - intros ch v Hv. destruct (co_chan0 _ _ Hv) as (t & c & i & w & o & Ht & Hc & Ho & ? & ? & ?).
    destruct (Hfwd _ _ Hc) as (w' & Hw' & Hlog). exists t, c, i, w', o. split_and!; auto.
Qed.

Lemma chan_ok_set_conn y c w w' :
  chan_ok y -> y_conns y !! c = Some w ->
  (forall en, en ∈ w_queue w' -> en ∈ w_queue w) -> NoDup (omap e_done (w_queue w')) ->
  (forall o, o ∈ w_log w -> o ∈ w_log w') -> chan_ok (set_conn y c w').
Proof.
  intros Hok Hc Hq Hnd Hl. apply chan_ok_conns; [done|..].
  - intros d w1 Hd. apply lookup_insert_Some in Hd as [[<- <-]|[_ Hd]]; [by exists w|].
    exists w1. split_and!; [done..|]. by apply (co_queue_nodup _ Hok _ _ Hd).
  - intros d w1 Hd. destruct (decide (c = d)) as [<-|Hne].
    + simplify_eq. exists w'. by rewrite lookup_insert_eq.
    + exists w1. by rewrite lookup_insert_ne.
Qed.

(** A submitter returns: its channel is empty again and back in the pool. *)
Lemma chan_ok_finish y t s :
  chan_ok y -> y_subs y !! t = Some s ->
  (forall ch c w en, sub_ch s = Some ch -> y_conns y !! c = Some w -> en ∈ w_queue w ->
     e_done en = Some ch -> False) ->
  chan_ok (finish y t (sub_ch s)).
Proof.
  intros Hok Ht Hnoq. pose proof Hok as [].
  assert (Hconns : y_conns (finish y t (sub_ch s)) = y_conns y) by by destruct (sub_ch s).
  assert (Hnext : y_next (finish y t (sub_ch s)) = y_next y) by by destruct (sub_ch s).
  assert (Hsubs : y_subs (finish y t (sub_ch s)) = delete t (y_subs y)) by by destruct (sub_ch s).
  assert (Hsub : forall t' s', y_subs (finish y t (sub_ch s)) !! t' = Some s' ->
    t' <> t /\ y_subs y !! t' = Some s').
  { intros t' s' H. rewrite Hsubs in H. apply lookup_delete_Some in H as [? ?]. split; [congruence|done]. }
  assert (Hpool : forall ch, ch ∈ y_pool (finish y t (sub_ch s)) -> sub_ch s = Some ch \/ ch ∈ y_pool y).
  { intros ch Hin. unfold finish, put_done in Hin. destruct (sub_ch s); simpl in Hin; [|by right].
    apply elem_of_cons in Hin as [->|?]; [by left|by right]. }
  assert (Hchan : forall ch v, y_chan (finish y t (sub_ch s)) !! ch = Some v ->
    sub_ch s <> Some ch /\ y_chan y !! ch = Some v).
  { intros ch v H. unfold finish, put_done in H. destruct (sub_ch s) as [ch0|]; simpl in H.
    - apply lookup_delete_Some in H as [? ?]. split; [congruence|done].
    - done. }
  split; rewrite ?Hconns, ?Hnext.
  - intros t' s' [_ H]%Hsub. eauto.
  - intros t' s' ch [_ H]%Hsub. eauto.
  - intros ch [H|H]%Hpool; eauto.
  - intros t1 t2 s1 s2 ch [_ H1]%Hsub [_ H2]%Hsub. eauto.
  - intros t' s' ch [Hne H']%Hsub Hch [Hin|Hin]%Hpool; [|by eapply co_pool0].
    apply Hne. by eapply co_inj0.
  - intros c w en ch Hc Hen Hd. destruct (co_queue0 _ _ _ _ Hc Hen Hd) as [Hs Hn]. split.
    + rewrite Hsubs, lookup_delete_ne; [done|]. intros E. rewrite E in Ht.
      eapply Hnoq; eauto. by simplify_eq.
    + destruct (y_chan (finish y t (sub_ch s)) !! ch) eqn:E; [|done].
      apply Hchan in E as [_ E]. congruence.
  - done.
  - intros ch v [Hne Hv]%Hchan. destruct (co_chan0 _ _ Hv) as (t1 & c & i & w & o & Ht1 & Hrest).
    exists t1, c, i, w, o. split; [|done]. rewrite Hsubs, lookup_delete_ne; [done|].
    intros <-. by simplify_eq.
Qed.

(** The writer retires its oldest entry: the result goes to the entry's owner. *)
Lemma chan_ok_retire y c w en q v b core ph y' :
  chan_ok y -> y_conns y !! c = Some w -> w_queue w = en :: q ->
  retire y c w en q v b core ph = Some y' -> chan_ok y'.
Proof.
  intros Hok Hc Hq H. pose proof Hok as []. unfold retire in H.
  destruct (send_done y (e_done en) v) as [y1|] eqn:Hs; simplify_eq/=.
  set (w' := mkW _ _ _ _ _ _ _ _).
  pose proof (co_queue_nodup0 _ _ Hc) as Hnd. rewrite Hq in Hnd. simpl in Hnd.
  assert (Hset : chan_ok (set_conn y c w')).
  { eapply chan_ok_set_conn; [done|exact Hc|..]; simpl.
    - rewrite Hq. intros e He. by right.
    - destruct (e_done en); [by inv Hnd|done].
    - intros o Ho. apply elem_of_app. by left. }
  unfold send_done in Hs. destruct (e_done en) as [ch|] eqn:Hd; [|by simplify_eq].
  destruct (y_chan y !! ch) eqn:Hch; simplify_eq.
  destruct (co_queue0 c w en ch Hc ltac:(rewrite Hq; left) Hd) as [Hsub _].
  destruct Hset as []. split; simpl in *; eauto.
  - intros d w1 e1 ch1 Hd1 He1 Hch1. destruct (co_queue1 _ _ _ _ Hd1 He1 Hch1) as [Hs1 Hn1].
    split; [done|]. rewrite lookup_insert_ne; [done|]. intros <-.
    assert (e_id en = e_id e1) by (eapply co_inj0; eauto). rewrite H, Hs1 in Hsub. simplify_eq.
    rewrite lookup_insert_eq in Hd1. simplify_eq. simpl in He1. inv Hnd.
    match goal with Hni : ch ∉ _ |- _ => apply Hni end. apply omap_e_done_elem. eauto.
  - intros ch1 v1 Hv1. apply lookup_insert_Some in Hv1 as [[<- <-]|[_ Hv1]]; [|by apply co_chan1].
    exists (e_id en), c, (e_intent en), w', (mkOutcome (e_id en) (e_intent en) v b).
    rewrite lookup_insert_eq. split_and!; try done. simpl. apply elem_of_app. right. left.
Qed.

Lemma chan_ok_spawn y s :
  chan_ok y -> (forall ch, sub_ch s = Some ch -> (ch < y_next y)%nat /\ (ch ∉ y_pool y) /\
     forall t s', y_subs y !! t = Some s' -> sub_ch s' <> Some ch) ->
  (match s with SubEnq _ _ _ => True | _ => False end) -> chan_ok (spawn y s).
Proof.
  intros [] Hch Henq.
  assert (Hnew : y_subs y !! y_next y = None).
  { destruct (y_subs y !! y_next y) eqn:E; [|done]. apply co_fresh0 in E. lia. }
  split; simpl.
  - intros t s' [[<- _]|[_ H]]%lookup_insert_Some; [lia|]. apply co_fresh0 in H. lia.
  - intros t s' ch [[<- <-]|[_ H]]%lookup_insert_Some Hc; [apply Hch in Hc; lia|].
    eapply co_lt0 in Hc; [|done]. lia.
  - intros ch H. apply co_pool_lt0 in H. lia.
  - intros t1 t2 s1 s2 ch [[<- <-]|[Hn1 H1]]%lookup_insert_Some [[<- <-]|[Hn2 H2]]%lookup_insert_Some Hc1 Hc2;
      [done|..|by eapply co_inj0].
    + by apply (Hch _ Hc1) in H2.
    + by apply (Hch _ Hc2) in H1.
  - intros t s' ch [[<- <-]|[_ H]]%lookup_insert_Some Hc; [by apply Hch|by eapply co_pool0].
  - intros c w en ch Hc Hen Hd. destruct (co_queue0 _ _ _ _ Hc Hen Hd) as [Hs Hn]. split; [|done].
    rewrite lookup_insert_ne; [done|]. intros E. rewrite <- E in Hs. congruence.
  - done.
  - intros ch v Hv. destruct (co_chan0 _ _ Hv) as (t & c & i & w & o & Ht & Hrest).
    exists t, c, i, w, o. split; [|done]. rewrite lookup_insert_ne; [done|]. intros <-. congruence.
Qed.

Lemma chan_ok_get_done y choice y' ch :
  chan_ok y -> get_done y choice = (y', ch) ->
  chan_ok y' /\ (ch < y_next y')%nat /\ (ch ∉ y_pool y') /\
  (forall t s', y_subs y' !! t = Some s' -> sub_ch s' <> Some ch).
Proof.
  intros Hok H. pose proof Hok as [].
  assert (Hnew : (mkWSys (y_conns y) (y_chan y) (y_pool y) (S (y_next y)) (y_subs y), y_next y) = (y', ch) ->
    chan_ok y' /\ (ch < y_next y')%nat /\ (ch ∉ y_pool y') /\
    (forall t s', y_subs y' !! t = Some s' -> sub_ch s' <> Some ch)).
  { intros [= <- <-]. split; [|split_and!; simpl; [lia| |]].
    - split; simpl; eauto.
      + intros t s Hs. apply co_fresh0 in Hs. lia.
      + intros t s ch Hs Hc. eapply co_lt0 in Hc; [|done]. lia.
      + intros ch Hc. apply co_pool_lt0 in Hc. lia.
    - intros Hin. apply co_pool_lt0 in Hin. lia.
    - intros t s Hs Hc. eapply co_lt0 in Hc; [|done]. lia. }
  unfold get_done in H. destruct choice as [ch0|]; [|by apply Hnew].
  case_decide as Hin; [|by apply Hnew]. simplify_eq. split; [|split_and!; simpl].
  - split; simpl; eauto.
    + intros ch' [_ ?]%list_elem_of_filter. eauto.
    + intros t s ch' Hs Hc [_ ?]%list_elem_of_filter. by eapply co_pool0.
  - eauto.
  - by intros [? _]%list_elem_of_filter.
  - intros t s Hs Hc. by eapply co_pool0.
Qed.

Lemma chan_ok_enqueue y t c i ch w w' :
  chan_ok y -> y_subs y !! t = Some (SubEnq c i (Some ch)) -> y_conns y !! c = Some w ->
  w_queue w' = w_queue w ++ [mkEntry t i (Some ch)] -> w_log w' = w_log w ->
  chan_ok (mkWSys (<[c := w']> (y_conns y)) (y_chan y) (y_pool y) (y_next y)
             (<[t := SubWait c i ch]> (y_subs y))).
Proof.
  intros [] Ht Hc Hq Hl.
  assert (Hsub : forall t' s', <[t := SubWait c i ch]> (y_subs y) !! t' = Some s' ->
    exists s0, y_subs y !! t' = Some s0 /\ sub_ch s0 = sub_ch s').
  { intros t' s' [[<- <-]|[_ H]]%lookup_insert_Some; eauto. }
  assert (Hnochan : y_chan y !! ch = None).
  { destruct (y_chan y !! ch) eqn:E; [|done].
    destruct (co_chan0 _ _ E) as (t1 & c1 & i1 & w1 & o1 & Ht1 & _).
    assert (t = t1) as <- by (eapply co_inj0; eauto). congruence. }
  assert (Hnoq : forall d w1 e1, y_conns y !! d = Some w1 -> e1 ∈ w_queue w1 -> e_done e1 <> Some ch).
  { intros d w1 e1 Hd He Hx. destruct (co_queue0 _ _ _ _ Hd He Hx) as [Hs _].
    assert (t = e_id e1) as E by (eapply co_inj0; eauto). rewrite <- E in Hs. congruence. }
  split; simpl; eauto.
  - intros t' s' (s0 & H & _)%Hsub. eauto.
  - intros t' s' ch' (s0 & H & <-)%Hsub. eauto.
  - intros t1 t2 s1 s2 ch' (s01 & H1 & <-)%Hsub (s02 & H2 & <-)%Hsub. eauto.
  - intros t' s' ch' (s0 & H & <-)%Hsub. eauto.
  - intros d w1 e1 ch1 Hd He Hx.
    assert (Hold : forall w0, y_conns y !! d = Some w0 -> e1 ∈ w_queue w0 ->
      <[t:=SubWait c i ch]> (y_subs y) !! e_id e1 = Some (SubWait d (e_intent e1) ch1) /\ y_chan y !! ch1 = None).
    { intros w0 Hw0 He0. destruct (co_queue0 _ _ _ _ Hw0 He0 Hx) as [Hs Hn]. split; [|done].
      rewrite lookup_insert_ne; [done|]. intros E. rewrite <- E in Hs. congruence. }
    apply lookup_insert_Some in Hd as [[<- <-]|[_ Hd]]; [|by eapply Hold].
    rewrite Hq in He. apply elem_of_app in He as [He| ->%list_elem_of_singleton]; [by eapply Hold|].
    simpl in *. simplify_eq. by rewrite lookup_insert_eq.
  - intros d w1 [[<- <-]|[_ Hd]]%lookup_insert_Some; [|eauto].
    rewrite Hq, omap_app. simpl. apply NoDup_app. split_and!; [eauto| |by apply NoDup_singleton].
    intros x (e1 & He1 & Hx)%omap_e_done_elem ->%list_elem_of_singleton. by eapply Hnoq.
  - intros ch1 v Hv. destruct (co_chan0 _ _ Hv) as (t1 & c1 & i1 & w1 & o1 & Ht1 & Hc1 & Ho & ? & ? & ?).
    assert (t <> t1) by (intros <-; congruence).
    destruct (decide (c = c1)) as [<-|Hne].
    + simplify_eq. exists (o_id o1), c, (o_intent o1), w', o1. rewrite lookup_insert_eq, lookup_insert_ne by done.
      split_and!; try done. by rewrite Hl.
    + exists t1, c1, i1, w1, o1. rewrite !lookup_insert_ne by done. by split_and!.
Qed.

(** An intent that nobody waits for joins the queue. *)
Lemma chan_ok_enqueue_async y t d i w :
  chan_ok y -> y_subs y !! t = Some (SubEnq d i None) -> y_conns y !! d = Some w ->
  chan_ok (mkWSys (<[d := mkW (w_queue w ++ [mkEntry t i None]) (w_phase w) (w_dead w) (w_err w) (w_shutdown w) (w_core w)
                     (w_enq w ++ [(t, i)]) (w_log w)]> (y_conns y)) (y_chan y) (y_pool y) (y_next y) (delete t (y_subs y))).
Proof.
  intros Hok Ht Hd. set (w' := mkW _ _ _ _ _ _ _ _).
  assert (Hf : chan_ok (finish y t None)).
  { apply (chan_ok_finish y t (SubEnq d i None) Hok Ht). done. }
  destruct Hf as []. split; simpl in *; eauto.
  - intros c w1 en ch [[<- <-]|[_ Hc]]%lookup_insert_Some Hen Hx; [|by eapply co_queue0].
    simpl in Hen. apply elem_of_app in Hen as [Hen| ->%list_elem_of_singleton]; [|done].
    by eapply co_queue0.
  - intros c w1 [[<- <-]|[_ Hc]]%lookup_insert_Some; [|eauto]. simpl.
    rewrite omap_app, app_nil_r. eauto.
  - intros ch v Hv. destruct (co_chan0 _ _ Hv) as (t1 & c1 & i1 & w1 & o1 & Ht1 & Hc1 & ? & ? & ? & ?).
    destruct (decide (d = c1)) as [<-|Hne]; simplify_eq.
    + exists (o_id o1), d, (o_intent o1), w', o1. rewrite lookup_insert_eq. by split_and!.
    + exists (o_id o1), c1, (o_intent o1), w1, o1. rewrite lookup_insert_ne by done. by split_and!.
Qed.

Lemma chan_ok_step y l y' : chan_ok y -> wstep proc y l y' -> no_give_up l -> chan_ok y'.
Proof.
  intros Hok Hst Hng. pose proof Hok as []. destruct l as [l o]. unfold wstep in Hst; simpl in *.
  destruct l as [d i choice|d i|t|t|t|t|d|d|d|d|d|d]; simpl in *; try done.
  - destruct (y_conns y !! d); simplify_eq/=.
    destruct (get_done y choice) as [y1 ch] eqn:Hg; simplify_eq/=.
    destruct (chan_ok_get_done _ _ _ _ Hok Hg) as (? & ? & ? & ?).
    apply chan_ok_spawn; [done| |done]. intros ch' [= <-]. done.
  - destruct (y_conns y !! d); simplify_eq/=. by apply chan_ok_spawn.
  - destruct (y_subs y !! t) as [[d i ch|]|] eqn:Ht; try done.
    destruct (y_conns y !! d) as [w|] eqn:Hd; simplify_eq/=.
    destruct (_ <? _)%nat; simplify_eq/=. destruct ch as [ch|]; simplify_eq/=.
    + by eapply chan_ok_enqueue.
    + by eapply chan_ok_enqueue_async.
  - destruct (y_subs y !! t) as [[d i ch|]|] eqn:Ht; try done.
    destruct (y_conns y !! d) as [w|]; simplify_eq/=. destruct (w_dead w); simplify_eq.
    apply (chan_ok_finish y t (SubEnq d i ch) Hok Ht). intros ch' c w1 en Hch Hc Hen Hx. simpl in Hch.
    destruct (co_queue0 _ _ _ _ Hc Hen Hx) as [Hs _].
    assert (t = e_id en) as E by (eapply co_inj0; eauto). rewrite <- E in Hs. congruence.
  - destruct (y_subs y !! t) as [[|d i ch]|] eqn:Ht; try done.
    destruct (y_chan y !! ch) eqn:Hch; simplify_eq/=.
    apply (chan_ok_finish y t (SubWait d i ch) Hok Ht). intros ch' c w1 en [= <-] Hc Hen Hx.
    destruct (co_queue0 _ _ _ _ Hc Hen Hx) as [_ Hn]. congruence.
  - destruct (y_conns y !! d) as [w|] eqn:Hd; simplify_eq/=.
    destruct (w_phase w); try done. destruct (w_queue w) as [|en q] eqn:Hq; [done|].
    destruct (proc (w_core w) (e_intent en)) as [core err].
    destruct (retire _ _ _ _ _ _ _ _ _) as [y1|] eqn:Hr; simplify_eq/=. by eapply chan_ok_retire.
  - destruct (y_conns y !! d) as [w|] eqn:Hd; simplify_eq/=.
    destruct (w_phase w); try done. destruct (w_shutdown w); simplify_eq/=.
    eapply chan_ok_set_conn; simpl; eauto.
  - destruct (y_conns y !! d) as [w|] eqn:Hd; simplify_eq/=.
    destruct (w_phase w); simplify_eq/=. eapply chan_ok_set_conn; simpl; eauto.
  - destruct (y_conns y !! d) as [w|] eqn:Hd; simplify_eq/=.
    destruct (w_phase w); try done. destruct (w_queue w) as [|en q] eqn:Hq; [done|].
    destruct (retire _ _ _ _ _ _ _ _ _) as [y1|] eqn:Hr; simplify_eq/=. by eapply chan_ok_retire.
  - destruct (y_conns y !! d) as [w|] eqn:Hd; simplify_eq/=.
    destruct (w_phase w); try done. destruct (w_queue w); simplify_eq/=.
    eapply chan_ok_set_conn; simpl; eauto using NoDup_nil_2. by intros en ?%not_elem_of_nil.
  - destruct (y_conns y !! d) as [w|] eqn:Hd; simplify_eq/=.
    destruct (w_shutdown w); simplify_eq/=. eapply chan_ok_set_conn; simpl; eauto.
Qed.

Lemma chan_ok_init (ws : gmap nat W) : chan_ok (winit (I:=I) ws).
Proof.
  split; simpl; try done.
  - by intros ch ?%not_elem_of_nil.
  - intros c w en ch Hc Hen. rewrite lookup_fmap in Hc. destruct (ws !! c); simplify_eq/=.
    by apply not_elem_of_nil in Hen.
  - intros c w Hc. rewrite lookup_fmap in Hc. destruct (ws !! c); simplify_eq/=. constructor.
Qed.

Lemma chan_ok_steps y ls y' :
  steps (wstep proc) y ls y' -> chan_ok y -> Forall no_give_up ls -> chan_ok y'.
Proof.
  induction 1 as [|y l y1 ls y2 Hst _ IH]; intros Hok Hng; [done|].
  inv Hng. eauto using chan_ok_step.
Qed.

Lemma chan_ok_reachable (ws : gmap nat W) ls y :
  steps (wstep proc) (winit ws) ls y -> Forall no_give_up ls -> chan_ok y.
Proof. eauto using chan_ok_steps, chan_ok_init. Qed.

Lemma wrun_steps ls y y' os : wrun proc y ls = Some (y', os) -> steps (wstep proc) y os y'.
Proof.
  revert y os. induction ls as [|l ls IH]; intros y os H; simplify_eq/=; [constructor|].
  destruct (wact proc y l) as [[y1 o]|] eqn:Ha; simplify_eq/=.
  destruct (wrun proc y1 ls) as [[y2 os2]|] eqn:Hr; simplify_eq/=.
  econstructor; [exact Ha|]. by apply IH.
Qed.

(** ** The properties *)

(** C12. The queue is first-in first-out and loss-free: the intents a
    connection's queue has accepted are, in that order, those already handled
    followed by those still queued; while the writer runs every handled intent
    was written successfully, and once it has failed or been shut down with
    error [e], what follows the successful writes is at most one failed write
    and intents that were answered with [e] without being written. *)
Theorem writer_is_fifo_until_first_failure (ws : gmap nat W) ls y c w :
  steps (wstep proc) (winit ws) ls y -> y_conns y !! c = Some w ->
  fifo_ok w /\ log_ok w /\ (length (w_queue w) <= writeQSize)%nat.
Proof. intros H Hc. exact (conns_ok_reachable _ _ _ H _ _ Hc). Qed.

(** Nobody hangs on a dead writer: whenever [writeDeadCh] is closed, each
    submitter of that connection, at either of its selects, has a step that
    returns to its caller. *)
Theorem submitters_return_when_dead y t s c w :
  y_subs y !! t = Some s -> y_conns y !! c = Some w -> w_dead w = true ->
  (exists i ch, s = SubEnq c i ch) \/ (exists i ch, s = SubWait c i ch) ->
  exists l i r y', wstep proc y (l, OReturn t i r) y' /\ y_subs y' !! t = None.
Proof.
  intros Ht Hc Hd [(i & ch & ->)|(i & ch & ->)]; unfold wstep; simpl.
  - exists (LEnqDead t), i, (w_err w). eexists. simpl. rewrite Ht; simpl. rewrite Hc; simpl. rewrite Hd.
    split; [done|]. simpl. apply lookup_delete_eq.
  - destruct (y_chan y !! ch) as [v|] eqn:Hv.
    + exists (LRecv t), i, v. eexists. simpl. rewrite Ht; simpl. rewrite Hv. split; [done|].
      simpl. apply lookup_delete_eq.
    + exists (LGiveUp t), i, (w_err w). eexists. simpl. rewrite Ht; simpl. rewrite Hc; simpl.
      rewrite Hv, Hd. split; [done|]. simpl. apply lookup_delete_eq.
Qed.

(** C13. A submitter gets its own result: in a run in which no submitter has
    given up waiting, the value received from [done] is the outcome that the
    writer recorded for exactly this submission and intent. *)
Theorem submit_returns_own_result (ws : gmap nat W) ls y t i r y' :
  steps (wstep proc) (winit ws) ls y -> Forall no_give_up ls ->
  wstep proc y (LRecv t, OReturn t i r) y' ->
  exists c w o, y_conns y !! c = Some w /\ o ∈ w_log w /\
    o_id o = t /\ o_intent o = i /\ o_res o = r.
Proof.
  intros H Hng Hst. destruct (chan_ok_reachable _ _ _ H Hng) as []. unfold wstep in Hst. simpl in Hst.
  destruct (y_subs y !! t) as [[|c i' ch]|] eqn:Ht; try done.
  destruct (y_chan y !! ch) as [v|] eqn:Hv; simplify_eq/=.
  destruct (co_chan0 _ _ Hv) as (t1 & c1 & i1 & w1 & o1 & Ht1 & Hc1 & Ho & <- & <- & <-).
  assert (t = o_id o1) as -> by (eapply co_inj0; eauto). simplify_eq. by eexists _, w1, o1.
Qed.

End WriterLoopFacts.

(** ** The done-channel race *)

Section DoneRace.

(** Two connections whose intents are numbers; writing 13 fails. *)
Definition race_proc (w : unit) (i : nat) : unit * option gerror :=
  (tt, if (i =? 13)%nat then Some (ErrExternal 7) else None).

Definition race_init : WSys nat unit := winit {[0%nat := tt; 1%nat := tt]}.

(** Connection 0: submitter 1 submits 13, submitter 3 submits 5; the write of
    13 fails; after [close(writeDeadCh)] submitter 3 gives up and returns its
    channel to the pool while its intent is still queued; the drain then sends
    the error into that channel.  Connection 1: submitter 4 gets the same
    channel, enqueues 6 and receives the stale error. *)
Definition race_schedule : list (WLabel nat) :=
  [LSubmit 0 13 None; LSubmit 0 5 None; LEnqueue 1; LEnqueue 3; LProcess 0; LCloseDead 0;
   LGiveUp 3; LDrain 0; LSubmit 1 6 (Some 2); LEnqueue 4]%nat.

Definition race_result : WSys nat unit * list (WLabel nat * WObs nat) :=
  default (race_init, []) (wrun race_proc race_init race_schedule).

(** The result of another connection's intent can be delivered: there is a
    run in which a [submit] on a healthy connection returns the error of a
    different, dead connection while its own intent is still unwritten in the
    queue, because the channel it took from the pool was returned there by a
    submitter that had given up. *)
Theorem submit_may_return_foreign_error :
  exists ls y y' w1,
    steps (wstep race_proc) race_init ls y /\
    wstep race_proc y (LRecv 4, OReturn 4 6%nat (Some (ErrExternal 7))) y' /\
    y_conns y !! 1%nat = Some w1 /\ w_phase w1 = PRun /\ w_log w1 = [] /\
    (e_id <$> w_queue w1) = [4%nat].
Proof.
  exists race_result.2, race_result.1.
  eexists. eexists. split; [apply (wrun_steps race_proc race_schedule); vm_compute; reflexivity|].
  split; [vm_compute; reflexivity|]. split; [vm_compute; reflexivity|].
  by vm_compute.
Qed.

(** A run without a failure: two submitters on connection 0. *)
Definition calm_schedule : list (WLabel nat) :=
  [LSubmit 0 1 None; LEnqueue 1; LSubmitAsync 0 2; LEnqueue 2; LProcess 0; LProcess 0]%nat.

Definition calm_result : WSys nat unit * list (WLabel nat * WObs nat) :=
  default (race_init, []) (wrun race_proc race_init calm_schedule).

Lemma calm_steps : steps (wstep race_proc) race_init calm_result.2 calm_result.1.
Proof. apply (wrun_steps race_proc calm_schedule). vm_compute. reflexivity. Qed.

Definition calm_conn : WState nat unit :=
  default (new_writer tt) (y_conns calm_result.1 !! 0%nat).

Lemma calm_conn_eq : y_conns calm_result.1 !! 0%nat = Some calm_conn.
Proof. vm_compute. reflexivity. Qed.

Lemma writer_is_fifo_witness : fifo_ok calm_conn /\ w_enq calm_conn = [(1, 1); (2, 2)]%nat.
Proof.
  split; [|vm_compute; reflexivity].
  exact (proj1 (writer_is_fifo_until_first_failure race_proc _ _ _ 0%nat _ calm_steps calm_conn_eq)).
Defined.

Lemma submit_returns_own_result_witness :
  exists c w o, y_conns calm_result.1 !! c = Some w /\ o ∈ w_log w /\
    o_id o = 1%nat /\ o_intent o = 1%nat /\ o_res o = None.
Proof.
  refine (submit_returns_own_result race_proc _ _ _ 1%nat 1%nat None
    (finish calm_result.1 1 (Some 0%nat)) calm_steps _ _).
  - vm_compute. repeat constructor.
  - vm_compute. reflexivity.
Defined.

(** The state of the race run right after [close(writeDeadCh)]. *)
Definition dead_result : WSys nat unit * list (WLabel nat * WObs nat) :=
  default (race_init, []) (wrun race_proc race_init (take 6 race_schedule)).

Lemma submitters_return_when_dead_witness :
  exists l i r y', wstep race_proc dead_result.1 (l, OReturn 3 i r) y' /\ y_subs y' !! 3%nat = None.
Proof.
  refine (submitters_return_when_dead race_proc dead_result.1 3%nat (SubWait 0 5 2)%nat 0%nat
    (default (new_writer tt) (y_conns dead_result.1 !! 0%nat)) _ _ _ _).
  - vm_compute. reflexivity.
  - vm_compute. reflexivity.
  - vm_compute. reflexivity.
  - right. by exists 5%nat, 2%nat.
Defined.

End DoneRace.
