(* ===== verification/Writer.v ===== *)
(** * Write intents and their frames (internal/h2/writer.go)

    [writeIntent], [processIntent], the HEADERS encoders and the [Send*]
    constructors.  The framer and the HPACK encoder of golang.org/x/net are
    parameters ([Framer], [HpackEncoder]); so is the order in which [range]
    visits a header map.  The theorems: every intent kind becomes the one
    frame it stands for, and the header fields handed to HPACK are exactly
    the pseudo-headers of the role followed by the permitted regular headers
    in lower case, whatever the state of the name cache. *)

From Stdlib Require Import Ascii String Strings.Byte.
From S2P Require Import Prelude Errors Names WriterLoop.

(** ** The frames the writer asks the framer for *)

(** HTTP/2 error codes used by the program. *)
Definition ErrCodeNo : Z := 0.
Definition ErrCodeProtocol : Z := 1.
Definition ErrCodeInternal : Z := 2.
Definition ErrCodeStreamClosed : Z := 5.
Definition ErrCodeCancel : Z := 8.

Inductive wframe :=
| WSettingsAck
| WWindowUpdate (streamID inc : Z)
| WPing (ack : bool) (data : list byte)
| WRSTStream (streamID code : Z)
| WHeaders (streamID : Z) (block : list byte) (endStream endHeaders : bool)
| WData (streamID : Z) (endStream : bool) (data : list byte)
| WGoAway (lastStreamID code : Z).

(** golang.org/x/net/http2.Framer: writing a frame may fail. *)
Class Framer := {
  framer : Type;
  fr_write : framer -> wframe -> framer * option gerror
}.

(** golang.org/x/net/http2/hpack.Encoder: a field becomes bytes appended to
    the buffer it was created with. *)
Class HpackEncoder := {
  encoder : Type;
  enc_writeField : encoder -> string * string -> encoder * list byte;
  enc_setMax : encoder -> Z -> encoder
}.

(** ** Intents *)

Inductive writeKind :=
| wkSettingsAck | wkWindowUpdate | wkPing | wkRSTStream | wkRespHeaders
| wkReqHeaders | wkData | wkSetMaxDynTab | wkGoAway.

(** The [done] channel is kept by the queue entry (WriterLoop.v). *)
Record writeIntent := mkIntent {
  wi_kind : writeKind;
  wi_streamID : Z;
  wi_header : header;
  wi_method : string;
  wi_path : string;
  wi_authority : string;
  wi_scheme : string;
  wi_data : list byte;
  wi_status : Z;
  wi_increment : Z;
  wi_val : Z;
  wi_code : Z;
  wi_pingData : list byte;
  wi_isAck : bool;
  wi_endStream : bool
}.

(** [writeIntent{}] with a kind and a stream: what [acquireIntent] yields. *)
Definition intent0 (k : writeKind) (id : Z) : writeIntent :=
  mkIntent k id ∅ "" "" "" "" [] 0 0 0 0 [] false false.

Definition SendSettingsAck : writeIntent := intent0 wkSettingsAck 0.

Definition SendWindowUpdate (streamID inc : Z) : writeIntent :=
  mkIntent wkWindowUpdate streamID ∅ "" "" "" "" [] 0 inc 0 0 [] false false.

Definition SendPing (ack : bool) (data : list byte) : writeIntent :=
  mkIntent wkPing 0 ∅ "" "" "" "" [] 0 0 0 0 data ack false.

Definition SendRSTStream (streamID code : Z) : writeIntent :=
  mkIntent wkRSTStream streamID ∅ "" "" "" "" [] 0 0 0 code [] false false.

Definition SendSetMaxDynamicTableSize (v : Z) : writeIntent :=
  mkIntent wkSetMaxDynTab 0 ∅ "" "" "" "" [] 0 0 v 0 [] false false.

Definition SendData (streamID : Z) (data : list byte) (endStream : bool) : writeIntent :=
  mkIntent wkData streamID ∅ "" "" "" "" data 0 0 0 0 [] false endStream.

Definition SendResponseHeaders (streamID status : Z) (h : header) (endStream : bool) : writeIntent :=
  mkIntent wkRespHeaders streamID h "" "" "" "" [] status 0 0 0 [] false endStream.

Definition SendRequestHeaders (streamID : Z) (method scheme authority path : string)
    (h : header) (endStream : bool) : writeIntent :=
  mkIntent wkReqHeaders streamID h method path authority scheme [] 0 0 0 0 [] false endStream.

Definition SendGoAway (lastStreamID code : Z) : writeIntent :=
  mkIntent wkGoAway lastStreamID ∅ "" "" "" "" [] 0 0 0 code [] false false.

(** ** Processing *)

Section Process.

Context {FR : Framer} {HE : HpackEncoder}.

(** The order in which [range] visits the entries of a header map. *)
Variable range : header -> list (string * list string).

(** The state only the writer goroutine touches. *)
Record Writer := mkWriter {
  wr_enc : encoder;
  wr_lower : gmap string string;
  wr_framer : framer
}.

(** [enc.WriteField] on each field, collecting [encBuf]. *)
Fixpoint writeFields (e : encoder) (fs : list (string * string)) : encoder * list byte :=
  match fs with
  | [] => (e, [])
  | f :: fs =>
      let '(e, b) := enc_writeField e f in
      let '(e, bs) := writeFields e fs in (e, b ++ bs)
  end.

(** The fields [encodeRegularHeaders] passes to the encoder, and the cache. *)
Fixpoint encodeRegularHeaders (lower : gmap string string) (hs : list (string * list string))
  : gmap string string * list (string * string) :=
  match hs with
  | [] => (lower, [])
  | (k, vv) :: hs =>
      let '(lk, lower) := cached ToLower lower k in
      let '(lower, fs) := encodeRegularHeaders lower hs in
      (lower, if forbiddenForwardHeader lk then fs else ((fun v => (lk, v)) <$> vv) ++ fs)
  end.

Definition writeHeaderBlock (w : Writer) (streamID : Z) (pseudo : list (string * string))
    (h : header) (endStream : bool) : Writer * option gerror :=
  let '(lower, fs) := encodeRegularHeaders (wr_lower w) (range h) in
  let '(e, block) := writeFields (wr_enc w) (pseudo ++ fs) in
  let '(fr, err) := fr_write (wr_framer w) (WHeaders streamID block endStream true) in
  (mkWriter e lower fr, err).

Definition responsePseudo (status : Z) : list (string * string) :=
  [(":status"%string, StatusString status)].

Definition encodeAndWriteResponseHeaders (w : Writer) (streamID status : Z) (h : header)
    (endStream : bool) : Writer * option gerror :=
  writeHeaderBlock w streamID (responsePseudo status) h endStream.

Definition requestPseudo (method scheme authority path : string) : list (string * string) :=
  [(":method", method); (":scheme", if String.eqb scheme "" then "https" else scheme)]%string ++
  (if String.eqb authority "" then [] else [(":authority", authority)])%string ++
  [(":path"%string, path)].

Definition encodeAndWriteRequestHeaders (w : Writer) (streamID : Z)
    (method scheme authority path : string) (h : header) (endStream : bool) : Writer * option gerror :=
  writeHeaderBlock w streamID (requestPseudo method scheme authority path) h endStream.

Definition writeFrame (w : Writer) (f : wframe) : Writer * option gerror :=
  let '(fr, err) := fr_write (wr_framer w) f in (mkWriter (wr_enc w) (wr_lower w) fr, err).

Definition processIntent (w : Writer) (i : writeIntent) : Writer * option gerror :=
  match wi_kind i with
  | wkSettingsAck => writeFrame w WSettingsAck
  | wkWindowUpdate => writeFrame w (WWindowUpdate (wi_streamID i) (wi_increment i))
  | wkPing => writeFrame w (WPing (wi_isAck i) (wi_pingData i))
  | wkRSTStream => writeFrame w (WRSTStream (wi_streamID i) (wi_code i))
  | wkData => writeFrame w (WData (wi_streamID i) (wi_endStream i) (wi_data i))
  | wkRespHeaders =>
      encodeAndWriteResponseHeaders w (wi_streamID i) (wi_status i) (wi_header i) (wi_endStream i)
  | wkReqHeaders =>
      encodeAndWriteRequestHeaders w (wi_streamID i) (wi_method i) (wi_scheme i) (wi_authority i)
        (wi_path i) (wi_header i) (wi_endStream i)
  | wkSetMaxDynTab =>
      (mkWriter (enc_setMax (wr_enc w) (wi_val i)) (wr_lower w) (wr_framer w), None)
  | wkGoAway => writeFrame w (WGoAway (wi_streamID i) (wi_code i))
  end.

(** The writer of a new connection: [lowerNames] is pre-seeded. *)
Definition newWriter (e : encoder) (fr : framer) : Writer := mkWriter e CommonLowerNames fr.

(** ** Reference definitions *)

(** The regular fields of a header map, without any cache. *)
Definition regularFields (hs : list (string * list string)) : list (string * string) :=
  concat ((fun kv => if forbiddenForwardHeader (ToLower kv.1) then []
                     else (fun v => (ToLower kv.1, v)) <$> kv.2) <$> hs).

(** A field as it may appear on the wire. *)
Definition wire_field_ok (f : string * string) : Prop :=
  forallb (fun c => negb (is_upper c)) (list_ascii_of_string f.1) = true /\
  forbiddenForwardHeader f.1 = false.

(** ** Lemmas *)

Lemma encodeRegularHeaders_spec lower hs :
  cache_ok ToLower lower ->
  (encodeRegularHeaders lower hs).2 = regularFields hs /\
  cache_ok ToLower (encodeRegularHeaders lower hs).1.
Proof.
  revert lower. induction hs as [|[k vv] hs IH]; intros lower Hok; [done|].
  cbn [encodeRegularHeaders]. destruct (cached_ok ToLower lower k Hok) as [Hv Hok'].
  destruct (cached ToLower lower k) as [lk lower'] eqn:E. simpl in Hv, Hok'. subst lk.
  destruct (IH lower' Hok') as [Hf Hc]. destruct (encodeRegularHeaders lower' hs) as [lower2 fs].
  simpl in *. split; [|done]. unfold regularFields in *. rewrite fmap_cons, concat_cons. simpl.
  rewrite Hf. by destruct (forbiddenForwardHeader _).
Qed.

Lemma regularFields_cons k vv hs :
  regularFields ((k, vv) :: hs) =
  (if forbiddenForwardHeader (ToLower k) then [] else (fun v => (ToLower k, v)) <$> vv) ++ regularFields hs.
Proof. done. Qed.

Lemma ToLower_no_upper s : forallb (fun c => negb (is_upper c)) (list_ascii_of_string (ToLower s)) = true.
Proof.
  rewrite ToLower_bytes. induction (list_ascii_of_string s) as [|c l IH]; [done|].
  rewrite fmap_cons. cbn [forallb]. by rewrite lower_not_upper, IH.
Qed.

Lemma regularFields_ok hs : Forall wire_field_ok (regularFields hs).
Proof.
  unfold regularFields. induction hs as [|[k vv] hs IH]; [constructor|].
  rewrite fmap_cons, concat_cons. simpl. destruct (forbiddenForwardHeader (ToLower k)) eqn:E; [done|].
  apply Forall_app. split; [|done]. apply Forall_fmap, Forall_true. intros v. split; [|done].
  apply ToLower_no_upper.
Qed.

(** ** The properties *)

(** What a HEADERS intent puts on the wire: one HEADERS frame with
    END_HEADERS whose block is the HPACK encoding of the role's pseudo-headers
    followed by the regular headers; those have lower-case names, none of them
    connection-specific, and do not depend on what the name cache holds. *)
Theorem headers_intent_on_the_wire w i pseudo e' block fr' err :
  cache_ok ToLower (wr_lower w) ->
  (wi_kind i = wkRespHeaders /\ pseudo = responsePseudo (wi_status i) \/
   wi_kind i = wkReqHeaders /\
     pseudo = requestPseudo (wi_method i) (wi_scheme i) (wi_authority i) (wi_path i)) ->
  writeFields (wr_enc w) (pseudo ++ regularFields (range (wi_header i))) = (e', block) ->
  fr_write (wr_framer w) (WHeaders (wi_streamID i) block (wi_endStream i) true) = (fr', err) ->
  Forall wire_field_ok (regularFields (range (wi_header i))) /\
  exists lower', cache_ok ToLower lower' /\ processIntent w i = (mkWriter e' lower' fr', err).
Proof.
  intros Hok Hkind Hw Hfr.
  assert (Hp : processIntent w i =
    writeHeaderBlock w (wi_streamID i) pseudo (wi_header i) (wi_endStream i)).
  { unfold processIntent. by destruct Hkind as [[-> ->]|[-> ->]]. }
  destruct (encodeRegularHeaders_spec (wr_lower w) (range (wi_header i)) Hok) as [Hf Hc].
  split; [apply regularFields_ok|].
  exists (encodeRegularHeaders (wr_lower w) (range (wi_header i))).1. split; [done|].
  rewrite Hp. unfold writeHeaderBlock.
  destruct (encodeRegularHeaders (wr_lower w) (range (wi_header i))) as [lower fs]. simpl in *. subst fs.
  by rewrite Hw, Hfr.
Qed.

End Process.

Arguments Writer {_ _}.
