(* ===== verification/HeaderBlock.v ===== *)
(** * Header-block reassembly and decoding (internal/h2/conn.go)

    [StartHeaders], [ConsumeContinuation], [decodeBlock] and [emitHeader] with
    the connection state they own.  The HPACK decoder is a parameter.  The
    theorems: a block split over CONTINUATION frames decodes like the whole
    block in one HEADERS frame, the accumulator is bounded by
    SETTINGS_MAX_HEADER_LIST_SIZE, and what one side encodes the other side
    decodes to the same headers (minus the connection-specific ones). *)

From Stdlib Require Import Ascii String Strings.Byte.
From S2P Require Import Prelude Errors Names Writer.

(** golang.org/x/net/http2/hpack.Decoder: [dec_write] calls the emit function
    on the fields it yields, in order, before it returns its error. *)
Class HpackDecoder := {
  decoder : Type;
  dec_write : decoder -> list byte -> decoder * list (string * string) * option gerror;
  dec_close : decoder -> decoder * option gerror
}.

(** A HEADERS frame as the framer hands it out. *)
Record HeadersFrame := mkHeadersFrame {
  hf_StreamID : Z;
  hf_fragment : list byte;
  hf_endStream : bool;
  hf_endHeaders : bool
}.

Record ContinuationFrame := mkContinuationFrame {
  cf_StreamID : Z;
  cf_fragment : list byte;
  cf_endHeaders : bool
}.

Record DecodedHeaders := mkDecoded {
  dh_Header : header;
  dh_Method : string;
  dh_Path : string;
  dh_Authority : string;
  dh_Status : string;
  dh_StreamID : Z;
  dh_EndStream : bool
}.

(** The scratch fields [emitHeader] fills in, with the name cache. *)
Record Scratch := mkScratch {
  scratchHeader : header;
  scratchMethod : string;
  scratchPath : string;
  scratchAuthority : string;
  scratchStatus : string;
  canonNames : gmap string string
}.

Definition emitHeader (s : Scratch) (hf : string * string) : Scratch :=
  let 'mkScratch h m p a st cn := s in
  let '(name, value) := hf in
  if String.eqb name ":method" then mkScratch h value p a st cn
  else if String.eqb name ":path" then mkScratch h m value a st cn
  else if String.eqb name ":authority" then mkScratch h m p value st cn
  else if String.eqb name ":status" then mkScratch h m p a value cn
  else if String.eqb name ":scheme" then s
  else
    let '(canon, cn) := cached CanonicalMIMEHeaderKey cn name in
    mkScratch (<[canon := default [] (h !! canon) ++ [value]]> h) m p a st cn.

(** A fallible result. *)
Definition result (A : Type) : Type := A + gerror.

Section Decode.

Context {HD : HpackDecoder}.

(** The part of [Conn] that header reassembly owns. *)
Record HdrState := mkHdr {
  h_dec : decoder;
  h_canon : gmap string string;
  contBlock : list byte;
  contStreamID : Z;
  contStreamEnded : bool;
  LastStreamID : Z
}.

Definition set_dec (c : HdrState) (d : decoder) (cn : gmap string string) : HdrState :=
  mkHdr d cn (contBlock c) (contStreamID c) (contStreamEnded c) (LastStreamID c).

Definition decodeBlock (c : HdrState) (streamID : Z) (block : list byte) (streamEnded : bool)
  : HdrState * result DecodedHeaders :=
  let '(d, fields, err) := dec_write (h_dec c) block in
  let s := foldl emitHeader (mkScratch ∅ "" "" "" "" (h_canon c)) fields in
  match err with
  | Some _ => (set_dec c d (canonNames s), inr ErrHpackDecode)
  | None =>
      let '(d, err) := dec_close d in
      match err with
      | Some _ => (set_dec c d (canonNames s), inr ErrHpackDecode)
      | None =>
          (set_dec c d (canonNames s),
           inl (mkDecoded (scratchHeader s) (scratchMethod s) (scratchPath s) (scratchAuthority s)
                  (scratchStatus s) streamID streamEnded))
      end
  end.

(** [inl None]: nothing yet, CONTINUATION frames are to follow. *)
Definition lift_decoded (r : HdrState * result DecodedHeaders) : HdrState * result (option DecodedHeaders) :=
  match r with
  | (c, inl d) => (c, inl (Some d))
  | (c, inr e) => (c, inr e)
  end.

Definition StartHeaders (c : HdrState) (f : HeadersFrame) : HdrState * result (option DecodedHeaders) :=
  let c := if LastStreamID c <? hf_StreamID f then
             mkHdr (h_dec c) (h_canon c) (contBlock c) (contStreamID c) (contStreamEnded c) (hf_StreamID f)
           else c in
  if hf_endHeaders f then lift_decoded (decodeBlock c (hf_StreamID f) (hf_fragment f) (hf_endStream f))
  else (mkHdr (h_dec c) (h_canon c) (hf_fragment f) (hf_StreamID f) (hf_endStream f) (LastStreamID c),
        inl None).

Definition InContinuation (c : HdrState) : bool := negb (contStreamID c =? 0).

Definition ContStreamID (c : HdrState) : Z := contStreamID c.

Definition ConsumeContinuation (c : HdrState) (f : ContinuationFrame)
  : HdrState * result (option DecodedHeaders) :=
  let frag := cf_fragment f in
  if MaxHeaderListSize <? u32 (u32 (Z.of_nat (length (contBlock c))) + u32 (Z.of_nat (length frag)))
  then (c, inr ErrHeaderListTooLarge)
  else
    let block := contBlock c ++ frag in
    if negb (cf_endHeaders f) then
      (mkHdr (h_dec c) (h_canon c) block (contStreamID c) (contStreamEnded c) (LastStreamID c), inl None)
    else
      lift_decoded
        (decodeBlock (mkHdr (h_dec c) (h_canon c) [] 0 false (LastStreamID c))
           (contStreamID c) block (contStreamEnded c)).

(** A new connection: [canonNames] is pre-seeded. *)
Definition newHdr (d : decoder) : HdrState := mkHdr d CommonCanonNames [] 0 false 0.

(** A HEADERS frame without END_HEADERS and the CONTINUATION frames after it. *)
Fixpoint consumeAll (c : HdrState) (fs : list ContinuationFrame)
  : HdrState * result (option DecodedHeaders) :=
  match fs with
  | [] => (c, inl None)
  | f :: fs =>
      match ConsumeContinuation c f with
      | (c, inl None) => consumeAll c fs
      | r => r
      end
  end.

(** The frames a sender makes of [frags]: END_HEADERS on the last one only. *)
Fixpoint continuations (id : Z) (frags : list (list byte)) : list ContinuationFrame :=
  match frags with
  | [] => []
  | [fr] => [mkContinuationFrame id fr true]
  | fr :: frags => mkContinuationFrame id fr false :: continuations id frags
  end.

(** The accumulator never holds more than the advertised limit. *)
Definition cont_bounded (c : HdrState) : Prop := Z.of_nat (length (contBlock c)) <= MaxHeaderListSize.

(** ** Lemmas: reassembly *)

Lemma Consume_more (blk frag : list byte) :
  Z.of_nat (length blk) + Z.of_nat (length frag) <= MaxHeaderListSize ->
  (MaxHeaderListSize <? u32 (u32 (Z.of_nat (length blk)) + u32 (Z.of_nat (length frag)))) = false.
Proof.
  intros Hle. apply Z.ltb_ge. unfold MaxHeaderListSize in *.
  rewrite !u32_small; try range32. rewrite !u32_small; range32.
Qed.

Lemma consumeAll_frags frags c id :
  frags <> [] ->
  Z.of_nat (length (contBlock c)) + Z.of_nat (length (concat frags)) <= MaxHeaderListSize ->
  consumeAll c (continuations id frags) =
  lift_decoded (decodeBlock (mkHdr (h_dec c) (h_canon c) [] 0 false (LastStreamID c))
    (contStreamID c) (contBlock c ++ concat frags) (contStreamEnded c)).
Proof.
  revert c. induction frags as [|fr frags IH]; intros c Hne Hle; [done|].
  rewrite concat_cons, length_app in Hle. destruct frags as [|fr2 frags].
  - cbn [continuations consumeAll]. unfold ConsumeContinuation. cbn [cf_fragment cf_endHeaders negb].
    rewrite Consume_more by (simpl in *; lia). simpl. rewrite app_nil_r.
    destruct (decodeBlock _ _ _ _) as [c' [d|e]]; done.
  - cbn [continuations consumeAll]. unfold ConsumeContinuation at 1. cbn [cf_fragment cf_endHeaders negb].
    rewrite Consume_more by (simpl in *; lia).
    rewrite IH; [|done|simpl in *; rewrite !length_app in *; lia]. cbn [contBlock h_dec h_canon contStreamID contStreamEnded LastStreamID].
    by rewrite concat_cons, <- app_assoc.
Qed.

(** ** Lemmas: decoding what was encoded *)

(** A name the sender's map holds: canonical and made of token bytes. *)
Definition canonical_key (k : string) : Prop := is_token k = true /\ CanonicalMIMEHeaderKey k = k.

(** The scratch state up to the cache. *)
Definition scratch_eq (s : Scratch) (h : header) (m p a st : string) : Prop :=
  scratchHeader s = h /\ scratchMethod s = m /\ scratchPath s = p /\ scratchAuthority s = a /\
  scratchStatus s = st /\ cache_ok CanonicalMIMEHeaderKey (canonNames s).

Lemma token_not_pseudo s (p : string) :
  is_token s = true -> is_token p = false -> String.eqb s p = false.
Proof. intros Hs Hp. apply String.eqb_neq. intros ->. congruence. Qed.

Lemma emit_regular s h m p a st k v :
  scratch_eq s h m p a st -> is_token k = true ->
  scratch_eq (emitHeader s (ToLower k, v))
    (<[CanonicalMIMEHeaderKey k := default [] (h !! CanonicalMIMEHeaderKey k) ++ [v]]> h) m p a st.
Proof.
  intros (Hh & Hm & Hp & Ha & Hst & Hc) Htok. destruct s as [h0 m0 p0 a0 st0 cn]. simpl in *. subst.
  assert (Ht : is_token (ToLower k) = true) by by rewrite is_token_lower.
  unfold emitHeader. rewrite !(token_not_pseudo _ _ Ht) by reflexivity.
  destruct (cached_ok CanonicalMIMEHeaderKey cn (ToLower k) Hc) as [Hv Hok].
  destruct (cached CanonicalMIMEHeaderKey cn (ToLower k)) as [canon cn']. simpl in Hv, Hok. subst.
  rewrite canonical_of_lower by done. by split_and!.
Qed.

Lemma emit_values s h m p a st k vv :
  scratch_eq s h m p a st -> canonical_key k ->
  scratch_eq (foldl emitHeader s ((fun v => (ToLower k, v)) <$> vv))
    (match vv with [] => h | _ => <[k := default [] (h !! k) ++ vv]> h end) m p a st.
Proof.
  intros Hs [Htok Hcan]. revert s h Hs. induction vv as [|v vv IH]; intros s h Hs; [done|].
  rewrite fmap_cons. cbn [foldl].
  pose proof (emit_regular _ _ _ _ _ _ _ v Hs Htok) as H1. rewrite Hcan in H1.
  specialize (IH _ _ H1). destruct vv as [|v2 vv]; [done|].
  rewrite lookup_insert_eq, insert_insert_eq in IH. simpl in IH. by rewrite <- app_assoc in IH.
Qed.

(** The regular headers that reach the other side. *)
Definition forwardable (kv : string * list string) : Prop :=
  forbiddenForwardHeader (ToLower kv.1) = false /\ kv.2 <> [].

#[global] Instance forwardable_dec kv : Decision (forwardable kv).
Proof. unfold forwardable. apply _. Defined.

Lemma emit_headers hs s h m p a st :
  scratch_eq s h m p a st -> NoDup hs.*1 -> Forall canonical_key hs.*1 ->
  (forall k, k ∈ hs.*1 -> h !! k = None) ->
  scratch_eq (foldl emitHeader s (regularFields hs)) (filter forwardable (list_to_map hs : header) ∪ h) m p a st.
Proof.
  revert s h. induction hs as [|[k vv] hs IH]; intros s h Hs Hnd Hcan Hnone.
  - cbn. by rewrite map_filter_empty, (left_id_L ∅ (∪)).
  - rewrite fmap_cons in Hnd, Hcan. inv Hnd. inv Hcan.
    assert (Hk0 : h !! k = None) by (apply Hnone; left).
    assert (Hrest : forall k', k' ∈ hs.*1 -> h !! k' = None) by (intros; apply Hnone; by right).
    cbn [fst snd] in *.
    rewrite regularFields_cons, foldl_app. cbn [list_to_map foldr uncurry].
    assert (Hk : (list_to_map hs : header) !! k = None) by by apply not_elem_of_list_to_map.
    assert (Hk' : filter forwardable (list_to_map hs : header) !! k = None).
    { apply map_lookup_filter_None. by left. }
    assert (Hskip : ~ forwardable (k, vv) -> scratch_eq s h m p a st ->
      scratch_eq (foldl emitHeader s (regularFields hs))
        (filter forwardable (<[k:=vv]> (list_to_map hs) : header) ∪ h) m p a st).
    { intros Hnf Hs'. rewrite map_filter_insert_False by done.
      rewrite (delete_id (list_to_map hs : header)) by done. by apply IH. }
    destruct (forbiddenForwardHeader (ToLower k)) eqn:Hf.
    + apply Hskip; [|done]. intros [? _]. simpl in *. congruence.
    + destruct vv as [|v vv].
      * apply Hskip; [|done]. by intros [_ ?].
      * rewrite map_filter_insert_True by (split; done).
        rewrite <- insert_union_l, insert_union_r by done. apply IH; try done.
        -- pose proof (emit_values _ _ _ _ _ _ k (v :: vv) Hs ltac:(done)) as He.
           by rewrite Hk0 in He.
        -- intros k' Hk2. rewrite lookup_insert_ne; [by apply Hrest|].
           intros Heq. by rewrite <- Heq in Hk2.
Qed.

(** ** The properties *)

(** Fragmentation is transparent: a header block sent as a HEADERS frame
    without END_HEADERS followed by CONTINUATION frames is decoded exactly as
    if it had come in one HEADERS frame, same result and same connection
    state, whenever it fits the advertised header-list limit. *)
Theorem continuation_is_transparent c id frag frags endStream :
  contBlock c = [] -> contStreamID c = 0 -> contStreamEnded c = false -> frags <> [] ->
  Z.of_nat (length (frag ++ concat frags)) <= MaxHeaderListSize ->
  (let '(c1, r1) := StartHeaders c (mkHeadersFrame id frag endStream false) in
   r1 = inl None /\
   consumeAll c1 (continuations id frags) =
   StartHeaders c (mkHeadersFrame id (frag ++ concat frags) endStream true)).
Proof.
  intros Hb Hid He Hne Hle. unfold StartHeaders. cbn [hf_StreamID hf_endHeaders hf_fragment hf_endStream].
  split; [done|]. rewrite length_app in Hle.
  rewrite consumeAll_frags; [|done|simpl; lia].
  destruct c as [d cn blk cid ce last]. simpl in *. subst. by destruct (last <? id).
Qed.

Lemma continuation_accumulator_bounded' c f :
  cont_bounded c -> Z.of_nat (length (cf_fragment f)) <= 16384 ->
  cont_bounded (ConsumeContinuation c f).1 /\
  (MaxHeaderListSize < Z.of_nat (length (contBlock c) + length (cf_fragment f)) ->
   ConsumeContinuation c f = (c, inr ErrHeaderListTooLarge)).
Proof.
  unfold cont_bounded. intros Hc Hf. unfold ConsumeContinuation.
  assert (Hu : u32 (u32 (Z.of_nat (length (contBlock c))) + u32 (Z.of_nat (length (cf_fragment f)))) =
    Z.of_nat (length (contBlock c)) + Z.of_nat (length (cf_fragment f))).
  { unfold MaxHeaderListSize in *. rewrite !u32_small; try range32. rewrite !u32_small; range32. }
  rewrite Hu. destruct (_ <? _) eqn:Hlt; bool_prop; [by split|]. split; [|lia].
  destruct (negb _); simpl.
  - rewrite length_app. lia.
  - unfold decodeBlock. destruct (dec_write _ _) as [[d fs] [e|]]; simpl; [unfold MaxHeaderListSize; lia|].
    destruct (dec_close d) as [d' [e|]]; simpl; unfold MaxHeaderListSize; lia.
Qed.

(** The accumulator is bounded: starting from a HEADERS fragment within
    the frame-size limit, no sequence of CONTINUATION frames makes the
    connection hold more than MaxHeaderListSize bytes of header block; a frame
    that would is answered with ErrHeaderListTooLarge and not stored. *)
Theorem continuation_accumulator_bounded c f :
  cont_bounded c -> Z.of_nat (length (cf_fragment f)) <= 16384 ->
  cont_bounded (ConsumeContinuation c f).1 /\
  (MaxHeaderListSize < Z.of_nat (length (contBlock c) + length (cf_fragment f)) ->
   ConsumeContinuation c f = (c, inr ErrHeaderListTooLarge)).
Proof. apply continuation_accumulator_bounded'. Qed.

End Decode.

(** ** Both ends of the wire *)

(** Documented behaviour of the HPACK codec pair: [in_sync e d] when the
    decoder has processed every block the encoder has produced; such a decoder
    yields the fields of the next block.  A change of the encoder's table size
    is announced in the next block, so it does not break the synchronisation. *)
Class HpackCodec {HE : HpackEncoder} {HD : HpackDecoder} := {
  in_sync : encoder -> decoder -> Prop;
  hpack_round_trip : forall e d fs, in_sync e d ->
    exists d1 d2, dec_write d (writeFields e fs).2 = (d1, fs, None) /\ dec_close d1 = (d2, None) /\
      in_sync (writeFields e fs).1 d2;
  hpack_set_max : forall e d v, in_sync e d -> in_sync (enc_setMax e v) d
}.

Section RoundTrip.

Context {FR : Framer} {HE : HpackEncoder} {HD : HpackDecoder} {HC : HpackCodec}.

Lemma emit_request_pseudo cn method scheme authority path :
  cache_ok CanonicalMIMEHeaderKey cn ->
  scratch_eq (foldl emitHeader (mkScratch ∅ "" "" "" "" cn) (requestPseudo method scheme authority path))
    ∅ method path authority "".
Proof.
  intros Hc. unfold requestPseudo. destruct (String.eqb authority "") eqn:E; simpl.
  - apply String.eqb_eq in E as ->. by split_and!.
  - by split_and!.
Qed.

Lemma range_permutation (h : header) hs :
  hs ≡ₚ map_to_list h -> NoDup hs.*1 /\ (list_to_map hs : header) = h /\
  (map_Forall (fun k _ => canonical_key k) h -> Forall canonical_key hs.*1).
Proof.
  intros Hp. assert (Hnd : NoDup hs.*1).
  { rewrite Hp. apply NoDup_fst_map_to_list. }
  split_and!; [done| |].
  - rewrite (list_to_map_proper _ _ Hnd Hp). apply list_to_map_to_list.
  - intros Hall. apply Forall_forall. intros k (kv & -> & Hin)%list_elem_of_fmap.
    rewrite Hp in Hin. destruct kv as [k vv]. apply elem_of_map_to_list in Hin. by apply (Hall _ _ Hin).
Qed.

(** The fields of a request HEADERS intent, and their encoding. *)
Definition requestFields (range : header -> list (string * list string)) (i : writeIntent)
  : list (string * string) :=
  requestPseudo (wi_method i) (wi_scheme i) (wi_authority i) (wi_path i)
    ++ regularFields (range (wi_header i)).

Definition requestBlock (range : header -> list (string * list string)) (w : Writer) (i : writeIntent)
  : list byte := (writeFields (wr_enc w) (requestFields range i)).2.

Lemma emit_request range cn i :
  range (wi_header i) ≡ₚ map_to_list (wi_header i) ->
  map_Forall (fun k _ => canonical_key k) (wi_header i) -> cache_ok CanonicalMIMEHeaderKey cn ->
  scratch_eq (foldl emitHeader (mkScratch ∅ "" "" "" "" cn) (requestFields range i))
    (filter forwardable (wi_header i)) (wi_method i) (wi_path i) (wi_authority i) "".
Proof.
  intros Hr Hcan Hcn. destruct (range_permutation _ _ Hr) as (Hnd & Hmap & Hall).
  unfold requestFields. rewrite foldl_app.
  pose proof (emit_headers (range (wi_header i)) _ ∅ _ _ _ _
    (emit_request_pseudo cn (wi_method i) (wi_scheme i) (wi_authority i) (wi_path i) Hcn)
    Hnd (Hall Hcan) ltac:(done)) as He.
  by rewrite Hmap, (right_id_L ∅ (∪)) in He.
Qed.

Lemma process_request range w i fr err :
  wi_kind i = wkReqHeaders -> cache_ok ToLower (wr_lower w) ->
  fr_write (wr_framer w) (WHeaders (wi_streamID i) (requestBlock range w i) (wi_endStream i) true) = (fr, err) ->
  exists lower', cache_ok ToLower lower' /\
    processIntent range w i = (mkWriter (writeFields (wr_enc w) (requestFields range i)).1 lower' fr, err).
Proof.
  intros Hk Hlow Hfr.
  destruct (encodeRegularHeaders_spec (wr_lower w) (range (wi_header i)) Hlow) as [Hf Hc].
  eexists. split; [exact Hc|].
  unfold processIntent, encodeAndWriteRequestHeaders, writeHeaderBlock. rewrite Hk.
  destruct (encodeRegularHeaders (wr_lower w) _) as [lower fs']. cbn [fst snd] in *. subst fs'.
  fold (requestFields range i). unfold requestBlock in Hfr.
  destruct (writeFields (wr_enc w) (requestFields range i)) as [e b]. cbn [fst snd] in *. by rewrite Hfr.
Qed.

(** A decoder in sync decodes the block and stays in sync. *)
Lemma decode_request range w i c streamID :
  range (wi_header i) ≡ₚ map_to_list (wi_header i) ->
  map_Forall (fun k _ => canonical_key k) (wi_header i) -> cache_ok CanonicalMIMEHeaderKey (h_canon c) ->
  in_sync (wr_enc w) (h_dec c) ->
  exists c',
    decodeBlock c streamID (requestBlock range w i) (wi_endStream i) =
      (c', inl (mkDecoded (filter forwardable (wi_header i)) (wi_method i) (wi_path i)
                  (wi_authority i) "" streamID (wi_endStream i))) /\
    in_sync (writeFields (wr_enc w) (requestFields range i)).1 (h_dec c') /\
    cache_ok CanonicalMIMEHeaderKey (h_canon c') /\ c' = set_dec c (h_dec c') (h_canon c').
Proof.
  intros Hr Hcan Hcn Hsync.
  destruct (hpack_round_trip (wr_enc w) (h_dec c) (requestFields range i) Hsync) as (d1 & d2 & Hd1 & Hd2 & Hsync').
  destruct (emit_request range (h_canon c) i Hr Hcan Hcn) as (Hh & Hm & Hp & Ha & Hst & Hok).
  exists (set_dec c d2 (canonNames (foldl emitHeader (mkScratch ∅ "" "" "" "" (h_canon c)) (requestFields range i)))).
  split_and!; [|exact Hsync'|exact Hok|done].
  unfold decodeBlock, requestBlock. rewrite Hd1, Hd2. by rewrite Hh, Hm, Hp, Ha, Hst.
Qed.

(** C14. A request survives the tunnel: when the proxy writes the HEADERS of a
    request whose header names are canonical, and the worker's decoder is in
    sync with the proxy's encoder, decoding the block that went into the frame
    gives the worker the same method, path and authority and the same headers
    without the connection-specific ones; encoder and decoder stay in sync. *)
Theorem request_headers_round_trip range w i fr c streamID :
  range (wi_header i) ≡ₚ map_to_list (wi_header i) ->
  wi_kind i = wkReqHeaders -> map_Forall (fun k _ => canonical_key k) (wi_header i) ->
  cache_ok ToLower (wr_lower w) -> cache_ok CanonicalMIMEHeaderKey (h_canon c) ->
  in_sync (wr_enc w) (h_dec c) ->
  fr_write (wr_framer w) (WHeaders (wi_streamID i) (requestBlock range w i) (wi_endStream i) true) = (fr, None) ->
  exists w' c',
    processIntent range w i = (w', None) /\ wr_framer w' = fr /\
    decodeBlock c streamID (requestBlock range w i) (wi_endStream i) =
      (c', inl (mkDecoded (filter forwardable (wi_header i)) (wi_method i) (wi_path i)
                  (wi_authority i) "" streamID (wi_endStream i))) /\
    in_sync (wr_enc w') (h_dec c') /\
    cache_ok ToLower (wr_lower w') /\ cache_ok CanonicalMIMEHeaderKey (h_canon c').
Proof.
  intros Hr Hk Hcan Hlow Hcn Hsync Hfr.
  destruct (decode_request range w i c streamID Hr Hcan Hcn Hsync) as (c' & Hd & Hs & Hok & _).
  destruct (process_request range w i fr None Hk Hlow Hfr) as (lower' & Hl & Hproc).
  eexists _, c'. by split_and!.
Qed.

End RoundTrip.

Arguments HdrState {_}.

(** ** A concrete codec

    A framer that records the frames and a codec that spells out every field,
    to exhibit the parameters. *)

Module Plain.

Definition enc_str (s : string) : list byte :=
  concat ((fun c => [x01; byte_of_ascii c]) <$> list_ascii_of_string s) ++ [x00].

Definition enc_field (f : string * string) : list byte := enc_str f.1 ++ enc_str f.2.

Fixpoint dec_str (l : list byte) : option (list ascii * list byte) :=
  match l with
  | x00 :: l => Some ([], l)
  | x01 :: b :: l => '(cs, l) ← dec_str l; Some (ascii_of_byte b :: cs, l)
  | _ => None
  end.

Fixpoint dec_fields (fuel : nat) (l : list byte) : list (string * string) * option gerror :=
  match fuel, l with
  | _, [] => ([], None)
  | O, _ => ([], Some (ErrExternal 1))
  | S fuel, l =>
      match dec_str l with
      | Some (n, l1) =>
          match dec_str l1 with
          | Some (v, l2) =>
              let '(fs, e) := dec_fields fuel l2 in
              ((string_of_list_ascii n, string_of_list_ascii v) :: fs, e)
          | None => ([], Some (ErrExternal 1))
          end
      | None => ([], Some (ErrExternal 1))
      end
  end.

#[global] Instance plain_framer : Framer := {
  framer := list wframe;
  fr_write fr f := (fr ++ [f], None)
}.

#[global] Instance plain_encoder : HpackEncoder := {
  encoder := unit;
  enc_writeField e f := (tt, enc_field f);
  enc_setMax e _ := e
}.

#[global] Instance plain_decoder : HpackDecoder := {
  decoder := unit;
  dec_write d l := let '(fs, e) := dec_fields (length l) l in (tt, fs, e);
  dec_close d := (tt, None)
}.

Lemma dec_str_enc s l : dec_str (enc_str s ++ l) = Some (list_ascii_of_string s, l).
Proof.
  unfold enc_str. induction (list_ascii_of_string s) as [|c cs IH]; [done|].
  rewrite fmap_cons, concat_cons, <- !app_assoc. cbn [app dec_str]. rewrite <- app_assoc in IH.
  cbn [app] in IH. rewrite IH. simpl. by rewrite ascii_of_byte_of_ascii.
Qed.

Lemma enc_str_length s : (0 < length (enc_str s))%nat.
Proof. unfold enc_str. rewrite length_app. simpl. lia. Qed.

Lemma dec_fields_enc fs fuel :
  (length (writeFields tt fs).2 <= fuel)%nat -> dec_fields fuel (writeFields tt fs).2 = (fs, None).
Proof.
  revert fuel. induction fs as [|[n v] fs IH]; intros fuel Hl; [by destruct fuel|].
  cbn [writeFields] in *. cbn [enc_writeField plain_encoder] in *.
  destruct (writeFields (HE := plain_encoder) tt fs) as [e bs]. cbn [snd] in *. unfold enc_field in *. cbn [fst snd] in *.
  rewrite <- app_assoc in *. pose proof (enc_str_length n).
  rewrite length_app in Hl. destruct fuel as [|fuel]; [lia|].
  assert (Hne : exists b l, enc_str n ++ enc_str v ++ bs = b :: l).
  { destruct (enc_str n) as [|b l]; simpl in *; [lia|eauto]. }
  destruct Hne as (b & l & E). cbn [dec_fields]. rewrite E, <- E, dec_str_enc, dec_str_enc.
  rewrite IH by (rewrite length_app in Hl; lia). by rewrite !string_of_list_ascii_of_string.
Qed.

#[global] Instance plain_codec : HpackCodec.
Proof.
  refine {| in_sync := fun (_ : encoder) (_ : decoder) => True |}; [|done].
  intros [] [] fs _. exists tt, tt. cbn [dec_write dec_close plain_decoder].
  by rewrite dec_fields_enc.
Defined.

(** A request with an ordinary and a forbidden header. *)
Definition demo_header : header :=
  {[ "X-Test"%string := ["1"; "2"]%string; "Connection"%string := ["close"]%string ]}.

Definition demo_request : writeIntent :=
  SendRequestHeaders 1 "GET" "http" "example.com" "/a" demo_header true.

Definition demo_writer : Writer := newWriter (HE := plain_encoder) tt ([] : framer).

Definition demo_hdr : HdrState := newHdr (HD := plain_decoder) tt.

Lemma headers_intent_on_the_wire_witness :
  Forall wire_field_ok (regularFields (map_to_list demo_header)) /\
  exists lower', cache_ok ToLower lower' /\
    processIntent map_to_list demo_writer demo_request =
      (mkWriter (writeFields (HE := plain_encoder) tt (requestFields map_to_list demo_request)).1 lower'
         [WHeaders 1 (requestBlock map_to_list demo_writer demo_request) true true], None).
Proof.
  refine (headers_intent_on_the_wire map_to_list demo_writer demo_request
    (requestPseudo "GET" "http" "example.com" "/a") _ _ _ _ CommonLowerNames_ok _
    (surjective_pairing _) eq_refl).
  right. split; reflexivity.
Defined.

Lemma continuation_is_transparent_witness :
  consumeAll (StartHeaders demo_hdr (mkHeadersFrame 1 [x01; x61] true false)).1
    (continuations 1 [[x00]; [x01; x62; x00]]) =
  StartHeaders demo_hdr (mkHeadersFrame 1 [x01; x61; x00; x01; x62; x00] true true).
Proof.
  refine (proj2 (continuation_is_transparent demo_hdr 1 [x01; x61] [[x00]; [x01; x62; x00]] true _ _ _ _ _));
    done.
Defined.

Lemma continuation_accumulator_bounded_witness :
  cont_bounded (ConsumeContinuation (mkHdr (HD := plain_decoder) tt ∅ [x61] 1 false 1)
                  (mkContinuationFrame 1 [x62] false)).1.
Proof.
  refine (proj1 (continuation_accumulator_bounded _ (mkContinuationFrame 1 [x62] false) _ _)); vm_compute; done.
Defined.

Lemma request_headers_round_trip_witness :
  exists w' c',
    processIntent map_to_list demo_writer demo_request = (w', None) /\
    wr_framer w' = [WHeaders 1 (requestBlock map_to_list demo_writer demo_request) true true] /\
    decodeBlock demo_hdr 1 (requestBlock map_to_list demo_writer demo_request) true =
      (c', inl (mkDecoded (filter forwardable demo_header) "GET" "/a" "example.com" "" 1 true)) /\
    in_sync (wr_enc w') (h_dec c') /\
    cache_ok ToLower (wr_lower w') /\ cache_ok CanonicalMIMEHeaderKey (h_canon c').
Proof.
  refine (request_headers_round_trip map_to_list demo_writer demo_request _ demo_hdr 1 _ _ _ _ _ _ _).
  - done.
  - done.
  - apply (bool_decide_unpack _). vm_compute. exact I.
  - exact CommonLowerNames_ok.
  - exact CommonCanonNames_ok.
  - exact I.
  - reflexivity.
Defined.

End Plain.
