(* ===== verification/Conn.v ===== *)
(** * The shared connection (internal/h2/conn.go)

    [Conn] with its registry, drain, PING, SETTINGS and inbound-frame
    operations.  Header reassembly is HeaderBlock.v, flow control Flow.v, the
    body queues H2Stream.v.  Frames to be sent are intents handed to the
    writer goroutine: [c_out] is the sequence of intents submitted so far
    (WriterLoop.v shows that the writer handles them in that order).  The
    wall clock is an argument of the operations that read it. *)

From Stdlib Require Import Strings.Byte.
From S2P Require Import Prelude Errors Flow Names H2Stream Writer HeaderBlock.

#[global] Instance byte_eq_decision : EqDecision byte := Byte.byte_eq_dec.

#[global] Instance writeKind_eq_decision : EqDecision writeKind.
Proof. solve_decision. Defined.

(** ** Inbound frames (golang.org/x/net/http2) *)

Inductive Frame :=
| FSettings (ack : bool) (settings : list (Z * Z))
| FWindowUpdate (streamID increment : Z)
| FHeaders (f : HeadersFrame)
| FContinuation (f : ContinuationFrame)
| FData (streamID : Z) (data : list byte) (length : Z) (endStream : bool)
| FPing (ack : bool) (data : list byte)
| FGoAway (lastStreamID code : Z)
| FRSTStream (streamID code : Z)
| FOther.

(** SETTINGS identifiers. *)
Definition SettingHeaderTableSize : Z := 1.
Definition SettingEnablePush : Z := 2.
Definition SettingMaxConcurrentStreams : Z := 3.
Definition SettingInitialWindowSize : Z := 4.
Definition SettingMaxFrameSize : Z := 5.
Definition SettingMaxHeaderListSize : Z := 6.

(** Durations in nanoseconds. *)
Definition PingInterval : Z := 30 * 10 ^ 9.
Definition PingTimeout : Z := 15 * 10 ^ 9.

(** [binary.BigEndian.PutUint64] *)
Definition be64 (v : Z) : list byte :=
  (fun k => default x00 (Byte.of_N (Z.to_N (Z.land (Z.shiftr v (8 * k)) 255)))) <$> [7; 6; 5; 4; 3; 2; 1; 0].

Section Conn.

Context {HD : HpackDecoder}.

(** [c_draining]: the atomic flag; [c_drainStarted], [c_drainDone]: whether
    the channels are closed; [c_readDeadline]: the transport's read deadline;
    [c_writeDead]: [writeDeadCh] is closed. *)
Record Conn := mkConn {
  c_pingDeadline : Z;
  c_pingPending : bool;
  c_pingData : list byte;
  c_pingCounter : Z;
  c_readDeadline : option Z;
  c_hdr : HdrState;
  c_streams : gmap Z Stream;
  c_Send : SendCredit;
  c_maxFrameSize : Z;
  c_peerMaxStreams : Z;
  c_draining : bool;
  c_drainStarted : bool;
  c_drainDone : bool;
  c_nextStreamID : Z;
  c_out : list writeIntent;
  c_writeDead : bool
}.

Definition set_c_pingDeadline (c : Conn) (v : Z) : Conn :=
  mkConn v (c_pingPending c) (c_pingData c) (c_pingCounter c) (c_readDeadline c) (c_hdr c) (c_streams c) (c_Send c) (c_maxFrameSize c) (c_peerMaxStreams c) (c_draining c) (c_drainStarted c) (c_drainDone c) (c_nextStreamID c) (c_out c) (c_writeDead c).

Definition set_c_pingPending (c : Conn) (v : bool) : Conn :=
  mkConn (c_pingDeadline c) v (c_pingData c) (c_pingCounter c) (c_readDeadline c) (c_hdr c) (c_streams c) (c_Send c) (c_maxFrameSize c) (c_peerMaxStreams c) (c_draining c) (c_drainStarted c) (c_drainDone c) (c_nextStreamID c) (c_out c) (c_writeDead c).

Definition set_c_pingData (c : Conn) (v : list byte) : Conn :=
  mkConn (c_pingDeadline c) (c_pingPending c) v (c_pingCounter c) (c_readDeadline c) (c_hdr c) (c_streams c) (c_Send c) (c_maxFrameSize c) (c_peerMaxStreams c) (c_draining c) (c_drainStarted c) (c_drainDone c) (c_nextStreamID c) (c_out c) (c_writeDead c).

Definition set_c_pingCounter (c : Conn) (v : Z) : Conn :=
  mkConn (c_pingDeadline c) (c_pingPending c) (c_pingData c) v (c_readDeadline c) (c_hdr c) (c_streams c) (c_Send c) (c_maxFrameSize c) (c_peerMaxStreams c) (c_draining c) (c_drainStarted c) (c_drainDone c) (c_nextStreamID c) (c_out c) (c_writeDead c).

Definition set_c_readDeadline (c : Conn) (v : option Z) : Conn :=
  mkConn (c_pingDeadline c) (c_pingPending c) (c_pingData c) (c_pingCounter c) v (c_hdr c) (c_streams c) (c_Send c) (c_maxFrameSize c) (c_peerMaxStreams c) (c_draining c) (c_drainStarted c) (c_drainDone c) (c_nextStreamID c) (c_out c) (c_writeDead c).

Definition set_c_hdr (c : Conn) (v : HdrState) : Conn :=
  mkConn (c_pingDeadline c) (c_pingPending c) (c_pingData c) (c_pingCounter c) (c_readDeadline c) v (c_streams c) (c_Send c) (c_maxFrameSize c) (c_peerMaxStreams c) (c_draining c) (c_drainStarted c) (c_drainDone c) (c_nextStreamID c) (c_out c) (c_writeDead c).

Definition set_c_streams (c : Conn) (v : gmap Z Stream) : Conn :=
  mkConn (c_pingDeadline c) (c_pingPending c) (c_pingData c) (c_pingCounter c) (c_readDeadline c) (c_hdr c) v (c_Send c) (c_maxFrameSize c) (c_peerMaxStreams c) (c_draining c) (c_drainStarted c) (c_drainDone c) (c_nextStreamID c) (c_out c) (c_writeDead c).

Definition set_c_Send (c : Conn) (v : SendCredit) : Conn :=
  mkConn (c_pingDeadline c) (c_pingPending c) (c_pingData c) (c_pingCounter c) (c_readDeadline c) (c_hdr c) (c_streams c) v (c_maxFrameSize c) (c_peerMaxStreams c) (c_draining c) (c_drainStarted c) (c_drainDone c) (c_nextStreamID c) (c_out c) (c_writeDead c).

Definition set_c_maxFrameSize (c : Conn) (v : Z) : Conn :=
  mkConn (c_pingDeadline c) (c_pingPending c) (c_pingData c) (c_pingCounter c) (c_readDeadline c) (c_hdr c) (c_streams c) (c_Send c) v (c_peerMaxStreams c) (c_draining c) (c_drainStarted c) (c_drainDone c) (c_nextStreamID c) (c_out c) (c_writeDead c).

Definition set_c_peerMaxStreams (c : Conn) (v : Z) : Conn :=
  mkConn (c_pingDeadline c) (c_pingPending c) (c_pingData c) (c_pingCounter c) (c_readDeadline c) (c_hdr c) (c_streams c) (c_Send c) (c_maxFrameSize c) v (c_draining c) (c_drainStarted c) (c_drainDone c) (c_nextStreamID c) (c_out c) (c_writeDead c).

Definition set_c_draining (c : Conn) (v : bool) : Conn :=
  mkConn (c_pingDeadline c) (c_pingPending c) (c_pingData c) (c_pingCounter c) (c_readDeadline c) (c_hdr c) (c_streams c) (c_Send c) (c_maxFrameSize c) (c_peerMaxStreams c) v (c_drainStarted c) (c_drainDone c) (c_nextStreamID c) (c_out c) (c_writeDead c).

Definition set_c_drainStarted (c : Conn) (v : bool) : Conn :=
  mkConn (c_pingDeadline c) (c_pingPending c) (c_pingData c) (c_pingCounter c) (c_readDeadline c) (c_hdr c) (c_streams c) (c_Send c) (c_maxFrameSize c) (c_peerMaxStreams c) (c_draining c) v (c_drainDone c) (c_nextStreamID c) (c_out c) (c_writeDead c).

Definition set_c_drainDone (c : Conn) (v : bool) : Conn :=
  mkConn (c_pingDeadline c) (c_pingPending c) (c_pingData c) (c_pingCounter c) (c_readDeadline c) (c_hdr c) (c_streams c) (c_Send c) (c_maxFrameSize c) (c_peerMaxStreams c) (c_draining c) (c_drainStarted c) v (c_nextStreamID c) (c_out c) (c_writeDead c).

Definition set_c_nextStreamID (c : Conn) (v : Z) : Conn :=
  mkConn (c_pingDeadline c) (c_pingPending c) (c_pingData c) (c_pingCounter c) (c_readDeadline c) (c_hdr c) (c_streams c) (c_Send c) (c_maxFrameSize c) (c_peerMaxStreams c) (c_draining c) (c_drainStarted c) (c_drainDone c) v (c_out c) (c_writeDead c).

Definition set_c_out (c : Conn) (v : list writeIntent) : Conn :=
  mkConn (c_pingDeadline c) (c_pingPending c) (c_pingData c) (c_pingCounter c) (c_readDeadline c) (c_hdr c) (c_streams c) (c_Send c) (c_maxFrameSize c) (c_peerMaxStreams c) (c_draining c) (c_drainStarted c) (c_drainDone c) (c_nextStreamID c) v (c_writeDead c).

Definition set_c_writeDead (c : Conn) (v : bool) : Conn :=
  mkConn (c_pingDeadline c) (c_pingPending c) (c_pingData c) (c_pingCounter c) (c_readDeadline c) (c_hdr c) (c_streams c) (c_Send c) (c_maxFrameSize c) (c_peerMaxStreams c) (c_draining c) (c_drainStarted c) (c_drainDone c) (c_nextStreamID c) (c_out c) v.

(** The connection [New] builds. *)
Definition newConn (d : decoder) : Conn :=
  mkConn 0 false [] 0 None (newHdr d) ∅
    (mkSendCredit false DefaultInitialWindow DefaultInitialWindow false)
    16384 NoStreamLimit false false false 0 [] false.

(** [New]: the SETTINGS it writes and its result; [writeErr] is what
    [framer.WriteSettings] returns. *)
Definition New (d : decoder) (maxConcurrentStreams : Z) (writeErr : option gerror)
    : list (Z * Z) * (Conn + gerror) :=
  let maxConcurrentStreams :=
    if maxConcurrentStreams =? 0 then DefaultMaxConcurrentStreams else maxConcurrentStreams in
  ([(SettingMaxConcurrentStreams, maxConcurrentStreams); (SettingMaxHeaderListSize, MaxHeaderListSize)],
   match writeErr with Some e => inr e | None => inl (newConn d) end).

(** [submitAsync]: an intent for a dead writer is dropped. *)
Definition submitAsync (c : Conn) (i : writeIntent) : Conn :=
  if c_writeDead c then c else set_c_out c (c_out c ++ [i]).

Definition MaxFrameSize (c : Conn) : Z :=
  if c_maxFrameSize c =? 0 then 16384 else c_maxFrameSize c.

Definition NextStreamID (c : Conn) : Conn * Z :=
  let id := if c_nextStreamID c =? 0 then 1 else u32 (c_nextStreamID c + 2) in
  (set_c_nextStreamID c id, id).

(** *** Stream registry and drain *)

Definition AddStream (c : Conn) (s : Stream) : Conn :=
  set_c_streams c (<[s_ID s := s]> (c_streams c)).

Definition GetStream (c : Conn) (id : Z) : option Stream := c_streams c !! id.

(** [drainDoneOnce]: the second call does nothing. *)
Definition finishDrain (c : Conn) (now : Z) : Conn :=
  if c_drainDone c then c else set_c_readDeadline (set_c_drainDone c true) (Some now).

Definition RemoveStream (c : Conn) (id now : Z) : Conn :=
  let c := set_c_streams c (delete id (c_streams c)) in
  if (size (c_streams c) =? 0)%nat && c_draining c then finishDrain c now else c.

Definition ActiveStreams (c : Conn) : Z := Z.of_nat (size (c_streams c)).

Definition FailAllStreams (c : Conn) (err : gerror) : Conn :=
  set_c_streams c ((fun s => FailBody s err) <$> c_streams c).

Definition BeginDrain (c : Conn) (now : Z) : Conn :=
  let c := set_c_drainStarted (set_c_draining c true) true in
  if (size (c_streams c) =? 0)%nat then finishDrain c now else c.

Definition Draining (c : Conn) : bool := c_draining c.

Definition DrainComplete (c : Conn) : bool := c_drainDone c.

(** *** PING liveness *)

Definition SendOrCheckPing (c : Conn) (now : Z) : Conn * option gerror :=
  if c_pingPending c then
    if c_pingDeadline c <? now then (c, Some ErrPingTimeout) else (c, None)
  else
    let c := set_c_pingCounter c (u64 (c_pingCounter c + 1)) in
    let data := be64 (c_pingCounter c) in
    let c := set_c_pingPending c true in
    let c := set_c_pingData c data in
    let c := set_c_pingDeadline c (now + PingTimeout) in
    (submitAsync c (SendPing false data), None).

Definition HandlePingAck (c : Conn) (data : list byte) : Conn :=
  if c_pingPending c && bool_decide (c_pingData c = data) then set_c_pingPending c false else c.

(** *** SETTINGS *)

(** The registered streams, in the order of the snapshot. *)
Definition activeStreamWindows (c : Conn) : list Z :=
  (fun '(_, s) => s_SendWindow s) <$> map_to_list (c_streams c).

Definition writeStreamWindows (c : Conn) (sws : list Z) : Conn :=
  set_c_streams c
    (foldr (fun '((id, _), sw) m => alter (fun s => set_SendWindow s sw) id m)
       (c_streams c) (zip (map_to_list (c_streams c)) sws)).

(** The function [ForeachSetting] calls on each setting. *)
Definition applySetting (c : Conn) (s : Z * Z) : Conn * option gerror :=
  let '(id, val) := s in
  if id =? SettingMaxFrameSize then
    if (val <? 16384) || (16777215 <? val) then (c, Some ErrBadSettings)
    else (set_c_maxFrameSize c val, None)
  else if id =? SettingInitialWindowSize then
    if 2 ^ 31 - 1 <? val then (c, Some ErrBadSettings)
    else
      let '(sc, sws) := ApplyInitialWindowDelta (c_Send c) (i32 val) (activeStreamWindows c) in
      (set_c_Send (writeStreamWindows c sws) sc, None)
  else if id =? SettingHeaderTableSize then (submitAsync c (SendSetMaxDynamicTableSize val), None)
  else if id =? SettingMaxConcurrentStreams then (set_c_peerMaxStreams c val, None)
  else if id =? SettingEnablePush then
    if 1 <? val then (c, Some ErrBadSettings) else (c, None)
  else (c, None).

(** [ForeachSetting] stops at the first error. *)
Fixpoint ApplyPeerSettings (c : Conn) (ss : list (Z * Z)) : Conn * option gerror :=
  match ss with
  | [] => (c, None)
  | s :: ss =>
      match applySetting c s with
      | (c, None) => ApplyPeerSettings c ss
      | (c, Some e) => (c, Some e)
      end
  end.

Definition PeerMaxStreams (c : Conn) : Z := c_peerMaxStreams c.

(** *** Inbound frames shared by both roles *)

(** [choice]: the buffer [dataPool.Get] hands out. *)
Definition HandleInboundData (m : Mem) (c : Conn) (choice : option nat) (streamID : Z)
    (data : list byte) (flowLen : Z) (endStream : bool) : Mem * Conn :=
  let os := GetStream c streamID in
  let c := if 0 <? flowLen then
             let c := submitAsync c (SendWindowUpdate 0 flowLen) in
             match os with Some _ => submitAsync c (SendWindowUpdate streamID flowLen) | None => c end
           else c in
  match os with
  | None =>
      (m, if 0 <? flowLen then submitAsync c (SendRSTStream streamID ErrCodeStreamClosed) else c)
  | Some s =>
      let '(m, s) := pushBytes m s choice data in
      let s := if endStream then CloseData s else s in
      (m, set_c_streams c (<[streamID := s]> (c_streams c)))
  end.

Definition HandleWindowUpdate (c : Conn) (streamID inc : Z) : Conn :=
  if streamID =? 0 then set_c_Send c (AddConn (c_Send c) inc)
  else
    match GetStream c streamID with
    | Some s => set_c_streams c (<[streamID := set_SendWindow s (Flow.AddStream (s_SendWindow s) inc)]> (c_streams c))
    | None => c
    end.

Definition HandleRSTStream (c : Conn) (streamID : Z) : Conn :=
  match GetStream c streamID with
  | Some s => set_c_streams c (<[streamID := FailBody s ErrStreamReset]> (c_streams c))
  | None => c
  end.

Definition SetIdleDeadline (c : Conn) (now : Z) : Conn := set_c_readDeadline c (Some (now + PingInterval)).

Definition SetReadDeadline (c : Conn) (t : Z) : Conn := set_c_readDeadline c (Some t).

(** ** Invariants *)

(** The peer's settings are within the bounds of RFC 9113 6.5.2, every stream
    is registered under its own id with an [int32] window, and ids are odd. *)
Definition settings_inv (c : Conn) : Prop :=
  (16384 <= c_maxFrameSize c <= 16777215) /\ (0 <= PeerInitWindow (c_Send c) <= MaxInt32) /\
  is_u32 (c_peerMaxStreams c).

Definition registry_inv (c : Conn) : Prop :=
  map_Forall (fun id s => s_ID s = id /\ is_i32 (s_SendWindow s)) (c_streams c).

(** [DrainComplete] reports exactly "drain begun and no stream left". *)
Definition drain_inv (c : Conn) : Prop :=
  c_drainDone c = c_draining c && (size (c_streams c) =? 0)%nat /\ c_drainStarted c = c_draining c.

(** A setting RFC 9113 allows. *)
Definition setting_ok (s : Z * Z) : bool :=
  if s.1 =? SettingMaxFrameSize then (16384 <=? s.2) && (s.2 <=? 16777215)
  else if s.1 =? SettingInitialWindowSize then s.2 <=? 2 ^ 31 - 1
  else if s.1 =? SettingEnablePush then s.2 <=? 1
  else true.

(** The last value a SETTINGS frame gives for [id], or the old one. *)
Definition last_val (id old : Z) (ss : list (Z * Z)) : Z :=
  foldl (fun acc s => if s.1 =? id then s.2 else acc) old ss.

(** ** Lemmas *)

Lemma submitAsync_alive c i : c_writeDead c = false -> submitAsync c i = set_c_out c (c_out c ++ [i]).
Proof. unfold submitAsync. by intros ->. Qed.

Lemma submitAsync_frame c i :
  c_streams (submitAsync c i) = c_streams c /\ c_Send (submitAsync c i) = c_Send c /\
  c_maxFrameSize (submitAsync c i) = c_maxFrameSize c /\
  c_peerMaxStreams (submitAsync c i) = c_peerMaxStreams c /\
  c_writeDead (submitAsync c i) = c_writeDead c.
Proof. unfold submitAsync. destruct (c_writeDead c) eqn:E; split_and!; done. Qed.

(** Writing back one value per entry of a list of distinct keys. *)
Lemma write_back_lookup (f : Z -> Z) (l : list (Z * Stream)) (m : gmap Z Stream) id :
  NoDup l.*1 -> (forall k s, (k, s) ∈ l -> m !! k = Some s) ->
  foldr (fun '((k, _), sw) m => alter (fun s => set_SendWindow s sw) k m) m
    (zip l (f <$> ((fun '(_, s) => s_SendWindow s) <$> l))) !! id =
  (if decide (id ∈ l.*1) then (fun s => set_SendWindow s (f (s_SendWindow s))) <$> m !! id else m !! id).
Proof.
  intros Hnd Hl. induction l as [|[k s] l IH].
  - case_decide as H; [|done]. by apply elem_of_nil in H.
  - apply NoDup_cons in Hnd as [Hnk Hnd]. rewrite !fmap_cons. cbn [zip zip_with foldr fst snd] in *.
    specialize (IH Hnd ltac:(intros k' s' ?; apply Hl, elem_of_cons; by right)).
    pose proof (Hl k s ltac:(apply elem_of_cons; by left)) as Hk.
    rewrite lookup_alter. destruct (decide (k = id)) as [<-|Hne]; rewrite IH.
    + rewrite (decide_False (P := k ∈ l.*1)) by done. rewrite decide_True by (apply elem_of_cons; by left).
      by rewrite Hk.
    + destruct (decide (id ∈ l.*1)).
      * by rewrite decide_True by (apply elem_of_cons; by right).
      * rewrite decide_False; [done|]. intros [?|?]%elem_of_cons; congruence.
Qed.

Lemma writeStreamWindows_lookup c (f : Z -> Z) id :
  c_streams (writeStreamWindows c (f <$> activeStreamWindows c)) !! id =
  (fun s => set_SendWindow s (f (s_SendWindow s))) <$> c_streams c !! id.
Proof.
  unfold writeStreamWindows, activeStreamWindows. cbn [c_streams set_c_streams].
  rewrite write_back_lookup; [|apply NoDup_fst_map_to_list|intros; by apply elem_of_map_to_list].
  case_decide as H; [done|]. destruct (c_streams c !! id) as [s|] eqn:E; [|done].
  exfalso. apply H. apply list_elem_of_fmap. exists (id, s). by rewrite elem_of_map_to_list.
Qed.

(** What a change of the initial window does to the registered streams. *)
Lemma initial_window_streams c v sc sws :
  registry_inv c -> ApplyInitialWindowDelta (c_Send c) v (activeStreamWindows c) = (sc, sws) ->
  PeerInitWindow sc = v /\ ConnSendWindow sc = ConnSendWindow (c_Send c) /\
  forall id, c_streams (writeStreamWindows c sws) !! id =
    (fun s => set_SendWindow s (i32 (s_SendWindow s + (v - PeerInitWindow (c_Send c))))) <$> c_streams c !! id.
Proof.
  intros Hreg H.
  assert (Hi : i32 <$> activeStreamWindows c = activeStreamWindows c).
  { apply fmap_i32_id. unfold activeStreamWindows. apply Forall_fmap, Forall_forall.
    intros [k s] Hin%elem_of_map_to_list. by apply (Hreg _ _ Hin). }
  rewrite <- Hi, ApplyInitialWindowDelta_spec in H. simplify_eq. split_and!; [done..|].
  intros id. apply (writeStreamWindows_lookup c (fun w => i32 (w + (v - PeerInitWindow (c_Send c))))).
Qed.

(** A change of the initial window by nothing leaves the streams alone. *)
Lemma streams_unshifted c w :
  registry_inv c ->
  forall id, c_streams c !! id =
    (fun st => set_SendWindow st (i32 (s_SendWindow st + (w - w)))) <$> c_streams c !! id.
Proof.
  intros Hr k. destruct (c_streams c !! k) as [st|] eqn:E; [|done]. simpl.
  rewrite Z.sub_diag, Z.add_0_r, i32_small by apply (Hr _ _ E). by destruct st.
Qed.

(** One accepted setting: bounds kept, value recorded, windows shifted. *)
Lemma applySetting_ok c s :
  settings_inv c -> registry_inv c -> is_u32 s.2 -> setting_ok s = true ->
  exists c', applySetting c s = (c', None) /\ settings_inv c' /\ registry_inv c' /\
    c_maxFrameSize c' = last_val SettingMaxFrameSize (c_maxFrameSize c) [s] /\
    c_peerMaxStreams c' = last_val SettingMaxConcurrentStreams (c_peerMaxStreams c) [s] /\
    PeerInitWindow (c_Send c') = last_val SettingInitialWindowSize (PeerInitWindow (c_Send c)) [s] /\
    (forall id, c_streams c' !! id = (fun st => set_SendWindow st (i32 (s_SendWindow st
       + (PeerInitWindow (c_Send c') - PeerInitWindow (c_Send c))))) <$> c_streams c !! id).
Proof.
  intros (Hmf & Hpi & Hms) Hreg Hu Hok. destruct s as [id v]. unfold setting_ok, last_val in *. cbn [fst snd foldl] in *.
  pose proof (fun w => streams_unshifted c w Hreg) as Hid. specialize (Hid (PeerInitWindow (c_Send c))).
  unfold applySetting.
  destruct (id =? SettingMaxFrameSize) eqn:E1; bool_prop; [subst id; cbn|].
  { rewrite (proj2 (Z.ltb_ge _ _)), (proj2 (Z.ltb_ge _ _)) by lia. eexists. split; [done|]. split_and!; done || (unfold settings_inv; cbn; lia). }
  destruct (id =? SettingInitialWindowSize) eqn:E2; bool_prop; [subst id; cbn|].
  { rewrite (proj2 (Z.ltb_ge _ _)) by lia. rewrite i32_small by range32.
    destruct (ApplyInitialWindowDelta _ v _) as [sc sws] eqn:Ha.
    destruct (initial_window_streams c v sc sws Hreg Ha) as (Hp & Hcw & Hst).
    eexists. split; [done|]. split_and!; cbn [c_Send set_c_Send c_maxFrameSize c_peerMaxStreams c_streams writeStreamWindows set_c_streams]; try done.
    - unfold settings_inv. cbn. rewrite Hp. split_and!; range32.
    - intros k st Hk. rewrite Hst in Hk. destruct (c_streams c !! k) as [s0|] eqn:E; simplify_eq/=.
      split; [by apply (Hreg _ _ E)|auto with width].
    - rewrite Hp. exact Hst. }
  destruct (id =? SettingHeaderTableSize) eqn:E3; bool_prop; [subst id|].
  { eexists. split; [done|]. destruct (submitAsync_frame c (SendSetMaxDynamicTableSize v)) as (Es & Ef & Em & Ep & _).
    unfold settings_inv, registry_inv. rewrite Es, Ef, Em, Ep. split_and!; done || lia. }
  destruct (id =? SettingMaxConcurrentStreams) eqn:E4; bool_prop; [subst id|].
  { eexists. split; [done|]. split_and!; done || (unfold settings_inv; cbn; lia). }
  destruct (id =? SettingEnablePush) eqn:E5; bool_prop.
  - rewrite (proj2 (Z.ltb_ge _ _)) by lia. eexists. split; [done|]. split_and!; done || (unfold settings_inv; cbn; lia).
  - eexists. split; [done|]. split_and!; done || (unfold settings_inv; cbn; lia).
Qed.

Lemma applySetting_bad c s :
  setting_ok s = false -> applySetting c s = (c, Some ErrBadSettings).
Proof.
  destruct s as [id v]. unfold setting_ok, applySetting. cbn [fst snd].
  destruct (id =? SettingMaxFrameSize) eqn:E1; bool_prop.
  { intros H. apply andb_false_iff in H as [H|H]; bool_prop.
    - by rewrite (proj2 (Z.ltb_lt _ _)) by lia.
    - rewrite (proj2 (Z.ltb_lt 16777215 v)) by lia. by rewrite orb_true_r. }
  destruct (id =? SettingInitialWindowSize) eqn:E2; bool_prop.
  { intros H. bool_prop. by rewrite (proj2 (Z.ltb_lt _ _)) by lia. }
  destruct (id =? SettingEnablePush) eqn:E5; [|done]. bool_prop. subst id. cbn. intros H. bool_prop.
  by rewrite (proj2 (Z.ltb_lt 1 v)) by lia.
Qed.

(** The settings applied before the first one the code refuses. *)
Fixpoint accepted (ss : list (Z * Z)) : list (Z * Z) :=
  match ss with
  | [] => []
  | s :: ss => if setting_ok s then s :: accepted ss else []
  end.

Definition table_sizes (ss : list (Z * Z)) : list writeIntent :=
  omap (fun s => if s.1 =? SettingHeaderTableSize then Some (SendSetMaxDynamicTableSize s.2) else None) ss.

Lemma last_val_cons id old s ss : last_val id old (s :: ss) = last_val id (last_val id old [s]) ss.
Proof. done. Qed.

Lemma writeStreamWindows_out c sws : c_out (writeStreamWindows c sws) = c_out c.
Proof. done. Qed.

Lemma applySetting_out c s :
  setting_ok s = true -> c_writeDead c = false ->
  c_out (applySetting c s).1 = c_out c ++ table_sizes [s] /\ c_writeDead (applySetting c s).1 = false.
Proof.
  intros Hok Hd. destruct s as [id v]. unfold applySetting, table_sizes, submitAsync. rewrite Hd.
  cbn [omap list_omap fst snd].
  destruct (id =? SettingMaxFrameSize) eqn:E1; bool_prop; [subst id|].
  { destruct (_ || _); cbn; by rewrite app_nil_r. }
  destruct (id =? SettingInitialWindowSize) eqn:E2; bool_prop; [subst id|].
  { destruct (_ <? _); [|destruct (ApplyInitialWindowDelta _ _ _)]; cbn; by rewrite app_nil_r. }
  destruct (id =? SettingHeaderTableSize) eqn:E3; [done|].
  destruct (id =? SettingMaxConcurrentStreams); [by cbn; rewrite app_nil_r|].
  destruct (id =? SettingEnablePush); [destruct (_ <? _)|]; cbn; by rewrite app_nil_r.
Qed.

(** C17. A SETTINGS frame is applied setting by setting up to the first value
    RFC 9113 6.5.2 forbids: the frame is refused with ErrBadSettings exactly
    when it holds such a value; otherwise, and for the settings before it, the
    last value of each parameter wins, every registered stream's window moves
    by the change of the initial window, every table size is queued for the
    encoder in order, and the bounds of the peer's settings and the well-formedness
    of the registry are kept. *)
Theorem settings_frame_applied c ss :
  settings_inv c -> registry_inv c -> c_writeDead c = false -> Forall (fun s => is_u32 s.2) ss ->
  exists c', ApplyPeerSettings c ss = (c', if forallb setting_ok ss then None else Some ErrBadSettings) /\
    settings_inv c' /\ registry_inv c' /\
    c_maxFrameSize c' = last_val SettingMaxFrameSize (c_maxFrameSize c) (accepted ss) /\
    c_peerMaxStreams c' = last_val SettingMaxConcurrentStreams (c_peerMaxStreams c) (accepted ss) /\
    PeerInitWindow (c_Send c') =
      last_val SettingInitialWindowSize (PeerInitWindow (c_Send c)) (accepted ss) /\
    (forall id, c_streams c' !! id = (fun st => set_SendWindow st (i32 (s_SendWindow st
       + (PeerInitWindow (c_Send c') - PeerInitWindow (c_Send c))))) <$> c_streams c !! id) /\
    c_out c' = c_out c ++ table_sizes (accepted ss).
Proof.
  intros Hs Hr Hd Hu. revert c Hs Hr Hd. induction ss as [|s ss IH]; intros c Hs Hr Hd; simpl.
  { exists c. split_and!; try done; [|by rewrite app_nil_r]. by apply streams_unshifted. }
  apply Forall_cons in Hu as [Hu Hus]. destruct (setting_ok s) eqn:Hok; simpl.
  - destruct (applySetting_ok c s Hs Hr Hu Hok) as (c1 & Ha & Hs1 & Hr1 & Hm & Hp & Hi & Hst).
    destruct (applySetting_out c s Hok Hd) as [Ho Hd1]. rewrite Ha in Ho, Hd1 |- *. cbn [fst] in *.
    destruct (IH Hus c1 Hs1 Hr1 Hd1) as (c' & -> & Hs' & Hr' & Hm' & Hp' & Hi' & Hst' & Ho').
    exists c'. split_and!; try done.
    + by rewrite Hm', Hm, <- last_val_cons.
    + by rewrite Hp', Hp, <- last_val_cons.
    + by rewrite Hi', Hi, <- last_val_cons.
    + intros id. rewrite Hst', Hst. destruct (c_streams c !! id) as [st|]; [|done]. simpl. do 2 f_equal.
      rewrite i32_add_l. f_equal. lia.
    + rewrite Ho', Ho, <- app_assoc. f_equal. unfold table_sizes. by rewrite <- omap_app.
  - rewrite applySetting_bad by done. exists c. split_and!; try done; [|by rewrite app_nil_r].
    by apply streams_unshifted.
Qed.

(** *** Stream identifiers *)

Fixpoint next_ids (n : nat) (c : Conn) : Conn * list Z :=
  match n with
  | O => (c, [])
  | S n => let '(c, id) := NextStreamID c in let '(c, ids) := next_ids n c in (c, id :: ids)
  end.

Lemma NextStreamID_spec c k :
  0 <= k < 2 ^ 30 -> c_nextStreamID c = (if k =? 0 then 0 else 2 * k - 1) ->
  (NextStreamID c).2 = 2 * k + 1 /\ c_nextStreamID (NextStreamID c).1 = 2 * k + 1.
Proof.
  intros Hk Hc. unfold NextStreamID. cbn. rewrite Hc. destruct (k =? 0) eqn:E; bool_prop.
  - subst k. done.
  - rewrite (proj2 (Z.eqb_neq _ 0)) by lia. rewrite u32_small by range32. lia.
Qed.

Lemma next_ids_spec n c k :
  0 <= k -> k + Z.of_nat n <= 2 ^ 30 -> c_nextStreamID c = (if k =? 0 then 0 else 2 * k - 1) ->
  (next_ids n c).2 = (fun i => 2 * (k + Z.of_nat i) + 1) <$> seq 0 n.
Proof.
  revert c k. induction n as [|n IH]; intros c k Hk Hn Hc; [done|]. cbn [next_ids].
  destruct (NextStreamID_spec c k ltac:(lia) Hc) as [Hid Hc'].
  destruct (NextStreamID c) as [c1 id]. cbn [fst snd] in *. subst id.
  specialize (IH c1 (k + 1) ltac:(lia) ltac:(lia)). rewrite (proj2 (Z.eqb_neq _ 0)) in IH by lia.
  specialize (IH ltac:(lia)). destruct (next_ids n c1) as [c2 ids]. cbn [snd] in *. subst ids.
  cbn [seq]. rewrite fmap_cons. f_equal; [lia|]. rewrite <- fmap_S_seq, <- list_fmap_compose.
  apply list_fmap_ext. intros i x _. cbn. lia.
Qed.

(** *** PING payloads *)

Lemma byte_of_Z_inj a b :
  0 <= a < 256 -> 0 <= b < 256 ->
  default x00 (Byte.of_N (Z.to_N a)) = default x00 (Byte.of_N (Z.to_N b)) -> a = b.
Proof.
  intros Ha Hb H.
  destruct (Byte.of_N (Z.to_N a)) as [x|] eqn:Ea; [|apply Byte.of_N_None_iff in Ea; lia].
  destruct (Byte.of_N (Z.to_N b)) as [y|] eqn:Eb; [|apply Byte.of_N_None_iff in Eb; lia].
  apply Byte.to_of_N in Ea, Eb. simpl in H. subst y. lia.
Qed.

Lemma land_255_range v : 0 <= Z.land v 255 < 256.
Proof. change 255 with (Z.ones 8). rewrite Z.land_ones by lia. apply Z.mod_pos_bound. lia. Qed.

Lemma be64_inj a b : 0 <= a < 2 ^ 64 -> 0 <= b < 2 ^ 64 -> be64 a = be64 b -> a = b.
Proof.
  intros Ha Hb H.
  assert (Hk : forall k, 0 <= k < 8 -> Z.land (Z.shiftr a (8 * k)) 255 = Z.land (Z.shiftr b (8 * k)) 255).
  { intros k Hk. apply byte_of_Z_inj; [apply land_255_range..|]. unfold be64 in H.
    apply (fmap_eq_inv _ _ _ H). rewrite !elem_of_cons. lia. }
  apply Z.bits_inj'. intros i Hi. destruct (Z.lt_ge_cases i 64) as [Hlt|Hge].
  - specialize (Hk (i / 8) ltac:(split; [apply Z.div_pos|apply Z.div_lt_upper_bound]; lia)).
    apply (f_equal (fun z => Z.testbit z (i mod 8))) in Hk.
    pose proof (Z.mod_pos_bound i 8 ltac:(lia)). pose proof (Z.div_mod i 8 ltac:(lia)).
    change 255 with (Z.ones 8) in Hk. rewrite !Z.land_spec, !Z.ones_spec_low, !andb_true_r, !Z.shiftr_spec in Hk by lia.
    replace (i mod 8 + 8 * (i / 8)) with i in Hk by lia. done.
  - rewrite !Z.bits_above_log2; try lia.
    + destruct (decide (b = 0)) as [->|]; [simpl; lia|]. apply Z.log2_lt_pow2; [lia|].
      eapply Z.lt_le_trans; [apply Hb|]. apply Z.pow_le_mono_r; lia.
    + destruct (decide (a = 0)) as [->|]; [simpl; lia|]. apply Z.log2_lt_pow2; [lia|].
      eapply Z.lt_le_trans; [apply Ha|]. apply Z.pow_le_mono_r; lia.
Qed.

(** What the frame reader does with the watchdog: idle ticks and PING acks. *)
Inductive PingEvent :=
| Tick (now : Z)
| Ack (data : list byte).

(** [None] once a tick has reported [ErrPingTimeout]. *)
Fixpoint ping_run (c : Conn) (evs : list PingEvent) : option Conn :=
  match evs with
  | [] => Some c
  | Tick now :: evs =>
      match SendOrCheckPing c now with (c, None) => ping_run c evs | (_, Some _) => None end
  | Ack data :: evs => ping_run (HandlePingAck c data) evs
  end.

Lemma ping_run_app c e1 e2 :
  ping_run c (e1 ++ e2) = c1 ← ping_run c e1; ping_run c1 e2.
Proof.
  revert c. induction e1 as [|[now|d] e1 IH]; intros c; simpl; [done| |apply IH].
  destruct (SendOrCheckPing c now) as [c1 [e|]]; [done|apply IH].
Qed.

(** The number the PING sent from an idle state carries. *)
Definition next_ping (c : Conn) : Z := u64 (c_pingCounter c + 1).

(** A PING was sent at [t], after the events [e1], and its payload has not
    come back in the events since. *)
Definition unanswered (c0 : Conn) (evs : list PingEvent) (t : Z) : Prop :=
  exists e1 e2 c1, evs = e1 ++ Tick t :: e2 /\ ping_run c0 e1 = Some c1 /\
    c_pingPending c1 = false /\ Ack (be64 (next_ping c1)) ∉ e2.

Lemma SendOrCheckPing_idle c now :
  c_pingPending c = false ->
  exists c', SendOrCheckPing c now = (c', None) /\ c_pingPending c' = true /\
    c_pingData c' = be64 (next_ping c) /\ c_pingDeadline c' = now + PingTimeout /\
    c_pingCounter c' = next_ping c.
Proof.
  intros H. unfold SendOrCheckPing, next_ping, submitAsync. rewrite H. eexists. split; [done|].
  cbn [c_writeDead set_c_pingDeadline set_c_pingData set_c_pingPending set_c_pingCounter].
  by destruct (c_writeDead c).
Qed.

Lemma SendOrCheckPing_pending c now :
  c_pingPending c = true ->
  SendOrCheckPing c now = (c, if c_pingDeadline c <? now then Some ErrPingTimeout else None).
Proof. intros H. unfold SendOrCheckPing. rewrite H. by destruct (_ <? _). Qed.

Lemma HandlePingAck_cases c d :
  HandlePingAck c d = c /\ (c_pingPending c = true -> c_pingData c <> d) \/
  c_pingPending c = true /\ c_pingData c = d /\ HandlePingAck c d = set_c_pingPending c false.
Proof.
  unfold HandlePingAck. destruct (c_pingPending c) eqn:Hp; [|by left].
  case_bool_decide as Hd; simpl; [by right|by left].
Qed.

(** While no matching ack arrives the outstanding PING stays armed. *)
Lemma ping_stays_armed e2 c c' :
  c_pingPending c = true -> Ack (c_pingData c) ∉ e2 -> ping_run c e2 = Some c' ->
  c_pingPending c' = true /\ c_pingDeadline c' = c_pingDeadline c.
Proof.
  revert c. induction e2 as [|[now|d] e2 IH]; intros c Hp Hn H; simpl in H; [by simplify_eq|..].
  - rewrite SendOrCheckPing_pending in H by done. destruct (_ <? _); [done|].
    apply IH; [done| |done]. intros ?. apply Hn, elem_of_cons. by right.
  - destruct (HandlePingAck_cases c d) as [[E _]|(_ & Hd & _)].
    + rewrite E in H. apply IH; [done| |done]. intros ?. apply Hn, elem_of_cons. by right.
    + exfalso. apply Hn, elem_of_cons. left. by rewrite Hd.
Qed.

Lemma unanswered_armed c0 evs t c :
  unanswered c0 evs t -> ping_run c0 evs = Some c ->
  c_pingPending c = true /\ c_pingDeadline c = t + PingTimeout.
Proof.
  intros (e1 & e2 & c1 & -> & H1 & Hp & Hn) H. rewrite ping_run_app, H1 in H. simpl in H.
  destruct (SendOrCheckPing_idle c1 t Hp) as (c2 & E & Hp2 & Hd2 & Hdl & _). rewrite E in H.
  rewrite <- Hdl. apply (ping_stays_armed e2); [done| |done]. by rewrite Hd2.
Qed.

(** An armed watchdog records an unanswered PING. *)
Lemma armed_unanswered c0 evs c :
  c_pingPending c0 = false -> ping_run c0 evs = Some c -> c_pingPending c = true ->
  exists e1 t e2 c1, evs = e1 ++ Tick t :: e2 /\ ping_run c0 e1 = Some c1 /\ c_pingPending c1 = false /\
    c_pingData c = be64 (next_ping c1) /\ c_pingDeadline c = t + PingTimeout /\
    Ack (be64 (next_ping c1)) ∉ e2.
Proof.
  intros H0. revert c. induction evs as [|ev evs IH] using rev_ind; intros c H Hp; [simpl in H; congruence|].
  rewrite ping_run_app in H. destruct (ping_run c0 evs) as [c2|] eqn:E2; [|done]. simpl in H.
  assert (Hold : c = c2 -> (forall d, ev = Ack d -> c_pingData c <> d) ->
    exists e1 t e2 c1, evs ++ [ev] = e1 ++ Tick t :: e2 /\ ping_run c0 e1 = Some c1 /\ c_pingPending c1 = false /\
    c_pingData c = be64 (next_ping c1) /\ c_pingDeadline c = t + PingTimeout /\ Ack (be64 (next_ping c1)) ∉ e2).
  { intros -> Hd. destruct (IH _ eq_refl Hp) as (e1 & t & e2 & c1 & -> & ? & ? & Hdata & ? & Hn).
    exists e1, t, (e2 ++ [ev]), c1. split_and!; try done; [by rewrite <- app_assoc|].
    rewrite not_elem_of_app. split; [done|]. rewrite list_elem_of_singleton. intros <-.
    by apply (Hd _ eq_refl). }
  destruct ev as [now|d]; simpl in H.
  - destruct (c_pingPending c2) eqn:Hp2.
    + rewrite SendOrCheckPing_pending in H by done. destruct (_ <? _); simplify_eq. by apply Hold.
    + destruct (SendOrCheckPing_idle c2 now Hp2) as (c3 & E & _ & Hd & Hdl & _). rewrite E in H. simplify_eq.
      exists evs, now, [], c2. split_and!; try done. by intros ?%elem_of_nil.
  - destruct (HandlePingAck_cases c2 d) as [[E Hne]|(_ & _ & E)]; rewrite E in H; simplify_eq.
    apply Hold; [done|]. intros d' [= <-]. by apply Hne.
Qed.

(** The watchdog declares the peer dead exactly when it should: at an
    idle tick, after any run of ticks and PING acks that has not ended the
    connection, ErrPingTimeout is returned if and only if some PING was sent
    more than PingTimeout ago and no ack with that PING's own payload has
    arrived since; acks of any other payload change nothing. *)
Theorem ping_timeout_exact c0 evs c now :
  c_pingPending c0 = false -> ping_run c0 evs = Some c ->
  (SendOrCheckPing c now).2 = Some ErrPingTimeout <->
  exists t, unanswered c0 evs t /\ t + PingTimeout < now.
Proof.
  intros H0 H. split.
  - intros He. destruct (c_pingPending c) eqn:Hp.
    + destruct (armed_unanswered _ _ _ H0 H Hp) as (e1 & t & e2 & c1 & ? & ? & ? & ? & Hdl & ?).
      exists t. split; [by exists e1, e2, c1|]. rewrite SendOrCheckPing_pending in He by done. cbn in He.
      destruct (_ <? _) eqn:Hlt; [|done]. bool_prop. lia.
    + destruct (SendOrCheckPing_idle c now Hp) as (c' & E & _). by rewrite E in He.
  - intros (t & Hu & Hlt). destruct (unanswered_armed _ _ _ _ Hu H) as [Hp Hdl].
    rewrite SendOrCheckPing_pending by done. cbn. by rewrite (proj2 (Z.ltb_lt _ _)) by lia.
Qed.

(** No two of the first 2^64 PINGs of a connection carry the same
    payload, so the ack of an earlier PING cannot be taken for the ack of the
    outstanding one: such an ack leaves the connection unchanged. *)
Theorem stale_ack_ignored c k n :
  0 <= k < 2 ^ 64 -> 0 <= n < 2 ^ 64 -> k <> n -> c_pingData c = be64 n ->
  HandlePingAck c (be64 k) = c.
Proof.
  intros Hk Hn Hne Hd. destruct (HandlePingAck_cases c (be64 k)) as [[E _]|(_ & Hd' & _)]; [done|].
  exfalso. apply Hne, be64_inj; [done..|congruence].
Qed.

(** *** Inbound DATA *)

(** One DATA frame: the pool's choice and the arguments of the handler. *)
Record DataFrame := mkData {
  df_choice : option nat; df_id : Z; df_data : list byte; df_len : Z; df_end : bool
}.

Fixpoint inbound (m : Mem) (c : Conn) (fs : list DataFrame) : Mem * Conn :=
  match fs with
  | [] => (m, c)
  | f :: fs =>
      let '(m, c) := HandleInboundData m c (df_choice f) (df_id f) (df_data f) (df_len f) (df_end f) in
      inbound m c fs
  end.

(** The receive-window credit an intent gives back on [id] (0: the connection). *)
Definition refill (id : Z) (i : writeIntent) : Z :=
  match wi_kind i with
  | wkWindowUpdate => if wi_streamID i =? id then wi_increment i else 0
  | _ => 0
  end.

(** The refusals of DATA for [id]. *)
Definition refusals (id : Z) (l : list writeIntent) : list writeIntent :=
  filter (fun i => wi_kind i = wkRSTStream /\ wi_streamID i = id) l.

Lemma HandleInboundData_body m c ch id data len es m' c' s :
  c_streams c !! id = Some s -> HandleInboundData m c ch id data len es = (m', c') ->
  steps body_step (mkBodySys m (c_streams c))
    ((BPush id ch data, None) :: if es then [(BCloseData id, None)] else []) (mkBodySys m' (c_streams c')).
Proof.
  intros Hs H. unfold HandleInboundData, GetStream in H. rewrite Hs in H.
  destruct (pushBytes m s ch data) as [m1 s1] eqn:Hp. simplify_eq.
  set (c1 := if 0 <? len then _ else c).
  assert (Hc1 : c_streams c1 = c_streams c).
  { unfold c1. destruct (0 <? len); [|done]. by rewrite !(proj1 (submitAsync_frame _ _)). }
  cbn [c_streams set_c_streams]. rewrite Hc1.
  econstructor; [unfold body_step; cbn; by rewrite Hs; simpl; rewrite Hp|].
  destruct es; [|constructor]. econstructor; [|constructor]. unfold body_step. cbn.
  rewrite lookup_insert_eq. simpl. by rewrite insert_insert_eq.
Qed.

Lemma HandleInboundData_out m c ch id data len es m' c' :
  c_writeDead c = false -> HandleInboundData m c ch id data len es = (m', c') ->
  c_writeDead c' = false /\
  c_out c' = c_out c ++
    if 0 <? len then
      SendWindowUpdate 0 len ::
      match c_streams c !! id with
      | Some _ => [SendWindowUpdate id len]
      | None => [SendRSTStream id ErrCodeStreamClosed]
      end
    else [].
Proof.
  intros Hd H. unfold HandleInboundData, GetStream, submitAsync in H.
  destruct (c_streams c !! id) as [s|].
  - destruct (pushBytes m s ch data) as [m1 s1]. simplify_eq.
    destruct (0 <? len); rewrite ?Hd; cbn; rewrite ?Hd; cbn; by rewrite <- ?app_assoc, ?app_nil_r.
  - destruct (0 <? len); simplify_eq; rewrite ?Hd; cbn; rewrite ?Hd; cbn; by rewrite <- ?app_assoc, ?app_nil_r.
Qed.

Lemma HandleInboundData_other m c ch id data len es m' c' k :
  k <> id -> HandleInboundData m c ch id data len es = (m', c') -> c_streams c' !! k = c_streams c !! k.
Proof.
  intros Hne H. unfold HandleInboundData in H. destruct (GetStream c id) as [s|].
  - destruct (pushBytes m s ch data). simplify_eq. cbn. rewrite lookup_insert_ne by done.
    destruct (0 <? len); [|done]. by rewrite !(proj1 (submitAsync_frame _ _)).
  - destruct (0 <? len); simplify_eq; by rewrite ?(proj1 (submitAsync_frame _ _)).
Qed.

Definition bodies (m : Mem) (c : Conn) : BodySys := mkBodySys m (c_streams c).

(** What a DATA frame does to the FIFO of its stream. *)
Definition fifo_data (f : Fifo) (d : DataFrame) : Fifo :=
  mkReader (garbled f) (pending f ++ df_data d) (ended f || df_end d) (failure f).

Lemma HandleInboundData_fifo m c d m' c' :
  sys_wf (bodies m c) ->
  HandleInboundData m c (df_choice d) (df_id d) (df_data d) (df_len d) (df_end d) = (m', c') ->
  sys_wf (bodies m' c') /\
  abs (bodies m' c') =
    match abs (bodies m c) !! df_id d with
    | Some f => <[df_id d := fifo_data f d]> (abs (bodies m c))
    | None => abs (bodies m c)
    end.
Proof.
  intros Hy H. destruct (c_streams c !! df_id d) as [s|] eqn:Hs.
  - pose proof (HandleInboundData_body _ _ _ _ _ _ _ _ _ _ Hs H) as Hst.
    destruct (body_steps_refine _ _ _ Hst Hy) as [Hy' Hf]. split; [done|].
    unfold bodies, abs at 2. simpl. rewrite lookup_fmap, Hs. simpl.
    set (A := abs (mkBodySys m (c_streams c))) in *. set (A' := abs (mkBodySys m' (c_streams c'))) in *.
    assert (HA : A !! df_id d = Some (abs_stream m s)) by (unfold A, abs; simpl; by rewrite lookup_fmap, Hs).
    inv Hf as [|? ? A1 ? ? Hp Hr]. inv Hp. simpl in *. simplify_eq.
    destruct (df_end d) eqn:He; inv Hr as [|? ? ? ? ? Hc Hr2].
    + inv Hr2. inv Hc. simpl in *. rewrite lookup_insert_eq in *. simplify_eq.
      rewrite insert_insert_eq. unfold fifo_data. by rewrite He, orb_true_r.
    + unfold fifo_data. by rewrite He, orb_false_r.
  - unfold HandleInboundData, GetStream in H. rewrite Hs in H.
    assert (m' = m /\ c_streams c' = c_streams c) as [-> E].
    { destruct (0 <? _); simplify_eq; by rewrite ?(proj1 (submitAsync_frame _ _)). }
    unfold bodies in *. rewrite E. split; [done|]. unfold abs at 2. simpl. by rewrite lookup_fmap, Hs.
Qed.

Definition of_stream (id : Z) (fs : list DataFrame) : list DataFrame := filter (fun d => df_id d = id) fs.

Definition nonempty (fs : list DataFrame) : list DataFrame := filter (fun d => 0 < df_len d) fs.

Lemma of_stream_cons id d fs :
  of_stream id (d :: fs) = if decide (df_id d = id) then d :: of_stream id fs else of_stream id fs.
Proof. unfold of_stream. by rewrite filter_cons. Qed.

Lemma refusals_app id l1 l2 : refusals id (l1 ++ l2) = refusals id l1 ++ refusals id l2.
Proof. apply filter_app. Qed.

Lemma refusals_window id a b l : refusals id (SendWindowUpdate a b :: l) = refusals id l.
Proof. unfold refusals. rewrite filter_cons_False; [done|by intros []]. Qed.

Lemma refusals_rst id a e l :
  refusals id (SendRSTStream a e :: l) =
  if decide (a = id) then SendRSTStream a e :: refusals id l else refusals id l.
Proof.
  unfold refusals. case_decide as H; [rewrite filter_cons_True|rewrite filter_cons_False]; try done. by intros [].
Qed.

Lemma refill_window id a b : refill id (SendWindowUpdate a b) = if a =? id then b else 0.
Proof. done. Qed.

Lemma refill_rst id a e : refill id (SendRSTStream a e) = 0.
Proof. done. Qed.

(** The intents one frame queues. *)
Lemma data_intents id (s : option Stream) (d : DataFrame) sent :
  0 < df_id d -> 0 <= df_len d ->
  sent = (if 0 <? df_len d then SendWindowUpdate 0 (df_len d) ::
      match s with Some _ => [SendWindowUpdate (df_id d) (df_len d)]
      | None => [SendRSTStream (df_id d) ErrCodeStreamClosed] end else []) ->
  zsum (refill 0) sent = df_len d /\
  (0 < id ->
   zsum (refill id) sent = (if decide (df_id d = id) then match s with Some _ => df_len d | None => 0 end else 0) /\
   refusals id sent = (if decide (df_id d = id) then
     match s with Some _ => [] | None => if 0 <? df_len d then [SendRSTStream id ErrCodeStreamClosed] else [] end else [])).
Proof.
  intros Hid Hl ->. destruct (0 <? df_len d) eqn:E; bool_prop.
  - destruct s as [s|]; rewrite ?refusals_window, ?refusals_rst, !zsum_cons, !zsum_nil, !refill_window, ?refill_rst;
      split; rewrite ?Z.eqb_refl.
    + rewrite (proj2 (Z.eqb_neq (df_id d) 0)) by lia. lia.
    + intros Hpos. rewrite (proj2 (Z.eqb_neq 0 id)) by lia. case_decide as Hd.
      * rewrite (proj2 (Z.eqb_eq (df_id d) id) Hd). split; [lia|done].
      * rewrite (proj2 (Z.eqb_neq (df_id d) id) Hd). split; [lia|done].
    + lia.
    + intros Hpos. rewrite (proj2 (Z.eqb_neq 0 id)) by lia. case_decide as Hd; [|done]. by rewrite Hd.
  - replace (df_len d) with 0 by lia. split; [done|]. intros _. split; repeat case_decide; by destruct s.
Qed.

(** Flow-control credit is returned in full and the bytes are queued:
    for any sequence of DATA frames, the connection-level WINDOW_UPDATEs sum
    to the frames' full payload lengths (padding included, also for unknown
    streams); a registered stream's WINDOW_UPDATEs sum to its own frames'
    lengths, it is never refused, and its body FIFO is extended by exactly its
    frames' bytes in order and ended iff a frame carried END_STREAM; an
    unknown stream gets no stream credit and one RST_STREAM(STREAM_CLOSED) per
    non-empty frame. *)
Theorem inbound_data_credited_and_queued m c fs m' c' :
  sys_wf (bodies m c) -> c_writeDead c = false ->
  Forall (fun d => 0 < df_id d /\ 0 <= df_len d) fs -> inbound m c fs = (m', c') ->
  exists sent, c_out c' = c_out c ++ sent /\ zsum (refill 0) sent = zsum df_len fs /\
    forall id, 0 < id ->
      abs (bodies m' c') !! id = (fun f => foldl fifo_data f (of_stream id fs)) <$> abs (bodies m c) !! id /\
      match c_streams c !! id with
      | Some _ => zsum (refill id) sent = zsum df_len (of_stream id fs) /\ refusals id sent = []
      | None => zsum (refill id) sent = 0 /\
          refusals id sent = (fun _ => SendRSTStream id ErrCodeStreamClosed) <$> nonempty (of_stream id fs)
      end.
Proof.
  intros Hy Hd Hfs. revert m c Hy Hd. induction fs as [|d fs IH]; intros m c Hy Hd H.
  { simpl in H. simplify_eq. exists []. rewrite app_nil_r. split_and!; [done..|]. intros id Hid.
    split; [by destruct (_ !! id)|]. by destruct (_ !! id). }
  apply Forall_cons in Hfs as [[Hid Hl] Hfs]. simpl in H.
  destruct (HandleInboundData m c _ _ _ _ _) as [m1 c1] eqn:E.
  destruct (HandleInboundData_fifo _ _ _ _ _ Hy E) as [Hy1 Ha].
  destruct (HandleInboundData_out _ _ _ _ _ _ _ _ _ Hd E) as [Hd1 Ho].
  destruct (IH Hfs m1 c1 Hy1 Hd1 H) as (sent2 & Ho2 & Hz2 & Hrest).
  remember (if 0 <? df_len d then _ else []) as sent1 eqn:Es1 in Ho.
  destruct (data_intents 1 _ d sent1 Hid Hl Es1) as [Hz1 _].
  exists (sent1 ++ sent2). split_and!.
  { by rewrite Ho2, Ho, <- app_assoc. }
  { by rewrite zsum_app, Hz1, Hz2. }
  intros id Hpos. destruct (data_intents id _ d sent1 Hid Hl Es1) as [_ Hid1].
  destruct (Hid1 Hpos) as [Hzi Hri]. destruct (Hrest id Hpos) as [Ha2 Hc2].
  rewrite zsum_app, refusals_app, Hzi, Hri, Ha2, Ha, of_stream_cons. clear Hid1 Hzi Hri Ha2 Hrest.
  assert (Hreg : is_Some (c_streams c1 !! id) <-> is_Some (c_streams c !! id)).
  { apply (f_equal (fun M : gmap Z Fifo => is_Some (M !! id))) in Ha. revert Ha. unfold abs, bodies; simpl.
    rewrite !lookup_fmap. intros Ha. rewrite <- (fmap_is_Some (abs_stream m1)), Ha.
    destruct (c_streams c !! df_id d) as [s|] eqn:Es; simpl; [|by rewrite lookup_fmap, fmap_is_Some].
    destruct (decide (df_id d = id)) as [<-|]; [by rewrite lookup_insert_eq, Es|].
    by rewrite lookup_insert_ne, lookup_fmap, fmap_is_Some. }
  assert (Habs : forall k, abs (bodies m c) !! k = abs_stream m <$> c_streams c !! k) by (intros k; apply lookup_fmap).
  destruct (decide (df_id d = id)) as [<-|Hne].
  - rewrite Habs. destruct (c_streams c !! df_id d) as [s|] eqn:Es; simpl.
    + rewrite lookup_insert_eq. simpl. destruct (c_streams c1 !! df_id d); [|by destruct (proj2 Hreg ltac:(done))].
      destruct Hc2 as [-> ->]. split_and!; try done.
    + rewrite Habs, Es. destruct (c_streams c1 !! df_id d); [by destruct (proj1 Hreg ltac:(done))|].
      destruct Hc2 as [-> ->]. unfold nonempty. split_and!; [done|lia|]. rewrite filter_cons.
      destruct (0 <? df_len d) eqn:El; bool_prop; case_decide; try lia; done.
  - split.
    + f_equal. destruct (abs (bodies m c) !! df_id d); [|done]. by rewrite lookup_insert_ne.
    + simpl. destruct (c_streams c !! id), (c_streams c1 !! id); try done.
      * by destruct (proj2 Hreg ltac:(done)).
      * by destruct (proj1 Hreg ltac:(done)).
Qed.

(** A reset does not free a blocked writer: after RST_STREAM has been
    handled, a Reserve on the stream sees the same windows and waits again,
    however the stream's context and body were failed. *)
Theorem reset_does_not_unblock_reserve c id s want :
  GetStream c id = Some s -> 0 < want -> (Reserve (c_Send c) (s_SendWindow s) want).1.1 = Wait ->
  exists s', GetStream (HandleRSTStream c id) id = Some s' /\ s_dataDone s' = true /\
    (Reserve (c_Send (HandleRSTStream c id)) (s_SendWindow s') want).1.1 = Wait.
Proof.
  intros Hs Hw Hr. unfold HandleRSTStream. rewrite Hs. exists (FailBody s ErrStreamReset).
  unfold GetStream. cbn [c_streams c_Send set_c_streams]. by rewrite lookup_insert_eq.
Qed.

End Conn.

Arguments Conn {_}.

(** ** Witnesses *)

Module ConnDemo.

Definition conn0 : Conn := newConn (HD := Plain.plain_decoder) tt.

(** Stream 1 is open, with credit left. *)
Definition conn1 : Conn := AddStream conn0 (Acquire newStream 1 0 65535).

Definition demo_settings : list (Z * Z) :=
  [(SettingInitialWindowSize, 1000); (SettingHeaderTableSize, 512); (SettingMaxFrameSize, 32768);
   (SettingEnablePush, 2); (SettingMaxConcurrentStreams, 7)].

Lemma conn1_settings : settings_inv conn1.
Proof. repeat split; vm_compute; discriminate. Qed.

Lemma conn1_registry : registry_inv conn1.
Proof. apply map_Forall_insert_2; [|apply map_Forall_empty]. repeat split; vm_compute; discriminate. Qed.

(** The third setting is refused: the first two are applied. *)
Lemma settings_frame_applied_witness :
  exists c', ApplyPeerSettings conn1 demo_settings = (c', Some ErrBadSettings) /\
    c_maxFrameSize c' = 32768 /\ PeerInitWindow (c_Send c') = 1000 /\
    c_out c' = [SendSetMaxDynamicTableSize 512].
Proof.
  destruct (settings_frame_applied conn1 demo_settings conn1_settings conn1_registry eq_refl
    ltac:(repeat constructor; vm_compute; discriminate)) as (c' & H & _ & _ & Hm & _ & Hi & _ & Ho).
  exists c'. split_and!; [exact H|exact Hm|exact Hi|exact Ho].
Defined.

Definition demo_pings : list PingEvent := [Tick 0; Ack (be64 1); Tick 30; Ack (be64 1)].

(** After an answered PING, a PING of which only an old payload came back. *)
Definition pinged : Conn := default conn0 (ping_run conn0 (take 2 demo_pings)).

Definition waiting : Conn := default conn0 (ping_run conn0 demo_pings).

Lemma pinged_run : ping_run conn0 (take 2 demo_pings) = Some pinged.
Proof. apply some_default. vm_compute. reflexivity. Qed.

Lemma waiting_run : ping_run conn0 demo_pings = Some waiting.
Proof. apply some_default. vm_compute. reflexivity. Qed.

Lemma waiting_unanswered : unanswered conn0 demo_pings 30.
Proof.
  exists (take 2 demo_pings), [Ack (be64 1)], pinged.
  split_and!; [reflexivity|exact pinged_run|vm_compute; reflexivity|].
  assert (H : next_ping pinged = 2) by (vm_compute; reflexivity). rewrite H.
  intros E%list_elem_of_singleton. apply (f_equal (fun e => match e with Ack d => last d | _ => None end)) in E.
  vm_compute in E. discriminate.
Qed.

Lemma ping_timeout_exact_witness :
  (SendOrCheckPing waiting (31 + PingTimeout)).2 = Some ErrPingTimeout.
Proof.
  refine (proj2 (ping_timeout_exact conn0 demo_pings waiting _ eq_refl waiting_run) _).
  exists 30. split; [exact waiting_unanswered|lia].
Defined.

(** DATA for the open stream, padded, and for an unknown one. *)
Definition demo_frames : list DataFrame :=
  [mkData None 1 [x61; x62] 4 false; mkData None 5 [x63] 1 false; mkData None 1 [x64] 1 true].

Definition mem0 : Mem := bs_mem body_init.

Definition demo_end : Mem * Conn := inbound mem0 conn1 demo_frames.

Lemma demo_bodies_wf : sys_wf (bodies mem0 conn1).
Proof.
  eapply (body_steps_refine body_init [(BAcquire 1 0 65535, None)]); [|exact sys_wf_init].
  eapply steps_cons; [|apply steps_nil]. by split.
Qed.

Lemma demo_frames_ok : Forall (fun d => 0 < df_id d /\ 0 <= df_len d) demo_frames.
Proof. unfold demo_frames. repeat constructor; cbn; lia. Qed.

Lemma inbound_data_credited_and_queued_witness :
  exists sent, c_out demo_end.2 = [] ++ sent /\ zsum (refill 0) sent = 6 /\ zsum (refill 1) sent = 5 /\
    refusals 5 sent = [SendRSTStream 5 ErrCodeStreamClosed].
Proof.
  destruct (inbound_data_credited_and_queued mem0 conn1 demo_frames demo_end.1 demo_end.2 demo_bodies_wf eq_refl
    demo_frames_ok (surjective_pairing _)) as (sent & Ho & Hz & Hs).
  exists sent. split_and!; [exact Ho|exact Hz| |].
  - exact (proj1 (proj2 (Hs 1 eq_refl))).
  - exact (proj2 (proj2 (Hs 5 eq_refl))).
Defined.

End ConnDemo.
