(* ===== verification/ConnInv.v ===== *)
(** * The connection invariant

    One invariant for everything a connection keeps (settings, registry,
    pooled body buffers, header accumulator), and one lemma per operation of
    conn.go that it preserves it.  The frame loops of both roles use these
    lemmas through the hint database [conn]. *)

From Stdlib Require Import Strings.Byte.
From S2P Require Import Prelude Errors Flow Names H2Stream Writer HeaderBlock Conn.

Create HintDb conn.

Section ConnInv.

Context {HD : HpackDecoder}.

(** The drain flags: complete only if begun. *)
Definition flags_inv (c : Conn) : Prop :=
  (c_drainDone c = true -> c_draining c = true) /\ c_drainStarted c = c_draining c.

Definition conn_inv (m : Mem) (c : Conn) : Prop :=
  settings_inv c /\ registry_inv c /\ sys_wf (bodies m c) /\ cont_bounded (c_hdr c) /\ flags_inv c.

(** Two connections that agree on what the invariant mentions. *)
Lemma conn_inv_same m c c' :
  conn_inv m c -> c_streams c' = c_streams c -> c_Send c' = c_Send c ->
  c_maxFrameSize c' = c_maxFrameSize c -> c_peerMaxStreams c' = c_peerMaxStreams c ->
  c_hdr c' = c_hdr c -> c_draining c' = c_draining c -> c_drainDone c' = c_drainDone c ->
  c_drainStarted c' = c_drainStarted c -> conn_inv m c'.
Proof.
  unfold conn_inv, settings_inv, registry_inv, bodies, flags_inv. intros H -> -> -> -> -> -> -> ->. done.
Qed.

Lemma submitAsync_inv m c i : conn_inv m c -> conn_inv m (submitAsync c i).
Proof. intros H. unfold submitAsync. destruct (c_writeDead c); [done|]. by eapply conn_inv_same. Qed.

Lemma SetIdleDeadline_inv m c now : conn_inv m c -> conn_inv m (SetIdleDeadline c now).
Proof. intros H. by eapply conn_inv_same. Qed.

Lemma HandlePingAck_inv m c d : conn_inv m c -> conn_inv m (HandlePingAck c d).
Proof. intros H. unfold HandlePingAck. destruct (_ && _); [|done]. by eapply conn_inv_same. Qed.

Lemma SendOrCheckPing_inv m c now : conn_inv m c -> conn_inv m (SendOrCheckPing c now).1.
Proof.
  intros H. unfold SendOrCheckPing. destruct (c_pingPending c); [by destruct (_ <? _)|].
  apply submitAsync_inv. by eapply conn_inv_same.
Qed.

Lemma finishDrain_inv m c now : conn_inv m c -> c_draining c = true -> conn_inv m (finishDrain c now).
Proof.
  intros H Hd. unfold finishDrain. destruct (c_drainDone c) eqn:E; [done|].
  destruct H as (? & ? & ? & ? & ? & ?). by split_and!.
Qed.

Lemma BeginDrain_inv m c now : conn_inv m c -> conn_inv m (BeginDrain c now).
Proof.
  intros H. unfold BeginDrain.
  assert (H' : conn_inv m (set_c_drainStarted (set_c_draining c true) true)).
  { destruct H as (? & ? & ? & ? & ? & ?). by split_and!. }
  destruct (_ =? _)%nat; [by apply finishDrain_inv|done].
Qed.

Lemma set_c_hdr_inv m c h : conn_inv m c -> cont_bounded h -> conn_inv m (set_c_hdr c h).
Proof. intros (? & ? & ? & ? & ?) Hh. by split_and!. Qed.

(** Changing send windows does not touch the bodies. *)
Lemma sys_wf_windows m (g : Stream -> Z) (ss ss' : gmap Z Stream) :
  (forall id, ss' !! id = (fun s => set_SendWindow s (g s)) <$> ss !! id) ->
  sys_wf (mkBodySys m ss) -> sys_wf (mkBodySys m ss').
Proof.
  intros H (Hm & Hs & Hfree & Hdisj).
  assert (Hback : forall id s, ss' !! id = Some s -> exists s0, ss !! id = Some s0 /\ s = set_SendWindow s0 (g s0)).
  { intros id s Hi. rewrite H in Hi. destruct (ss !! id) as [s0|]; simplify_eq/=. eauto. }
  split_and!; simpl in *; [done|..].
  - intros i s (s0 & Hi & ->)%Hback. exact (Hs i s0 Hi).
  - intros i s h (s0 & Hi & ->)%Hback. by apply (Hfree i s0).
  - intros i j si sj h (s0 & Hi & ->)%Hback (s1 & Hj & ->)%Hback. by apply (Hdisj i j s0 s1).
Qed.

Lemma ApplyPeerSettings_inv m c ss :
  conn_inv m c -> Forall (fun s => is_u32 s.2) ss -> conn_inv m (ApplyPeerSettings c ss).1.
Proof.
  intros H Hss. revert c H. induction Hss as [|s ss Hs Hss IH]; intros c H; [done|]. simpl.
  destruct (setting_ok s) eqn:Hok; [|by rewrite applySetting_bad].
  pose proof H as (Hse & Hre & Hwf & Hc & Hf).
  destruct (applySetting_ok c s Hse Hre Hs Hok) as (c1 & Ha & Hs1 & Hr1 & _ & _ & _ & Hst).
  rewrite Ha. apply IH. split_and!; try done.
  - unfold bodies. eapply sys_wf_windows, Hwf. apply Hst.
  - destruct s as [id v]. unfold applySetting in Ha. unfold submitAsync in Ha.
    repeat case_match; simplify_eq/=; done.
  - destruct s as [id v]. unfold applySetting in Ha. unfold submitAsync in Ha.
    repeat case_match; simplify_eq/=; done.
Qed.

(** Replacing a registered stream: the registry and the bodies. *)
Lemma update_stream_inv m m' c id s' :
  conn_inv m c -> s_ID s' = id -> is_i32 (s_SendWindow s') ->
  sys_wf (mkBodySys m' (<[id := s']> (c_streams c))) ->
  conn_inv m' (set_c_streams c (<[id := s']> (c_streams c))).
Proof.
  intros (? & Hr & ? & ? & ?) Hid Hw Hwf. split_and!; try done.
  by apply map_Forall_insert_2.
Qed.

(** A step of the body system on one stream that keeps its identity. *)
Lemma body_step_inv m m' c id s s' o r :
  conn_inv m c -> c_streams c !! id = Some s ->
  body_step (bodies m c) (o, r) (mkBodySys m' (<[id := s']> (c_streams c))) ->
  s_ID s' = s_ID s -> s_SendWindow s' = s_SendWindow s ->
  conn_inv m' (set_c_streams c (<[id := s']> (c_streams c))).
Proof.
  intros H Hs Hst Hid Hw. pose proof H as (_ & Hr & Hwf & _). destruct (Hr _ _ Hs) as [Hid0 Hw0].
  eapply update_stream_inv; [done|congruence|by rewrite Hw|]. by apply (body_step_refines _ _ _ Hwf Hst).
Qed.

Lemma HandleRSTStream_inv m c id : conn_inv m c -> conn_inv m (HandleRSTStream c id).
Proof.
  intros H. unfold HandleRSTStream, GetStream. destruct (c_streams c !! id) as [s|] eqn:E; [|done].
  eapply (body_step_inv m m c id s _ (BFail id ErrStreamReset) None); try done.
  unfold body_step. cbn. by rewrite E.
Qed.

(** A new send window for one stream. *)
Lemma set_window_inv m c id s w :
  conn_inv m c -> c_streams c !! id = Some s -> is_i32 w ->
  conn_inv m (set_c_streams c (<[id := set_SendWindow s w]> (c_streams c))).
Proof.
  intros H E Hw. pose proof H as (_ & Hr & Hwf & _).
  eapply update_stream_inv; [done|apply (Hr _ _ E)|done|].
  eapply (sys_wf_windows m (fun s0 => if s_ID s0 =? id then w else s_SendWindow s0)), Hwf.
  intros k. cbn. destruct (decide (id = k)) as [<-|Hne].
  - rewrite lookup_insert_eq, E. simpl. destruct (Hr _ _ E) as [-> _]. by rewrite Z.eqb_refl.
  - rewrite lookup_insert_ne by done. destruct (c_streams c !! k) as [sk|] eqn:Ek; [|done]. simpl.
    destruct (Hr _ _ Ek) as [-> _]. rewrite (proj2 (Z.eqb_neq _ _)) by done. by destruct sk.
Qed.

Lemma HandleWindowUpdate_inv m c id inc : conn_inv m c -> conn_inv m (HandleWindowUpdate c id inc).
Proof.
  intros H. unfold HandleWindowUpdate, GetStream. destruct (id =? 0).
  { destruct H as ((? & ? & ?) & ? & ? & ? & ?). by split_and!. }
  destruct (c_streams c !! id) as [s|] eqn:E; [|done]. apply set_window_inv; [done|done|apply i32_is_i32].
Qed.

(** A reservation on a registered stream. *)
Lemma Reserve_inv m c id s want r sc sw :
  conn_inv m c -> c_streams c !! id = Some s -> Reserve (c_Send c) (s_SendWindow s) want = (r, sc, sw) ->
  conn_inv m (set_c_streams (set_c_Send c sc) (<[id := set_SendWindow s sw]> (c_streams c))).
Proof.
  intros H E Hr. pose proof H as (_ & Hreg & _). destruct (Hreg _ _ E) as [_ Hw].
  assert (Hs : PeerInitWindow sc = PeerInitWindow (c_Send c) /\ is_i32 sw).
  { unfold Reserve, reserve_pass in Hr. repeat case_match; simplify_eq/=; auto with width. }
  destruct Hs as [Hp Hsw]. apply (set_window_inv m (set_c_Send c sc)); [|done|done].
  destruct H as ((? & ? & ?) & ? & ? & ? & ?). split; [|by split_and!]. unfold settings_inv. cbn. by rewrite Hp.
Qed.

(** A read from a registered stream's body. *)
Lemma Read_inv m c id s plen m' s' r :
  conn_inv m c -> c_streams c !! id = Some s -> Read m s plen = (m', s', r) ->
  conn_inv m' (set_c_streams c (<[id := s']> (c_streams c))).
Proof.
  intros H E Hr. assert (Hs : s_ID s' = s_ID s /\ s_SendWindow s' = s_SendWindow s).
  { unfold Read, returnBuf in Hr. cbv zeta in Hr. repeat case_match; simplify_eq/=; auto. }
  destruct Hs. eapply (body_step_inv m m' c id s s' (BRead id plen) (Some r)); try done.
  unfold body_step. cbn. rewrite E. simpl. by rewrite Hr.
Qed.

Lemma BodyClose_inv m c id s m' s' :
  conn_inv m c -> c_streams c !! id = Some s -> BodyClose m s = (m', s') ->
  conn_inv m' (set_c_streams c (<[id := s']> (c_streams c))).
Proof.
  intros H E Hc. assert (Hs : s_ID s' = s_ID s /\ s_SendWindow s' = s_SendWindow s).
  { unfold BodyClose in Hc. destruct (returnBuf _ _) as [m1 r]. by simplify_eq. }
  eapply (body_step_inv m m' c id s s' (BClose id) None); [done|done| |apply Hs..].
  unfold body_step. cbn. rewrite E. simpl. by rewrite Hc.
Qed.

Lemma pushBytes_same m s ch data :
  s_ID (pushBytes m s ch data).2 = s_ID s /\ s_SendWindow (pushBytes m s ch data).2 = s_SendWindow s.
Proof. unfold pushBytes. destruct (0 <? _)%nat; [|done]. by destruct (GetDataSlice _ _ _) as [[? ?] ?]. Qed.

Lemma HandleInboundData_inv m c ch id data len es m' c' :
  conn_inv m c -> HandleInboundData m c ch id data len es = (m', c') -> conn_inv m' c'.
Proof.
  intros H Hd. pose proof H as (Hse & Hr & Hwf & Hc & Hf).
  destruct (HandleInboundData_fifo m c (mkData ch id data len es) m' c' Hwf Hd) as [Hwf' _].
  unfold HandleInboundData, GetStream in Hd. destruct (c_streams c !! id) as [s|] eqn:E.
  - destruct (pushBytes m s ch data) as [m1 s1] eqn:Ep. injection Hd as <- <-.
    pose proof (pushBytes_same m s ch data) as [Hi Hw]. rewrite Ep in Hi, Hw. cbn in Hi, Hw.
    set (c1 := if 0 <? len then _ else c) in *.
    assert (H1 : conn_inv m c1) by (unfold c1; destruct (0 <? len); [by do 2 apply submitAsync_inv|done]).
    destruct (Hr _ _ E) as [Hid Hwi].
    eapply update_stream_inv; [done|destruct es; cbn; congruence|destruct es; cbn; by rewrite Hw|done].
  - injection Hd as <- <-. destruct (0 <? len); [by do 2 apply submitAsync_inv|done].
Qed.

Lemma decodeBlock_bounded h id blk es : cont_bounded h -> cont_bounded (decodeBlock h id blk es).1.
Proof.
  unfold decodeBlock, cont_bounded. intros H. destruct (dec_write _ _) as [[d fs] [e|]]; [done|].
  by destruct (dec_close d) as [d' [e|]].
Qed.

Lemma StartHeaders_bounded h f :
  cont_bounded h -> Z.of_nat (length (hf_fragment f)) <= 16384 -> cont_bounded (StartHeaders h f).1.
Proof.
  intros H Hf. unfold StartHeaders. destruct (hf_endHeaders f).
  - set (h1 := if _ <? _ then _ else h).
    assert (H1 : cont_bounded h1) by (unfold h1; by destruct (_ <? _)).
    pose proof (decodeBlock_bounded h1 (hf_StreamID f) (hf_fragment f) (hf_endStream f) H1) as Hb.
    by destruct (decodeBlock h1 _ _ _) as [? [?|?]].
  - unfold cont_bounded, MaxHeaderListSize. cbn. lia.
Qed.

Lemma AddStream_new_inv m c id conn w :
  conn_inv m c -> c_streams c !! id = None -> is_i32 w -> conn_inv m (AddStream c (Acquire newStream id conn w)).
Proof.
  intros H Hn Hw. pose proof H as (_ & _ & Hwf & _). unfold AddStream. cbn [s_ID Acquire].
  eapply update_stream_inv; [done|done|done|].
  assert (Hst : body_step (bodies m c) (BAcquire id conn w, None)
    (mkBodySys m (<[id := Acquire newStream id conn w]> (c_streams c)))).
  { unfold body_step. cbn. by rewrite Hn. }
  by apply (body_step_refines _ _ _ Hwf Hst).
Qed.

(** Deregistering and releasing a stream: what the owner's [defer] does. *)
Lemma RemoveStream_inv m c id now s :
  conn_inv m c -> c_streams c !! id = Some s -> conn_inv (Release m s).1 (RemoveStream c id now).
Proof.
  intros H Hs. pose proof H as (Hse & Hr & Hwf & Hc & Hf).
  assert (H' : conn_inv (Release m s).1 (set_c_streams c (delete id (c_streams c)))).
  { split_and!; try done.
    - by apply map_Forall_delete.
    - assert (Hst : body_step (bodies m c) (BRelease id, None) (mkBodySys (Release m s).1 (delete id (c_streams c)))).
      { unfold body_step. cbn. rewrite Hs. simpl. by destruct (Release m s). }
      by apply (body_step_refines _ _ _ Hwf Hst). }
  unfold RemoveStream. destruct (_ && c_draining _) eqn:E; [|done]. bool_prop. by apply finishDrain_inv.
Qed.

(** The end of a connection. *)
Lemma FailAllStreams_inv m c e : conn_inv m c -> conn_inv m (FailAllStreams c e).
Proof.
  intros (Hse & Hr & (Hm & Hs & Hfree & Hdisj) & Hc & Hf).
  assert (Hback : forall id s, ((fun s => FailBody s e) <$> c_streams c) !! id = Some s ->
    exists s0, c_streams c !! id = Some s0 /\ s = FailBody s0 e).
  { intros id s Hi. rewrite lookup_fmap in Hi. destruct (c_streams c !! id) as [s0|]; simplify_eq/=. eauto. }
  split_and!; try done.
  - intros id s (s0 & Hi & ->)%Hback. apply (Hr _ _ Hi).
  - split_and!; simpl in *; [done|..].
    + intros i s (s0 & Hi & ->)%Hback. exact (Hs i s0 Hi).
    + intros i s h (s0 & Hi & ->)%Hback. by apply (Hfree i s0).
    + intros i j si sj h (s0 & Hi & ->)%Hback (s1 & Hj & ->)%Hback. by apply (Hdisj i j s0 s1).
Qed.

Lemma New_inv d : conn_inv (mkMem ∅ ∅ [] 0) (newConn d).
Proof.
  split; [by split_and!|]. split; [apply map_Forall_empty|]. split; [apply sys_wf_init|]. by split_and!.
Qed.

(** ** Operations that neither read headers nor register streams *)

(** The ids of the request HEADERS submitted so far, in order. *)
Definition request_ids (l : list writeIntent) : list Z :=
  omap (fun i => match wi_kind i with wkReqHeaders => Some (wi_streamID i) | _ => None end) l.

Record same_regs (c c' : Conn) : Prop := {
  sr_hdr : c_hdr c' = c_hdr c;
  sr_streams id : is_Some (c_streams c' !! id) <-> is_Some (c_streams c !! id);
  sr_next : c_nextStreamID c' = c_nextStreamID c;
  sr_reqs : request_ids (c_out c') = request_ids (c_out c);
  sr_dead : c_writeDead c' = c_writeDead c
}.

#[export] Instance same_regs_refl : Reflexive same_regs.
Proof. by intros c. Qed.

#[export] Instance same_regs_trans : Transitive same_regs.
Proof. intros c1 c2 c3 [E1 H1 N1 R1 D1] [E2 H2 N2 R2 D2]. split; try congruence. intros id. by rewrite H2. Qed.

Lemma same_regs_streams c c' :
  c_hdr c' = c_hdr c -> c_streams c' = c_streams c -> c_nextStreamID c' = c_nextStreamID c ->
  c_out c' = c_out c -> c_writeDead c' = c_writeDead c -> same_regs c c'.
Proof. intros E1 E2 E3 E4 E5. split; rewrite ?E2, ?E4; done. Qed.

Lemma same_regs_insert c id s s' : c_streams c !! id = Some s -> same_regs c (set_c_streams c (<[id := s']> (c_streams c))).
Proof.
  intros H. split; [done| |done..]. cbn. intros k. rewrite lookup_insert_is_Some'. split; [|by right].
  intros [<- |?]; [by rewrite H|done].
Qed.

Lemma request_ids_app l1 l2 : request_ids (l1 ++ l2) = request_ids l1 ++ request_ids l2.
Proof. apply omap_app. Qed.

Lemma submitAsync_regs c i : wi_kind i <> wkReqHeaders -> same_regs c (submitAsync c i).
Proof.
  intros Hk. unfold submitAsync. destruct (c_writeDead c) eqn:Hd; [done|]. split; [done..| |by rewrite Hd].
  cbn. rewrite request_ids_app. cbn. destruct (wi_kind i); try done; by rewrite app_nil_r.
Qed.

Lemma SetIdleDeadline_regs c now : same_regs c (SetIdleDeadline c now).
Proof. by apply same_regs_streams. Qed.

Lemma HandlePingAck_regs c d : same_regs c (HandlePingAck c d).
Proof. unfold HandlePingAck. destruct (_ && _); by apply same_regs_streams. Qed.

Lemma SendOrCheckPing_regs c now : same_regs c (SendOrCheckPing c now).1.
Proof.
  unfold SendOrCheckPing. destruct (c_pingPending c); [by destruct (_ <? _)|].
  etrans; [|by apply submitAsync_regs]. by apply same_regs_streams.
Qed.

Lemma finishDrain_regs c now : same_regs c (finishDrain c now).
Proof. unfold finishDrain. destruct (c_drainDone c); by apply same_regs_streams. Qed.

Lemma BeginDrain_regs c now : same_regs c (BeginDrain c now).
Proof.
  unfold BeginDrain. destruct (_ =? _)%nat; [|by apply same_regs_streams].
  etrans; [|apply finishDrain_regs]. by apply same_regs_streams.
Qed.

(** Removing a stream removes it, and nothing else of the registry. *)
Lemma RemoveStream_spec c id now :
  let c' := RemoveStream c id now in
  c_hdr c' = c_hdr c /\ c_streams c' = delete id (c_streams c) /\ c_nextStreamID c' = c_nextStreamID c /\
  c_out c' = c_out c /\ c_writeDead c' = c_writeDead c.
Proof.
  unfold RemoveStream, finishDrain. cbn. destruct (_ && _); [|done]. cbn. by destruct (c_drainDone c).
Qed.

Lemma HandleRSTStream_regs c id : same_regs c (HandleRSTStream c id).
Proof.
  unfold HandleRSTStream, GetStream. destruct (c_streams c !! id) eqn:E; [|done]. by eapply same_regs_insert.
Qed.

Lemma HandleWindowUpdate_regs c id inc : same_regs c (HandleWindowUpdate c id inc).
Proof.
  unfold HandleWindowUpdate, GetStream. destruct (id =? 0); [by apply same_regs_streams|].
  destruct (c_streams c !! id) eqn:E; [|done]. by eapply same_regs_insert.
Qed.

Lemma HandleInboundData_regs m c ch id data len es : same_regs c (HandleInboundData m c ch id data len es).2.
Proof.
  unfold HandleInboundData, GetStream.
  destruct (c_streams c !! id) as [s|] eqn:E.
  - destruct (pushBytes m s ch data) as [m1 s1]. cbn.
    set (c1 := if 0 <? len then _ else c).
    assert (H1 : same_regs c c1 /\ c_streams c1 = c_streams c).
    { unfold c1. destruct (0 <? len); [|done]. split; [by etrans; apply submitAsync_regs|].
      by rewrite !(proj1 (submitAsync_frame _ _)). }
    destruct H1 as [H1 Hs]. etrans; [exact H1|]. eapply (same_regs_insert _ _ s). by rewrite Hs.
  - cbn. destruct (0 <? len); [|done]. by etrans; apply submitAsync_regs.
Qed.

Lemma alter_domain (l : list (Z * Stream * Z)) (m : gmap Z Stream) k :
  is_Some (foldr (fun '((id, _), sw) m => alter (fun s => set_SendWindow s sw) id m) m l !! k) <-> is_Some (m !! k).
Proof. induction l as [|[[i s] sw] l IH]; [done|]. cbn [foldr]. by rewrite lookup_alter_is_Some. Qed.

Lemma applySetting_regs c s : same_regs c (applySetting c s).1.
Proof.
  destruct s as [id v]. unfold applySetting.
  destruct (id =? SettingMaxFrameSize); [destruct (_ || _); by apply same_regs_streams|].
  destruct (id =? SettingInitialWindowSize).
  - destruct (2 ^ 31 - 1 <? v); [done|].
    destruct (ApplyInitialWindowDelta _ _ _) as [sc sws]. split; [done| |done..]. cbn. intros k. apply alter_domain.
  - destruct (id =? SettingHeaderTableSize); [by apply submitAsync_regs|].
    repeat case_match; by apply same_regs_streams.
Qed.

Lemma ApplyPeerSettings_regs c ss : same_regs c (ApplyPeerSettings c ss).1.
Proof.
  revert c. induction ss as [|s ss IH]; intros c; [done|]. simpl.
  pose proof (applySetting_regs c s) as H. destruct (applySetting c s) as [c1 [e|]]; [done|].
  etrans; [exact H|apply IH].
Qed.

End ConnInv.

#[export] Hint Resolve submitAsync_inv SetIdleDeadline_inv HandlePingAck_inv BeginDrain_inv
  HandleRSTStream_inv HandleWindowUpdate_inv FailAllStreams_inv : conn.
#[export] Hint Resolve SetIdleDeadline_regs HandlePingAck_regs SendOrCheckPing_regs
  BeginDrain_regs HandleRSTStream_regs HandleWindowUpdate_regs ApplyPeerSettings_regs : conn.
