(* ===== verification/CreditLoop.v ===== *)
(** * Flow control between two endpoints

    The sending half of one connection ([Reserve], [HandleWindowUpdate]) and
    the receiving half of the other ([HandleInboundData]) as one system, with
    the DATA frames and the WINDOW_UPDATE intents in transit.  The receiver
    gives credit back as soon as DATA arrives, so credit only circulates: the
    connection window, what writers hold, and what is in transit always add up
    to the initial window, and whenever a writer waits for connection credit
    something is on its way that brings it. *)

From Stdlib Require Import Strings.Byte.
From S2P Require Import Prelude Errors Flow Names H2Stream Writer HeaderBlock Conn ConnInv.

Section Circuit.

Context {HD : HpackDecoder}.

(** [ci_hand]: credit granted by [Reserve] whose DATA is not written yet, by
    stream; [ci_wire]: DATA in transit; [ci_seen]: how many of the receiver's
    intents the sender's frame reader has handled. *)
Record Circuit := mkCircuit {
  ci_sender : Conn;
  ci_hand : list (Z * Z);
  ci_wire : list (Z * list byte * bool);
  ci_mem : Mem;
  ci_receiver : Conn;
  ci_seen : nat
}.

Inductive CAction :=
| CReserve (id want : Z)                         (* a writer reserves *)
| CSend (j : nat) (data : list byte) (es : bool) (* and sends what it was granted *)
| CEnd (id : Z)                                  (* an empty DATA frame with END_STREAM *)
| CDeliver (choice : option nat)                 (* the receiver reads the next frame *)
| CUpdate                                        (* the sender reads the receiver's next frame *)
| COpen (id window : Z) | CClose (id now : Z)    (* the sender's registry *)
| CPeerOpen (id window : Z) | CPeerClose (id now : Z)
| CPeerRead (id : Z) (plen : nat)
| CPeerSubmit (i : writeIntent).

Definition with_sender (st : Circuit) (c : Conn) : Circuit :=
  mkCircuit c (ci_hand st) (ci_wire st) (ci_mem st) (ci_receiver st) (ci_seen st).

Definition with_receiver (st : Circuit) (m : Mem) (c : Conn) : Circuit :=
  mkCircuit (ci_sender st) (ci_hand st) (ci_wire st) m c (ci_seen st).

Definition with_wire (st : Circuit) (hand : list (Z * Z)) (wire : list (Z * list byte * bool)) : Circuit :=
  mkCircuit (ci_sender st) hand wire (ci_mem st) (ci_receiver st) (ci_seen st).

(** What a frame of the receiver's does to the sender's windows. *)
Definition window_frame (c : Conn) (i : writeIntent) : Conn :=
  match wi_kind i with
  | wkWindowUpdate => HandleWindowUpdate c (wi_streamID i) (i32 (wi_increment i))
  | _ => c
  end.

Definition cact (st : Circuit) (a : CAction) : option Circuit :=
  let c := ci_sender st in
  let r := ci_receiver st in
  match a with
  | CReserve id want =>
      s ← GetStream c id;
      let '(res, sc, sw) := Reserve (c_Send c) (s_SendWindow s) want in
      let c := set_c_streams (set_c_Send c sc) (<[id := set_SendWindow s sw]> (c_streams c)) in
      let hand := match res with
                  | Return got false => if 0 <? got then ci_hand st ++ [(id, got)] else ci_hand st
                  | _ => ci_hand st
                  end in
      Some (mkCircuit c hand (ci_wire st) (ci_mem st) r (ci_seen st))
  | CSend j data es =>
      '(id, got) ← ci_hand st !! j;
      if Z.of_nat (length data) =? got then
        Some (with_wire st (delete j (ci_hand st)) (ci_wire st ++ [(id, data, es)]))
      else None
  | CEnd id => Some (with_wire st (ci_hand st) (ci_wire st ++ [(id, [], true)]))
  | CDeliver choice =>
      match ci_wire st with
      | [] => None
      | (id, data, es) :: wire =>
          let '(m, r) := HandleInboundData (ci_mem st) r choice id data (Z.of_nat (length data)) es in
          Some (with_receiver (with_wire st (ci_hand st) wire) m r)
      end
  | CUpdate =>
      i ← c_out r !! ci_seen st;
      Some (mkCircuit (window_frame c i) (ci_hand st) (ci_wire st) (ci_mem st) r (S (ci_seen st)))
  | COpen id window =>
      match GetStream c id with
      | Some _ => None
      | None => Some (with_sender st (AddStream c (Acquire newStream id 0 window)))
      end
  | CClose id now => Some (with_sender st (RemoveStream c id now))
  | CPeerOpen id window =>
      match GetStream r id with
      | Some _ => None
      | None => Some (with_receiver st (ci_mem st) (AddStream r (Acquire newStream id 1 window)))
      end
  | CPeerClose id now =>
      s ← GetStream r id;
      Some (with_receiver st (Release (ci_mem st) s).1 (RemoveStream r id now))
  | CPeerRead id plen =>
      s ← GetStream r id;
      let '(m, s, _) := Read (ci_mem st) s plen in
      Some (with_receiver st m (set_c_streams r (<[id := s]> (c_streams r))))
  | CPeerSubmit i => Some (with_receiver st (ci_mem st) (submitAsync r i))
  end.

(** The sender opens streams with the window the peer announced; window
    updates are submitted by [HandleInboundData] only; ids are positive. *)
Definition cact_ok (a : CAction) : Prop :=
  match a with
  | CPeerSubmit i => wi_kind i <> wkWindowUpdate
  | COpen id window | CPeerOpen id window => 0 < id /\ 0 <= window <= MaxInt32
  | CEnd id => 0 < id
  | _ => True
  end.

(** One action, of those that satisfy [P]. *)
Definition crel (P : CAction -> Prop) (st : Circuit) (a : CAction) (st' : Circuit) : Prop :=
  P a /\ cact st a = Some st'.

(** Two fresh connections. *)
Definition circuit_init (d1 d2 : decoder) : Circuit :=
  mkCircuit (newConn d1) [] [] (mkMem ∅ ∅ [] 0) (newConn d2) 0.

(** Credit on its way to [id] (0: the connection). *)
Definition on_stream (id j : Z) : bool := (id =? 0) || (j =? id).

Definition held_for (id : Z) (h : Z * Z) : Z := if on_stream id h.1 then h.2 else 0.

Definition wired_for (id : Z) (f : Z * list byte * bool) : Z :=
  if on_stream id f.1.1 then Z.of_nat (length f.1.2) else 0.

Definition updates (st : Circuit) : list writeIntent := drop (ci_seen st) (c_out (ci_receiver st)).

Definition in_transit (id : Z) (st : Circuit) : Z :=
  zsum (held_for id) (ci_hand st) + zsum (wired_for id) (ci_wire st) + zsum (refill id) (updates st).

Definition connWindow (st : Circuit) : Z := ConnSendWindow (c_Send (ci_sender st)).

Definition streamWindow (id : Z) (st : Circuit) : option Z := s_SendWindow <$> GetStream (ci_sender st) id.

(** The actions that need no new work from anybody. *)
Definition delivery (a : CAction) : Prop :=
  match a with CSend _ _ _ | CDeliver _ | CUpdate => True | _ => False end.

(** Nothing is left to deliver. *)
Definition drained (st : Circuit) : Prop := ci_hand st = [] /\ ci_wire st = [] /\ updates st = [].

(** Pending deliveries: a grant is sent, delivered, and acknowledged by at
    most two frames. *)
Definition weight (st : Circuit) : nat :=
  (4 * length (ci_hand st) + 3 * length (ci_wire st) + length (updates st))%nat.

(** ** The invariant *)

Definition carries (i : writeIntent) : Prop :=
  wi_kind i = wkWindowUpdate -> 0 < wi_increment i <= MaxInt32.

Record circuit_inv (st : Circuit) : Prop := {
  cv_alive : c_writeDead (ci_receiver st) = false;
  cv_seen : (ci_seen st <= length (c_out (ci_receiver st)))%nat;
  cv_hand : Forall (fun h => 0 < h.1 /\ 0 < h.2) (ci_hand st);
  cv_wire : Forall (fun f => 0 < f.1.1) (ci_wire st);
  cv_updates : Forall carries (updates st);
  cv_ids : map_Forall (fun id _ => 0 < id) (c_streams (ci_sender st));
  cv_windows : map_Forall (fun _ s => is_i32 (s_SendWindow s)) (c_streams (ci_sender st));
  cv_conn : 0 <= connWindow st;
  cv_sum : connWindow st + in_transit 0 st = DefaultInitialWindow
}.

Lemma circuit_init_inv d1 d2 : circuit_inv (circuit_init d1 d2).
Proof.
  by split; unfold updates; cbn.
Qed.

(** The receiver submits [sent]. *)
Lemma updates_submit st m r sent :
  (ci_seen st <= length (c_out (ci_receiver st)))%nat -> c_out r = c_out (ci_receiver st) ++ sent ->
  updates (with_receiver st m r) = updates st ++ sent /\
  (ci_seen (with_receiver st m r) <= length (c_out (ci_receiver (with_receiver st m r))))%nat.
Proof.
  intros Hs E. unfold updates. cbn. rewrite E, length_app. split; [by rewrite drop_app_le|lia].
Qed.

Lemma updates_next st i :
  c_out (ci_receiver st) !! ci_seen st = Some i -> updates st = i :: drop (S (ci_seen st)) (c_out (ci_receiver st)).
Proof. intros H. unfold updates. by apply drop_S. Qed.

Lemma held_pos id st : circuit_inv st -> 0 <= zsum (held_for id) (ci_hand st).
Proof.
  intros H. apply zsum_nonneg. intros h Hh. pose proof (cv_hand _ H) as Hf. rewrite Forall_forall in Hf.
  destruct (Hf _ Hh). unfold held_for. destruct (on_stream id h.1); lia.
Qed.

Lemma wired_pos id l : 0 <= zsum (wired_for id) l.
Proof. apply zsum_nonneg. intros f _. unfold wired_for. destruct (on_stream id f.1.1); lia. Qed.

Lemma refill_pos id l :
  Forall carries l -> 0 <= zsum (refill id) l.
Proof.
  intros H. apply zsum_nonneg. intros i Hi. rewrite Forall_forall in H. specialize (H _ Hi). unfold refill, carries in *.
  destruct (wi_kind i); try lia. specialize (H eq_refl). destruct (_ =? _); lia.
Qed.

Lemma transit_pos id st : circuit_inv st -> 0 <= in_transit id st.
Proof.
  intros H. unfold in_transit. pose proof (held_pos id st H). pose proof (wired_pos id (ci_wire st)).
  pose proof (refill_pos id _ (cv_updates _ H)). lia.
Qed.

Lemma zsum_delete {A} (f : A -> Z) (l : list A) j x : l !! j = Some x -> zsum f (delete j l) = zsum f l - f x.
Proof.
  revert j. induction l as [|y l IH]; intros [|j] H; simplify_eq/=; [lia|]. rewrite (IH _ H). lia.
Qed.

(** A reservation moves credit from the windows to the writer's hand. *)
Lemma reserve_moves st id want st' :
  circuit_inv st -> cact st (CReserve id want) = Some st' ->
  exists s s', GetStream (ci_sender st) id = Some s /\ GetStream (ci_sender st') id = Some s' /\
    (forall k, k <> id -> GetStream (ci_sender st') k = GetStream (ci_sender st) k) /\
    is_i32 (s_SendWindow s') /\
    ci_wire st' = ci_wire st /\ ci_receiver st' = ci_receiver st /\ ci_seen st' = ci_seen st /\
    ((ci_hand st' = ci_hand st /\ connWindow st' = connWindow st /\ s_SendWindow s' = s_SendWindow s) \/
     exists got, 0 < got <= s_SendWindow s /\ got <= connWindow st /\ ci_hand st' = ci_hand st ++ [(id, got)] /\
       connWindow st' = connWindow st - got /\ s_SendWindow s' = s_SendWindow s - got).
Proof.
  intros H Ha. cbn [cact] in Ha. destruct (GetStream (ci_sender st) id) as [s|] eqn:Hs; [|done]. cbn in Ha.
  pose proof (cv_windows _ H _ _ Hs) as Hw. cbn beta in Hw.
  assert (Hc : is_i32 (connWindow st)).
  { pose proof (cv_conn _ H). pose proof (cv_sum _ H). pose proof (transit_pos 0 st H). unfold DefaultInitialWindow in *. range32. }
  destruct (Reserve (c_Send (ci_sender st)) (s_SendWindow s) want) as [[res sc] sw] eqn:Er.
  injection Ha as <-. exists s, (set_SendWindow s sw).
  assert (Hk : forall k, k <> id -> <[id := set_SendWindow s sw]> (c_streams (ci_sender st)) !! k = c_streams (ci_sender st) !! k)
    by (intros k Hk; by rewrite lookup_insert_ne).
  unfold GetStream, connWindow. cbn. rewrite lookup_insert_eq. unfold Reserve in Er.
  assert (Hsame : res = Wait \/ (exists d, res = Return 0 d) -> sw = s_SendWindow s -> ConnSendWindow sc = connWindow st ->
    is_i32 sw /\ match res with Return got false => if 0 <? got then ci_hand st ++ [(id, got)] else ci_hand st | _ => ci_hand st end = ci_hand st
      /\ ConnSendWindow sc = connWindow st /\ sw = s_SendWindow s).
  { intros Hr -> ->. split_and!; [done| |done..]. by destruct Hr as [-> |[[] ->]]. }
  destruct (want <=? 0) eqn:Ew.
  { simplify_eq. destruct (Hsame ltac:(right; by eexists) eq_refl eq_refl) as (? & ? & ? & ?). split_and!; auto. }
  bool_prop. destruct res as [got [|]|].
  - destruct (reserve_pass_dead _ _ _ _ _ _ Er) as (-> & -> & -> & _).
    destruct (Hsame ltac:(right; by eexists) eq_refl eq_refl) as (? & ? & ? & ?). split_and!; auto.
  - destruct (reserve_pass_grant (initCond (c_Send (ci_sender st))) _ _ _ _ _ Ew Hw Hc Er) as (Hg & Hg1 & Hg2 & E1 & E2 & _).
    cbn [ConnSendWindow initCond] in *.
    split_and!; auto; [range32|]. right. exists got. rewrite (proj2 (Z.ltb_lt 0 got)) by lia. unfold connWindow.
    split_and!; try done; lia.
  - destruct (reserve_pass_wait _ _ _ _ _ Er) as (-> & -> & _).
    destruct (Hsame ltac:(by left) eq_refl eq_refl) as (? & ? & ? & ?). split_and!; auto.
Qed.

(** A frame of the receiver's adds what it carries to the windows. *)
Lemma window_frame_spec c i :
  carries i ->
  0 <= ConnSendWindow (c_Send c) + refill 0 i <= MaxInt32 ->
  map_Forall (fun id _ => 0 < id) (c_streams c) -> map_Forall (fun _ s => is_i32 (s_SendWindow s)) (c_streams c) ->
  ConnSendWindow (c_Send (window_frame c i)) = ConnSendWindow (c_Send c) + refill 0 i /\
  map_Forall (fun id _ => 0 < id) (c_streams (window_frame c i)) /\
  map_Forall (fun _ s => is_i32 (s_SendWindow s)) (c_streams (window_frame c i)) /\
  forall k s, 0 < k -> GetStream c k = Some s ->
    exists s', GetStream (window_frame c i) k = Some s' /\ s_SendWindow s' = i32 (s_SendWindow s + refill k i).
Proof.
  intros Hi Hc Hid Hw.
  assert (Hsame : forall k s, 0 < k -> GetStream c k = Some s -> refill k i = 0 ->
    exists s', GetStream c k = Some s' /\ s_SendWindow s' = i32 (s_SendWindow s + refill k i)).
  { intros k s Hk Hs ->. exists s. split; [done|]. rewrite Z.add_0_r, i32_small; [done|]. exact (Hw _ _ Hs). }
  unfold window_frame, refill, carries in *. destruct (wi_kind i); try (split_and!; [lia|done|done|auto]).
  specialize (Hi eq_refl). rewrite (i32_small (wi_increment i)) by range32. unfold HandleWindowUpdate.
  destruct (wi_streamID i =? 0) eqn:E0.
  - cbn. rewrite i32_small by range32. bool_prop. split_and!; [done..|]. intros k s Hk Hs.
    apply Hsame; [done|done|]. rewrite E0. by rewrite (proj2 (Z.eqb_neq 0 k)) by lia.
  - rewrite Z.add_0_r. destruct (GetStream c (wi_streamID i)) as [s0|] eqn:Es.
    + cbn. split_and!; [done| | |].
      * apply map_Forall_insert_2; [|done]. exact (Hid _ _ Es).
      * apply map_Forall_insert_2; [|done]. cbn. apply i32_is_i32.
      * intros k s Hk Hs. destruct (decide (wi_streamID i = k)) as [Ek|Hne].
        -- rewrite Ek in *. rewrite Es in Hs. simplify_eq. eexists. unfold GetStream. cbn. rewrite lookup_insert_eq, Z.eqb_refl. by split.
        -- unfold GetStream. cbn. rewrite lookup_insert_ne by done. apply Hsame; [done|done|]. by rewrite (proj2 (Z.eqb_neq _ _)).
    + split_and!; [done..|]. intros k s Hk Hs. apply Hsame; [done|done|].
      rewrite (proj2 (Z.eqb_neq _ _)); [done|]. intros Ek. rewrite Ek in Es. congruence.
Qed.

(** DATA that arrives is acknowledged to the connection, and to its stream if
    the receiver has it. *)
Lemma deliver_moves st choice st' :
  circuit_inv st -> cact st (CDeliver choice) = Some st' ->
  exists id data es wire sent, ci_wire st = (id, data, es) :: wire /\ ci_wire st' = wire /\ ci_hand st' = ci_hand st /\
    ci_sender st' = ci_sender st /\ updates st' = updates st ++ sent /\ (length sent <= 2)%nat /\
    c_writeDead (ci_receiver st') = false /\ (ci_seen st' <= length (c_out (ci_receiver st')))%nat /\
    Forall carries sent /\
    zsum (refill 0) sent = Z.of_nat (length data) /\
    (forall k, is_Some (GetStream (ci_receiver st) k) -> is_Some (GetStream (ci_receiver st') k)) /\
    (forall k, 0 < k -> is_Some (GetStream (ci_receiver st) k) ->
       zsum (refill k) sent = if decide (id = k) then Z.of_nat (length data) else 0).
Proof.
  intros H Ha. cbn [cact] in Ha. destruct (ci_wire st) as [|[[id data] es] wire] eqn:Ew; [done|].
  destruct (HandleInboundData _ _ _ _ _ _ _) as [m r] eqn:Eh. injection Ha as <-.
  destruct (HandleInboundData_out _ _ _ _ _ _ _ _ _ (cv_alive _ H) Eh) as [Hd Ho].
  pose proof (HandleInboundData_regs (ci_mem st) (ci_receiver st) choice id data (Z.of_nat (length data)) es) as Hr.
  rewrite Eh in Hr. cbn [snd] in Hr.
  set (sent := if 0 <? _ then _ else _) in Ho.
  destruct (updates_submit (with_wire st (ci_hand st) wire) m r sent (cv_seen _ H) Ho) as [Eu Hse].
  pose proof (cv_wire _ H) as Hwf. rewrite Ew in Hwf. inv Hwf. cbn in H2.
  assert (Hmax : Z.of_nat (length data) <= DefaultInitialWindow).
  { pose proof (cv_sum _ H) as Hs. pose proof (cv_conn _ H). unfold in_transit in Hs. rewrite Ew, zsum_cons in Hs.
    pose proof (held_pos 0 st H). pose proof (refill_pos 0 _ (cv_updates _ H)). pose proof (wired_pos 0 wire).
    unfold wired_for in Hs at 1. cbn in Hs. lia. }
  destruct (data_intents id (c_streams (ci_receiver st) !! id) (mkData choice id data (Z.of_nat (length data)) es) sent
    H2 ltac:(cbn; lia) eq_refl) as [H0 _].
  exists id, data, es, wire, sent. split_and!; try done.
  - unfold sent. destruct (0 <? _); [destruct (c_streams (ci_receiver st) !! id)|]; simpl; lia.
  - unfold sent. destruct (0 <? _) eqn:El; bool_prop; [destruct (c_streams (ci_receiver st) !! id)|]; rewrite ?Forall_cons, ?Forall_nil;
      split_and?; try done; intros Hk; try done; cbn; unfold DefaultInitialWindow in *; range32.
  - intros k Hk. cbn. by apply (sr_streams _ _ Hr).
  - intros k Hk [s Hs].
    destruct (data_intents k (c_streams (ci_receiver st) !! id) (mkData choice id data (Z.of_nat (length data)) es) sent
      H2 ltac:(cbn; lia) eq_refl) as [_ Hk2]. rewrite (proj1 (Hk2 Hk)). cbn [df_id df_len].
    unfold GetStream in Hs. repeat case_decide; simpl in *; simplify_eq; try done; by rewrite Hs.
Qed.

(** ** Every step keeps the credit *)

Definition registered (id : Z) (st : Circuit) : Prop :=
  is_Some (GetStream (ci_sender st) id) /\ is_Some (GetStream (ci_receiver st) id).

(** The action neither opens nor closes [id]. *)
Definition keeps (id : Z) (a : CAction) : Prop :=
  match a with
  | COpen j _ | CClose j _ | CPeerOpen j _ | CPeerClose j _ => j <> id
  | _ => True
  end.

(** [id]'s own credit, unless it would pass the 31-bit limit. *)
Definition conserves (id : Z) (st st' : Circuit) : Prop :=
  registered id st -> registered id st' /\
  forall w, streamWindow id st = Some w -> 0 <= w -> w + in_transit id st <= MaxInt32 ->
    exists w', streamWindow id st' = Some w' /\ 0 <= w' /\ w' + in_transit id st' = w + in_transit id st.

Lemma conserves_same id st st' :
  (registered id st -> registered id st') -> streamWindow id st' = streamWindow id st ->
  in_transit id st' = in_transit id st -> conserves id st st'.
Proof. intros Hr Hw Ht H. split; [auto|]. intros w E Hp _. exists w. rewrite Hw, Ht. auto. Qed.

Lemma reserve_step st id want st' :
  circuit_inv st -> cact st (CReserve id want) = Some st' ->
  circuit_inv st' /\ forall k, 0 < k -> conserves k st st'.
Proof.
  intros H Ha. destruct (reserve_moves _ _ _ _ H Ha) as (s & s' & Hs & Hs' & Hk & Hi & Ew & Er & Es & Hm).
  assert (Hid : 0 < id) by exact (cv_ids _ H _ _ Hs).
  assert (Eu : updates st' = updates st) by (unfold updates; by rewrite Er, Es).
  assert (Hreg : forall k, registered k st -> registered k st').
  { intros k [Hc Hr]. split; [|by rewrite Er]. destruct (decide (k = id)) as [->|Hne]; [by eexists|by rewrite Hk]. }
  assert (Hids : map_Forall (fun i _ => 0 < i) (c_streams (ci_sender st'))).
  { intros k x Hx. destruct (decide (k = id)) as [->|Hne]; [done|]. fold (GetStream (ci_sender st') k) in Hx. rewrite Hk in Hx by done. exact (cv_ids _ H _ _ Hx). }
  assert (Hwin : map_Forall (fun _ x => is_i32 (s_SendWindow x)) (c_streams (ci_sender st'))).
  { intros k x Hx. fold (GetStream (ci_sender st') k) in Hx. destruct (decide (k = id)) as [->|Hne]; [by simplify_eq|].
    rewrite Hk in Hx by done. exact (cv_windows _ H _ _ Hx). }
  pose proof (cv_conn _ H) as Hc. pose proof (cv_sum _ H) as Hsum. unfold in_transit in *.
  destruct Hm as [(Eh & Ec & Esw)|(got & Hg & Hgc & Eh & Ec & Esw)].
  - split; [destruct H; split; try (by rewrite ?Er, ?Es, ?Eu, ?Ew, ?Eh, ?Ec)|].
    + unfold in_transit. by rewrite Ec, Eh, Ew, Eu.
    + intros k Hp. apply conserves_same; [auto| |unfold in_transit; by rewrite Eh, Ew, Eu]. unfold streamWindow.
      destruct (decide (k = id)) as [->|Hne]; [rewrite Hs, Hs'; cbn; by rewrite Esw|by rewrite Hk].
  - split; [destruct H; split; try (by rewrite ?Er, ?Es, ?Eu, ?Ew)|].
    + rewrite Eh. apply Forall_app. split; [done|]. apply Forall_singleton. cbn. lia.
    + lia.
    + unfold in_transit. rewrite Ec, Eh, Ew, Eu, zsum_app, zsum_cons, zsum_nil. unfold held_for at 2. cbn. lia.
    + intros k Hp Hreg'. split; [auto|]. intros w Hw Hw0 Hmax. unfold streamWindow, in_transit in *.
      rewrite Eh, Ew, Eu, zsum_app, zsum_cons, zsum_nil. unfold held_for at 2, on_stream. cbn.
      rewrite (proj2 (Z.eqb_neq k 0)) by lia. cbn.
      destruct (decide (k = id)) as [->|Hne].
      * rewrite Hs in Hw. cbn in Hw. simplify_eq. rewrite Hs', Z.eqb_refl. eexists. split; [done|]. rewrite Esw. lia.
      * rewrite Hk by done. rewrite (proj2 (Z.eqb_neq id k)) by done. exists w. split_and!; [done..|lia].
Qed.

Lemma send_step st j data es st' :
  circuit_inv st -> cact st (CSend j data es) = Some st' ->
  circuit_inv st' /\ forall k, 0 < k -> conserves k st st'.
Proof.
  intros H Ha. cbn in Ha. destruct (ci_hand st !! j) as [[id got]|] eqn:Ej; [|done]. cbn in Ha.
  destruct (_ =? got) eqn:Eg; [|done]. bool_prop. injection Ha as <-.
  pose proof (proj1 (Forall_lookup _ _) (cv_hand _ H) _ _ Ej) as [Hid _]. cbn in Hid.
  assert (Ht : forall k, in_transit k (with_wire st (delete j (ci_hand st)) (ci_wire st ++ [(id, data, es)])) = in_transit k st).
  { intros k. unfold in_transit, updates. cbn [with_wire ci_hand ci_wire ci_receiver ci_seen]. rewrite zsum_app, (zsum_delete _ _ _ _ Ej), zsum_cons, zsum_nil.
    unfold held_for at 2, wired_for at 2. cbn. destruct (on_stream k id); lia. }
  split; [|intros k Hk; by apply conserves_same].
  destruct H. split; try done.
  - cbn. by apply Forall_delete.
  - cbn. apply Forall_app. split; [done|]. by apply Forall_singleton.
  - rewrite Ht. exact cv_sum0.
Qed.

Lemma end_step st id :
  0 < id -> circuit_inv st ->
  let st' := with_wire st (ci_hand st) (ci_wire st ++ [(id, [], true)]) in
  circuit_inv st' /\ forall k, 0 < k -> conserves k st st'.
Proof.
  intros Hid H st'.
  assert (Ht : forall k, in_transit k st' = in_transit k st).
  { intros k. unfold st', in_transit, updates. cbn [with_wire ci_hand ci_wire ci_receiver ci_seen]. rewrite zsum_app, zsum_cons, zsum_nil. unfold wired_for at 2. cbn. destruct (on_stream k id); lia. }
  split; [|intros k Hk; by apply conserves_same].
  destruct H. split; try done.
  - cbn. apply Forall_app. split; [done|]. by apply Forall_singleton.
  - rewrite Ht. exact cv_sum0.
Qed.

Lemma deliver_step st choice st' :
  circuit_inv st -> cact st (CDeliver choice) = Some st' ->
  circuit_inv st' /\ forall k, 0 < k -> conserves k st st'.
Proof.
  intros H Ha.
  destruct (deliver_moves _ _ _ H Ha) as (id & data & es & wire & sent & Ew & Ew' & Eh & Es & Eu & _ & Hd & Hseen & Hup & H0 & Hreg & Hk).
  pose proof (cv_wire _ H) as Hw. rewrite Ew in Hw. apply Forall_cons in Hw as [Hid Hw].
  split.
  - pose proof (cv_sum _ H) as Hs. destruct H. split; try (by rewrite ?Eh, ?Ew', ?Es, ?Eu).
    + rewrite Eu. by apply Forall_app.
    + unfold connWindow. by rewrite Es.
    + unfold connWindow, in_transit in *. rewrite Es, Eh, Ew', Eu, zsum_app, H0. rewrite Ew, zsum_cons in Hs.
      unfold wired_for in Hs at 1. cbn in Hs. lia.
  - intros k Hp Hr. split; [destruct Hr as [??]; split; [by rewrite Es|auto]|].
    intros w Hsw Hw0 Hm. exists w. unfold streamWindow, in_transit in *. rewrite Es, Eh, Ew', Eu, zsum_app, (Hk _ Hp (proj2 Hr)).
    split_and!; [done..|]. rewrite Ew, zsum_cons. unfold wired_for at 2, on_stream. cbn. rewrite (proj2 (Z.eqb_neq k 0)) by lia. cbn.
    case_decide as E; [rewrite (proj2 (Z.eqb_eq _ _) E)|rewrite (proj2 (Z.eqb_neq _ _) E)]; lia.
Qed.

Lemma update_step st st' :
  circuit_inv st -> cact st CUpdate = Some st' ->
  circuit_inv st' /\ forall k, 0 < k -> conserves k st st'.
Proof.
  intros H Ha. cbn in Ha. destruct (c_out (ci_receiver st) !! ci_seen st) as [i|] eqn:Ei; [|done]. injection Ha as <-.
  pose proof (updates_next _ _ Ei) as Eu. pose proof (cv_updates _ H) as Hu. rewrite Eu in Hu. inv Hu.
  assert (Hpos : forall k, 0 <= refill k i).
  { intros k. pose proof (refill_pos k [i]) as Hr. rewrite zsum_cons, zsum_nil, Z.add_0_r in Hr. apply Hr. by apply Forall_singleton. }
  assert (Ht : forall k, in_transit k st = refill k i + in_transit k (mkCircuit (window_frame (ci_sender st) i) (ci_hand st)
      (ci_wire st) (ci_mem st) (ci_receiver st) (S (ci_seen st)))).
  { intros k. unfold in_transit. rewrite Eu, zsum_cons. unfold updates. cbn [ci_hand ci_wire ci_receiver ci_seen]. lia. }
  set (st' := mkCircuit _ _ _ _ _ _) in *.
  assert (Hrest : forall k, 0 <= in_transit k st').
  { intros k. unfold in_transit. pose proof (held_pos k st H). pose proof (wired_pos k (ci_wire st)).
    pose proof (refill_pos k _ H3). unfold updates. cbn [st' ci_hand ci_wire ci_receiver ci_seen]. lia. }
  destruct (window_frame_spec (ci_sender st) i H2) as (Hc & Hids & Hwin & Hstr).
  { pose proof (cv_conn _ H). pose proof (cv_sum _ H) as Hs. rewrite (Ht 0) in Hs. pose proof (Hrest 0). pose proof (Hpos 0).
    unfold connWindow, DefaultInitialWindow in *. unfold MaxInt32. lia. }
  { exact (cv_ids _ H). }
  { exact (cv_windows _ H). }
  split.
  - pose proof (cv_sum _ H) as Hs. rewrite (Ht 0) in Hs. pose proof (Hpos 0). destruct H. split; try done.
    + cbn. apply lookup_lt_Some in Ei. lia.
    + unfold connWindow in *. cbn. rewrite Hc. lia.
    + unfold connWindow in *. cbn [st' ci_sender]. rewrite Hc. lia.
  - intros k Hp [[s Hs] Hr]. destruct (Hstr k s Hp Hs) as (s' & Hs' & Ew). split; [split; [by eexists|done]|].
    intros w Hw Hw0 Hm. unfold streamWindow in *. rewrite Hs in Hw. cbn in Hw. simplify_eq. cbn [st' ci_sender]. rewrite Hs'.
    eexists. split; [done|]. rewrite Ew. rewrite (Ht k) in Hm |- *. pose proof (Hpos k). pose proof (Hrest k).
    rewrite i32_small by range32. lia.
Qed.

(** The other actions leave the credit alone. *)
Record quiet_step (P : Z -> Prop) (st st' : Circuit) (l : list writeIntent) : Prop := {
  qs_hand : ci_hand st' = ci_hand st;
  qs_wire : ci_wire st' = ci_wire st;
  qs_seen : ci_seen st' = ci_seen st;
  qs_credit : c_Send (ci_sender st') = c_Send (ci_sender st);
  qs_ids : map_Forall (fun id s => 0 < id /\ is_i32 (s_SendWindow s)) (c_streams (ci_sender st'));
  qs_alive : c_writeDead (ci_receiver st') = c_writeDead (ci_receiver st);
  qs_out : c_out (ci_receiver st') = c_out (ci_receiver st) ++ l;
  qs_none : Forall (fun i => wi_kind i <> wkWindowUpdate) l;
  qs_reg : forall k, P k -> registered k st -> registered k st';
  qs_win : forall k, P k -> GetStream (ci_sender st') k = GetStream (ci_sender st) k
}.

Lemma refill_none k l : Forall (fun i => wi_kind i <> wkWindowUpdate) l -> zsum (refill k) l = 0.
Proof.
  induction 1 as [|i l Hi _ IH]; [done|]. rewrite zsum_cons, IH. unfold refill. by destruct (wi_kind i).
Qed.

Lemma quiet_step_ok P st st' l :
  circuit_inv st -> quiet_step P st st' l -> circuit_inv st' /\ forall k, P k -> conserves k st st'.
Proof.
  intros H [Eh Ew Es Ec Hids Ha Eo Hl Hreg Hwin].
  assert (Eu : updates st' = updates st ++ l).
  { unfold updates. rewrite Eo, Es, drop_app_le; [done|]. apply (cv_seen _ H). }
  assert (Ht : forall k, in_transit k st' = in_transit k st).
  { intros k. unfold in_transit. rewrite Eh, Ew, Eu, zsum_app, (refill_none _ _ Hl). lia. }
  split; [|intros k Hk; apply conserves_same; [auto| |done]; unfold streamWindow; by rewrite Hwin].
  destruct H. split; rewrite ?Eh, ?Ew; try done.
  - by rewrite Ha.
  - rewrite Es, Eo, length_app. lia.
  - rewrite Eu. apply Forall_app. split; [done|]. eapply Forall_impl; [exact Hl|]. by intros i Hi Hk.
  - eapply map_Forall_impl; [exact Hids|]. by intros ? ? [? _].
  - eapply map_Forall_impl; [exact Hids|]. by intros ? ? [_ ?].
  - unfold connWindow. by rewrite Ec.
  - rewrite Ht. unfold connWindow. by rewrite Ec.
Qed.

Lemma sender_streams st : circuit_inv st ->
  map_Forall (fun id s => 0 < id /\ is_i32 (s_SendWindow s)) (c_streams (ci_sender st)).
Proof. intros H k s Hs. split; [exact (cv_ids _ H _ _ Hs)|exact (cv_windows _ H _ _ Hs)]. Qed.

Lemma RemoveStream_frame c id now :
  c_streams (RemoveStream c id now) = delete id (c_streams c) /\ c_Send (RemoveStream c id now) = c_Send c /\
  c_out (RemoveStream c id now) = c_out c /\ c_writeDead (RemoveStream c id now) = c_writeDead c.
Proof. unfold RemoveStream, finishDrain. by repeat case_match. Qed.

Lemma open_step st id window :
  circuit_inv st -> 0 < id -> 0 <= window <= MaxInt32 ->
  quiet_step (fun k => k <> id) st (with_sender st (AddStream (ci_sender st) (Acquire newStream id 0 window))) [].
Proof.
  intros H Hid Hw. pose proof (sender_streams _ H) as Hs.
  assert (Hk : forall k, k <> id -> GetStream (AddStream (ci_sender st) (Acquire newStream id 0 window)) k = GetStream (ci_sender st) k)
    by (intros k Hk; unfold GetStream; cbn; by rewrite lookup_insert_ne).
  split; try done; rewrite ?app_nil_r; try done.
  - apply map_Forall_insert_2; [|done]. cbn. split; [done|range32].
  - intros k Hne [? ?]. split; [|done]. cbn [with_sender ci_sender]. by rewrite Hk.
Qed.

Lemma close_step st id now :
  circuit_inv st -> quiet_step (fun k => k <> id) st (with_sender st (RemoveStream (ci_sender st) id now)) [].
Proof.
  intros H. pose proof (sender_streams _ H) as Hs. destruct (RemoveStream_frame (ci_sender st) id now) as (E & Ec & _).
  assert (Hk : forall k, k <> id -> GetStream (RemoveStream (ci_sender st) id now) k = GetStream (ci_sender st) k)
    by (intros k Hk; unfold GetStream; by rewrite E, lookup_delete_ne).
  split; try done; rewrite ?app_nil_r; try done.
  - cbn. rewrite E. by apply map_Forall_delete.
  - intros k Hne [? ?]. split; [|done]. cbn [with_sender ci_sender]. by rewrite Hk.
Qed.

Lemma peer_step P st m r l :
  circuit_inv st -> c_writeDead r = c_writeDead (ci_receiver st) -> c_out r = c_out (ci_receiver st) ++ l ->
  Forall (fun i => wi_kind i <> wkWindowUpdate) l ->
  (forall k, P k -> is_Some (GetStream (ci_receiver st) k) -> is_Some (GetStream r k)) ->
  quiet_step P st (with_receiver st m r) l.
Proof.
  intros H Ha Ho Hl Hr. split; try done; [exact (sender_streams _ H)|]. intros k Hk [? ?]. split; [done|auto].
Qed.

Lemma circuit_step st a st' :
  circuit_inv st -> cact_ok a -> cact st a = Some st' ->
  circuit_inv st' /\ forall k, 0 < k -> keeps k a -> conserves k st st'.
Proof.
  intros H Hok Ha.
  assert (Hq : forall P l, quiet_step P st st' l -> (forall k, keeps k a -> P k) ->
    circuit_inv st' /\ forall k, 0 < k -> keeps k a -> conserves k st st').
  { intros P l Hq Hk. destruct (quiet_step_ok _ _ _ _ H Hq). split; auto. }
  assert (Hall : (circuit_inv st' /\ forall k, 0 < k -> conserves k st st') ->
    circuit_inv st' /\ forall k, 0 < k -> keeps k a -> conserves k st st') by (intros [? ?]; split; auto).
  assert (Hrun : forall m r, with_receiver st m r = st' -> c_writeDead r = c_writeDead (ci_receiver st) -> c_out r = c_out (ci_receiver st) ->
    (forall k, keeps k a -> is_Some (GetStream (ci_receiver st) k) -> is_Some (GetStream r k)) ->
    circuit_inv st' /\ forall k, 0 < k -> keeps k a -> conserves k st st').
  { intros m r <- Hd Ho Hr. apply (Hq (fun k => keeps k a) []); [|done]. apply peer_step; try done. by rewrite app_nil_r. }
  destruct a; try (apply Hall; eauto using reserve_step, send_step, deliver_step, update_step; fail); cbn in Hok.
  - cbn in Ha. injection Ha as <-. apply Hall. by apply end_step.
  - cbn in Ha. destruct (GetStream _ id); [done|]. injection Ha as <-.
    apply (Hq (fun k => k <> id) []); [apply open_step; tauto|]. intros k Hk. cbn in Hk. congruence.
  - cbn in Ha. injection Ha as <-.
    apply (Hq (fun k => k <> id) []); [by apply close_step|]. intros k Hk. cbn in Hk. congruence.
  - cbn in Ha. destruct (GetStream _ id) eqn:E; [done|]. injection Ha as <-. eapply Hrun; [done..|].
    intros k Hk. unfold GetStream. cbn. by rewrite lookup_insert_ne.
  - cbn in Ha. destruct (GetStream _ id) as [s|] eqn:E; [|done]. cbn in Ha. injection Ha as <-.
    destruct (RemoveStream_frame (ci_receiver st) id now) as (Es & _ & Eo & Ed). eapply Hrun; [done..|].
    intros k Hk. unfold GetStream. by rewrite Es, lookup_delete_ne.
  - cbn in Ha. destruct (GetStream _ id) as [s|] eqn:E; [|done]. cbn in Ha.
    destruct (Read _ _ _) as [[m s'] res]. injection Ha as <-. eapply Hrun; [done..|].
    intros k _. unfold GetStream. cbn. destruct (decide (k = id)) as [->|Hne]; [by rewrite lookup_insert_eq|by rewrite lookup_insert_ne].
  - cbn in Ha. injection Ha as <-. eapply (Hq (fun _ => True) [i]); [|done]. apply peer_step; try done.
    + unfold submitAsync. by case_match.
    + unfold submitAsync. by rewrite (cv_alive _ H).
    + by apply Forall_singleton.
    + intros k _. unfold GetStream, submitAsync. by case_match.
Qed.

(** ** Runs *)

Lemma circuit_run P st l st' :
  (forall a, P a -> cact_ok a) -> steps (crel P) st l st' -> circuit_inv st -> circuit_inv st'.
Proof.
  intros HP. apply steps_inv. intros s a s' H [Ha E]. exact (proj1 (circuit_step _ _ _ H (HP _ Ha) E)).
Qed.

Lemma reached d1 d2 l st : steps (crel cact_ok) (circuit_init d1 d2) l st -> circuit_inv st.
Proof. intros Hr. eapply circuit_run; [|exact Hr|apply circuit_init_inv]. done. Qed.

Lemma delivery_ok a : delivery a -> cact_ok a.
Proof. by destruct a. Qed.

Lemma delivery_keeps id a : delivery a -> keeps id a.
Proof. by destruct a. Qed.

Lemma conserves_trans id st1 st2 st3 :
  conserves id st1 st2 -> conserves id st2 st3 -> conserves id st1 st3.
Proof.
  intros H12 H23 Hreg. destruct (H12 Hreg) as [Hreg2 Hw1]. destruct (H23 Hreg2) as [Hreg3 Hw2]. split; [done|].
  intros w Hw Hw0 Hm. destruct (Hw1 w Hw Hw0 Hm) as (w1 & E1 & Hp1 & Hs1).
  destruct (Hw2 w1 E1 Hp1 ltac:(lia)) as (w2 & E2 & Hp2 & Hs2). exists w2. split_and!; [done..|lia].
Qed.

Lemma conserved_run P id st l st' :
  0 < id -> (forall a, P a -> cact_ok a /\ keeps id a) -> steps (crel P) st l st' -> circuit_inv st -> conserves id st st'.
Proof.
  intros Hid HP Hr H. induction Hr as [st|st a st1 l st2 [Ha E] Hr IH]; [by apply conserves_same|].
  destruct (HP _ Ha) as [Hok Hk]. destruct (circuit_step _ _ _ H Hok E) as [H1 Hc].
  exact (conserves_trans _ _ _ _ (Hc _ Hid Hk) (IH H1)).
Qed.

Lemma delivery_weight st a st' :
  circuit_inv st -> delivery a -> cact st a = Some st' -> (S (weight st') <= weight st)%nat.
Proof.
  intros H Hd Ha. destruct a; try done; clear Hd.
  - cbn in Ha. destruct (ci_hand st !! j) as [[id got]|] eqn:Ej; [|done]. cbn in Ha. destruct (_ =? got); [|done].
    injection Ha as <-. unfold weight, updates. cbn. rewrite length_app, length_delete by (by eexists). cbn.
    apply lookup_lt_Some in Ej. lia.
  - destruct (deliver_moves _ _ _ H Ha) as (id & data & es & wire & sent & Ew & Ew' & Eh & _ & Eu & Hl & _).
    unfold weight. rewrite Ew, Ew', Eh, Eu, length_app. cbn. lia.
  - cbn in Ha. destruct (c_out (ci_receiver st) !! ci_seen st) as [i|] eqn:Ei; [|done]. injection Ha as <-.
    unfold weight. rewrite (updates_next _ _ Ei). unfold updates. cbn. lia.
Qed.

Lemma delivery_enabled st : circuit_inv st -> drained st \/ exists a st', delivery a /\ cact st a = Some st'.
Proof.
  intros H. destruct (ci_hand st) as [|[id got] hand] eqn:Eh.
  - destruct (ci_wire st) as [|[[id data] es] wire] eqn:Ew.
    + destruct (c_out (ci_receiver st) !! ci_seen st) as [i|] eqn:Ei.
      * right. exists CUpdate. eexists. split; [done|]. cbn. by rewrite Ei.
      * left. split_and!; try done. unfold updates. apply drop_ge. by apply lookup_ge_None.
    + right. exists (CDeliver None). cbn [cact]. rewrite Ew. destruct (HandleInboundData _ _ _ _ _ _ _). by eexists.
  - right. exists (CSend 0 (replicate (Z.to_nat got) x00) false).
    pose proof (cv_hand _ H) as Hg. rewrite Eh in Hg. apply Forall_cons in Hg as [[_ Hg] _]. cbn in Hg.
    cbn. rewrite Eh. cbn. rewrite length_replicate, Z2Nat.id, Z.eqb_refl by lia. by eexists.
Qed.

Lemma cact_live st a st' : cact st a = Some st' -> dead (c_Send (ci_sender st')) = dead (c_Send (ci_sender st)).
Proof.
  destruct a; cbn; intros H.
  - destruct (GetStream _ id) as [s|]; [|done]. cbn in H. destruct (Reserve _ _ want) as [[res sc] sw] eqn:E. simplify_eq/=.
    unfold Reserve, reserve_pass, initCond in E. repeat case_match; by simplify_eq/=.
  - destruct (ci_hand st !! j) as [[id got]|]; [|done]. cbn in H. by case_match; simplify_eq/=.
  - by simplify_eq/=.
  - destruct (ci_wire st) as [|[[id data] es] wire]; [done|]. destruct (HandleInboundData _ _ _ _ _ _ _). by simplify_eq/=.
  - destruct (c_out _ !! _) as [i|]; simplify_eq/=. unfold window_frame, HandleWindowUpdate. by repeat case_match.
  - by case_match; simplify_eq/=.
  - simplify_eq/=. by rewrite (proj1 (proj2 (RemoveStream_frame _ _ _))).
  - by case_match; simplify_eq/=.
  - by destruct (GetStream _ id); simplify_eq/=.
  - destruct (GetStream _ id) as [s|]; [|done]. cbn in H. destruct (Read _ _ _) as [[m s'] res]. by simplify_eq/=.
  - by simplify_eq/=.
Qed.

Lemma live_run P st l st' : steps (crel P) st l st' -> dead (c_Send (ci_sender st')) = dead (c_Send (ci_sender st)).
Proof. induction 1 as [|st a st1 l st2 [_ E] _ IH]; [done|]. by rewrite IH, (cact_live _ _ _ E). Qed.

Lemma delivery_run st l st' : circuit_inv st -> steps (crel delivery) st l st' -> (length l + weight st' <= weight st)%nat.
Proof.
  intros H Hr. induction Hr as [|st a st1 l st2 [Ha E] Hr IH]; [done|]. cbn [length].
  specialize (IH (proj1 (circuit_step _ _ _ H (delivery_ok _ Ha) E))). pose proof (delivery_weight _ _ _ H Ha E). lia.
Qed.

Lemma drains st : circuit_inv st -> exists l st', steps (crel delivery) st l st' /\ drained st'.
Proof.
  remember (weight st) as k eqn:Ek. revert st Ek. induction (lt_wf k) as [k _ IH]. intros st -> H.
  destruct (delivery_enabled st H) as [Hd|(a & st1 & Ha & E)]; [by exists [], st; split; [constructor|]|].
  destruct (IH (weight st1) ltac:(pose proof (delivery_weight _ _ _ H Ha E); lia) st1 eq_refl) as (l & st' & Hr & Hd).
  { exact (proj1 (circuit_step _ _ _ H (delivery_ok _ Ha) E)). }
  exists (a :: l), st'. split; [by econstructor|done].
Qed.

Lemma drained_transit k st : drained st -> in_transit k st = 0.
Proof. intros (Eh & Ew & Eu). unfold in_transit. by rewrite Eh, Ew, Eu. Qed.

(** C7. Connection credit always comes back: in every state that reservations,
    DATA in any order, stream churn, reads and other frames lead to, the
    sender's connection window lies between 0 and the initial window and
    misses exactly what is in transit (so its 32-bit counter never wraps);
    sending what was granted and reading the frames on their way ends after
    at most [weight st] actions, in whichever order, with the window full;
    and any writer that asks then gets what its stream allows. *)
Theorem credit_always_returns d1 d2 l st :
  steps (crel cact_ok) (circuit_init d1 d2) l st ->
  (0 <= connWindow st <= DefaultInitialWindow /\ connWindow st + in_transit 0 st = DefaultInitialWindow) /\
  (forall dl st', steps (crel delivery) st dl st' ->
     (length dl <= weight st)%nat /\ (drained st' \/ exists a st'', delivery a /\ cact st' a = Some st'')) /\
  (exists dl st', steps (crel delivery) st dl st' /\ drained st') /\
  (forall dl st', steps (crel delivery) st dl st' -> drained st' ->
     connWindow st' = DefaultInitialWindow /\
     forall id s want, GetStream (ci_sender st') id = Some s -> 0 < want -> 0 < s_SendWindow s ->
       (Reserve (c_Send (ci_sender st')) (s_SendWindow s) want).1.1 =
       Return (Z.min want (Z.min (s_SendWindow s) DefaultInitialWindow)) false).
Proof.
  intros Hr. pose proof (reached _ _ _ _ Hr) as H. split_and!.
  - apply (cv_conn _ H).
  - pose proof (cv_sum _ H). pose proof (transit_pos 0 st H). lia.
  - apply (cv_sum _ H).
  - intros dl st' Hd. pose proof (delivery_run _ _ _ H Hd). split; [lia|].
    apply delivery_enabled. exact (circuit_run _ _ _ _ delivery_ok Hd H).
  - by apply drains.
  - intros dl st' Hd Hdr. pose proof (circuit_run _ _ _ _ delivery_ok Hd H) as H'.
    assert (Ec : connWindow st' = DefaultInitialWindow).
    { pose proof (cv_sum _ H') as Hs. rewrite (drained_transit _ _ Hdr) in Hs. lia. }
    split; [done|]. intros id s want Hs Hw Hsw. unfold Reserve, reserve_pass, initCond. cbn.
    rewrite (live_run _ _ _ _ Hd), (live_run _ _ _ _ Hr). cbn. unfold connWindow in Ec. rewrite Ec.
    rewrite (proj2 (Z.leb_gt want 0)), (proj2 (Z.ltb_lt 0 _)) by (unfold DefaultInitialWindow; lia).
    case_match eqn:E; bool_prop; cbn; f_equal; lia.
Qed.

(** C25. Stream credit is conserved too: while a stream stays registered at both
    ends, its send window plus what is in transit for it (granted and unsent,
    DATA on the wire, WINDOW_UPDATEs unread) is constant, whatever the other
    streams do, so an idle stream's window is back at its full value. *)
Theorem stream_credit_conserved d1 d2 l st id w :
  steps (crel cact_ok) (circuit_init d1 d2) l st -> 0 < id -> registered id st ->
  streamWindow id st = Some w -> 0 <= w -> w + in_transit id st <= MaxInt32 ->
  forall l' st', steps (crel (fun a => cact_ok a /\ keeps id a)) st l' st' ->
    registered id st' /\
    exists w', streamWindow id st' = Some w' /\ 0 <= w' <= w + in_transit id st /\
      w' + in_transit id st' = w + in_transit id st /\
      (drained st' -> w' = w + in_transit id st).
Proof.
  intros Hr Hid Hreg Hw Hw0 Hm l' st' Hs. pose proof (reached _ _ _ _ Hr) as H.
  destruct (conserved_run _ id st l' st' Hid (fun a Ha => Ha) Hs H Hreg) as [Hreg' Hc]. split; [done|].
  destruct (Hc w Hw Hw0 Hm) as (w' & Ew & Hp & Es).
  assert (H' : circuit_inv st') by exact (circuit_run _ _ _ _ (fun a Ha => proj1 Ha) Hs H).
  pose proof (transit_pos id st' H'). exists w'. split_and!; try done; [lia|].
  intros Hd. rewrite (drained_transit _ _ Hd) in Es. lia.
Qed.

(** Actions in sequence. *)
Fixpoint exec (l : list CAction) (st : Circuit) : option Circuit :=
  match l with
  | [] => Some st
  | a :: l => st' ← cact st a; exec l st'
  end.

Lemma exec_steps P l st st' : Forall P l -> exec l st = Some st' -> steps (crel P) st l st'.
Proof.
  revert st. induction l as [|a l IH]; intros st Hp E; [simplify_eq/=; constructor|].
  apply Forall_cons in Hp as [Ha Hp]. cbn in E. destruct (cact st a) as [st1|] eqn:E1; [|done].
  econstructor; [by split|]. by apply IH.
Qed.

Lemma exec_app l1 l2 st : exec (l1 ++ l2) st = exec l1 st ≫= exec l2.
Proof. revert st. induction l1 as [|a l1 IH]; intros st; [done|]. cbn. destruct (cact st a); [apply IH|done]. Qed.

(** The state [l] leads to. *)
Definition after (l : list CAction) (st : Circuit) : Circuit := default st (exec l st).

Definition goes (l : list CAction) (st : Circuit) : bool := match exec l st with Some _ => true | None => false end.

Lemma goes_exec l st : goes l st = true -> exec l st = Some (after l st).
Proof. unfold goes, after. by destruct (exec l st). Qed.

Lemma goes_steps P l st : Forall P l -> goes l st = true -> steps (crel P) st l (after l st).
Proof. intros Hp Hg. apply exec_steps; [done|by apply goes_exec]. Qed.

Lemma goes_steps_app P l1 l2 st :
  Forall P l2 -> goes l1 st = true -> goes (l1 ++ l2) st = true ->
  steps (crel P) (after l1 st) l2 (after (l1 ++ l2) st).
Proof.
  intros Hp H1 H2. apply exec_steps; [done|]. apply goes_exec in H1, H2. by rewrite exec_app, H1 in H2.
Qed.

End Circuit.

Module CreditDemo.

Definition start : Circuit := circuit_init (HD := Plain.plain_decoder) tt tt.

(** A stream open at both ends, a reservation of five bytes that is sent,
    one of three that is not yet, and the first five delivered. *)
Definition opening : list CAction := [COpen 1 65535; CPeerOpen 1 65535].

Definition sending : list CAction :=
  [CReserve 1 5; CSend 0 [x68; x65; x6c; x6c; x6f] false; CReserve 1 3; CDeliver None].

Definition acts : list CAction := opening ++ sending.

Definition st : Circuit := after acts start.

Definition opened : Circuit := after opening start.

Lemma acts_ok : Forall cact_ok acts.
Proof. repeat constructor; done. Qed.

Lemma in_flight : connWindow st = 65527 /\ in_transit 0 st = 8 /\ ci_hand st = [(1, 3)] /\ length (updates st) = 2%nat.
Proof. by vm_compute. Qed.

Lemma reach : steps (crel cact_ok) start acts st.
Proof. apply (goes_steps cact_ok acts); [exact acts_ok|by vm_compute]. Qed.

Lemma open_reach : steps (crel cact_ok) start opening opened.
Proof. apply (goes_steps cact_ok opening); [repeat constructor; done|by vm_compute]. Qed.

Lemma run_keeps : steps (crel (fun a => cact_ok a /\ keeps 1 a)) opened sending st.
Proof. apply (goes_steps_app _ opening sending); [repeat constructor; done|by vm_compute..]. Qed.

Lemma opened_state : streamWindow 1 opened = Some 65535 /\ in_transit 1 opened = 0 /\ 65535 + in_transit 1 opened <= MaxInt32.
Proof. by vm_compute. Qed.

Lemma opened_registered : registered 1 opened.
Proof. split; apply not_eq_None_Some; by vm_compute. Qed.

Lemma credit_always_returns_witness :
  (0 <= connWindow st <= DefaultInitialWindow /\ connWindow st + in_transit 0 st = DefaultInitialWindow) /\ ci_hand st = [(1, 3)].
Proof. exact (conj (proj1 (credit_always_returns _ _ acts st reach)) (proj1 (proj2 (proj2 in_flight)))). Defined.

Lemma stream_credit_conserved_witness :
  exists w', streamWindow 1 st = Some w' /\ 0 <= w' <= 65535 + 0 /\ w' + in_transit 1 st = 65535.
Proof.
  destruct opened_state as (Hw & Ht & Hm).
  destruct (stream_credit_conserved _ _ opening opened 1 65535 open_reach ltac:(lia) opened_registered Hw ltac:(lia) Hm sending st run_keeps)
    as [_ (w' & Ew & Hb & Hs & _)].
  exists w'. rewrite Ht in *. split_and!; [exact Ew|apply Hb..|exact Hs].
Defined.

End CreditDemo.
