(* ===== verification/SendPath.v ===== *)
(** * Sending DATA under flow control

    What [responseWriter.Write] (writer.go) and [streamRequestBody]
    (internal/proxy/forward.go) share: a goroutine that alternates
    [Send.Reserve] and a synchronous [SendData] while other goroutines change
    the windows.  The rest of the process is an environment: [w_batches] are
    the window changes that happen before the goroutine gets hold of [sc.mu]
    each time it takes it, [w_results] the results the writer reports. *)

From Stdlib Require Import Strings.Byte.
From S2P Require Import Prelude Errors Flow Names Writer.

(** ** The environment *)

(** What the frame reader and other streams' senders do to the credit. *)
Inductive CreditEv :=
| EvConn (delta : Z)
| EvStream (delta : Z)
| EvInitWindow (newSize : Z)
| EvOther (sw want : Z)
| EvDead.

Definition credit_ev (x : SendCredit * Z) (e : CreditEv) : SendCredit * Z :=
  let '(sc, sw) := x in
  match e with
  | EvConn d => (AddConn sc d, sw)
  | EvStream d => (sc, AddStream sw d)
  | EvInitWindow n =>
      let '(sc, sws) := ApplyInitialWindowDelta sc n [sw] in (sc, default sw (head sws))
  | EvOther osw want => let '(_, sc, _) := Reserve sc osw want in (sc, sw)
  | EvDead => (MarkDead sc, sw)
  end.

Definition apply_batch (b : list CreditEv) (sc : SendCredit) (sw : Z) : SendCredit * Z :=
  foldl credit_ev (sc, sw) b.

(** The loop of [Reserve] from where it holds the lock: each [cond.Wait] lets
    one batch happen; [None]: the batches are used up and the goroutine is
    still parked. *)
Fixpoint reserve_loop (bs : list (list CreditEv)) (sc : SendCredit) (sw want : Z)
  : option (Z * bool) * list (list CreditEv) * SendCredit * Z :=
  match reserve_pass sc sw want with
  | (Return got d, sc', sw') => (Some (got, d), bs, sc', sw')
  | (Wait, _, _) =>
      match bs with
      | [] => (None, [], sc, sw)
      | b :: bs => let '(sc, sw) := apply_batch b sc sw in reserve_loop bs sc sw want
      end
  end.

(** [Reserve] with the wait: the first batch happens before the lock is taken. *)
Definition reserveWait (bs : list (list CreditEv)) (sc : SendCredit) (sw want : Z)
  : option (Z * bool) * list (list CreditEv) * SendCredit * Z :=
  if want <=? 0 then (Some (0, false), bs, sc, sw)
  else
    match bs with
    | [] => reserve_loop [] (initCond sc) sw want
    | b :: bs => let '(sc, sw) := apply_batch b sc sw in reserve_loop bs (initCond sc) sw want
    end.

(** The state one sending goroutine sees: the credit, its own stream's
    window, the environment, and the log of its submissions with the result
    each got. *)
Record World := mkWorld {
  w_credit : SendCredit;
  w_sw : Z;
  w_batches : list (list CreditEv);
  w_results : list (option gerror);
  w_log : list (writeIntent * option gerror)
}.

(** A synchronous [submit]: queued, and its result awaited. *)
Definition submit (w : World) (i : writeIntent) : World * option gerror :=
  let r := default None (head (w_results w)) in
  (mkWorld (w_credit w) (w_sw w) (w_batches w) (tail (w_results w)) (w_log w ++ [(i, r)]), r).

(** An asynchronous one: no result is awaited. *)
Definition submitOnly (w : World) (i : writeIntent) : World :=
  mkWorld (w_credit w) (w_sw w) (w_batches w) (w_results w) (w_log w ++ [(i, None)]).

Definition reserve (w : World) (want : Z) : World * option (Z * bool) :=
  let '(r, bs, sc, sw) := reserveWait (w_batches w) (w_credit w) (w_sw w) want in
  (mkWorld sc sw bs (w_results w) (w_log w), r).

Definition typed_ev (e : CreditEv) : Prop :=
  match e with
  | EvConn d | EvStream d => is_i32 d
  | EvInitWindow n => is_i32 n
  | EvOther sw want => is_i32 sw /\ is_i32 want
  | EvDead => True
  end.

(** Both windows are [int32] values, and so are the arguments to come. *)
Definition world_ok (w : World) : Prop :=
  is_i32 (ConnSendWindow (w_credit w)) /\ is_i32 (w_sw w) /\ Forall (Forall typed_ev) (w_batches w).

(** Why a goroutine may be parked: no credit, and the connection is alive. *)
Definition starved (w : World) : Prop :=
  dead (w_credit w) = false /\ Z.min (w_sw w) (ConnSendWindow (w_credit w)) <= 0 /\ w_batches w = [].

(** ** Lemmas *)

Lemma credit_ev_i32 sc sw e sc' sw' :
  is_i32 (ConnSendWindow sc) -> is_i32 sw -> typed_ev e -> credit_ev (sc, sw) e = (sc', sw') ->
  is_i32 (ConnSendWindow sc') /\ is_i32 sw'.
Proof.
  intros Hc Hs Ht H. destruct e as [d|d|n|osw want|]; simpl in H.
  - simplify_eq. split; [apply i32_is_i32|done].
  - simplify_eq. split; [done|apply i32_is_i32].
  - unfold ApplyInitialWindowDelta in H. destruct (_ =? 0); simplify_eq/=; split; auto with width.
  - destruct (Reserve sc osw want) as [[r sc1] sw1] eqn:E. simplify_eq. split; [|done].
    unfold Reserve in E. destruct (want <=? 0); [by simplify_eq|].
    unfold reserve_pass in E. repeat case_match; simplify_eq/=; auto with width.
  - by simplify_eq.
Qed.

Lemma apply_batch_i32 b sc sw sc' sw' :
  is_i32 (ConnSendWindow sc) -> is_i32 sw -> Forall typed_ev b -> apply_batch b sc sw = (sc', sw') ->
  is_i32 (ConnSendWindow sc') /\ is_i32 sw'.
Proof.
  unfold apply_batch. revert sc sw. induction b as [|e b IH]; intros sc sw Hc Hs Hb H; cbn [foldl] in H.
  { by simplify_eq. }
  apply Forall_cons in Hb as [He Hb]. destruct (credit_ev (sc, sw) e) as [sc1 sw1] eqn:E.
  destruct (credit_ev_i32 _ _ _ _ _ Hc Hs He E). eauto.
Qed.

Lemma reserve_loop_spec bs sc sw want r bs' sc' sw' :
  0 < want -> is_i32 (ConnSendWindow sc) -> is_i32 sw -> Forall (Forall typed_ev) bs ->
  reserve_loop bs sc sw want = (r, bs', sc', sw') ->
  is_i32 (ConnSendWindow sc') /\ is_i32 sw' /\ Forall (Forall typed_ev) bs' /\
  match r with
  | Some (got, false) => 0 < got <= want /\ 0 <= sw' /\ 0 <= ConnSendWindow sc'
  | Some (got, true) => got = 0 /\ dead sc' = true
  | None => dead sc' = false /\ Z.min sw' (ConnSendWindow sc') <= 0 /\ bs' = []
  end.
Proof.
  intros Hw. revert sc sw. induction bs as [|b bs IH]; intros sc sw Hc Hs Hb H; simpl in H;
    destruct (reserve_pass sc sw want) as [[[got d|] sc1] sw1] eqn:E.
  1, 3: simplify_eq; destruct d;
    [destruct (reserve_pass_dead _ _ _ _ _ _ E) as (-> & -> & -> & Hd); by split_and!
    |destruct (reserve_pass_grant _ _ _ _ _ _ Hw Hs Hc E) as (? & ? & ? & -> & -> & _);
     split_and!; try done; range32].
  - simplify_eq. by destruct (reserve_pass_wait _ _ _ _ _ E) as (_ & _ & ? & ?).
  - apply Forall_cons in Hb as [Hb Hbs]. destruct (apply_batch b sc sw) as [sc2 sw2] eqn:Eb.
    destruct (apply_batch_i32 _ _ _ _ _ Hc Hs Hb Eb). eauto.
Qed.

(** A reservation: a positive grant within what was asked for, a dead
    connection, or a goroutine parked for want of credit. *)
Lemma reserve_spec w want w' r :
  0 < want -> world_ok w -> reserve w want = (w', r) ->
  world_ok w' /\ w_results w' = w_results w /\ w_log w' = w_log w /\
  match r with
  | Some (got, false) => 0 < got <= want /\ 0 <= w_sw w' /\ 0 <= ConnSendWindow (w_credit w')
  | Some (got, true) => got = 0 /\ dead (w_credit w') = true
  | None => starved w'
  end.
Proof.
  intros Hw (Hc & Hs & Hb) H. unfold reserve, reserveWait in H.
  rewrite (proj2 (Z.leb_gt _ _)) in H by lia.
  destruct (w_batches w) as [|b bs].
  - destruct (reserve_loop [] _ _ _) as [[[r1 bs1] sc1] sw1] eqn:E. simplify_eq.
    destruct (reserve_loop_spec _ (initCond (w_credit w)) _ _ _ _ _ _ Hw Hc Hs Hb E) as (? & ? & ? & Hr).
    split_and!; [by split_and!|done|done|]. unfold starved; simpl. by destruct r as [[got []]|].
  - apply Forall_cons in Hb as [Hb Hbs]. destruct (apply_batch b (w_credit w) (w_sw w)) as [sc2 sw2] eqn:Eb.
    destruct (apply_batch_i32 _ _ _ _ _ Hc Hs Hb Eb) as [Hc2 Hs2].
    destruct (reserve_loop bs _ _ _) as [[[r1 bs1] sc1] sw1] eqn:E. simplify_eq.
    destruct (reserve_loop_spec _ (initCond sc2) _ _ _ _ _ _ Hw Hc2 Hs2 Hbs E) as (? & ? & ? & Hr).
    split_and!; [by split_and!|done|done|]. unfold starved; simpl. by destruct r as [[got []]|].
Qed.

Lemma submit_spec w i w' r :
  submit w i = (w', r) -> w_log w' = w_log w ++ [(i, r)] /\ (world_ok w -> world_ok w') /\
  w_credit w' = w_credit w /\ w_sw w' = w_sw w /\ w_batches w' = w_batches w.
Proof. unfold submit. intros H. by simplify_eq. Qed.
