(* ===== verification/Uri.v ===== *)
(** * The [:path] parser of the worker (stream.go, [parseRequestURI])

    [url.PathUnescape] and [strings.Cut] are modelled on byte lists; the
    theorem says which paths are accepted and that nothing of an accepted one
    is lost. *)

From Stdlib Require Import Strings.Ascii Strings.String.
From S2P Require Import Prelude Names.

Open Scope Z_scope.

(** The fields of [url.URL] the parser sets, as byte lists. *)
Record URL := mkURL { RawQuery : list ascii; RawPath : list ascii; Path : list ascii }.

(** ** Standard library *)

Definition ishex (c : ascii) : bool :=
  is_digit c || ((97 <=? N_of_ascii c) && (N_of_ascii c <=? 102))%N ||
  ((65 <=? N_of_ascii c) && (N_of_ascii c <=? 70))%N.

Definition unhex (c : ascii) : N :=
  (if is_digit c then N_of_ascii c - 48
   else if (97 <=? N_of_ascii c) then N_of_ascii c - 97 + 10
   else N_of_ascii c - 65 + 10)%N.

(** [url.PathUnescape]: [None] for a malformed escape. *)
Fixpoint PathUnescape (l : list ascii) : option (list ascii) :=
  match l with
  | [] => Some []
  | c :: l =>
      if Ascii.eqb c "%" then
        match l with
        | a :: b :: l =>
            if ishex a && ishex b then
              cons (ascii_of_N (unhex a * 16 + unhex b)) <$> PathUnescape l
            else None
        | _ => None
        end
      else cons c <$> PathUnescape l
  end.

(** [strings.Cut(s, "?")] *)
Fixpoint cutQuery (l : list ascii) : option (list ascii * list ascii) :=
  match l with
  | [] => None
  | c :: l =>
      if Ascii.eqb c "?" then Some ([], l)
      else match cutQuery l with Some (b, a) => Some (c :: b, a) | None => None end
  end.

(** ** parseRequestURI *)

Definition parseRequestURI (raw : list ascii) : option URL :=
  match raw with
  | [] => None
  | c :: _ =>
      if negb (Ascii.eqb c "/") && negb (bool_decide (raw = ["*"%char])) then None
      else
        let '(query, path) := match cutQuery raw with
                              | Some (before, after) => (after, before)
                              | None => ([], raw)
                              end in
        match PathUnescape path with
        | None => None
        | Some decoded =>
            if negb (bool_decide (decoded = path)) then Some (mkURL query path decoded)
            else Some (mkURL query [] path)
        end
  end.

(** The path as it came over the wire. *)
Definition escapedPath (u : URL) : list ascii :=
  match RawPath u with [] => Path u | p => p end.

Lemma cutQuery_spec l :
  match cutQuery l with
  | Some (b, a) => l = b ++ ("?"%char :: a) /\ ("?"%char ∉ b)
  | None => "?"%char ∉ l
  end.
Proof.
  induction l as [|c l IH]; simpl; [by intros ?%elem_of_nil|].
  destruct (Ascii.eqb c "?") eqn:E.
  - apply Ascii.eqb_eq in E as ->. split; [done|by intros ?%elem_of_nil].
  - apply Ascii.eqb_neq in E. destruct (cutQuery l) as [[b a]|].
    + destruct IH as [-> Hb]. split; [done|]. rewrite elem_of_cons. intros [?|?]; [congruence|done].
    + rewrite elem_of_cons. intros [?|?]; [congruence|done].
Qed.

(** The path part of a raw [:path]. *)
Definition pathPart (raw : list ascii) : list ascii :=
  match cutQuery raw with Some (b, _) => b | None => raw end.

(** The worker accepts exactly the paths that start with a slash (or are
    the single asterisk) and whose part before the first question mark has
    well-formed percent escapes; from an accepted one nothing is lost: the
    escaped path, which holds no question mark and decodes to the handler's
    Path, followed by the question mark and the RawQuery, is the raw value. *)
Theorem request_uri_accepted_iff raw :
  (is_Some (parseRequestURI raw) <->
   (exists rest, raw = "/"%char :: rest) /\ is_Some (PathUnescape (pathPart raw)) \/ raw = ["*"%char]) /\
  forall u, parseRequestURI raw = Some u ->
    ("?"%char ∉ escapedPath u) /\ PathUnescape (escapedPath u) = Some (Path u) /\
    (raw = escapedPath u /\ RawQuery u = [] \/ raw = escapedPath u ++ ("?"%char :: RawQuery u)).
Proof.
  pose proof (cutQuery_spec raw) as Hcut.
  assert (Hstart : forall c l, raw = c :: l ->
    negb (Ascii.eqb c "/") && negb (bool_decide (raw = ["*"%char])) = false <->
    (exists rest, raw = "/"%char :: rest) \/ raw = ["*"%char]).
  { intros c l ->. rewrite andb_false_iff, !negb_false_iff, Ascii.eqb_eq, bool_decide_eq_true. split.
    - intros [-> | ?]; eauto.
    - intros [[? ?]|?]; [left; congruence|by right]. }
  assert (Hstar : raw = ["*"%char] -> PathUnescape (pathPart raw) = Some ["*"%char]) by (by intros ->).
  unfold parseRequestURI. destruct raw as [|c l] eqn:Eraw.
  { split; [|done]. split; [by intros [? ?]|]. intros [[[? ?] _]|?]; done. }
  rewrite <- Eraw in *. specialize (Hstart c l Eraw).
  destruct (negb _ && negb _).
  { split; [|done]. split; [by intros [? ?]|]. intros H. exfalso.
    assert (true = false) by (apply Hstart; destruct H as [[? _]|?]; auto). done. }
  assert (Hs : (exists rest, raw = "/"%char :: rest) \/ raw = ["*"%char]) by (by apply Hstart).
  unfold pathPart in *.
  set (q := match cutQuery raw with Some (before, after) => (after, before) | None => ([], raw) end).
  assert (Hq : q.2 = match cutQuery raw with Some (b, _) => b | None => raw end /\ ("?"%char ∉ q.2) /\
    (raw = q.2 /\ q.1 = [] \/ raw = q.2 ++ ("?"%char :: q.1))).
  { unfold q. destruct (cutQuery raw) as [[b a]|]; simpl; [|by auto]. destruct Hcut as [E ?]. auto. }
  destruct Hq as (Hp & Hnq & Hraw). rewrite <- Hp in *. clearbody q. clear Hp Hcut. destruct q as [query path]. cbn [fst snd] in *.
  destruct (PathUnescape path) as [d|] eqn:Ed.
  - split.
    { split; [|by destruct (negb _)]. intros _. destruct Hs as [?|?]; [left; split; [done|by eexists]|by right]. }
    intros u Hu. case_bool_decide as Hdp; simpl in Hu; injection Hu as <-; unfold escapedPath; cbn.
    + subst d. by split_and!.
    + destruct path; [simpl in Ed; congruence|by split_and!].
  - split; [|done]. split; [by intros [? ?]|]. intros [[_ [? ?]]|H]; [done|]. by specialize (Hstar H).
Qed.

Definition demo_path : list ascii := list_ascii_of_string "/a%20b?x=%zz".

(** The query is not unescaped, so its malformed escape does not matter. *)
Example demo_uri : parseRequestURI demo_path =
  Some (mkURL (list_ascii_of_string "x=%zz") (list_ascii_of_string "/a%20b") (list_ascii_of_string "/a b")).
Proof. vm_compute. reflexivity. Qed.

Example demo_bad_uri : parseRequestURI (list_ascii_of_string "/a%2") = None.
Proof. vm_compute. reflexivity. Qed.
