(* ===== verification/ResponseWriter.v ===== *)
(** * The worker's response writer (writer.go) and stream goroutine (stream.go)

    [responseWriter] with every operation a handler can call, and
    [serveStream] around an arbitrary sequence of handler calls: the request
    line check, the panic recovery, the END_STREAM or RST_STREAM that closes
    the response.  The theorems speak about the log of intents the stream's
    goroutine submits, for every handler and every environment. *)

From Stdlib Require Import Strings.Byte Strings.Ascii Strings.String.
From S2P Require Import Prelude Errors Flow Names Writer SendPath.

Open Scope Z_scope.

Record responseWriter := mkRW {
  rw_err : option gerror;
  rw_declaredCL : Z;
  rw_written : Z;
  rw_status : Z;
  rw_wroteHeaders : bool;
  rw_prepared : bool;
  rw_isHead : bool;
  rw_noBody : bool;
  rw_clViolated : bool
}.

(** The goroutine's state: the writer, [stream.Header], and the world. *)
Record RState := mkR {
  r_rw : responseWriter;
  r_hdr : header;
  r_world : World
}.

Definition set_err (st : RState) (e : gerror) : RState :=
  let rw := r_rw st in
  mkR (mkRW (Some e) (rw_declaredCL rw) (rw_written rw) (rw_status rw) (rw_wroteHeaders rw)
         (rw_prepared rw) (rw_isHead rw) (rw_noBody rw) (rw_clViolated rw)) (r_hdr st) (r_world st).

Definition set_status (st : RState) (s : Z) : RState :=
  let rw := r_rw st in
  mkR (mkRW (rw_err rw) (rw_declaredCL rw) (rw_written rw) s (rw_wroteHeaders rw)
         (rw_prepared rw) (rw_isHead rw) (rw_noBody rw) (rw_clViolated rw)) (r_hdr st) (r_world st).

Definition set_wroteHeaders (st : RState) : RState :=
  let rw := r_rw st in
  mkR (mkRW (rw_err rw) (rw_declaredCL rw) (rw_written rw) (rw_status rw) true
         (rw_prepared rw) (rw_isHead rw) (rw_noBody rw) (rw_clViolated rw)) (r_hdr st) (r_world st).

Definition set_declaredCL (st : RState) (v : Z) : RState :=
  let rw := r_rw st in
  mkR (mkRW (rw_err rw) v (rw_written rw) (rw_status rw) (rw_wroteHeaders rw)
         (rw_prepared rw) (rw_isHead rw) (rw_noBody rw) (rw_clViolated rw)) (r_hdr st) (r_world st).

Definition add_written (st : RState) (n : Z) : RState :=
  let rw := r_rw st in
  mkR (mkRW (rw_err rw) (rw_declaredCL rw) (i64 (rw_written rw + n)) (rw_status rw) (rw_wroteHeaders rw)
         (rw_prepared rw) (rw_isHead rw) (rw_noBody rw) (rw_clViolated rw)) (r_hdr st) (r_world st).

Definition set_clViolated (st : RState) : RState :=
  let rw := r_rw st in
  mkR (mkRW (rw_err rw) (rw_declaredCL rw) (rw_written rw) (rw_status rw) (rw_wroteHeaders rw)
         (rw_prepared rw) (rw_isHead rw) (rw_noBody rw) true) (r_hdr st) (r_world st).

Definition set_world (st : RState) (w : World) : RState := mkR (r_rw st) (r_hdr st) w.

Definition set_hdr (st : RState) (h : header) : RState := mkR (r_rw st) h (r_world st).

(** ** Content-Length *)

(** [strconv.ParseUint(s, 10, 63)]: decimal digits, below [2^63]. *)
Fixpoint parse_digits (acc : Z) (l : list ascii) : option Z :=
  match l with
  | [] => Some acc
  | c :: l =>
      if is_digit c then
        let acc := acc * 10 + (Z.of_N (N_of_ascii c) - 48) in
        if acc <? 2 ^ 63 then parse_digits acc l else None
      else None
  end.

Definition ParseUint63 (s : string) : option Z :=
  match list_ascii_of_string s with [] => None | l => parse_digits 0 l end.

Definition contentLength : string := "Content-Length".

Definition bodyAllowedForStatus (status : Z) : bool := negb (status =? 204) && negb (status =? 304).

(** ** Operations *)

Section ResponseWriter.

(** [rw.stream.ID]. *)
Variable id : Z.

Definition prepare (st : RState) : RState :=
  let rw := r_rw st in
  if rw_prepared rw then st
  else
    let status := if rw_status rw =? 0 then 200 else rw_status rw in
    let noBody := rw_isHead rw || negb (bodyAllowedForStatus status) in
    let cl := headerGet (r_hdr st) contentLength in
    let '(declared, h) :=
      if String.eqb cl "" then (-1, r_hdr st)
      else match ParseUint63 cl with
           | Some v => (v, r_hdr st)
           | None => (-1, headerDel (r_hdr st) contentLength)
           end in
    mkR (mkRW (rw_err rw) declared (rw_written rw) status (rw_wroteHeaders rw) true
           (rw_isHead rw) noBody (rw_clViolated rw)) h (r_world st).

Definition writeInformational (st : RState) (status : Z) : RState :=
  if status =? 101 then st
  else
    let h := match r_hdr st !! contentLength with
             | Some _ => headerDel (r_hdr st) contentLength
             | None => r_hdr st
             end in
    let '(w, e) := submit (r_world st) (SendResponseHeaders id status h false) in
    let st := set_world st w in
    match e with Some e => set_err st e | None => st end.

Definition WriteHeader (st : RState) (statusCode : Z) : RState :=
  let rw := r_rw st in
  if rw_prepared rw || match rw_err rw with Some _ => true | None => false end then st
  else if (100 <=? statusCode) && (statusCode <=? 199) then
    if rw_status rw =? 0 then writeInformational st statusCode else st
  else set_status st statusCode.

Definition writeHeaders (st : RState) (endStream : bool) : RState * option gerror :=
  if rw_wroteHeaders (r_rw st) then (st, None)
  else
    let st := set_wroteHeaders (prepare st) in
    let '(w, e) := submit (r_world st)
      (SendResponseHeaders id (rw_status (r_rw st)) (r_hdr st) endStream) in
    let st := set_world st w in
    (match e with Some e => set_err st e | None => st end, e).

Definition Flush (st : RState) : RState :=
  match rw_err (r_rw st) with
  | Some _ => st
  | None =>
      let st := prepare st in
      if rw_noBody (r_rw st) then st
      else
        let '(st, e) := if rw_wroteHeaders (r_rw st) then (st, None) else writeHeaders st false in
        match e with
        | Some e => set_err st e
        | None =>
            let '(w, e) := submit (r_world st) (SendData id [] false) in
            let st := set_world st w in
            match e with Some e => set_err st e | None => st end
        end
  end.

(** What a [Write] ends with: [(n, err)], a goroutine parked in [Reserve] for
    ever (the environment does nothing more), or a loop cut short by [fuel]. *)
Inductive WriteResult :=
| WDone (n : Z) (err : option gerror)
| WParked (n : Z)
| WFuel.

Fixpoint write_loop (fuel : nat) (maxFrame : Z) (st : RState) (p : list byte) (total : Z)
  : RState * WriteResult :=
  match p with
  | [] => (st, WDone total None)
  | _ =>
      match fuel with
      | O => (st, WFuel)
      | S fuel =>
          let want := Z.min (i32 (Z.of_nat (length p))) maxFrame in
          let '(w, r) := reserve (r_world st) want in
          let st := set_world st w in
          match r with
          | None => (st, WParked total)
          | Some (got, true) => (set_err st errConnDead, WDone total (Some errConnDead))
          | Some (got, false) =>
              let chunk := take (Z.to_nat got) p in
              let p := drop (Z.to_nat got) p in
              let '(w, e) := submit (r_world st) (SendData id chunk false) in
              let st := set_world st w in
              match e with
              | Some e => (set_err st e, WDone total (Some e))
              | None => write_loop fuel maxFrame (add_written st got) p (total + got)
              end
          end
      end
  end.

(** [mfs]: what [conn.MaxFrameSize()] returns. *)
Definition Write (fuel : nat) (mfs : Z) (st : RState) (p : list byte) : RState * WriteResult :=
  match rw_err (r_rw st) with
  | Some e => (st, WDone 0 (Some e))
  | None =>
      let st := prepare st in
      if rw_noBody (r_rw st) then (st, WDone (Z.of_nat (length p)) None)
      else
        let '(st, e) := if rw_wroteHeaders (r_rw st) then (st, None) else writeHeaders st false in
        match e with
        | Some e => (st, WDone 0 (Some e))
        | None =>
            if (length p =? 0)%nat then (st, WDone 0 None)
            else if (0 <=? rw_declaredCL (r_rw st)) &&
                    (rw_declaredCL (r_rw st) <? i64 (rw_written (r_rw st) + Z.of_nat (length p))) then
              (set_err (set_clViolated st) HttpErrContentLength, WDone 0 (Some HttpErrContentLength))
            else
              let maxFrame := i32 mfs in
              let maxFrame := if maxFrame <=? 0 then 16384 else maxFrame in
              write_loop fuel maxFrame st p 0
        end
  end.

Definition endStream (st : RState) : RState * option gerror :=
  let st := prepare st in
  let rw := r_rw st in
  if negb (rw_noBody rw) && (0 <=? rw_declaredCL rw) && (rw_written rw <? rw_declaredCL rw) then
    (st, Some errShortContentLength)
  else if negb (rw_wroteHeaders rw) then writeHeaders st true
  else
    let '(w, e) := submit (r_world st) (SendData id [] true) in
    let st := set_world st w in
    (match e with Some e => set_err st e | None => st end, e).

(** ** serveStream *)

(** What a handler can do with its [ResponseWriter] and headers, and how it
    may end. *)
Inductive HCall :=
| CSetHeader (k : string) (vv : list string)
| CDelHeader (k : string)
| CWriteHeader (status : Z)
| CWrite (mfs : Z) (p : list byte)
| CFlush
| CPanic.

Inductive HOutcome := HReturned | HPanicked | HParked.

(** The handler's calls; a [Write] that never returns ends the run. *)
Fixpoint runHandler (st : RState) (calls : list HCall) : RState * HOutcome :=
  match calls with
  | [] => (st, HReturned)
  | CSetHeader k vv :: calls => runHandler (set_hdr st (<[k := vv]> (r_hdr st))) calls
  | CDelHeader k :: calls => runHandler (set_hdr st (headerDel (r_hdr st) k)) calls
  | CWriteHeader status :: calls => runHandler (WriteHeader st status) calls
  | CWrite mfs p :: calls =>
      match Write (length p) mfs st p with
      | (st, WDone _ _) => runHandler st calls
      | (st, _) => (st, HParked)
      end
  | CFlush :: calls => runHandler (Flush st) calls
  | CPanic :: _ => (st, HPanicked)
  end.

Definition Reset (st : RState) (code : Z) : RState :=
  set_world st (submitOnly (r_world st) (SendRSTStream id code)).

(** The recovery [defer]. *)
Definition recovered (st : RState) : RState :=
  if negb (rw_wroteHeaders (r_rw st)) then
    let st := set_status st 500 in
    let st := set_hdr st (headerDel (r_hdr st) contentLength) in
    let st := set_declaredCL st (-1) in
    (writeHeaders st true).1
  else Reset st ErrCodeInternal.

(** The end of [serveStream] after the handler has returned; [dataDone]: what
    [s.DataDone()] reports then. *)
Definition finishStream (st : RState) (dataDone : bool) : RState :=
  let '(st, completed) :=
    if rw_clViolated (r_rw st) then (Reset st ErrCodeInternal, false)
    else
      match rw_err (r_rw st) with
      | Some _ => (st, false)
      | None =>
          let '(st, err) := endStream st in
          match err with
          | Some errShortContentLength => (Reset st ErrCodeInternal, false)
          | None => (st, true)
          | Some _ => (st, false)
          end
      end in
  if completed && negb dataDone then Reset st ErrCodeNo else st.

Definition newResponseWriter (method : string) : responseWriter :=
  mkRW None 0 0 0 false false (String.eqb method "HEAD") false false.

(** [uriOk]: whether [parseRequestURI] accepted [:path]. *)
Definition serveStream (method : string) (uriOk : bool) (calls : list HCall) (dataDone : bool) (w : World)
  : RState * HOutcome :=
  let st := mkR (newResponseWriter method) ∅ w in
  if negb uriOk then (Reset st ErrCodeProtocol, HReturned)
  else
    match runHandler st calls with
    | (st, HReturned) => (finishStream st dataDone, HReturned)
    | (st, HPanicked) => (recovered st, HPanicked)
    | (st, HParked) => (st, HParked)
    end.

End ResponseWriter.

(** ** The body loop *)

Section WriteLoop.

Variable id : Z.

Definition data_entry (r : option gerror) (chunk : list byte) : writeIntent * option gerror :=
  (SendData id chunk false, r).

Definition frame_size_ok (maxFrame : Z) (chunk : list byte) : Prop :=
  0 < Z.of_nat (length chunk) <= maxFrame.

(** What [write_loop] did, by result: [chunks] were accepted, [more] is a
    last submission the writer refused. *)
Definition loop_result (p : list byte) (total : Z) (chunks : list (list byte))
    (more : list (writeIntent * option gerror)) (st st' : RState) (r : WriteResult) : Prop :=
  match r with
  | WDone n None =>
      concat chunks = p /\ n = total + Z.of_nat (length p) /\ more = [] /\ rw_err (r_rw st') = rw_err (r_rw st)
  | WDone n (Some e) =>
      concat chunks = take (Z.to_nat (n - total)) p /\ total <= n < total + Z.of_nat (length p) /\
      rw_err (r_rw st') = Some e /\
      (more = [] /\ e = errConnDead /\ dead (w_credit (r_world st')) = true \/
       exists c, more = [data_entry (Some e) c] /\ take (length c) (drop (Z.to_nat (n - total)) p) = c)
  | WParked n =>
      concat chunks = take (Z.to_nat (n - total)) p /\ total <= n < total + Z.of_nat (length p) /\
      more = [] /\ starved (r_world st') /\ rw_err (r_rw st') = rw_err (r_rw st)
  | WFuel => False
  end.

(** The fields [write_loop] does not touch. *)
Definition same_shape (a b : responseWriter) : Prop :=
  rw_declaredCL a = rw_declaredCL b /\ rw_status a = rw_status b /\ rw_wroteHeaders a = rw_wroteHeaders b /\
  rw_prepared a = rw_prepared b /\ rw_isHead a = rw_isHead b /\ rw_noBody a = rw_noBody b /\
  rw_clViolated a = rw_clViolated b.

Lemma reserve_got w want w' got d :
  0 < want -> world_ok w -> reserve w want = (w', Some (got, d)) ->
  world_ok w' /\ w_log w' = w_log w /\ (d = true -> dead (w_credit w') = true) /\ (d = false -> 0 < got <= want).
Proof.
  intros Hw Hok H. destruct (reserve_spec _ _ _ _ Hw Hok H) as (? & _ & ? & Hr).
  split_and!; [done|done|by intros ->; destruct Hr|by intros ->; destruct Hr].
Qed.

(** One turn of the loop. *)
Lemma write_loop_S fuel maxFrame st p total :
  (0 < length p)%nat ->
  write_loop id (S fuel) maxFrame st p total =
    let want := Z.min (i32 (Z.of_nat (length p))) maxFrame in
    let '(w, r) := reserve (r_world st) want in
    match r with
    | None => (set_world st w, WParked total)
    | Some (got, true) => (set_err (set_world st w) errConnDead, WDone total (Some errConnDead))
    | Some (got, false) =>
        let '(w, e) := submit w (SendData id (take (Z.to_nat got) p) false) in
        match e with
        | Some e => (set_err (set_world st w) e, WDone total (Some e))
        | None => write_loop id fuel maxFrame (add_written (set_world st w) got)
                    (drop (Z.to_nat got) p) (total + got)
        end
    end.
Proof. destruct p; [simpl; lia|done]. Qed.

Lemma loop_result_cons p total got chunks more st st1 st' r :
  0 < got <= Z.of_nat (length p) -> rw_err (r_rw st1) = rw_err (r_rw st) ->
  loop_result (drop (Z.to_nat got) p) (total + got) chunks more st1 st' r ->
  loop_result p total (take (Z.to_nat got) p :: chunks) more st st' r.
Proof.
  intros Hg He H.
  assert (Hoff : forall n, total + got <= n ->
    Z.to_nat (n - total) = (Z.to_nat got + Z.to_nat (n - (total + got)))%nat) by lia.
  destruct r as [n [e|]|n|]; cbn in *; rewrite ?length_drop in *.
  - destruct H as (H1 & H2 & H3 & H4). split_and!; [|lia|lia|done|].
    + by rewrite H1, Hoff, take_take_drop by lia.
    + rewrite Hoff by lia. by rewrite <- drop_drop.
  - destruct H as (H1 & H2 & -> & H4). split_and!; [|lia|done|congruence]. by rewrite H1, take_drop.
  - destruct H as (H1 & H2 & -> & H4 & H5). split_and!; [|lia|lia|done|done|congruence].
    by rewrite H1, Hoff, take_take_drop by lia.
  - done.
Qed.

Lemma write_loop_spec fuel maxFrame st p total st' r :
  0 < maxFrame -> Z.of_nat (length p) <= MaxInt32 -> (length p <= fuel)%nat -> world_ok (r_world st) ->
  0 <= rw_written (r_rw st) -> rw_written (r_rw st) + Z.of_nat (length p) < 2 ^ 63 ->
  write_loop id fuel maxFrame st p total = (st', r) ->
  exists chunks more, Forall (frame_size_ok maxFrame) chunks /\ loop_result p total chunks more st st' r /\
    w_log (r_world st') = w_log (r_world st) ++ (data_entry None <$> chunks) ++ more /\
    rw_written (r_rw st') = rw_written (r_rw st) + Z.of_nat (length (concat chunks)) /\
    same_shape (r_rw st') (r_rw st) /\ r_hdr st' = r_hdr st /\ world_ok (r_world st').
Proof.
  intros Hmf. revert st p total. induction fuel as [|fuel IH]; intros st p total Hlen Hfuel Hok Hw0 Hw1 H.
  all: destruct (decide (length p = 0%nat)) as [Hz|Hnz].
  1, 3: destruct p; [|done]; simpl in H; simplify_eq; exists [], [];
    (split_and!; [constructor|split_and!; done || (simpl; lia)|simpl; by rewrite app_nil_r|simpl; lia|by split_and!|done|done]).
  { lia. }
  rewrite write_loop_S in H by lia. rewrite i32_small in H by range32. cbv zeta in H.
  destruct (reserve (r_world st) _) as [w1 rr] eqn:Er.
  destruct (reserve_spec (r_world st) (Z.min (Z.of_nat (length p)) maxFrame) _ _ ltac:(lia) Hok Er) as (Hok1 & _ & Hlog & Hr).
  destruct rr as [[got []]|].
  - simplify_eq. exists [], []. cbn. rewrite Z.sub_diag. split_and!; try done; try lia; [|by rewrite Hlog, app_nil_r].
    left. by destruct Hr.
  - destruct (submit w1 _) as [w2 e] eqn:Es. destruct (submit_spec _ _ _ _ Es) as (Hl2 & Hok2 & _).
    assert (Hc : length (take (Z.to_nat got) p) = Z.to_nat got) by (rewrite length_take; lia).
    destruct e as [e|].
    + simplify_eq. exists [], [data_entry (Some e) (take (Z.to_nat got) p)]. cbn. rewrite Z.sub_diag.
      split_and!; try done; try lia; auto; [|by rewrite Hl2, Hlog].
      right. eexists. split; [done|]. by rewrite Hc.
    + assert (Hwr1 : rw_written (r_rw (add_written (set_world st w2) got)) = rw_written (r_rw st) + got).
      { cbn. unfold i64. rewrite Z.mod_small; lia. }
      apply IH in H; rewrite ?length_drop, ?Hwr1; cbn [r_world add_written set_world]; auto; try lia.
      destruct H as (chunks & more & Hcs & Hres & Hlog' & Hwr & Hsh & Hh & Hok').
      exists (take (Z.to_nat got) p :: chunks), more. split_and!; try done.
      * constructor; [unfold frame_size_ok; lia|done].
      * eapply loop_result_cons; [lia| |done]. done.
      * rewrite Hlog'. cbn. by rewrite Hl2, Hlog, <- !app_assoc.
      * rewrite Hwr, Hwr1. cbn [concat]. rewrite length_app, Hc. lia.
  - simplify_eq. exists [], []. cbn. rewrite Z.sub_diag.
    split_and!; try done; try lia; [apply Hr..|by rewrite Hlog, app_nil_r].
Qed.

(** In every case the new DATA frames carry a prefix of [p]. *)
Lemma loop_result_prefix p total chunks more st st' r :
  loop_result p total chunks more st st' r ->
  r <> WFuel /\ exists extra, more.*1 = (fun c => SendData id c false) <$> extra /\
    (length (concat (chunks ++ extra)) <= length p)%nat /\ (rw_err (r_rw st') = None -> extra = []).
Proof.
  intros H. split; [by destruct r|].
  assert (Hle : forall k c, concat chunks = take k p -> take (length c) (drop k p) = c ->
    (length (concat (chunks ++ [c])) <= length p)%nat).
  { intros k c E1 E2. rewrite concat_app, length_app, E1. cbn. rewrite app_nil_r.
    rewrite <- E2, !length_take, length_drop. lia. }
  destruct r as [n [e|]|n|]; cbn in H.
  - destruct H as (H1 & H2 & H3 & [(-> & _)|(c & -> & Hc)]).
    + exists []. split_and!; [done| |done]. rewrite app_nil_r, H1, length_take. lia.
    + exists [c]. split_and!; [done| |congruence]. by eapply Hle.
  - destruct H as (H1 & _ & -> & _). exists []. split_and!; [done| |done]. by rewrite app_nil_r, H1.
  - destruct H as (H1 & _ & -> & _). exists []. split_and!; [done| |done].
    rewrite app_nil_r, H1, length_take. lia.
  - done.
Qed.

End WriteLoop.

(** ** Well-formed responses *)

(** Where a response stands on its stream: only interim responses so far; the
    final HEADERS sent, with the length its Content-Length declares and the
    body bytes since; half-closed or reset. *)
Inductive Phase :=
| Interim
| Body (declared : option Z) (sent : Z)
| Closed.

Definition declared_length (h : header) : option Z := ParseUint63 (headerGet h contentLength).

Definition is_1xx (status : Z) : bool := (100 <=? status) && (status <=? 199).

Definition within (declared : option Z) (n : Z) : bool :=
  match declared with Some d => n <=? d | None => true end.

Definition exactly (declared : option Z) (n : Z) : bool :=
  match declared with Some d => n =? d | None => true end.

Definition bodyless (isHead : bool) (status : Z) : bool := isHead || negb (bodyAllowedForStatus status).

(** RFC 9113 8.1, 8.1.1, 8.6: which intent may follow on the stream. *)
Definition wire_step (isHead : bool) (ph : Phase) (i : writeIntent) : option Phase :=
  match wi_kind i, ph with
  | wkRespHeaders, Interim =>
      if is_1xx (wi_status i) then
        if negb (wi_status i =? 101) && negb (wi_endStream i) &&
           bool_decide (wi_header i !! contentLength = None)
        then Some Interim else None
      else if wi_endStream i then
        if bodyless isHead (wi_status i) || exactly (declared_length (wi_header i)) 0
        then Some Closed else None
      else if bodyless isHead (wi_status i) then None
      else Some (Body (declared_length (wi_header i)) 0)
  | wkData, Body d n =>
      let n := n + Z.of_nat (length (wi_data i)) in
      if wi_endStream i then if exactly d n then Some Closed else None
      else if within d n then Some (Body d n) else None
  | wkRSTStream, _ => if wi_endStream i then None else Some Closed
  | _, _ => None
  end.

Fixpoint wire_run (isHead : bool) (ph : Phase) (l : list writeIntent) : option Phase :=
  match l with
  | [] => Some ph
  | i :: l => match wire_step isHead ph i with Some ph => wire_run isHead ph l | None => None end
  end.

Lemma wire_run_app isHead ph l1 l2 ph1 :
  wire_run isHead ph l1 = Some ph1 -> wire_run isHead ph (l1 ++ l2) = wire_run isHead ph1 l2.
Proof.
  revert ph. induction l1 as [|i l1 IH]; intros ph H; simpl in *; [by simplify_eq|].
  destruct (wire_step isHead ph i); [auto|done].
Qed.

(** *** [prepare] *)

Lemma parse_digits_nonneg l acc v : 0 <= acc -> parse_digits acc l = Some v -> 0 <= v.
Proof.
  revert acc. induction l as [|c l IH]; simpl; intros acc Ha H; [by simplify_eq|].
  destruct (is_digit c) eqn:Hd; [|done]. destruct (_ <? _); [|done].
  apply IH in H; [done|]. unfold is_digit in Hd. apply andb_true_iff in Hd as [Hd _]. apply N.leb_le in Hd. lia.
Qed.

Lemma declared_nonneg h n : declared_length h = Some n -> 0 <= n.
Proof.
  unfold declared_length, ParseUint63. destruct (list_ascii_of_string _); [done|].
  intros H. by apply parse_digits_nonneg in H.
Qed.

Lemma headerGet_del h k : headerGet (headerDel h k) k = ""%string.
Proof. unfold headerGet, headerDel. by rewrite lookup_delete_eq. Qed.

Definition declared_Z (d : option Z) : Z := match d with Some n => n | None => -1 end.

Lemma prepare_spec st :
  rw_prepared (r_rw st) = false ->
  let st' := prepare st in
  rw_prepared (r_rw st') = true /\ rw_err (r_rw st') = rw_err (r_rw st) /\
  rw_written (r_rw st') = rw_written (r_rw st) /\ rw_wroteHeaders (r_rw st') = rw_wroteHeaders (r_rw st) /\
  rw_isHead (r_rw st') = rw_isHead (r_rw st) /\ rw_clViolated (r_rw st') = rw_clViolated (r_rw st) /\
  r_world st' = r_world st /\
  rw_status (r_rw st') = (if rw_status (r_rw st) =? 0 then 200 else rw_status (r_rw st)) /\
  rw_noBody (r_rw st') = bodyless (rw_isHead (r_rw st')) (rw_status (r_rw st')) /\
  rw_declaredCL (r_rw st') = declared_Z (declared_length (r_hdr st')).
Proof.
  intros Hp. unfold prepare. rewrite Hp.
  set (cl := headerGet (r_hdr st) contentLength).
  destruct (String.eqb cl "") eqn:E.
  - apply String.eqb_eq in E. cbn. split_and!; try done. unfold declared_length. fold cl. by rewrite E.
  - destruct (ParseUint63 cl) as [v|] eqn:Ev; cbn; split_and!; try done.
    + unfold declared_length. fold cl. by rewrite Ev.
    + unfold declared_length. by rewrite headerGet_del.
Qed.

Lemma prepare_id st : rw_prepared (r_rw st) = true -> prepare st = st.
Proof. unfold prepare. by intros ->. Qed.

(** *** The invariant of the handler's run *)

Section Invariant.

Variable id : Z.
Variable isHead : bool.

Definition entries (st : RState) : list writeIntent := (w_log (r_world st)).*1.

Definition at_phase (st : RState) (ph : Phase) : Prop := wire_run isHead Interim (entries st) = Some ph.

(** Between two calls of the handler. *)
Definition handler_inv (st : RState) : Prop :=
  let rw := r_rw st in
  rw_isHead rw = isHead /\ is_1xx (rw_status rw) = false /\ world_ok (r_world st) /\ 0 <= rw_written rw /\
  (rw_prepared rw = true -> rw_noBody rw = bodyless isHead (rw_status rw)) /\
  if rw_wroteHeaders rw then
    rw_prepared rw = true /\ rw_noBody rw = false /\
    exists d n, at_phase st (Body d n) /\ rw_declaredCL rw = declared_Z d /\
      (forall v, d = Some v -> 0 <= v) /\
      (rw_err rw = None -> n = rw_written rw /\ within d n = true)
  else at_phase st Interim /\ rw_written rw = 0 /\ (rw_prepared rw = true -> rw_noBody rw = true).

Lemma entries_submit st w i r :
  submit (r_world st) i = (w, r) -> entries (set_world st w) = entries st ++ [i].
Proof. intros H. destruct (submit_spec _ _ _ _ H) as [Hl _]. unfold entries. cbn. by rewrite Hl, fmap_app. Qed.

Lemma at_phase_step st st' i ph ph' :
  at_phase st ph -> entries st' = entries st ++ [i] -> wire_step isHead ph i = Some ph' -> at_phase st' ph'.
Proof.
  unfold at_phase. intros H E Hs. rewrite E, (wire_run_app _ _ _ _ _ H). simpl. by rewrite Hs.
Qed.

Lemma entries_set_err st e : entries (set_err st e) = entries st.
Proof. done. Qed.

(** The state a first [prepare] leads to, headers still to be sent. *)
Definition prepared_inv (st : RState) : Prop :=
  let rw := r_rw st in
  rw_isHead rw = isHead /\ is_1xx (rw_status rw) = false /\ world_ok (r_world st) /\
  rw_noBody rw = bodyless isHead (rw_status rw) /\ rw_prepared rw = true /\
  at_phase st Interim /\ rw_written rw = 0 /\ rw_wroteHeaders rw = false /\
  (rw_noBody rw = false -> rw_declaredCL rw = declared_Z (declared_length (r_hdr st))).

Lemma prepare_inv st :
  handler_inv st -> rw_wroteHeaders (r_rw st) = false ->
  prepared_inv (prepare st) /\ rw_err (r_rw (prepare st)) = rw_err (r_rw st).
Proof.
  intros (Hh & H1 & Hw & Hwr & Hnb & Hrest) Hwh. rewrite Hwh in Hrest. destruct Hrest as (Hph & Hz & Hpn).
  destruct (rw_prepared (r_rw st)) eqn:Hp.
  - rewrite prepare_id by done. split; [|done]. unfold prepared_inv. split_and!; auto.
    rewrite (Hpn eq_refl). done.
  - destruct (prepare_spec st Hp) as (P1 & P2 & P3 & P4 & P5 & P6 & P7 & P8 & P9 & P10).
    split; [|done]. unfold prepared_inv, at_phase, entries. rewrite P7, P5, P4, P3. split_and!; auto.
    + rewrite P8. by destruct (_ =? 0).
    + by rewrite P9, P5, Hh.
Qed.

Lemma writeHeaders_inv st es st' e :
  prepared_inv st -> (es = false -> rw_noBody (r_rw st) = false) ->
  (es = true -> rw_noBody (r_rw st) = false -> exactly (declared_length (r_hdr st)) 0 = true) ->
  writeHeaders id st es = (st', e) ->
  (if es then at_phase st' Closed else handler_inv st') /\
  rw_wroteHeaders (r_rw st') = true /\ rw_noBody (r_rw st') = rw_noBody (r_rw st) /\
  rw_declaredCL (r_rw st') = rw_declaredCL (r_rw st) /\ rw_written (r_rw st') = 0 /\
  rw_err (r_rw st') = match e with Some e => Some e | None => rw_err (r_rw st) end.
Proof.
  intros (Hh & H1 & Hw & Hnb & Hp & Hph & Hz & Hwh & Hd) Hes1 Hes2 H.
  unfold writeHeaders in H. rewrite Hwh, prepare_id in H by done. cbn [r_rw r_hdr r_world set_wroteHeaders rw_status] in H.
  destruct (submit _ _) as [w r] eqn:Es. simplify_eq.
  set (i := SendResponseHeaders id (rw_status (r_rw st)) (r_hdr st) es) in *.
  destruct (submit_spec _ _ _ _ Es) as (_ & Hok & _).
  assert (Hent : forall s, r_world s = w -> entries s = entries st ++ [i]).
  { intros s Hs. rewrite <- (entries_submit _ _ _ _ Es). unfold entries. by rewrite Hs. }
  assert (Hph' : forall s, r_world s = w ->
    at_phase s (if es then Closed else Body (declared_length (r_hdr st)) 0)).
  { intros s Hs. eapply at_phase_step; [done|by apply Hent|]. unfold wire_step. cbn. rewrite H1. destruct es.
    - rewrite <- Hnb. destruct (rw_noBody (r_rw st)); [done|]. simpl. by rewrite Hes2.
    - by rewrite <- Hnb, Hes1. }
  split; [|by destruct e].
  destruct es; [by apply Hph'; destruct e|].
  unfold handler_inv. destruct e; cbn; rewrite Hz; split_and!; auto; try lia;
    exists (declared_length (r_hdr st)), 0; (split_and!; [by apply Hph'|auto|apply declared_nonneg|]).
  - done.
  - intros _. split; [done|]. destruct (declared_length (r_hdr st)) as [v|] eqn:E; [|done].
    apply Z.leb_le. by apply (declared_nonneg (r_hdr st)).
Qed.

Lemma handler_inv_err st e : handler_inv st -> handler_inv (set_err st e).
Proof.
  unfold handler_inv. intros (Hh & H1 & Hw & Hwr & Hnb & Hrest). cbn in *. split_and!; auto.
  destruct (rw_wroteHeaders (r_rw st)); [|done]. destruct Hrest as (? & ? & d & n & ? & ? & ? & _).
  split_and!; try done. by exists d, n.
Qed.

Lemma handler_inv_hdr st h : handler_inv st -> handler_inv (set_hdr st h).
Proof. done. Qed.

Lemma wrote_prepared st : handler_inv st -> rw_prepared (r_rw st) = false -> rw_wroteHeaders (r_rw st) = false.
Proof.
  intros (_ & _ & _ & _ & _ & Hr) Hp. destruct (rw_wroteHeaders (r_rw st)); [|done].
  destruct Hr as (Hp' & _). congruence.
Qed.

Lemma WriteHeader_inv st code :
  handler_inv st -> handler_inv (WriteHeader id st code) /\ rw_written (r_rw (WriteHeader id st code)) = rw_written (r_rw st).
Proof.
  intros Hi. unfold WriteHeader. destruct (rw_prepared (r_rw st)) eqn:Hp; [done|].
  destruct (rw_err (r_rw st)) as [e|] eqn:He; [done|]. cbn [orb].
  pose proof (wrote_prepared _ Hi Hp) as Hwh. pose proof Hi as (Hh & H1 & Hw & Hwr & Hnb & Hrest).
  rewrite Hwh in Hrest. destruct Hrest as (Hph & Hz & _).
  destruct ((100 <=? code) && (code <=? 199)) eqn:E1.
  - destruct (rw_status (r_rw st) =? 0) eqn:Es; [|done]. unfold writeInformational.
    destruct (code =? 101) eqn:E101; [done|].
    set (h := match r_hdr st !! contentLength with Some _ => _ | None => _ end).
    assert (Hcl : h !! contentLength = None).
    { unfold h, headerDel. replace (CanonicalMIMEHeaderKey contentLength) with contentLength by (by vm_compute).
      destruct (r_hdr st !! contentLength) eqn:E; [by rewrite lookup_delete_eq|done]. }
    destruct (submit _ _) as [w r] eqn:Esub. destruct (submit_spec _ _ _ _ Esub) as (_ & Hok & _).
    assert (Hi' : handler_inv (set_world st w)).
    { unfold handler_inv. cbn. rewrite Hwh, Hp. split_and!; auto; try done.
      eapply at_phase_step; [done|by eapply entries_submit|]. unfold wire_step. cbn. unfold is_1xx.
      rewrite E1, E101. by rewrite bool_decide_eq_true_2. }
    destruct r; [split; [by apply handler_inv_err|done]|done].
  - split; [|done]. unfold handler_inv, is_1xx. cbn. rewrite Hwh, Hp, E1. split_and!; auto; done.
Qed.

(** A DATA frame that keeps within the declared length. *)
Lemma wire_step_data d n c :
  within d (n + Z.of_nat (length c)) = true ->
  wire_step isHead (Body d n) (SendData id c false) = Some (Body d (n + Z.of_nat (length c))).
Proof. unfold wire_step. cbn. by intros ->. Qed.

Lemma wire_run_chunks d n cs :
  within d (n + Z.of_nat (length (concat cs))) = true ->
  wire_run isHead (Body d n) ((fun c => SendData id c false) <$> cs) = Some (Body d (n + Z.of_nat (length (concat cs)))).
Proof.
  revert n. induction cs as [|c cs IH]; intros n Hd; [simpl; by rewrite Z.add_0_r|].
  cbn [concat] in *. rewrite length_app, Nat2Z.inj_add, Z.add_assoc in *. rewrite fmap_cons. cbn [wire_run].
  rewrite wire_step_data; [by apply IH|]. unfold within in *. destruct d; [|done]. bool_prop. apply Z.leb_le. lia.
Qed.

(** The common start of [Write] and [Flush]. *)
Lemma start_body st :
  handler_inv st -> rw_err (r_rw st) = None ->
  let st1 := prepare st in
  rw_written (r_rw st1) = rw_written (r_rw st) /\
  if rw_noBody (r_rw st1) then handler_inv st1
  else
    let '(st2, e) := if rw_wroteHeaders (r_rw st1) then (st1, None) else writeHeaders id st1 false in
    handler_inv st2 /\ rw_wroteHeaders (r_rw st2) = true /\ rw_err (r_rw st2) = e /\
    rw_written (r_rw st2) = rw_written (r_rw st).
Proof.
  intros Hi He. destruct (rw_wroteHeaders (r_rw st)) eqn:Hwh.
  - pose proof Hi as (_ & _ & _ & _ & _ & Hrest). rewrite Hwh in Hrest. destruct Hrest as (Hp & Hn & _).
    rewrite prepare_id by done. cbv zeta. by rewrite Hn, Hwh.
  - destruct (prepare_inv st Hi Hwh) as [Hpi Hpe]. pose proof Hpi as (_ & _ & _ & _ & _ & _ & Hz & Hwh' & _).
    assert (Hz0 : rw_written (r_rw st) = 0).
    { destruct Hi as (_ & _ & _ & _ & _ & Hr). rewrite Hwh in Hr. by destruct Hr as (_ & ? & _). }
    cbv zeta. split; [congruence|]. destruct (rw_noBody (r_rw (prepare st))) eqn:Hnb.
    { destruct Hpi as (? & ? & ? & ? & ? & ? & ? & ? & ?). unfold handler_inv. rewrite Hwh'. split_and!; auto; lia. }
    rewrite Hwh'. destruct (writeHeaders id (prepare st) false) as [st1 e] eqn:E.
    destruct (writeHeaders_inv (prepare st) false st1 e Hpi (fun _ => Hnb) ltac:(done) E)
      as (Hi1 & Hw1 & _ & _ & Hz1 & He1).
    split_and!; [done|done| |congruence]. rewrite He1, Hpe, He. by destruct e.
Qed.

Lemma body_state st :
  handler_inv st -> rw_wroteHeaders (r_rw st) = true -> rw_err (r_rw st) = None ->
  exists d, at_phase st (Body d (rw_written (r_rw st))) /\ rw_declaredCL (r_rw st) = declared_Z d /\
    (forall v, d = Some v -> 0 <= v) /\ within d (rw_written (r_rw st)) = true.
Proof.
  intros (_ & _ & _ & _ & _ & Hrest) Hwh He. rewrite Hwh in Hrest.
  destruct Hrest as (Hp & Hn & d & n & Hph & Hcl & Hd & Hacc). destruct (Hacc He) as [-> Hwi]. by exists d.
Qed.

(** A longer body log: the invariant in terms of the new bytes. *)
Lemma body_inv st st' d new :
  handler_inv st -> rw_wroteHeaders (r_rw st) = true -> rw_err (r_rw st) = None ->
  at_phase st (Body d (rw_written (r_rw st))) -> (forall v, d = Some v -> 0 <= v) ->
  rw_declaredCL (r_rw st) = declared_Z d ->
  same_shape (r_rw st') (r_rw st) -> world_ok (r_world st') -> rw_written (r_rw st) <= rw_written (r_rw st') ->
  entries st' = entries st ++ ((fun c => SendData id c false) <$> new) ->
  within d (rw_written (r_rw st) + Z.of_nat (length (concat new))) = true ->
  (rw_err (r_rw st') = None -> rw_written (r_rw st') = rw_written (r_rw st) + Z.of_nat (length (concat new))) ->
  handler_inv st'.
Proof.
  intros (Hh & H1 & Hw & Hwr & Hnb & Hrest) Hwh He Hph Hd Hcl (S1 & S2 & S3 & S4 & S5 & S6 & S7) Hok Hle Hent Hwi Hacc.
  rewrite Hwh in Hrest. destruct Hrest as (Hp & Hn & _).
  unfold handler_inv. rewrite S1, S2, S3, S4, S5, S6, Hwh. split_and!; auto; [lia|].
  exists d, (rw_written (r_rw st) + Z.of_nat (length (concat new))). split_and!; auto.
  - unfold at_phase. rewrite Hent, (wire_run_app _ _ _ _ _ Hph). by apply wire_run_chunks.
  - intros E. by rewrite (Hacc E).
Qed.

Lemma Flush_inv st :
  handler_inv st -> handler_inv (Flush id st) /\ rw_written (r_rw (Flush id st)) = rw_written (r_rw st).
Proof.
  intros Hi. unfold Flush. destruct (rw_err (r_rw st)) as [e|] eqn:He; [done|].
  destruct (start_body st Hi He) as [Hwr1 Hst]. cbv zeta in *.
  destruct (rw_noBody (r_rw (prepare st))); [by split|].
  destruct (if rw_wroteHeaders (r_rw (prepare st)) then _ else _) as [s e]. destruct Hst as (Hs & Hwh & Hse & Hswr).
  destruct e as [e|]; [split; [by apply handler_inv_err|done]|].
  destruct (submit (r_world s) _) as [w e] eqn:Es. destruct (submit_spec _ _ _ _ Es) as (_ & Hok & _).
  destruct (body_state s Hs Hwh Hse) as (d & Hph & Hcl & Hd & Hwi).
  assert (handler_inv (set_world s w)).
  { eapply (body_inv s _ d [[]]); cbn; try done; rewrite ?Z.add_0_r; try done.
    - apply Hok. apply Hs.
    - by apply (entries_submit _ _ _ _ Es). }
  destruct e; (split; [try apply handler_inv_err; done|done]).
Qed.

(** The bytes a [Write] may add. *)
Lemma Write_inv mfs st p st' r :
  handler_inv st -> is_u32 mfs -> Z.of_nat (length p) <= MaxInt32 ->
  rw_written (r_rw st) + Z.of_nat (length p) < 2 ^ 63 ->
  Write id (length p) mfs st p = (st', r) ->
  handler_inv st' /\ rw_written (r_rw st') <= rw_written (r_rw st) + Z.of_nat (length p) /\ r <> WFuel.
Proof.
  intros Hi Hm Hlen Hb H. unfold Write in H.
  destruct (rw_err (r_rw st)) as [e|] eqn:He; [simplify_eq; split_and!; [done|lia|done]|].
  destruct (start_body st Hi He) as [Hwr1 Hst]. cbv zeta in *.
  destruct (rw_noBody (r_rw (prepare st))); [simplify_eq; split_and!; [done|lia|done]|].
  destruct (if rw_wroteHeaders (r_rw (prepare st)) then _ else _) as [s e]. destruct Hst as (Hs & Hwh & Hse & Hswr).
  destruct e as [e|]; [simplify_eq; split_and!; [done|lia|done]|].
  destruct (_ =? 0)%nat; [simplify_eq; split_and!; [done|lia|done]|].
  destruct (body_state s Hs Hwh Hse) as (d & Hph & Hcl & Hd & Hwi).
  destruct ((0 <=? _) && _) eqn:Hv; simplify_eq.
  { split_and!; [|cbn; lia|done]. apply handler_inv_err.
    destruct Hs as (? & ? & ? & ? & ? & Hr). unfold handler_inv. cbn. by rewrite Hwh in *. }
  assert (Hwin : within d (rw_written (r_rw s) + Z.of_nat (length p)) = true).
  { assert (0 <= rw_written (r_rw s)) by apply Hs. rewrite Hcl in Hv. destruct d as [v|]; [|done]. simpl in *.
    specialize (Hd v eq_refl). unfold i64 in Hv. rewrite Z.mod_small in Hv by lia.
    apply andb_false_iff in Hv as [Hv|Hv]; bool_prop; [lia|]. apply Z.leb_le. lia. }
  set (mf := if i32 mfs <=? 0 then 16384 else i32 mfs) in *.
  assert (Hmf : 0 < mf) by (unfold mf; destruct (_ <=? 0) eqn:E; bool_prop; lia).
  assert (Hsw : 0 <= rw_written (r_rw s)) by apply Hs.
  destruct (write_loop_spec id _ _ _ _ _ _ _ Hmf Hlen ltac:(done) ltac:(apply Hs) Hsw ltac:(lia) H)
    as (chunks & more & Hcs & Hres & Hlog & Hwr & Hsh & Hh & Hok).
  destruct (loop_result_prefix _ _ _ _ _ _ _ _ Hres) as (Hnf & extra & Hmore & Hle & Hnone).
  assert (Hle' : (length (concat chunks) <= length (concat (chunks ++ extra)))%nat)
    by (rewrite concat_app, length_app; lia).
  split_and!; [|lia|done].
  eapply (body_inv s st' d (chunks ++ extra)); try done; [lia|..].
  - unfold entries. rewrite Hlog, !fmap_app, Hmore, <- list_fmap_compose. done.
  - unfold within in *. destruct d; [|done]. bool_prop. apply Z.leb_le. lia.
  - intros E. by rewrite Hwr, (Hnone E), app_nil_r.
Qed.

Definition call_len (c : HCall) : Z := match c with CWrite _ p => Z.of_nat (length p) | _ => 0 end.

(** Argument ranges: [conn.MaxFrameSize()] is a uint32, a slice shorter than 2 GiB. *)
Definition call_ok (c : HCall) : Prop :=
  match c with CWrite mfs p => is_u32 mfs /\ Z.of_nat (length p) <= MaxInt32 | _ => True end.

Lemma call_len_nonneg c : 0 <= call_len c.
Proof. destruct c; simpl; lia. Qed.

Lemma runHandler_inv calls st st' o :
  handler_inv st -> Forall call_ok calls -> rw_written (r_rw st) + zsum call_len calls < 2 ^ 63 ->
  runHandler id st calls = (st', o) -> handler_inv st'.
Proof.
  intros Hi Hc. revert st Hi. induction Hc as [|c calls Hok Hcs IH]; intros st Hi Hb H; simpl in H; [by simplify_eq|].
  rewrite zsum_cons in Hb. assert (Hz : 0 <= zsum call_len calls) by (apply zsum_nonneg; intros; apply call_len_nonneg).
  destruct c as [k vv|k|code|mfs p| |]; simpl in Hb.
  - by eapply IH, H.
  - by eapply IH, H.
  - destruct (WriteHeader_inv st code Hi) as [Hi' Hw]. eapply IH, H; [done|]. rewrite Hw. lia.
  - destruct Hok as [Hm Hl]. destruct (Write id (length p) mfs st p) as [st1 r] eqn:E.
    destruct (Write_inv mfs st p st1 r Hi Hm Hl ltac:(lia) E) as (Hi' & Hw & _).
    destruct r; simplify_eq; try done. eapply IH, H; [done|]. lia.
  - destruct (Flush_inv st Hi) as [Hi' Hw]. eapply IH, H; [done|]. rewrite Hw. lia.
  - by simplify_eq.
Qed.

Lemma Reset_phase st code ph : at_phase st ph -> at_phase (Reset id st code) Closed.
Proof.
  intros H. eapply (at_phase_step st _ (SendRSTStream id code)); [done| |by destruct ph].
  unfold entries, Reset. cbn. by rewrite fmap_app.
Qed.

(** A phase is reached in every state of the handler's run. *)
Lemma handler_phase st : handler_inv st -> exists ph, at_phase st ph.
Proof.
  intros (_ & _ & _ & _ & _ & Hr). destruct (rw_wroteHeaders (r_rw st)).
  - destruct Hr as (_ & _ & d & n & Hph & _). eauto.
  - destruct Hr as (Hph & _). eauto.
Qed.

Lemma endStream_phase st st' e :
  handler_inv st -> rw_err (r_rw st) = None -> endStream id st = (st', e) ->
  (e = Some errShortContentLength /\ exists ph, at_phase st' ph) \/ at_phase st' Closed.
Proof.
  intros Hi He H. unfold endStream in H. destruct (rw_wroteHeaders (r_rw st)) eqn:Hwh.
  - destruct (body_state st Hi Hwh He) as (d & Hph & Hcl & Hd & Hwi).
    pose proof Hi as (_ & _ & _ & Hwr & _ & Hrest). rewrite Hwh in Hrest. destruct Hrest as (Hp & Hn & _).
    rewrite prepare_id, Hn, Hwh, Hcl in H by done. cbn [negb andb] in H.
    destruct ((0 <=? _) && _) eqn:Hs; simplify_eq; [left; eauto|]. right.
    destruct (submit _ _) as [w r] eqn:Es. simplify_eq.
    assert (Hph' : at_phase (set_world st w) Closed).
    { eapply at_phase_step; [done|by eapply entries_submit|]. unfold wire_step. cbn. rewrite Z.add_0_r.
      destruct d as [v|]; [|done]. specialize (Hd v eq_refl). simpl in *. apply Z.leb_le in Hwi.
      apply andb_false_iff in Hs as [Hs|Hs]; bool_prop; [lia|].
      by rewrite (proj2 (Z.eqb_eq _ _)) by lia. }
    by destruct e.
  - destruct (prepare_inv st Hi Hwh) as [Hpi Hpe]. pose proof Hpi as (_ & _ & _ & _ & _ & Hph & Hz & Hwh' & Hdcl).
    rewrite Hwh', Hz in H. cbn [negb] in H. destruct (negb _ && _ && _) eqn:Hs; simplify_eq; [left; eauto|]. right.
    apply (writeHeaders_inv (prepare st) true st' e) in H; [by destruct H|done|done|].
    intros _ Hnb. rewrite Hnb, (Hdcl Hnb) in Hs. simpl in Hs.
    destruct (declared_length (r_hdr (prepare st))) as [v|] eqn:Ed; [|done]. simpl in *.
    pose proof (declared_nonneg _ _ Ed). apply andb_false_iff in Hs as [Hs|Hs]; bool_prop; [lia|].
    by replace v with 0 by lia.
Qed.

Lemma finishStream_phase st dd :
  handler_inv st -> exists ph, at_phase (finishStream id st dd) ph /\
    (rw_clViolated (r_rw st) = true \/ rw_err (r_rw st) = None -> ph = Closed).
Proof.
  intros Hi. destruct (handler_phase st Hi) as [ph0 Hph0]. unfold finishStream.
  destruct (rw_clViolated (r_rw st)) eqn:Hv.
  { exists Closed. split; [|done]. cbn [andb]. by eapply Reset_phase. }
  destruct (rw_err (r_rw st)) as [e|] eqn:He.
  { exists ph0. split; [done|]. by intros [?|?]. }
  destruct (endStream id st) as [st1 e] eqn:E. exists Closed. split; [|done].
  destruct (endStream_phase _ _ _ Hi He E) as [[-> [ph Hph]]|Hph].
  - cbn [andb]. by eapply Reset_phase.
  - destruct e as [e|].
    + destruct e; cbn [andb]; try done. by eapply Reset_phase.
    + cbn [andb]. destruct (negb dd); [by eapply Reset_phase|done].
Qed.

Lemma recovered_phase st : handler_inv st -> at_phase (recovered id st) Closed.
Proof.
  intros Hi. unfold recovered. destruct (rw_wroteHeaders (r_rw st)) eqn:Hwh; cbn [negb].
  { destruct (handler_phase st Hi) as [ph Hph]. by eapply Reset_phase. }
  pose proof Hi as (Hh & H1 & Hw & Hwr & Hnb & Hrest). rewrite Hwh in Hrest. destruct Hrest as (Hph & Hz & Hpn).
  set (s0 := set_declaredCL (set_hdr (set_status st 500) _) (-1)).
  assert (Hg : headerGet (r_hdr s0) contentLength = ""%string) by apply headerGet_del.
  unfold writeHeaders. cbn [rw_wroteHeaders r_rw s0 set_declaredCL set_hdr set_status]. rewrite Hwh.
  assert (Hp0 : r_world (prepare s0) = r_world st /\ rw_status (r_rw (prepare s0)) = 500 /\
    declared_length (r_hdr (prepare s0)) = None).
  { unfold declared_length. destruct (rw_prepared (r_rw s0)) eqn:Hp; [by rewrite prepare_id, Hg|].
    unfold prepare. rewrite Hp, Hg. split_and!; [done..|]. by cbn [r_hdr String.eqb]; rewrite Hg. }
  destruct Hp0 as (Hpw & Hps & Hpd). fold s0.
  destruct (submit _ _) as [w r] eqn:Es. cbn [set_wroteHeaders r_world r_rw rw_status r_hdr] in Es.
  assert (Hc : forall s, r_world s = w -> at_phase s Closed).
  { intros s Hs. eapply (at_phase_step st); [done| |].
    - destruct (submit_spec _ _ _ _ Es) as (Hl & _). unfold entries. by rewrite Hs, Hl, Hpw, fmap_app.
    - unfold wire_step. cbn. rewrite Hps, Hpd. cbn. by rewrite orb_true_r. }
  by destruct r; apply Hc.
Qed.

End Invariant.

(** ** Properties *)

Lemma serveStream_wire id method uriOk calls dataDone w st o :
  world_ok w -> w_log w = [] -> Forall call_ok calls -> zsum call_len calls < 2 ^ 63 ->
  serveStream id method uriOk calls dataDone w = (st, o) ->
  exists ph, wire_run (String.eqb method "HEAD") Interim (w_log (r_world st)).*1 = Some ph /\
    (o = HPanicked \/ o = HReturned /\ rw_err (r_rw st) = None -> ph = Closed).
Proof.
  intros Hw Hlog Hc Hb H. unfold serveStream in H. set (hd := String.eqb method "HEAD").
  set (st0 := mkR (newResponseWriter method) ∅ w) in *.
  assert (Hi : handler_inv hd st0).
  { unfold handler_inv, at_phase, entries. cbn. rewrite Hlog. split_and!; done || lia. }
  destruct uriOk; cbn [negb] in H.
  2: { simplify_eq. exists Closed. split; [|done]. by apply (Reset_phase id hd st0 _ Interim), Hi. }
  destruct (runHandler id st0 calls) as [st1 o1] eqn:E.
  pose proof (runHandler_inv id hd calls st0 st1 o1 Hi Hc ltac:(cbn; lia) E) as Hi1.
  destruct o1; simplify_eq.
  - destruct (finishStream_phase id hd st1 dataDone Hi1) as (ph & Hph & Hcl). exists ph. split; [done|].
    intros [?|[_ He]]; [done|]. apply Hcl. destruct (rw_clViolated (r_rw st1)) eqn:Hv; [by left|right].
    destruct (rw_err (r_rw st1)) as [e|] eqn:E1; [|done]. exfalso.
    unfold finishStream in He. rewrite Hv, E1 in He. simpl in He. congruence.
  - exists Closed. split; [by apply recovered_phase|done].
  - destruct (handler_phase hd st Hi1) as [ph Hph]. exists ph. split; [done|]. by intros [?|[? _]].
Qed.

(** C16. Every response a worker sends is well formed, whatever the handler
    does and however the transport behaves: for any sequence of handler calls
    (header changes, WriteHeader, Write, Flush, a panic) and any environment,
    the intents the stream's goroutine submits are interim 1xx HEADERS (never
    101, never with Content-Length), then one final HEADERS, then DATA within
    the declared Content-Length, closed by END_STREAM only when the body is
    exactly as long as that header declares (no body at all for HEAD, 204 and
    304), or by RST_STREAM; a handler that panicked, or returned without a
    transport error, always leaves the response closed. *)
Theorem response_is_well_formed id method uriOk calls dataDone w st o :
  world_ok w -> w_log w = [] -> Forall call_ok calls -> zsum call_len calls < 2 ^ 63 ->
  serveStream id method uriOk calls dataDone w = (st, o) ->
  exists ph, wire_run (String.eqb method "HEAD") Interim (w_log (r_world st)).*1 = Some ph /\
    (o = HPanicked \/ o = HReturned /\ rw_err (r_rw st) = None -> ph = Closed).
Proof. apply serveStream_wire. Qed.

(** [Write] sends the caller's bytes and accounts for them exactly: with
    the headers out and the length allowed, the accepted DATA frames carry a
    prefix of [p] in order, each non-empty and no longer than the peer's
    MAX_FRAME_SIZE; success means all of [p] was accepted, a failure reports
    how many bytes were accepted before it, and the only way not to return is
    to be parked with no credit left on a live connection: the loop ends
    within [len p] turns. *)
Theorem write_sends_bytes_in_order id mfs st p st' r :
  rw_err (r_rw st) = None -> rw_prepared (r_rw st) = true -> rw_noBody (r_rw st) = false ->
  rw_wroteHeaders (r_rw st) = true -> 0 <= rw_written (r_rw st) ->
  rw_written (r_rw st) + Z.of_nat (length p) < 2 ^ 63 ->
  rw_declaredCL (r_rw st) = -1 \/ rw_written (r_rw st) + Z.of_nat (length p) <= rw_declaredCL (r_rw st) ->
  (0 < length p)%nat -> Z.of_nat (length p) <= MaxInt32 -> 16384 <= mfs <= 16777215 -> world_ok (r_world st) ->
  Write id (length p) mfs st p = (st', r) ->
  exists chunks more, Forall (frame_size_ok mfs) chunks /\ loop_result id p 0 chunks more st st' r /\
    w_log (r_world st') = w_log (r_world st) ++ (data_entry id None <$> chunks) ++ more /\
    rw_written (r_rw st') = rw_written (r_rw st) + Z.of_nat (length (concat chunks)).
Proof.
  intros He Hp Hn Hwh Hw0 Hmax Hcl Hpos Hlen Hm Hok H. unfold Write in H.
  rewrite He, prepare_id, Hn, Hwh in H by done. cbn beta iota zeta in H.
  rewrite (proj2 (Nat.eqb_neq _ _)) in H by lia.
  unfold i64 in H. rewrite Z.mod_small in H by lia.
  replace ((0 <=? rw_declaredCL (r_rw st)) && _) with false in H.
  2: { symmetry. apply andb_false_iff. rewrite Z.leb_gt, Z.ltb_ge. lia. }
  rewrite i32_small in H by range32. rewrite (proj2 (Z.leb_gt mfs 0)) in H by lia.
  destruct (write_loop_spec id (length p) mfs st p 0 st' r ltac:(lia) Hlen ltac:(done) Hok Hw0 Hmax H)
    as (chunks & more & ? & ? & ? & ? & _). eauto 10.
Qed.

(** A slice of 2 GiB to 4 GiB makes [Write] spin: [int32(len(p))] is
    negative, [Reserve] grants 0 at once, and the loop submits empty DATA
    frames for ever; after any number of turns nothing of [p] has been sent. *)
Theorem write_of_huge_slice_spins id fuel maxFrame st p total :
  2 ^ 31 <= Z.of_nat (length p) < 2 ^ 32 -> 0 < maxFrame -> w_results (r_world st) = [] ->
  rw_written (r_rw st) = 0 ->
  exists st', write_loop id fuel maxFrame st p total = (st', WFuel) /\
    w_log (r_world st') = w_log (r_world st) ++ repeat (SendData id [] false, None) fuel /\
    rw_written (r_rw st') = 0.
Proof.
  intros Hl Hm. assert (Hneg : i32 (Z.of_nat (length p)) < 0).
  { apply i32_overflow. unfold MaxInt32. lia. }
  revert st. induction fuel as [|fuel IH]; intros st Hr Hz.
  { exists st. split_and!; [by destruct p; [simpl in Hl; lia|]|by rewrite app_nil_r|done]. }
  rewrite write_loop_S by lia. cbv zeta.
  unfold reserve, reserveWait. rewrite (proj2 (Z.leb_le _ 0)) by lia.
  unfold submit. cbn [w_results]. rewrite Hr. cbn [head default tail]. change (Z.to_nat 0) with 0%nat.
  rewrite take_0, drop_0, Z.add_0_r.
  destruct (IH (add_written (set_world st (mkWorld (w_credit (r_world st)) (w_sw (r_world st)) (w_batches (r_world st)) []
    (w_log (r_world st) ++ [(SendData id [] false, None)]))) 0)) as (st' & E & Hlog & Hw); [done| |].
  { cbn. by rewrite Hz. }
  exists st'. split_and!; [exact E| |done]. rewrite Hlog. cbn. by rewrite <- app_assoc.
Qed.

(** ** Witnesses *)

Module ResponseDemo.

(** Ten bytes of window, then twenty more; every submission succeeds. *)
Definition demo_world : World :=
  mkWorld (mkSendCredit false 10 65535 false) 65535 [[]; [EvConn 20]] [] [].

Definition demo_calls : list HCall :=
  [CWriteHeader 103; CSetHeader contentLength ["12"%string]; CWrite 16384 (repeat x61 12); CFlush].

Lemma demo_world_ok : world_ok demo_world.
Proof. repeat constructor; simpl; range32. Qed.

Lemma response_is_well_formed_witness :
  exists ph, wire_run false Interim
    (w_log (r_world (serveStream 1 "GET" true demo_calls true demo_world).1)).*1 = Some ph /\ ph = Closed.
Proof.
  destruct (response_is_well_formed 1 "GET" true demo_calls true demo_world
    (serveStream 1 "GET" true demo_calls true demo_world).1 (serveStream 1 "GET" true demo_calls true demo_world).2)
    as (ph & H & Hcl).
  - apply demo_world_ok.
  - reflexivity.
  - repeat constructor; simpl; range32.
  - vm_compute. reflexivity.
  - apply surjective_pairing.
  - exists ph. split; [exact H|]. apply Hcl. right. vm_compute. auto.
Defined.

Definition demo_body_state : RState :=
  mkR (mkRW None 12 0 200 true true false false false) ∅ demo_world.

Lemma write_sends_bytes_in_order_witness :
  exists chunks more, Forall (frame_size_ok 16384) chunks /\
    loop_result 1 (repeat x61 12) 0 chunks more demo_body_state
      (Write 1 12 16384 demo_body_state (repeat x61 12)).1 (WDone 12 None) /\
    w_log (r_world (Write 1 12 16384 demo_body_state (repeat x61 12)).1) =
      (data_entry 1 None <$> chunks) ++ more.
Proof.
  destruct (write_sends_bytes_in_order 1 16384 demo_body_state (repeat x61 12)
    (Write 1 12 16384 demo_body_state (repeat x61 12)).1 (WDone 12 None)) as (chunks & more & H1 & H2 & H3 & _).
  1-4: reflexivity.
  - cbn. lia.
  - cbn. lia.
  - right. cbn. lia.
  - cbn. lia.
  - unfold MaxInt32. cbn. lia.
  - lia.
  - apply demo_world_ok.
  - vm_compute. reflexivity.
  - exists chunks, more. auto.
Defined.

(** The second grant waits for the update: two DATA frames, of 10 and 2 bytes. *)
Example demo_frames :
  (fun e => wi_data e.1) <$> w_log (r_world (Write 1 12 16384 demo_body_state (repeat x61 12)).1) =
  [repeat x61 10; repeat x61 2].
Proof. vm_compute. reflexivity. Qed.

Lemma write_of_huge_slice_spins_witness :
  exists st', write_loop 1 3 16384 demo_body_state (repeat x00 (Z.to_nat (2 ^ 31))) 0 = (st', WFuel) /\
    w_log (r_world st') = repeat (SendData 1 [] false, None) 3 /\ rw_written (r_rw st') = 0.
Proof.
  apply (write_of_huge_slice_spins 1 3 16384 demo_body_state (repeat x00 (Z.to_nat (2 ^ 31))) 0).
  - rewrite repeat_length. lia.
  - lia.
  - reflexivity.
  - reflexivity.
Defined.

End ResponseDemo.
