(* ===== verification/Respond.v ===== *)
(** * What a handler's calls mean (writer.go, stream.go)

    The contract of the [http.ResponseWriter] a worker's handler gets, stated
    on the list of its calls: which status, headers and body make up the
    response, and whether it is complete.  [serveStream] refines it: what the
    stream's goroutine gets accepted by the writer is, as far as the transport
    goes along, exactly that response. *)

From Stdlib Require Import Strings.Byte Strings.Ascii Strings.String.
From S2P Require Import Prelude Errors Flow Names Writer SendPath ResponseWriter.

Open Scope Z_scope.

(** ** Lists up to an element *)

Section Until.

Context {A : Type} (f : A -> bool).

Fixpoint until (l : list A) : list A :=
  match l with [] => [] | x :: l => if f x then [] else x :: until l end.

Fixpoint since (l : list A) : list A :=
  match l with [] => [] | x :: l' => if f x then l else since l' end.

Lemma until_since l : until l ++ since l = l.
Proof. induction l as [|x l IH]; [done|]. cbn. destruct (f x); [done|]. cbn. by rewrite IH. Qed.

Lemma until_prefix l : until l `prefix_of` l.
Proof. exists (since l). by rewrite until_since. Qed.

Lemma until_all l : Forall (fun x => f x = false) l -> until l = l.
Proof. induction 1 as [|x l Hx _ IH]; [done|]. cbn. by rewrite Hx, IH. Qed.

Lemma until_app_all l l' : Forall (fun x => f x = false) l -> until (l ++ l') = l ++ until l'.
Proof. induction 1 as [|x l Hx _ IH]; [done|]. cbn. by rewrite Hx, IH. Qed.

Lemma until_app_some l l' : Exists (fun x => f x = true) l -> until (l ++ l') = until l.
Proof. induction 1 as [x l Hx|x l _ IH]; cbn; [by rewrite Hx|]. destruct (f x); [done|]. by rewrite IH. Qed.

Lemma until_none l : Forall (fun x => f x = false) (until l).
Proof. induction l as [|x l IH]; [done|]. cbn. destruct (f x) eqn:E; [done|]. by constructor. Qed.

Lemma until_Forall (P : A -> Prop) l : Forall P l -> Forall P (until l).
Proof. intros H. rewrite <- (until_since l) in H. by apply Forall_app in H as [? _]. Qed.

End Until.

(** ** The response a list of calls describes *)

Definition is_panic (c : HCall) : bool := match c with CPanic => true | _ => false end.

(** The calls that fix the status, and send the headers when a body may follow. *)
Definition commits (c : HCall) : bool := match c with CWrite _ _ | CFlush => true | _ => false end.

Definition applyHeader (h : header) (c : HCall) : header :=
  match c with CSetHeader k vv => <[k := vv]> h | CDelHeader k => headerDel h k | _ => h end.

Definition headersAfter (h : header) (calls : list HCall) : header := foldl applyHeader h calls.

(** The last final status given to [WriteHeader]; 0: none. *)
Definition chooseStatus (status : Z) (c : HCall) : Z :=
  match c with CWriteHeader code => if is_1xx code then status else code | _ => status end.

Definition chosenStatus (status : Z) (calls : list HCall) : Z := foldl chooseStatus status calls.

Definition statusOf (chosen : Z) : Z := if chosen =? 0 then 200 else chosen.

(** Interim responses: a 1xx before any final status, 101 excepted. *)
Definition interim (status : Z) (h : header) (c : HCall) : list (Z * header) :=
  match c with
  | CWriteHeader code =>
      if is_1xx code && (status =? 0) && negb (code =? 101) then [(code, delete contentLength h)] else []
  | _ => []
  end.

Fixpoint interims (status : Z) (h : header) (calls : list HCall) : list (Z * header) :=
  match calls with
  | [] => []
  | c :: calls => interim status h c ++ interims (chooseStatus status c) (applyHeader h c) calls
  end.

(** A Content-Length that is not a decimal length is dropped. *)
Definition validated (h : header) : header :=
  let cl := headerGet h contentLength in
  if String.eqb cl "" then h
  else match ParseUint63 cl with Some _ => h | None => headerDel h contentLength end.

(** The body: every [Write] in full, up to the first that would exceed the
    declared length; the second component tells whether one did. *)
Fixpoint bodyOf (declared : option Z) (n : Z) (calls : list HCall) : list byte * bool :=
  match calls with
  | [] => ([], false)
  | CWrite _ p :: calls =>
      if within declared (n + Z.of_nat (length p)) then
        let '(b, v) := bodyOf declared (n + Z.of_nat (length p)) calls in (p ++ b, v)
      else ([], true)
  | _ :: calls => bodyOf declared n calls
  end.

(** [rs_final] is [None] when the stream is reset before any final HEADERS. *)
Record Response := mkResponse {
  rs_interim : list (Z * header);
  rs_final : option (Z * header);
  rs_body : list byte;
  rs_complete : bool
}.

(** For calls without a panic, after which the handler panics or returns. *)
Definition respondTo (isHead panicked : bool) (calls : list HCall) : Response :=
  let pre := until commits calls in
  let post := since commits calls in
  let early := interims 0 ∅ pre in
  let status := statusOf (chosenStatus 0 pre) in
  let h := headersAfter ∅ pre in
  match post with
  | [] =>
      if panicked then mkResponse early (Some (500, headerDel h contentLength)) [] true
      else
        let h := validated h in
        if bodyless isHead status || exactly (declared_length h) 0 then mkResponse early (Some (status, h)) [] true
        else mkResponse early None [] false
  | _ =>
      let h := validated h in
      if bodyless isHead status then
        let h := headersAfter h post in
        mkResponse early (Some (if panicked then (500, headerDel h contentLength) else (status, h))) [] true
      else
        let '(body, violated) := bodyOf (declared_length h) 0 post in
        mkResponse early (Some (status, h)) body
          (negb panicked && negb violated && exactly (declared_length h) (Z.of_nat (length body)))
  end.

Definition respond (isHead : bool) (calls : list HCall) : Response :=
  respondTo isHead (existsb is_panic calls) (until is_panic calls).

(** The HEADERS of a response, interim ones first. *)
Definition rs_heads (r : Response) : list (Z * header) := rs_interim r ++ option_list (rs_final r).

(** ** What the writer accepted *)

Definition refused (e : writeIntent * option gerror) : bool := match e.2 with Some _ => true | None => false end.

(** The writer stops at its first failure (WriterLoop.v): the intents before it. *)
Definition untilRefused (log : list (writeIntent * option gerror)) : list writeIntent := (until refused log).*1.

Definition head_of (i : writeIntent) : list (Z * header) :=
  match wi_kind i with wkRespHeaders => [(wi_status i, wi_header i)] | _ => [] end.

Definition data_of (i : writeIntent) : list byte := match wi_kind i with wkData => wi_data i | _ => [] end.

Definition heads (l : list writeIntent) : list (Z * header) := l ≫= head_of.

Definition datas (l : list writeIntent) : list byte := l ≫= data_of.

Lemma heads_app l1 l2 : heads (l1 ++ l2) = heads l1 ++ heads l2.
Proof. apply bind_app. Qed.

Lemma datas_app l1 l2 : datas (l1 ++ l2) = datas l1 ++ datas l2.
Proof. apply bind_app. Qed.

Lemma heads_one i : heads [i] = head_of i.
Proof. apply app_nil_r. Qed.

Lemma datas_one i : datas [i] = data_of i.
Proof. apply app_nil_r. Qed.

Definition ends (l : list writeIntent) : bool := existsb wi_endStream l.

Lemma ends_app l1 l2 : ends (l1 ++ l2) = ends l1 || ends l2.
Proof. apply existsb_app. Qed.

(** ** The simulation *)

Section Simulation.

Variable id : Z.

Definition log (st : RState) : list (writeIntent * option gerror) := w_log (r_world st).

Definition taken (st : RState) : list writeIntent := untilRefused (log st).

Definition clean (st : RState) : Prop := Forall (fun e => refused e = false) (log st).

(** What the writer took is the beginning of this response. *)
Definition partial (st : RState) (hs : list (Z * header)) (bs : list byte) : Prop :=
  heads (taken st) `prefix_of` hs /\ datas (taken st) `prefix_of` bs.

(** Nothing has failed, and this is what has been sent. *)
Record on_track (st : RState) (hs : list (Z * header)) (bs : list byte) : Prop := {
  ot_err : rw_err (r_rw st) = None;
  ot_cl : rw_clViolated (r_rw st) = false;
  ot_world : world_ok (r_world st);
  ot_clean : clean st;
  ot_heads : heads (taken st) = hs;
  ot_datas : datas (taken st) = bs;
  ot_ends : ends (taken st) = false
}.

(** An error is latched: nothing of the response follows any more. *)
Record off_track (st : RState) (hs : list (Z * header)) (bs : list byte) : Prop := {
  ft_err : is_Some (rw_err (r_rw st));
  ft_part : partial st hs bs;
  ft_ends : ends (taken st) = false;
  ft_done : rw_wroteHeaders (r_rw st) = true \/ ~ clean st;
  ft_cl : rw_clViolated (r_rw st) = true ->
    rw_wroteHeaders (r_rw st) = true /\ heads (taken st) = hs /\ datas (taken st) = bs
}.

Lemma taken_clean st : clean st -> taken st = (log st).*1.
Proof. intros H. unfold taken, untilRefused. by rewrite until_all. Qed.

Lemma taken_submit st i w r :
  clean st -> submit (r_world st) i = (w, r) ->
  forall st', r_world st' = w ->
    (clean st' <-> r = None) /\ taken st' = taken st ++ (if r is None then [i] else []).
Proof.
  intros Hc Hs st' Hw. destruct (submit_spec _ _ _ _ Hs) as (Hl & _). unfold taken, untilRefused, clean, log in *. rewrite Hw, Hl.
  rewrite until_app_all, fmap_app by done. rewrite (until_all _ (w_log (r_world st))) by done. split.
  - rewrite Forall_app, Forall_singleton. unfold refused. cbn. destruct r; split; try done. by intros [_ ?].
  - by destruct r.
Qed.

Lemma unclean_taken st st' l : ~ clean st -> log st' = log st ++ l -> taken st' = taken st.
Proof.
  intros Hc Hl. unfold taken, untilRefused. rewrite Hl, until_app_some; [done|]. unfold clean in Hc.
  apply not_Forall_Exists in Hc; [|intros e; apply _]. eapply Exists_impl; [exact Hc|]. intros e. cbn. by destruct (refused e).
Qed.

(** One submission on the way. *)
Lemma track_submit st hs bs i w r :
  on_track st hs bs -> wi_endStream i = false -> submit (r_world st) i = (w, r) ->
  forall st', r_world st' = w -> rw_clViolated (r_rw st') = rw_clViolated (r_rw st) ->
  match r with
  | None => rw_err (r_rw st') = None -> on_track st' (hs ++ head_of i) (bs ++ data_of i)
  | Some e => rw_err (r_rw st') = Some e -> forall hs' bs', hs `prefix_of` hs' -> bs `prefix_of` bs' -> off_track st' hs' bs'
  end.
Proof.
  intros [H1 H2 H3 H4 H5 H6 H7] Hes Hs st' Hw Hcl. destruct (taken_submit st i w r H4 Hs st' Hw) as [Hc Hst].
  destruct (submit_spec _ _ _ _ Hs) as (_ & Hok & _). destruct r as [e|].
  - intros He hs' bs' Hp1 Hp2. rewrite app_nil_r in Hst. split.
    + by rewrite He.
    + unfold partial. by rewrite Hst, H5, H6.
    + by rewrite Hst.
    + right. intros Hx. by apply Hc in Hx.
    + congruence.
  - intros He. split; rewrite ?Hst; try done.
    + congruence.
    + rewrite Hw. by apply Hok.
    + by apply Hc.
    + by rewrite heads_app, heads_one, H5.
    + by rewrite datas_app, datas_one, H6.
    + rewrite ends_app, H7. cbn. by rewrite Hes.
Qed.

(** The fields a track depends on. *)
Lemma on_track_same st st' hs bs :
  r_world st' = r_world st -> rw_err (r_rw st') = rw_err (r_rw st) -> rw_clViolated (r_rw st') = rw_clViolated (r_rw st) ->
  on_track st hs bs -> on_track st' hs bs.
Proof. intros E1 E2 E3 [H1 H2 H3 H4 H5 H6 H7]. unfold clean, taken, log in *. by split; unfold clean, taken, log; rewrite ?E1, ?E2, ?E3. Qed.

Lemma off_track_mono st hs bs hs' bs' :
  hs `prefix_of` hs' -> bs `prefix_of` bs' -> rw_clViolated (r_rw st) = false -> off_track st hs bs -> off_track st hs' bs'.
Proof.
  intros Hp1 Hp2 Hv [H1 [H2 H3] H4 H5 H6]. split; try done; [|by rewrite Hv].
  split; [by etrans; [exact H2|]|by etrans; [exact H3|]].
Qed.

(** ** Calls after an error *)

Lemma runHandler_stuck calls st st' o :
  is_Some (rw_err (r_rw st)) -> runHandler id st calls = (st', o) ->
  r_rw st' = r_rw st /\ r_world st' = r_world st /\ o = (if existsb is_panic calls then HPanicked else HReturned).
Proof.
  intros [e He]. revert st He. induction calls as [|c calls IH]; intros st He H; [by injection H as <- <-|].
  cbn [runHandler] in H. destruct c as [k vv|k|code|mfs p| |]; cbn [existsb is_panic orb].
  - by apply IH in H.
  - by apply IH in H.
  - unfold WriteHeader in H. rewrite He, orb_true_r in H. by apply IH in H.
  - unfold Write in H. rewrite He in H. by apply IH in H.
  - unfold Flush in H. rewrite He in H. by apply IH in H.
  - by injection H as <- <-.
Qed.

Lemma off_track_same st st' hs bs : r_rw st' = r_rw st -> r_world st' = r_world st -> off_track st hs bs -> off_track st' hs bs.
Proof.
  intros E1 E2 [H1 H2 H3 H4 H5]. unfold partial, taken, clean, log in *.
  by split; unfold partial, taken, clean, log; rewrite ?E1, ?E2.
Qed.

Lemma runHandler_app l1 l2 st :
  runHandler id st (l1 ++ l2) = match runHandler id st l1 with (st', HReturned) => runHandler id st' l2 | r => r end.
Proof.
  revert st. induction l1 as [|c l1 IH]; intros st; [done|]. cbn [app runHandler].
  destruct c; try apply IH; [|done]. destruct (Write _ _ _ _ _) as [s []]; [apply IH|done..].
Qed.

(** ** Before the first [Write] or [Flush] *)

Record fresh (isHead : bool) (st : RState) (h : header) (status : Z) : Prop := {
  fr_hdr : r_hdr st = h;
  fr_status : rw_status (r_rw st) = status;
  fr_prepared : rw_prepared (r_rw st) = false;
  fr_wrote : rw_wroteHeaders (r_rw st) = false;
  fr_written : rw_written (r_rw st) = 0;
  fr_head : rw_isHead (r_rw st) = isHead
}.

Definition early (c : HCall) : bool := negb (is_panic c || commits c).

Lemma interim_header (h : header) :
  match h !! contentLength with Some _ => headerDel h contentLength | None => h end = delete contentLength h.
Proof.
  unfold headerDel. replace (CanonicalMIMEHeaderKey contentLength) with contentLength by (by vm_compute).
  destruct (h !! contentLength) eqn:E; [done|]. by rewrite delete_id.
Qed.

Lemma WriteHeader_early isHead st h s hs code :
  fresh isHead st h s -> on_track st hs [] ->
  let st' := WriteHeader id st code in
  (fresh isHead st' h (chooseStatus s (CWriteHeader code)) /\ on_track st' (hs ++ interim s h (CWriteHeader code)) []) \/
  (off_track st' (hs ++ interim s h (CWriteHeader code)) [] /\ rw_clViolated (r_rw st') = false).
Proof.
  intros [F1 F2 F3 F4 F5 F6] Ht. pose proof (ot_err _ _ _ Ht) as He. cbv zeta. unfold WriteHeader, interim, chooseStatus.
  rewrite F3, He. cbn [orb]. fold (is_1xx code). destruct (is_1xx code) eqn:E1.
  2: { left. rewrite app_nil_r. split; [by split|]. by eapply on_track_same, Ht. }
  rewrite F2. destruct (s =? 0) eqn:Es; [|left; rewrite app_nil_r; split; [by split|done]].
  unfold writeInformational. destruct (code =? 101) eqn:E101; [left; rewrite app_nil_r; split; [by split|done]|].
  rewrite interim_header, F1. cbn [andb negb].
  destruct (submit (r_world st) _) as [w r] eqn:Esub.
  pose proof (track_submit st hs [] (SendResponseHeaders id code (delete contentLength h) false) w r Ht eq_refl Esub) as Hs.
  destruct r as [e|]; [right|left].
  - split; [|apply Ht]. apply Hs; [done|done|done|by apply prefix_app_r|done].
  - split; [by split|]. by apply (Hs (set_world st w)).
Qed.

Lemma pre_run isHead calls st h s hs st' o :
  Forall (fun c => early c = true) calls -> fresh isHead st h s -> on_track st hs [] ->
  runHandler id st calls = (st', o) ->
  o = HReturned /\
  (fresh isHead st' (headersAfter h calls) (chosenStatus s calls) /\ on_track st' (hs ++ interims s h calls) [] \/
   off_track st' (hs ++ interims s h calls) [] /\ rw_clViolated (r_rw st') = false).
Proof.
  intros Hc. revert st h s hs. induction Hc as [|c calls Hc Hcs IH]; intros st h s hs Hf Ht H.
  { injection H as <- <-. cbn. rewrite app_nil_r. auto. }
  cbn [runHandler interims headersAfter chosenStatus foldl] in *. rewrite app_assoc.
  destruct c as [k vv|k|code|mfs p| |]; try done; cbn [interim chooseStatus applyHeader] in *; rewrite ?app_nil_r.
  - eapply IH, H; [|by eapply on_track_same, Ht]. destruct Hf; split; try done. cbn. congruence.
  - eapply IH, H; [|by eapply on_track_same, Ht]. destruct Hf; split; try done. cbn. congruence.
  - destruct (WriteHeader_early isHead st h s hs code Hf Ht) as [[Hf' Ht']|[Hoff Hv]]; [by eapply IH, H|].
    destruct (runHandler_stuck _ _ _ _ (ft_err _ _ _ Hoff) H) as (E1 & E2 & Eo).
    assert (Hnp : existsb is_panic calls = false).
    { clear -Hcs. induction Hcs as [|c l Hc _ IHl]; [done|]. cbn. rewrite IHl. unfold early in Hc. by destruct c. }
    rewrite Hnp in Eo. split; [done|]. right. split; [|congruence].
    eapply off_track_same; [done..|]. eapply off_track_mono, Hoff; [by apply prefix_app_r|done|done].
Qed.

(** ** The body *)

Record streaming (st : RState) (d : option Z) (n : Z) : Prop := {
  sg_prepared : rw_prepared (r_rw st) = true;
  sg_noBody : rw_noBody (r_rw st) = false;
  sg_wrote : rw_wroteHeaders (r_rw st) = true;
  sg_declared : rw_declaredCL (r_rw st) = declared_Z d;
  sg_written : rw_written (r_rw st) = n;
  sg_nonneg : 0 <= n /\ forall v, d = Some v -> 0 <= v;
  sg_within : within d n = true
}.

Lemma heads_chunks (cs : list (list byte)) : heads ((fun c => SendData id c false) <$> cs) = [].
Proof. induction cs as [|c cs IH]; [done|]. rewrite fmap_cons. unfold heads in *. by rewrite bind_cons, IH. Qed.

Lemma datas_chunks (cs : list (list byte)) : datas ((fun c => SendData id c false) <$> cs) = concat cs.
Proof. induction cs as [|c cs IH]; [done|]. rewrite fmap_cons. unfold datas in *. by rewrite bind_cons, IH. Qed.

Lemma ends_chunks (cs : list (list byte)) : ends ((fun c => SendData id c false) <$> cs) = false.
Proof. by induction cs as [|c cs IH]. Qed.

Lemma untilRefused_chunks (cs : list (list byte)) more :
  untilRefused ((data_entry id None <$> cs) ++ more) = ((fun c => SendData id c false) <$> cs) ++ untilRefused more.
Proof.
  unfold untilRefused. rewrite until_app_all, fmap_app by (by apply Forall_fmap, Forall_true).
  by rewrite <- list_fmap_compose.
Qed.

(** What a body loop leaves of the track. *)
Lemma write_loop_track st hs bs chunks more st' p r :
  on_track st hs bs -> rw_wroteHeaders (r_rw st) = true -> loop_result id p 0 chunks more st st' r ->
  log st' = log st ++ (data_entry id None <$> chunks) ++ more -> same_shape (r_rw st') (r_rw st) -> world_ok (r_world st') ->
  match r with
  | WDone _ None => on_track st' hs (bs ++ p)
  | WDone _ (Some _) => off_track st' hs (bs ++ p) /\ rw_clViolated (r_rw st') = false
  | WParked _ => partial st' hs (bs ++ p) /\ ends (taken st') = false
  | WFuel => False
  end.
Proof.
  intros [H1 H2 H3 H4 H5 H6 H7] Hwh Hr Hl (S1 & S2 & S3 & S4 & S5 & S6 & S7) Hok.
  assert (Hs : taken st' = taken st ++ ((fun c => SendData id c false) <$> chunks) ++ untilRefused more).
  { unfold taken, untilRefused, log in *. rewrite Hl, until_app_all, fmap_app by done. rewrite (until_all _ (w_log (r_world st))) by done.
    f_equal. exact (untilRefused_chunks chunks more). }
  assert (Hd : forall l, untilRefused more = l -> heads l = [] -> datas l = [] -> ends l = false ->
    heads (taken st') = hs /\ datas (taken st') = bs ++ concat chunks /\ ends (taken st') = false).
  { intros l El E1 E2 E3. rewrite Hs, El, !heads_app, !datas_app, !ends_app, heads_chunks, datas_chunks, ends_chunks, E1, E2, E3, H5, H6, H7.
    by rewrite !app_nil_r. }
  destruct r as [n [e|]|n|]; cbn in Hr.
  - destruct Hr as (Hc & _ & He & Hm). destruct (Hd []) as (E1 & E2 & E3); [|done..|].
    { by destruct Hm as [(-> & _)|(c & -> & _)]. }
    assert (Hv : rw_clViolated (r_rw st') = false) by congruence. split; [|done]. split.
    + by rewrite He.
    + split; [by rewrite E1|]. rewrite E2, Hc. by apply prefix_app, prefix_take.
    + done.
    + left. congruence.
    + congruence.
  - destruct Hr as (Hc & _ & -> & He). destruct (Hd []) as (E1 & E2 & E3); [done..|]. rewrite Hc in E2. split; try done; [congruence..|].
    unfold clean in *. rewrite Hl, app_nil_r. apply Forall_app. split; [done|]. by apply Forall_fmap, Forall_true.
  - destruct Hr as (Hc & _ & -> & _). destruct (Hd []) as (E1 & E2 & E3); [done..|]. split; [|done]. split; [by rewrite E1|].
    rewrite E2, Hc. by apply prefix_app, prefix_take.
  - done.
Qed.

Lemma within_cl d n m :
  0 <= n -> 0 <= m -> n + m < 2 ^ 63 -> (forall v, d = Some v -> 0 <= v) ->
  (0 <=? declared_Z d) && (declared_Z d <? i64 (n + m)) = negb (within d (n + m)).
Proof.
  intros Hn Hm Hb Hd. unfold i64. rewrite Z.mod_small by lia. destruct d as [v|]; [|done]. cbn. specialize (Hd v eq_refl).
  rewrite (proj2 (Z.leb_le 0 v)) by lia. cbn [andb]. by destruct (Z.ltb_spec v (n + m)), (Z.leb_spec (n + m) v); try lia.
Qed.

Lemma Write_streaming st hs bs d n mfs p st' r :
  streaming st d n -> on_track st hs bs -> is_u32 mfs -> Z.of_nat (length p) <= MaxInt32 -> n + Z.of_nat (length p) < 2 ^ 63 ->
  Write id (length p) mfs st p = (st', r) ->
  if within d (n + Z.of_nat (length p)) then
    match r with
    | WDone _ None => on_track st' hs (bs ++ p) /\ streaming st' d (n + Z.of_nat (length p))
    | WDone _ (Some _) => off_track st' hs (bs ++ p) /\ rw_clViolated (r_rw st') = false
    | WParked _ => partial st' hs (bs ++ p) /\ ends (taken st') = false
    | WFuel => False
    end
  else off_track st' hs bs /\ exists k e, r = WDone k (Some e).
Proof.
  intros [G1 G2 G3 G4 G5 [G6 G7] G8] Ht Hm Hl Hb H. unfold Write in H.
  rewrite (ot_err _ _ _ Ht), prepare_id, G2, G3, G4, G5 in H by done. rewrite within_cl in H by (done || lia).
  destruct (length p =? 0)%nat eqn:El.
  { apply Nat.eqb_eq in El. destruct p; [|done]. cbn [length Z.of_nat]. rewrite Z.add_0_r, G8, app_nil_r. injection H as <- <-.
    split; [done|]. by split. }
  destruct (within d (n + Z.of_nat (length p))) eqn:Ew; cbn [negb] in H.
  - set (mf := if i32 mfs <=? 0 then 16384 else i32 mfs) in *.
    assert (Hmf : 0 < mf) by (unfold mf; destruct (_ <=? 0) eqn:E; bool_prop; lia).
    destruct (write_loop_spec id _ _ _ _ _ _ _ Hmf Hl ltac:(done) (ot_world _ _ _ Ht) ltac:(lia) ltac:(lia) H)
      as (chunks & more & _ & Hres & Hlog & Hwr & Hsh & _ & Hok).
    pose proof (write_loop_track st hs bs chunks more st' p r Ht G3 Hres Hlog Hsh Hok) as Ht'.
    destruct r as [k [e|]|k|]; try done. split; [done|]. destruct Hsh as (S1 & S2 & S3 & S4 & S5 & S6 & S7).
    cbn in Hres. destruct Hres as (Hc & _). split; [congruence..| |split; [lia|done]|done]. rewrite Hwr, Hc. lia.
  - injection H as <- <-. split; [|eauto]. destruct Ht as [H1 H2 H3 H4 H5 H6 H7]. split; try done.
    + split; [by rewrite <- H5|by rewrite <- H6].
    + by left.
Qed.

Lemma Flush_streaming st hs bs d n :
  streaming st d n -> on_track st hs bs ->
  on_track (Flush id st) hs bs /\ streaming (Flush id st) d n \/
  off_track (Flush id st) hs bs /\ rw_clViolated (r_rw (Flush id st)) = false.
Proof.
  intros [G1 G2 G3 G4 G5 G6 G8] Ht. unfold Flush. rewrite (ot_err _ _ _ Ht), prepare_id, G2, G3 by done.
  destruct (submit (r_world st) _) as [w r] eqn:Es.
  pose proof (track_submit st hs bs (SendData id [] false) w r Ht eq_refl Es) as Hs. destruct r as [e|]; [right|left].
  - split; [|apply Ht]. by apply Hs.
  - split; [|by split]. rewrite <- (app_nil_r hs), <- (app_nil_r bs). apply (Hs (set_world st w)); try done. apply Ht.
Qed.

(** The rest of the handler's run, once the headers are out. *)
Lemma body_run calls st hs bs d n st' o :
  Forall (fun c => is_panic c = false) calls -> Forall call_ok calls -> n + zsum call_len calls < 2 ^ 63 ->
  streaming st d n -> on_track st hs bs -> runHandler id st calls = (st', o) ->
  let '(body, violated) := bodyOf d n calls in
  match o with
  | HReturned =>
      on_track st' hs (bs ++ body) /\ streaming st' d (n + Z.of_nat (length body)) /\ violated = false \/
      off_track st' hs (bs ++ body) /\ (rw_clViolated (r_rw st') = true -> violated = true)
  | HParked => partial st' hs (bs ++ body) /\ ends (taken st') = false
  | HPanicked => False
  end.
Proof.
  intros Hnp Hc. revert st bs n Hnp. induction Hc as [|c calls Hok Hcs IH]; intros st bs n Hnp Hb Hg Ht H.
  { injection H as <- <-. cbn. left. by rewrite app_nil_r, Z.add_0_r. }
  apply Forall_cons in Hnp as [Hp Hnp]. rewrite zsum_cons in Hb.
  assert (Hz : 0 <= zsum call_len calls) by (apply zsum_nonneg; intros; apply call_len_nonneg).
  assert (Hnopanic : existsb is_panic calls = false).
  { clear -Hnp. induction Hnp as [|c l Hc _ IHl]; [done|]. cbn. by rewrite Hc. }
  destruct c as [k vv|k|code|mfs p| |]; try done; cbn [runHandler bodyOf call_len call_ok] in *.
  - eapply IH, H; [done|lia|by destruct Hg|by eapply on_track_same, Ht].
  - eapply IH, H; [done|lia|by destruct Hg|by eapply on_track_same, Ht].
  - unfold WriteHeader in H. rewrite (sg_prepared _ _ _ Hg) in H. by eapply IH, H.
  - destruct Hok as [Hm Hl]. destruct (Write id (length p) mfs st p) as [s r] eqn:E.
    pose proof (Write_streaming st hs bs d n mfs p s r Hg Ht Hm Hl ltac:(lia) E) as Hw.
    destruct (within d (n + Z.of_nat (length p))).
    + destruct (bodyOf d (n + Z.of_nat (length p)) calls) as [b v] eqn:Eb. rewrite app_assoc.
      destruct r as [k [e|]|k|]; [..|done].
      * destruct Hw as [Hoff Hv]. destruct (runHandler_stuck _ _ _ _ (ft_err _ _ _ Hoff) H) as (E1 & E2 & ->). rewrite Hnopanic. right.
        split; [|congruence]. eapply off_track_same; [done..|]. eapply off_track_mono, Hoff; [done|by apply prefix_app_r|done].
      * destruct Hw as [Ht' Hg']. specialize (IH s (bs ++ p) (n + Z.of_nat (length p)) Hnp ltac:(lia) Hg' Ht' H). rewrite Eb in IH. destruct o; try done.
        rewrite length_app, Nat2Z.inj_add, Z.add_assoc. exact IH.
      * injection H as <- <-. destruct Hw as [[Hp1 Hp2] He]. split; [|done]. split; [done|]. etrans; [exact Hp2|by apply prefix_app_r].
    + destruct Hw as [Hoff (k & e & ->)]. destruct (runHandler_stuck _ _ _ _ (ft_err _ _ _ Hoff) H) as (E1 & E2 & ->).
      rewrite Hnopanic, app_nil_r. right. split; [by eapply off_track_same|done].
  - destruct (Flush_streaming st hs bs d n Hg Ht) as [[Ht' Hg']|[Hoff Hv]]; [eapply IH, H; done || lia|].
    destruct (bodyOf d n calls) as [b v].
    destruct (runHandler_stuck _ _ _ _ (ft_err _ _ _ Hoff) H) as (E1 & E2 & ->). rewrite Hnopanic. right.
    split; [|congruence]. eapply off_track_same; [done..|]. eapply off_track_mono, Hoff; [done|by apply prefix_app_r|done].
Qed.

(** ** The end of the stream *)

(** What the writer took is the beginning of the response, and all of it when
    nothing failed or END_STREAM is among it. *)
Definition served (st : RState) (hs : list (Z * header)) (bs : list byte) (complete : bool) : Prop :=
  partial st hs bs /\
  (ends (taken st) = true \/ rw_err (r_rw st) = None \/ rw_clViolated (r_rw st) = true ->
   heads (taken st) = hs /\ datas (taken st) = bs /\ ends (taken st) = complete).

Lemma Reset_taken st code :
  heads (taken (Reset id st code)) = heads (taken st) /\ datas (taken (Reset id st code)) = datas (taken st) /\
  ends (taken (Reset id st code)) = ends (taken st).
Proof.
  destruct (decide (clean st)) as [Hc|Hc].
  - assert (E : taken (Reset id st code) = taken st ++ [SendRSTStream id code]).
    { unfold taken, untilRefused, clean, log in *. cbn [Reset set_world submitOnly r_world w_log].
      rewrite until_app_all, fmap_app by done. by rewrite (until_all _ (w_log (r_world st))). }
    rewrite E, heads_app, datas_app, ends_app. cbn. by rewrite !app_nil_r, orb_false_r.
  - by rewrite (unclean_taken st (Reset id st code) [(SendRSTStream id code, None)] Hc eq_refl).
Qed.

Lemma Reset_served st code hs bs c : served st hs bs c -> served (Reset id st code) hs bs c.
Proof.
  destruct (Reset_taken st code) as (E1 & E2 & E3). unfold served, partial. by rewrite E1, E2, E3.
Qed.

Lemma off_track_served st hs bs c : off_track st hs bs -> (rw_clViolated (r_rw st) = true -> c = false) -> served st hs bs c.
Proof.
  intros [[e H1] H2 H3 H4 H5] Hc. split; [done|]. intros [?|[?|Hv]]; [congruence..|].
  destruct (H5 Hv) as (_ & ? & ?). by rewrite H3, Hc.
Qed.

(** The submission that carries END_STREAM. *)
Lemma track_end st hs bs i w r st' :
  on_track st hs bs -> wi_endStream i = true -> submit (r_world st) i = (w, r) ->
  r_world st' = w -> rw_clViolated (r_rw st') = false -> rw_err (r_rw st') = r ->
  served st' (hs ++ head_of i) (bs ++ data_of i) true.
Proof.
  intros [H1 H2 H3 H4 H5 H6 H7] Hi Hs Hw Hv He. destruct (taken_submit st i w r H4 Hs st' Hw) as [_ E].
  unfold served, partial. rewrite E, He, Hv. destruct r as [e|].
  - rewrite app_nil_r, H5, H6, H7. split; [by split; apply prefix_app_r|]. by intros [?|[?|?]].
  - rewrite heads_app, datas_app, ends_app, heads_one, datas_one, H5, H6. cbn. by rewrite Hi, orb_true_r.
Qed.

Lemma writeHeaders_end st hs st' e :
  on_track st hs [] -> rw_prepared (r_rw st) = true -> rw_wroteHeaders (r_rw st) = false -> writeHeaders id st true = (st', e) ->
  served st' (hs ++ [(rw_status (r_rw st), r_hdr st)]) [] true /\ rw_err (r_rw st') = e.
Proof.
  intros Ht Hp Hwh H. unfold writeHeaders in H. rewrite Hwh, prepare_id in H by done. cbn [r_rw r_hdr r_world set_wroteHeaders rw_status] in H.
  destruct (submit _ _) as [w r] eqn:Es. injection H as <- <-.
  assert (He : rw_err (r_rw (match r with Some e => set_err (set_world (set_wroteHeaders st) w) e | None => set_world (set_wroteHeaders st) w end)) = r).
  { destruct r; [done|]. apply Ht. }
  split; [|done].
  apply (track_end st hs [] (SendResponseHeaders id (rw_status (r_rw st)) (r_hdr st) true) w r _ Ht eq_refl Es); [by destruct r| |done].
  destruct r; apply Ht.
Qed.

Lemma finishStream_track st dd st1 e hs bs c :
  rw_clViolated (r_rw st) = false -> rw_err (r_rw st) = None -> endStream id st = (st1, e) -> served st1 hs bs c ->
  served (finishStream id st dd) hs bs c.
Proof.
  intros Hv He Hes Hs. unfold finishStream. rewrite Hv, He, Hes.
  destruct e as [[]|]; try done; [by apply Reset_served|]. destruct dd; [done|]. by apply Reset_served.
Qed.

Lemma finishStream_off st dd hs bs c :
  off_track st hs bs -> (rw_clViolated (r_rw st) = true -> c = false) -> served (finishStream id st dd) hs bs c.
Proof.
  intros Ho Hc. unfold finishStream. pose proof (off_track_served st hs bs c Ho Hc) as Hs.
  destruct (rw_clViolated (r_rw st)); cbn [andb]; [by apply Reset_served|]. destruct (ft_err _ _ _ Ho) as [e ->]. done.
Qed.

Lemma finish_streaming st hs bs d n dd :
  streaming st d n -> on_track st hs bs -> served (finishStream id st dd) hs bs (exactly d n).
Proof.
  intros [G1 G2 G3 G4 G5 [G6 G7] G8] Ht. destruct (endStream id st) as [st1 e] eqn:E.
  eapply (finishStream_track st dd st1 e); [apply Ht|apply Ht|done|]. unfold endStream in E. rewrite prepare_id, G2, G3, G4, G5 in E by done.
  cbn [negb andb] in E. destruct ((0 <=? declared_Z d) && (n <? declared_Z d)) eqn:Ed.
  - injection E as <- <-. pose proof Ht as [H1 H2 H3 H4 H5 H6 H7]. unfold served, partial. rewrite H5, H6, H7.
    split; [done|]. intros _. split_and!; [done..|]. apply andb_true_iff in Ed as [Ed1 Ed2]. bool_prop. destruct d as [v|]; cbn in *; [|lia].
    symmetry. apply Z.eqb_neq. lia.
  - destruct (submit (r_world st) _) as [w r] eqn:Es. injection E as <- <-.
    replace (exactly d n) with true.
    2: { destruct d as [v|]; [|done]. cbn in *. specialize (G7 v eq_refl). apply andb_false_iff in Ed as [Ed|Ed]; bool_prop; [lia|].
         symmetry. apply Z.eqb_eq. lia. }
    rewrite <- (app_nil_r hs), <- (app_nil_r bs). apply (track_end st hs bs (SendData id [] true) w r _ Ht eq_refl Es); [by destruct r| |].
    + destruct r; apply Ht.
    + destruct r; [done|]. apply Ht.
Qed.

(** *** The recovery of a panic *)

Lemma prepare_prepared st : rw_prepared (r_rw (prepare st)) = true.
Proof. destruct (rw_prepared (r_rw st)) eqn:E; [by rewrite prepare_id|]. apply (prepare_spec st E). Qed.

Lemma writeHeaders_prepare st es :
  rw_wroteHeaders (r_rw st) = false -> writeHeaders id st es = writeHeaders id (prepare st) es.
Proof.
  intros Hwh. unfold writeHeaders. rewrite (prepare_id (prepare st)) by apply prepare_prepared.
  replace (rw_wroteHeaders (r_rw (prepare st))) with false; [by rewrite Hwh|].
  destruct (rw_prepared (r_rw st)) eqn:E; [by rewrite prepare_id|]. destruct (prepare_spec st E) as (_ & _ & _ & -> & _). done.
Qed.

Lemma recovered_off st hs bs c :
  off_track st hs bs -> (rw_clViolated (r_rw st) = true -> c = false) -> served (recovered id st) hs bs c.
Proof.
  intros Ho Hc. unfold recovered. destruct (rw_wroteHeaders (r_rw st)) eqn:Hwh; cbn [negb].
  - apply Reset_served. by apply off_track_served.
  - assert (Hv : rw_clViolated (r_rw st) = false).
    { destruct (rw_clViolated (r_rw st)) eqn:E; [|done]. destruct (ft_cl _ _ _ Ho E) as [? _]. congruence. }
    destruct Ho as [[e H1] H2 H3 [H4|H4] H5]; [congruence|].
    set (s0 := set_declaredCL _ _). assert (Hlog : exists l, log (writeHeaders id s0 true).1 = log st ++ l /\ rw_err (r_rw (writeHeaders id s0 true).1) <> None /\
      rw_clViolated (r_rw (writeHeaders id s0 true).1) = false).
    { unfold writeHeaders. cbn [rw_wroteHeaders r_rw s0 set_declaredCL set_hdr set_status]. rewrite Hwh. unfold prepare.
      cbn [rw_prepared r_rw s0 set_declaredCL set_hdr set_status rw_status r_hdr]. destruct (rw_prepared (r_rw st)).
      - destruct (submit _ _) as [w r] eqn:Es. destruct (submit_spec _ _ _ _ Es) as (Hl & _). eexists. unfold log.
        destruct r; cbn; (split; [exact Hl|split; [congruence|done]]).
      - set (p := if String.eqb _ _ then _ else _). destruct p as [dcl h]. destruct (submit _ _) as [w r] eqn:Es.
        destruct (submit_spec _ _ _ _ Es) as (Hl & _). eexists. unfold log. destruct r; cbn; (split; [exact Hl|split; [congruence|done]]). }
    destruct Hlog as (l & Hl & He & Hv'). unfold served, partial. rewrite (unclean_taken st _ l H4 Hl), Hv', H3. split; [done|]. by intros [?|[?|?]].
Qed.

Lemma recovered_streaming st hs bs d n : streaming st d n -> on_track st hs bs -> served (recovered id st) hs bs false.
Proof.
  intros Hg Ht. unfold recovered. rewrite (sg_wrote _ _ _ Hg). apply Reset_served. destruct Ht as [H1 H2 H3 H4 H5 H6 H7].
  unfold served, partial. by rewrite H5, H6, H7.
Qed.

Lemma recovered_early st hs h :
  on_track st hs [] -> rw_wroteHeaders (r_rw st) = false -> headerDel (r_hdr st) contentLength = h ->
  served (recovered id st) (hs ++ [(500, h)]) [] true.
Proof.
  intros Ht Hwh <-. set (h := headerDel (r_hdr st) contentLength). unfold recovered. rewrite Hwh. cbn [negb]. fold h. set (s0 := set_declaredCL _ _).
  rewrite (writeHeaders_prepare s0) by done.
  assert (Hp : rw_prepared (r_rw (prepare s0)) = true /\ rw_wroteHeaders (r_rw (prepare s0)) = false /\ rw_status (r_rw (prepare s0)) = 500 /\
    r_hdr (prepare s0) = h /\ on_track (prepare s0) hs []).
  { unfold prepare. cbn [rw_prepared r_rw s0 set_declaredCL set_hdr set_status]. destruct (rw_prepared (r_rw st)) eqn:Ep.
    - split_and!; try done. by eapply on_track_same, Ht.
    - cbn [r_hdr s0 set_declaredCL set_hdr]. rewrite headerGet_del. cbn. split_and!; try done. by eapply on_track_same, Ht. }
  destruct Hp as (P1 & P2 & P3 & P4 & P5). destruct (writeHeaders id (prepare s0) true) as [st' e] eqn:Ew.
  destruct (writeHeaders_end _ hs _ _ P5 P1 P2 Ew) as [Hs _]. by rewrite P3, P4 in Hs.
Qed.

(** *** The first [Write] or [Flush], and responses without a body *)

Record resolved (isHead : bool) (st : RState) (h : header) (status : Z) : Prop := {
  st_hdr : r_hdr st = h;
  st_status : rw_status (r_rw st) = status;
  st_prepared : rw_prepared (r_rw st) = true;
  st_noBody : rw_noBody (r_rw st) = bodyless isHead status;
  st_wrote : rw_wroteHeaders (r_rw st) = false;
  st_written : rw_written (r_rw st) = 0
}.

Lemma prepare_resolved isHead st h s hs :
  fresh isHead st h s -> on_track st hs [] ->
  resolved isHead (prepare st) (validated h) (statusOf s) /\ on_track (prepare st) hs [] /\
  rw_declaredCL (r_rw (prepare st)) = declared_Z (declared_length (validated h)).
Proof.
  intros [F1 F2 F3 F4 F5 F6] Ht. destruct (prepare_spec st F3) as (P1 & P2 & P3 & P4 & P5 & P6 & P7 & P8 & P9 & P10).
  assert (Hh : r_hdr (prepare st) = validated h).
  { unfold prepare, validated. rewrite F3, F1. destruct (String.eqb _ _); [done|]. by destruct (ParseUint63 _). }
  rewrite Hh in P10. split_and!; [|by eapply on_track_same, Ht|done].
  assert (Hst : rw_status (r_rw (prepare st)) = statusOf s) by (unfold statusOf; by rewrite P8, F2).
  split; [done..| |congruence|congruence]. by rewrite P9, P5, F6, Hst.
Qed.

Lemma prepare_Write st mfs p : rw_err (r_rw st) = None -> Write id (length p) mfs st p = Write id (length p) mfs (prepare st) p.
Proof.
  intros He. unfold Write. rewrite (prepare_id (prepare st)) by apply prepare_prepared. rewrite He.
  destruct (rw_prepared (r_rw st)) eqn:E; [by rewrite prepare_id, He|]. destruct (prepare_spec st E) as (_ & -> & _). by rewrite He.
Qed.

Lemma prepare_Flush st : rw_err (r_rw st) = None -> Flush id st = Flush id (prepare st).
Proof.
  intros He. unfold Flush. rewrite (prepare_id (prepare st)) by apply prepare_prepared. rewrite He.
  destruct (rw_prepared (r_rw st)) eqn:E; [by rewrite prepare_id, He|]. destruct (prepare_spec st E) as (_ & -> & _). by rewrite He.
Qed.

Lemma runHandler_prepare st c calls :
  commits c = true -> rw_err (r_rw st) = None -> runHandler id st (c :: calls) = runHandler id (prepare st) (c :: calls).
Proof. intros Hc He. destruct c; try done; cbn [runHandler]; [by rewrite prepare_Write|by rewrite prepare_Flush]. Qed.

(** The headers go out with the first call that commits. *)
Lemma commit_streaming isHead st h s hs c :
  resolved isHead st h s -> on_track st hs [] -> rw_declaredCL (r_rw st) = declared_Z (declared_length h) ->
  bodyless isHead s = false -> commits c = true ->
  (exists st1, on_track st1 (hs ++ [(s, h)]) [] /\ streaming st1 (declared_length h) 0 /\
     forall calls, runHandler id st (c :: calls) = runHandler id st1 (c :: calls)) \/
  (exists st1, off_track st1 (hs ++ [(s, h)]) [] /\ rw_clViolated (r_rw st1) = false /\
     forall calls, runHandler id st (c :: calls) = runHandler id st1 calls).
Proof.
  intros [T1 T2 T3 T4 T5 T6] Ht Hd Hb Hc. rewrite Hb in T4. pose proof (ot_err _ _ _ Ht) as He.
  destruct (writeHeaders id st false) as [st1 e] eqn:Ew. pose proof Ew as Ew'. unfold writeHeaders in Ew'.
  rewrite T5, prepare_id in Ew' by done. cbn [r_rw r_hdr r_world set_wroteHeaders rw_status] in Ew'.
  destruct (submit _ _) as [w r] eqn:Es. injection Ew' as E1 <-. rewrite T1, T2 in Es.
  pose proof (track_submit st hs [] (SendResponseHeaders id s h false) w r Ht eq_refl Es) as Hs.
  destruct r as [e|]; [right|left].
  - assert (Ho : forall st2, r_world st2 = w -> rw_clViolated (r_rw st2) = rw_clViolated (r_rw st) -> rw_err (r_rw st2) = Some e -> off_track st2 (hs ++ [(s, h)]) []).
    { intros st2 H1 H2 H3. apply Hs; try done. by apply prefix_app_r. }
    subst st1. destruct c; try done; cbn [runHandler].
    + exists (set_err (set_world (set_wroteHeaders st) w) e). split; [by apply Ho|]. split; [apply Ht|]. intros calls.
      unfold Write. rewrite He, prepare_id, T4, T5, Ew by done. done.
    + eexists. split; [apply (Ho (set_err (set_err (set_world (set_wroteHeaders st) w) e) e)); done|]. split; [apply Ht|]. intros calls.
      unfold Flush. rewrite He, prepare_id, T4, T5, Ew by done. done.
  - exists st1. subst st1. split_and!.
    + apply (Hs (set_world (set_wroteHeaders st) w)); done || apply Ht.
    + split; try done; cbn; [split; [lia|]|].
      * intros v. apply declared_nonneg.
      * destruct (declared_length h) as [v|] eqn:E; [|done]. apply Z.leb_le. by apply (declared_nonneg h).
    + intros calls. destruct c; try done; cbn [runHandler].
      * unfold Write. rewrite He, prepare_id, T4, T5, Ew by done. cbn [rw_err r_rw set_world set_wroteHeaders].
        rewrite He, (prepare_id (set_world (set_wroteHeaders st) w)) by done. cbn [rw_noBody rw_wroteHeaders r_rw set_world set_wroteHeaders]. by rewrite T4.
      * unfold Flush. rewrite He, prepare_id, T4, T5, Ew by done. cbn [rw_err r_rw set_world set_wroteHeaders].
        rewrite He, (prepare_id (set_world (set_wroteHeaders st) w)) by done. cbn [rw_noBody rw_wroteHeaders r_rw set_world set_wroteHeaders]. by rewrite T4.
Qed.

(** A handler whose response has no body may write and flush what it wants. *)
Lemma silent_run calls st :
  Forall (fun c => is_panic c = false) calls -> rw_err (r_rw st) = None -> rw_prepared (r_rw st) = true -> rw_noBody (r_rw st) = true ->
  runHandler id st calls = (set_hdr st (headersAfter (r_hdr st) calls), HReturned).
Proof.
  intros Hc. revert st. induction Hc as [|c calls Hc _ IH]; intros st He Hp Hn; [by destruct st|].
  destruct c as [k vv|k|code|mfs p| |]; try done; cbn [runHandler headersAfter foldl applyHeader].
  - by rewrite IH.
  - by rewrite IH.
  - unfold WriteHeader. rewrite Hp. by rewrite IH.
  - unfold Write. rewrite He, prepare_id, Hn by done. by rewrite IH.
  - unfold Flush. rewrite He, prepare_id, Hn by done. by rewrite IH.
Qed.

Lemma endStream_resolved isHead st h s hs dd :
  resolved isHead st h s -> on_track st hs [] -> bodyless isHead s = true \/ rw_declaredCL (r_rw st) <= 0 ->
  served (finishStream id st dd) (hs ++ [(s, h)]) [] true.
Proof.
  intros [T1 T2 T3 T4 T5 T6] Ht Hb. destruct (endStream id st) as [st1 e] eqn:E.
  eapply (finishStream_track st dd st1 e); [apply Ht|apply Ht|done|]. unfold endStream in E. rewrite prepare_id, T5, T4, T6 in E by done.
  replace (negb _ && _ && _) with false in E.
  2: { symmetry. destruct Hb as [->|Hb]; [done|]. rewrite andb_false_iff, Z.ltb_ge. by right. }
  cbn [negb] in E. destruct (writeHeaders_end st hs st1 e Ht T3 T5 E) as [Hs _]. by rewrite T1, T2 in Hs.
Qed.

Lemma finish_fresh isHead st h s hs dd :
  fresh isHead st h s -> on_track st hs [] ->
  let hv := validated h in
  if bodyless isHead (statusOf s) || exactly (declared_length hv) 0 then
    served (finishStream id st dd) (hs ++ [(statusOf s, hv)]) [] true
  else served (finishStream id st dd) hs [] false.
Proof.
  intros Hf Ht hv. destruct (prepare_resolved isHead st h s hs Hf Ht) as (Hs & Ht1 & Hd). fold hv in Hs, Hd.
  assert (E : finishStream id st dd = finishStream id (prepare st) dd).
  { unfold finishStream. rewrite (ot_cl _ _ _ Ht), (ot_cl _ _ _ Ht1), (ot_err _ _ _ Ht), (ot_err _ _ _ Ht1).
    unfold endStream. by rewrite (prepare_id (prepare st)) by apply prepare_prepared. }
  rewrite E. destruct (bodyless isHead (statusOf s)) eqn:Eb; cbn [orb].
  { eapply endStream_resolved; [done..|]. by left. }
  pose proof (declared_nonneg hv) as Hn. destruct (exactly (declared_length hv) 0) eqn:Ex.
  - eapply endStream_resolved; [done..|]. right. rewrite Hd. destruct (declared_length hv) as [v|]; [|done]. unfold exactly in Ex. by apply Z.eqb_eq in Ex as ->.
  - destruct Hs as [T1 T2 T3 T4 T5 T6]. destruct (declared_length hv) as [v|]; [|done].
    unfold exactly in Ex. apply Z.eqb_neq in Ex. cbn in Hd. specialize (Hn v eq_refl).
    apply (finishStream_track (prepare st) dd (prepare st) (Some errShortContentLength)); [apply Ht1|apply Ht1| |].
    + unfold endStream. rewrite prepare_id, T4, T6, Eb, Hd by done. cbn [negb andb].
      by rewrite (proj2 (Z.leb_le 0 v)), (proj2 (Z.ltb_lt 0 v)) by lia.
    + pose proof Ht1 as [H1 H2 H3 H4 H5 H6 H7]. unfold served, partial. by rewrite H5, H6, H7.
Qed.

(** ** The whole run *)

Definition closing (panicked dd : bool) (st : RState) : RState := if panicked then recovered id st else finishStream id st dd.

Lemma closing_off panicked dd st hs bs c :
  off_track st hs bs -> (rw_clViolated (r_rw st) = true -> c = false) -> served (closing panicked dd st) hs bs c.
Proof. intros Ho Hc. unfold closing. destruct panicked; [by apply recovered_off|by apply finishStream_off]. Qed.

(** What is to be shown of the state and outcome of the handler's own run. *)
Definition follows (r : Response) (panicked dd : bool) (st : RState) (o : HOutcome) : Prop :=
  match o with
  | HReturned => served (closing panicked dd st) (rs_heads r) (rs_body r) (rs_complete r)
  | HParked => partial st (rs_heads r) (rs_body r) /\ ends (taken st) = false
  | HPanicked => False
  end.

Lemma no_panic_existsb calls : Forall (fun c => is_panic c = false) calls -> existsb is_panic calls = false.
Proof. induction 1 as [|c l Hc _ IH]; [done|]. cbn. by rewrite Hc. Qed.

Lemma stuck_follows calls st hs bs r panicked dd st' o :
  Forall (fun c => is_panic c = false) calls -> off_track st hs bs -> rw_clViolated (r_rw st) = false ->
  hs `prefix_of` rs_heads r -> bs `prefix_of` rs_body r -> runHandler id st calls = (st', o) -> follows r panicked dd st' o.
Proof.
  intros Hnp Ho Hv Hp1 Hp2 H. destruct (runHandler_stuck _ _ _ _ (ft_err _ _ _ Ho) H) as (E1 & E2 & ->).
  rewrite no_panic_existsb by done. apply closing_off; [|rewrite E1; congruence].
  eapply off_track_same; [done..|]. by eapply off_track_mono, Ho.
Qed.

Lemma since_commits calls : match since commits calls with [] => True | c :: _ => commits c = true end.
Proof. induction calls as [|c calls IH]; [done|]. cbn. by destruct (commits c) eqn:E. Qed.

Lemma bodyless_follows isHead st h s hs calls (panicked dd : bool) st' o r :
  resolved isHead st h s -> on_track st hs [] -> bodyless isHead s = true -> Forall (fun c => is_panic c = false) calls ->
  rs_heads r = hs ++ [if panicked then (500, headerDel (headersAfter h calls) contentLength) else (s, headersAfter h calls)] ->
  rs_body r = [] -> rs_complete r = true -> runHandler id st calls = (st', o) -> follows r panicked dd st' o.
Proof.
  intros Hs Ht Hb Hnp E1 E2 E3 H. pose proof Hs as [T1 T2 T3 T4 T5 T6].
  rewrite silent_run in H by (done || apply Ht || congruence). injection H as <- <-. unfold follows, closing. rewrite E1, E2, E3, T1.
  assert (Ht' : on_track (set_hdr st (headersAfter h calls)) hs []) by (by eapply on_track_same, Ht).
  destruct panicked; [by apply recovered_early|]. eapply endStream_resolved; [|done|by left]. by split.
Qed.

Lemma streaming_follows st hs d calls panicked dd st' o r :
  streaming st d 0 -> on_track st hs [] -> Forall (fun c => is_panic c = false) calls -> Forall call_ok calls -> zsum call_len calls < 2 ^ 63 ->
  rs_heads r = hs -> rs_body r = (bodyOf d 0 calls).1 ->
  rs_complete r = negb panicked && negb (bodyOf d 0 calls).2 && exactly d (Z.of_nat (length (bodyOf d 0 calls).1)) ->
  runHandler id st calls = (st', o) -> follows r panicked dd st' o.
Proof.
  intros Hg Ht Hnp Hok Hb E1 E2 E3 H. pose proof (body_run calls st hs [] d 0 st' o Hnp Hok Hb Hg Ht H) as Hr.
  destruct (bodyOf d 0 calls) as [body violated]. cbn [fst snd app] in *. unfold follows. rewrite E1, E2, E3.
  destruct o; [|done|done]. destruct Hr as [(Ht' & Hg' & ->)|[Ho Hv]].
  - cbn [negb]. rewrite andb_true_r. rewrite Z.add_0_l in Hg'. unfold closing. destruct panicked; cbn [negb andb].
    + by eapply recovered_streaming.
    + by apply finish_streaming.
  - apply closing_off; [done|]. intros E. rewrite (Hv E). cbn. by rewrite andb_false_r.
Qed.

Lemma respondTo_interim isHead panicked calls : rs_interim (respondTo isHead panicked calls) = interims 0 ∅ (until commits calls).
Proof.
  unfold respondTo. destruct (since commits calls); [destruct panicked; [done|]; by destruct (_ || _)|].
  destruct (bodyless _ _); [done|]. by destruct (bodyOf _ _ _).
Qed.

Lemma active_run isHead calls panicked dd st st' o :
  Forall (fun c => is_panic c = false) calls -> Forall call_ok calls -> zsum call_len calls < 2 ^ 63 ->
  fresh isHead st ∅ 0 -> on_track st [] [] -> runHandler id st calls = (st', o) ->
  follows (respondTo isHead panicked calls) panicked dd st' o.
Proof.
  intros Hnp Hok Hb Hf Ht H. set (r := respondTo isHead panicked calls).
  assert (Hpre : interims 0 ∅ (until commits calls) `prefix_of` rs_heads r).
  { unfold rs_heads, r. rewrite respondTo_interim. by apply prefix_app_r. }
  rewrite <- (until_since commits calls) in H, Hnp, Hok, Hb. rewrite runHandler_app in H.
  apply Forall_app in Hnp as [Hnp1 Hnp2]. apply Forall_app in Hok as [_ Hok2].
  assert (Hb2 : zsum call_len (since commits calls) < 2 ^ 63).
  { rewrite zsum_app in Hb. assert (0 <= zsum call_len (until commits calls)) by (apply zsum_nonneg; intros; apply call_len_nonneg). lia. }
  destruct (runHandler id st (until commits calls)) as [s1 o1] eqn:E1.
  assert (Hearly : Forall (fun c => early c = true) (until commits calls)).
  { pose proof (until_none commits calls) as Hn. apply Forall_forall. intros c Hc. rewrite Forall_forall in Hnp1, Hn. unfold early.
    by rewrite (Hnp1 c Hc), (Hn c Hc). }
  destruct (pre_run isHead _ st ∅ 0 [] s1 o1 Hearly Hf Ht E1) as [-> [[Hf1 Ht1]|[Ho1 Hv1]]]; cbn [app] in *.
  2: { eapply stuck_follows; [exact Hnp2|done..| |exact H]. by apply prefix_nil. }
  pose proof (since_commits calls) as Hcom. unfold r, respondTo in *. clear r. destruct (since commits calls) as [|c post] eqn:Ep.
  - injection H as <- <-. unfold follows, closing. destruct panicked.
    + apply (recovered_early s1 _ _ Ht1 (fr_wrote _ _ _ _ Hf1)). by rewrite (fr_hdr _ _ _ _ Hf1).
    + pose proof (finish_fresh isHead s1 _ _ _ dd Hf1 Ht1) as Hs. cbv zeta in *. destruct (_ || _); [done|].
      unfold rs_heads. cbn. by rewrite app_nil_r.
  - destruct (prepare_resolved isHead s1 _ _ _ Hf1 Ht1) as (Hs2 & Ht2 & Hd2). rewrite runHandler_prepare in H by (done || apply Ht1).
    set (h := validated _) in *. set (s := statusOf _) in *. destruct (bodyless isHead s) eqn:Eb.
    { by eapply (bodyless_follows isHead (prepare s1) h s _ (c :: post)). }
    destruct (bodyOf (declared_length h) 0 (c :: post)) as [body violated] eqn:Ebody.
    destruct (commit_streaming isHead (prepare s1) h s _ c Hs2 Ht2 Hd2 Eb Hcom) as [(s3 & Ht3 & Hg3 & Hrun)|(s3 & Ho3 & Hv3 & Hrun)];
      rewrite Hrun in H.
    + eapply (streaming_follows s3); [exact Hg3|exact Ht3|exact Hnp2|done..| | | |exact H]; by rewrite ?Ebody.
    + eapply stuck_follows; [by inv Hnp2|exact Ho3|done|done| |exact H]. by apply prefix_nil.
Qed.

End Simulation.

(** ** The contract *)

Lemma existsb_since calls :
  existsb is_panic calls = match since is_panic calls with [] => false | _ => true end /\
  match since is_panic calls with [] => True | c :: _ => c = CPanic end.
Proof. induction calls as [|c calls [IH1 IH2]]; [done|]. cbn. by destruct c. Qed.

Lemma serveStream_run id method calls dd w :
  let st0 := mkR (newResponseWriter method) ∅ w in
  let panicked := existsb is_panic calls in
  serveStream id method true calls dd w =
  match runHandler id st0 (until is_panic calls) with
  | (st, HReturned) => (closing id panicked dd st, if panicked then HPanicked else HReturned)
  | (st, HPanicked) => (recovered id st, HPanicked)
  | (st, HParked) => (st, HParked)
  end.
Proof.
  cbv zeta. unfold serveStream. cbn [negb]. rewrite <- (until_since is_panic calls) at 1. rewrite runHandler_app.
  destruct (existsb_since calls) as [-> Hs]. destruct (runHandler id _ (until is_panic calls)) as [st []]; [|done..].
  destruct (since is_panic calls) as [|c l]; [done|]. by subst c.
Qed.

Lemma handler_follows id method calls dd w st o :
  world_ok w -> w_log w = [] -> Forall call_ok calls -> zsum call_len calls < 2 ^ 63 ->
  serveStream id method true calls dd w = (st, o) ->
  let r := respond (String.eqb method "HEAD") calls in
  partial st (rs_heads r) (rs_body r) /\
  (ends (taken st) = true \/ o <> HParked /\ (rw_err (r_rw st) = None \/ rw_clViolated (r_rw st) = true) ->
   heads (taken st) = rs_heads r /\ datas (taken st) = rs_body r /\ ends (taken st) = rs_complete r).
Proof.
  intros Hw Hl Hok Hb H r. rewrite serveStream_run in H. cbv zeta in H. set (st0 := mkR _ _ w) in H.
  destruct (runHandler id st0 _) as [s1 o1] eqn:E.
  assert (Hf : follows id r (existsb is_panic calls) dd s1 o1).
  { apply (active_run id _ _ _ _ st0); [apply until_none|by apply until_Forall| | | |exact E].
    - rewrite <- (until_since is_panic calls), zsum_app in Hb.
      assert (0 <= zsum call_len (since is_panic calls)) by (apply zsum_nonneg; intros; apply call_len_nonneg). lia.
    - by split.
    - split; try done; unfold clean, taken, untilRefused, log; cbn; by rewrite Hl. }
  destruct o1; cbn [follows] in Hf; [|done|].
  - injection H as <- <-. destruct Hf as [Hp He]. split; [done|]. intros Hx. apply He. destruct Hx as [?|[_ ?]]; auto.
  - injection H as <- <-. destruct Hf as [Hp He]. split; [done|]. intros [?|[? _]]; [congruence|done].
Qed.

(** C3. A handler gets the response it asks for: whatever calls it makes (header
    changes, WriteHeader, Write, Flush, a panic), the HEADERS and DATA of its
    stream that the writer accepts are the beginning of the response its calls
    describe - the interim responses, the status and headers, the bytes of
    its writes up to the declared Content-Length - however the transport
    behaves; and when the transport did not fail, or END_STREAM was
    accepted, they are all of it, with END_STREAM exactly when the response
    is complete. *)
Theorem handler_response id method calls dataDone w st o :
  world_ok w -> w_log w = [] -> Forall call_ok calls -> zsum call_len calls < 2 ^ 63 ->
  serveStream id method true calls dataDone w = (st, o) ->
  let r := respond (String.eqb method "HEAD") calls in
  partial st (rs_heads r) (rs_body r) /\
  (ends (taken st) = true \/ o <> HParked /\ (rw_err (r_rw st) = None \/ rw_clViolated (r_rw st) = true) ->
   heads (taken st) = rs_heads r /\ datas (taken st) = rs_body r /\ ends (taken st) = rs_complete r).
Proof. apply handler_follows. Qed.

(** Unlike with net/http, where the first status given to [WriteHeader] is
    the response's and the headers are fixed with it, the last one before the
    body is, and headers set after it are sent. *)
Theorem last_status_wins isHead code1 code2 k vv p mfs :
  is_1xx code1 = false -> is_1xx code2 = false -> code2 <> 0 -> bodyless isHead code2 = false -> k <> contentLength ->
  rs_heads (respond isHead [CWriteHeader code1; CWriteHeader code2; CSetHeader k vv; CWrite mfs p]) = [(code2, {[ k := vv ]})].
Proof.
  intros H1 H2 H3 H4 H5. unfold respond, respondTo.
  cbn [existsb is_panic orb until since commits interims interim chosenStatus chooseStatus headersAfter applyHeader foldl app].
  rewrite H1, H2. cbn [andb app]. unfold statusOf. rewrite (proj2 (Z.eqb_neq _ _)), H4 by done.
  assert (Hv : validated (<[k := vv]> ∅) = {[k := vv]}).
  { unfold validated, headerGet. replace (CanonicalMIMEHeaderKey contentLength) with contentLength by (by vm_compute).
    by rewrite lookup_insert_ne. }
  rewrite Hv. by destruct (bodyOf _ _ _).
Qed.

(** ** Witnesses *)

Module RespondDemo.

Import ResponseDemo.

(** Early hints, a declared length, the body in two writes. *)
Definition calls : list HCall :=
  [CWriteHeader 103; CSetHeader contentLength ["12"%string]; CWrite 16384 (repeat x61 5); CFlush; CWrite 16384 (repeat x62 7)].

Example described :
  respond false calls = mkResponse [(103, ∅)] (Some (200, {[ contentLength := ["12"%string] ]})) (repeat x61 5 ++ repeat x62 7) true.
Proof. vm_compute. reflexivity. Qed.

Definition ran : RState := (serveStream 1 "GET" true calls true demo_world).1.

Lemma running : serveStream 1 "GET" true calls true demo_world = (ran, HReturned).
Proof. unfold ran. apply pair_fst. vm_compute. reflexivity. Qed.

Lemma handler_response_witness :
  heads (taken ran) = [(103, ∅); (200, {[ contentLength := ["12"%string] ]})] /\ datas (taken ran) = repeat x61 5 ++ repeat x62 7.
Proof.
  destruct (handler_response 1 "GET" calls true demo_world ran HReturned demo_world_ok eq_refl) as [_ H].
  - repeat constructor; simpl; range32.
  - vm_compute. reflexivity.
  - exact running.
  - destruct H as (H1 & H2 & _); [left; vm_compute; reflexivity|]. exact (conj H1 H2).
Defined.

Lemma last_status_wins_witness :
  rs_heads (respond false [CWriteHeader 404; CWriteHeader 200; CSetHeader "X-Late" ["1"%string]; CWrite 16384 [x61]]) =
  [(200, {[ "X-Late"%string := ["1"%string] ]})].
Proof. by apply (last_status_wins false 404 200 "X-Late" ["1"%string] [x61] 16384). Defined.

End RespondDemo.
