(* ===== verification/FrameLoop.v ===== *)
(** * The frame loop of both roles (handler.go [serve], internal/proxy/tunnel.go [serveTunnel])

    The two functions run the same loop around different handlers: wait for
    the peer's SETTINGS, then read frames until shutdown, a completed drain, an
    error or a dead peer.  A role is an instance of [Role]: its state, its
    frame handler and what it does with a complete header block.  The loop's
    theorems are proved once, against the laws of the interface. *)

From Stdlib Require Import Strings.Byte.
From S2P Require Import Prelude Errors Flow Names H2Stream Writer HeaderBlock Conn.

(** What [ReadFrame] returns. *)
Inductive ReadOutcome :=
| RFrame (f : Frame)
| RTimeout
| RFail (e : gerror).

(** [HandleInboundData] needs the buffer the pool hands out. *)
Abbreviation PoolChoice := (option nat).

Class Role {HD : HpackDecoder} := {
  rstate : Type;
  renv : Type;
  role_conn : rstate -> Conn;
  role_setConn : rstate -> Conn -> rstate;
  role_env : rstate -> renv -> rstate;
  role_frame : rstate -> PoolChoice -> Z -> Frame -> rstate * option gerror;
  role_dispatch : rstate -> DecodedHeaders -> rstate
}.

(** What the loop relies on: the connection is a field of the role's state,
    and other goroutines do not touch what only the frame reader uses. *)
Class RoleLaws {HD : HpackDecoder} (R : Role) := {
  conn_setConn st c : role_conn (role_setConn st c) = c;
  env_ping st e : c_pingPending (role_conn (role_env st e)) = c_pingPending (role_conn st) /\
                  c_pingDeadline (role_conn (role_env st e)) = c_pingDeadline (role_conn st);
  env_hdr st e : c_hdr (role_conn (role_env st e)) = c_hdr (role_conn st)
}.

Section Loop.

Context {HD : HpackDecoder} {R : Role}.

(** One turn: what the shutdown channel says at each test, when the turn
    starts and when the read returns, what the other goroutines do meanwhile,
    and what the read returns. *)
Record Turn := mkTurn {
  t_shutdown : bool;
  t_start : Z;
  t_env : renv;
  t_choice : PoolChoice;
  t_now : Z;
  t_read : ReadOutcome;
  t_shutdown2 : bool
}.

Inductive LoopResult :=
| Returned (err : option gerror)
| Reading.

Definition on_conn (st : rstate) (f : Conn -> Conn) : rstate := role_setConn st (f (role_conn st)).

(** The CONTINUATION branch. *)
Definition continueBlock (st : rstate) (f : Frame) : rstate * option gerror :=
  match f with
  | FContinuation cf =>
      if negb (cf_StreamID cf =? ContStreamID (c_hdr (role_conn st))) then (st, Some ErrContInterleaved)
      else
        let '(h, r) := ConsumeContinuation (c_hdr (role_conn st)) cf in
        let st := on_conn st (fun c => set_c_hdr c h) in
        match r with
        | inr e => (st, Some e)
        | inl None => (st, None)
        | inl (Some d) => (role_dispatch st d, None)
        end
  | _ => (st, Some ErrContInterleaved)
  end.

Definition handleTurn (st : rstate) (t : Turn) : rstate * LoopResult :=
  if t_shutdown t then (st, Returned None)
  else if DrainComplete (role_conn st) then (st, Returned (Some ErrGoaway))
  else
    let st := on_conn st (fun c => SetIdleDeadline c (t_start t)) in
    let st := role_env st (t_env t) in
    match t_read t with
    | RTimeout =>
        if t_shutdown2 t then (st, Returned None)
        else if DrainComplete (role_conn st) then (st, Returned (Some ErrGoaway))
        else
          let '(c, e) := SendOrCheckPing (role_conn st) (t_now t) in
          (role_setConn st c, match e with Some e => Returned (Some e) | None => Reading end)
    | RFail e => (st, Returned (Some e))
    | RFrame f =>
        let '(st, e) :=
          if InContinuation (c_hdr (role_conn st)) then continueBlock st f
          else role_frame st (t_choice t) (t_now t) f in
        (st, match e with Some e => Returned (Some e) | None => Reading end)
    end.

Fixpoint frameLoop (st : rstate) (ts : list Turn) : rstate * LoopResult :=
  match ts with
  | [] => (st, Reading)
  | t :: ts =>
      match handleTurn st t with
      | (st, Reading) => frameLoop st ts
      | (st, Returned e) => (st, Returned e)
      end
  end.

(** The loop that waits for the peer's first SETTINGS. *)
Fixpoint awaitSettings (st : rstate) (rs : list ReadOutcome) : rstate * option (option gerror) :=
  match rs with
  | [] => (st, None)
  | RFrame (FSettings false ss) :: _ =>
      let '(c, e) := ApplyPeerSettings (role_conn st) ss in
      match e with
      | Some e => (role_setConn st c, Some (Some e))
      | None => (role_setConn st (submitAsync c SendSettingsAck), Some None)
      end
  | RFrame _ :: rs => awaitSettings st rs
  | RTimeout :: _ => (st, Some (Some (ErrExternal 0)))
  | RFail e :: _ => (st, Some (Some e))
  end.

(** ** Lemmas *)

Lemma frameLoop_app st ts1 ts2 st1 :
  frameLoop st ts1 = (st1, Reading) -> frameLoop st (ts1 ++ ts2) = frameLoop st1 ts2.
Proof.
  revert st. induction ts1 as [|t ts1 IH]; intros st H; simpl in *; [by simplify_eq|].
  destruct (handleTurn st t) as [st2 [e|]]; [done|auto].
Qed.

(** A timed-out read with nobody asking to stop. *)
Definition silent (t : Turn) : Prop :=
  t_shutdown t = false /\ t_shutdown2 t = false /\ t_read t = RTimeout.

Lemma handleTurn_silent {L : RoleLaws R} st t :
  silent t ->
  (handleTurn st t).2 = Returned (Some ErrGoaway) \/
  exists c, c_pingPending c = c_pingPending (role_conn st) /\ c_pingDeadline c = c_pingDeadline (role_conn st) /\
    role_conn (handleTurn st t).1 = (SendOrCheckPing c (t_now t)).1 /\
    (handleTurn st t).2 = match (SendOrCheckPing c (t_now t)).2 with Some e => Returned (Some e) | None => Reading end.
Proof.
  intros (H1 & H2 & H3). unfold handleTurn. rewrite H1, H2, H3.
  destruct (DrainComplete (role_conn st)); [by left|]. cbv zeta.
  set (st1 := role_env _ _). destruct (DrainComplete (role_conn st1)); [by left|]. right.
  exists (role_conn st1). destruct (env_ping (on_conn st (fun c => SetIdleDeadline c (t_start t))) (t_env t)) as [E1 E2].
  unfold st1, on_conn in *. rewrite E1, E2, conn_setConn.
  destruct (SendOrCheckPing _ _) as [c e]. cbn. by rewrite conn_setConn.
Qed.

(** A dead peer is noticed at the second idle tick: after two reads in a
    row that time out a PingInterval after they started, the loop has
    returned, with ErrPingTimeout (or ErrGoaway if a drain completed
    meanwhile), whatever the other goroutines did and whether or not a PING
    was already outstanding. *)
Theorem silent_peer_is_detected {L : RoleLaws R} st t1 t2 :
  silent t1 -> silent t2 -> t_now t1 <= t_start t2 -> t_start t2 + PingInterval <= t_now t2 ->
  (c_pingPending (role_conn st) = true -> c_pingDeadline (role_conn st) <= t_now t1 + PingTimeout) ->
  (frameLoop st [t1; t2]).2 = Returned (Some ErrPingTimeout) \/
  (frameLoop st [t1; t2]).2 = Returned (Some ErrGoaway).
Proof.
  intros Hs1 Hs2 Ht1 Ht2 Hp. unfold PingInterval in Ht2. cbn [frameLoop].
  destruct (handleTurn_silent st t1 Hs1) as [E|(c1 & Ep1 & Ed1 & Ec1 & E1)].
  { destruct (handleTurn st t1) as [st1 r1]. cbn in E. subst r1. by right. }
  destruct (handleTurn st t1) as [st1 r1]. cbn [fst snd] in *.
  assert (Hnext : r1 = Returned (Some ErrPingTimeout) \/
    r1 = Reading /\ c_pingPending (role_conn st1) = true /\ c_pingDeadline (role_conn st1) <= t_now t1 + PingTimeout).
  { destruct (c_pingPending c1) eqn:Hpp.
    - rewrite SendOrCheckPing_pending in Ec1, E1 by done. cbn in Ec1, E1. destruct (_ <? _); [by left|right].
      rewrite Ec1, Ed1. split_and!; [done|done|]. apply Hp. congruence.
    - destruct (SendOrCheckPing_idle c1 (t_now t1) Hpp) as (c' & Es & ? & _ & Hd & _). rewrite Es in Ec1, E1.
      cbn in Ec1, E1. right. rewrite Ec1, Hd. split_and!; [done|done|lia]. }
  destruct Hnext as [-> |(-> & Hpp & Hdl)]; [by left|].
  destruct (handleTurn_silent st1 t2 Hs2) as [E|(c2 & Ep2 & Ed2 & _ & E2)].
  { destruct (handleTurn st1 t2) as [st2 r2]. cbn in E. subst r2. by right. }
  destruct (handleTurn st1 t2) as [st2 r2]. cbn [fst snd] in *.
  rewrite SendOrCheckPing_pending in E2 by congruence. cbn in E2.
  rewrite (proj2 (Z.ltb_lt _ _)) in E2 by (unfold PingTimeout in *; lia). subst r2. by left.
Qed.

(** A property every turn keeps holds wherever the loop is. *)
Lemma frameLoop_inv (P : rstate -> Prop) (Q : Turn -> Prop) st ts st' r :
  (forall st t, P st -> Q t -> P (handleTurn st t).1) ->
  P st -> Forall Q ts -> frameLoop st ts = (st', r) -> P st'.
Proof.
  intros Hstep Hst Hts. revert st Hst. induction Hts as [|t ts Ht Hts IH]; intros st Hst H; simpl in H; [by simplify_eq|].
  pose proof (Hstep st t Hst Ht) as Hst1. destruct (handleTurn st t) as [st1 [e|]]; [by simplify_eq|]. by eapply IH.
Qed.

(** The same with a budget that every turn may use up. *)
Lemma frameLoop_inv_n (P : nat -> rstate -> Prop) (cost : Turn -> nat) (Q : Turn -> Prop) k st ts st' r :
  (forall k k' st, (k <= k')%nat -> P k st -> P k' st) ->
  (forall k st t, P k st -> Q t -> P (k + cost t)%nat (handleTurn st t).1) ->
  P k st -> Forall Q ts -> frameLoop st ts = (st', r) -> P (k + sum_list_with cost ts)%nat st'.
Proof.
  intros Hmono Hstep Hst Hts. revert k st Hst. induction Hts as [|t ts Ht Hts IH]; intros k st Hst H; simpl in H |- *.
  { simplify_eq. by rewrite Nat.add_0_r. }
  pose proof (Hstep k st t Hst Ht) as Hst1. destruct (handleTurn st t) as [st1 [e|]].
  - simplify_eq. eapply Hmono, Hst1. lia.
  - rewrite Nat.add_assoc. by eapply IH.
Qed.

(** How the loop ends, as the last turn shows. *)
Lemma frameLoop_returned st ts st' e :
  frameLoop st ts = (st', Returned e) ->
  exists ts1 t ts2 st1, ts = ts1 ++ t :: ts2 /\ frameLoop st ts1 = (st1, Reading) /\ handleTurn st1 t = (st', Returned e).
Proof.
  revert st. induction ts as [|t ts IH]; intros st H; simpl in H; [done|].
  destruct (handleTurn st t) as [st1 [e1|]] eqn:E.
  - simplify_eq. by exists [], t, ts, st.
  - destruct (IH _ H) as (ts1 & t' & ts2 & st2 & -> & Hl & Ht). exists (t :: ts1), t', ts2, st2.
    split_and!; [done| |done]. simpl. by rewrite E.
Qed.

End Loop.
