(* ===== verification/Serve.v ===== *)
(** * The worker's frame loop (handler.go)

    [serve] with its teardown, [handleFrame] and [dispatchInboundHeaders].
    The state is the process's buffer store, the connection, and the list of
    header blocks for which a stream goroutine was started (ResponseWriter.v
    is what such a goroutine does).  Stream goroutines appear as environment
    events: they read bodies, reserve credit, submit intents and, when they
    end, remove and release their stream. *)

From Stdlib Require Import Strings.Byte.
From S2P Require Import Prelude Errors Flow Names H2Stream Writer HeaderBlock Conn ConnInv FrameLoop.

Section Serve.

Context {HD : HpackDecoder}.

Record WState := mkWS {
  ws_mem : Mem;
  ws_conn : Conn;
  ws_spawned : list DecodedHeaders
}.

Definition ws_with (st : WState) (c : Conn) : WState := mkWS (ws_mem st) c (ws_spawned st).

(** What stream goroutines do between two turns of the loop. *)
Inductive StreamEv :=
| SDone (id now : Z)   (* [RemoveStream], [HeaderPool.Put], [Release]; Handover.v has them one by one *)
| SReserve (id want : Z)
| SRead (id : Z) (plen : nat)
| SClose (id : Z)     (* the handler closes the request's body *)
| SSubmit (i : writeIntent)
| SWriterDied.        (* a frame could not be written: [writeDeadCh] is closed *)

Definition update_stream (c : Conn) (id : Z) (s : Stream) : Conn := set_c_streams c (<[id := s]> (c_streams c)).

Definition stream_ev (st : WState) (e : StreamEv) : WState :=
  let 'mkWS m c sp := st in
  match e with
  | SDone id now =>
      match GetStream c id with
      | Some s => mkWS (Release m s).1 (RemoveStream c id now) sp
      | None => st
      end
  | SReserve id want =>
      match GetStream c id with
      | Some s =>
          let '(_, sc, sw) := Reserve (c_Send c) (s_SendWindow s) want in
          mkWS m (update_stream (set_c_Send c sc) id (set_SendWindow s sw)) sp
      | None => st
      end
  | SRead id plen =>
      match GetStream c id with
      | Some s => let '(m, s, _) := Read m s plen in mkWS m (update_stream c id s) sp
      | None => st
      end
  | SClose id =>
      match GetStream c id with
      | Some s => let '(m, s) := BodyClose m s in mkWS m (update_stream c id s) sp
      | None => st
      end
  | SSubmit i => mkWS m (submitAsync c i) sp
  | SWriterDied => mkWS m (set_c_writeDead c true) sp
  end.

(** The connection as an [int]: identifies the [*Conn] of a stream. *)
Definition connPtr : nat := 0.

Definition dispatchInboundHeaders (st : WState) (decoded : DecodedHeaders) : WState :=
  let c := ws_conn st in
  let s := Acquire newStream (dh_StreamID decoded) connPtr (InitialStreamWindow (c_Send c)) in
  let c := AddStream c s in
  let c := if dh_EndStream decoded then update_stream c (dh_StreamID decoded) (CloseData s) else c in
  mkWS (ws_mem st) c (ws_spawned st ++ [decoded]).

Definition handleFrame (st : WState) (choice : PoolChoice) (now : Z) (f : Frame) : WState * option gerror :=
  let c := ws_conn st in
  match f with
  | FSettings ack ss =>
      if ack then (st, None)
      else match ApplyPeerSettings c ss with
           | (c, Some e) => (ws_with st c, Some e)
           | (c, None) => (ws_with st (submitAsync c SendSettingsAck), None)
           end
  | FWindowUpdate id inc => (ws_with st (HandleWindowUpdate c id (i32 inc)), None)
  | FHeaders f =>
      match GetStream c (hf_StreamID f) with
      | Some _ => (st, None)
      | None =>
          let '(h, r) := StartHeaders (c_hdr c) f in
          let st := ws_with st (set_c_hdr c h) in
          match r with
          | inr e => (st, Some e)
          | inl None => (st, None)
          | inl (Some d) => (dispatchInboundHeaders st d, None)
          end
      end
  | FData id data len es =>
      let '(m, c) := HandleInboundData (ws_mem st) c choice id data len es in
      (mkWS m c (ws_spawned st), None)
  | FPing ack data =>
      if ack then (ws_with st (HandlePingAck c data), None)
      else (ws_with st (submitAsync c (SendPing true data)), None)
  | FGoAway _ code =>
      if negb (code =? ErrCodeNo) then (st, Some ErrGoaway)
      else (ws_with st (BeginDrain c now), None)
  | FRSTStream id _ => (ws_with st (HandleRSTStream c id), None)
  | FContinuation _ | FOther => (st, None)
  end.

#[global] Instance workerRole : Role := {
  rstate := WState;
  renv := list StreamEv;
  role_conn := ws_conn;
  role_setConn := ws_with;
  role_env := foldl stream_ev;
  role_frame := handleFrame;
  role_dispatch := dispatchInboundHeaders
}.

(** The teardown [defer] of [serve]: no reservation or body read may block
    any longer, the peer gets a GOAWAY, the writer is shut down. *)
Definition serveTeardown (st : WState) : WState :=
  let c := ws_conn st in
  let c := set_c_Send c (MarkDead (c_Send c)) in
  let c := FailAllStreams c ErrConnClosed in
  let c := submitAsync c (SendGoAway (LastStreamID (c_hdr c)) ErrCodeNo) in
  ws_with st (set_c_writeDead c true).

(** [serve]: the result is [None] while it is still reading. *)
Definition serve (st : WState) (rs : list ReadOutcome) (ts : list Turn) : WState * option (option gerror) :=
  match awaitSettings st rs with
  | (st, None) => (st, None)
  | (st, Some (Some e)) => (serveTeardown st, Some (Some e))
  | (st, Some None) =>
      match frameLoop st ts with
      | (st, Reading) => (st, None)
      | (st, Returned e) => (serveTeardown st, Some e)
      end
  end.

(** ** Environment lemmas *)

Lemma stream_ev_frame st e :
  c_hdr (ws_conn (stream_ev st e)) = c_hdr (ws_conn st) /\
  c_pingPending (ws_conn (stream_ev st e)) = c_pingPending (ws_conn st) /\
  c_pingDeadline (ws_conn (stream_ev st e)) = c_pingDeadline (ws_conn st).
Proof.
  destruct st as [m c sp], e as [id now|id want|id plen|id|i|]; simpl.
  - destruct (GetStream c id); [|done]. unfold RemoveStream, finishDrain. cbn. by repeat case_match.
  - destruct (GetStream c id); [|done]. by destruct (Reserve _ _ _) as [[? ?] ?].
  - destruct (GetStream c id); [|done]. by destruct (Read _ _ _) as [[? ?] ?].
  - destruct (GetStream c id); [|done]. by destruct (BodyClose _ _) as [? ?].
  - unfold submitAsync. by destruct (c_writeDead c).
  - done.
Qed.

Lemma stream_evs_frame es st :
  c_hdr (ws_conn (foldl stream_ev st es)) = c_hdr (ws_conn st) /\
  c_pingPending (ws_conn (foldl stream_ev st es)) = c_pingPending (ws_conn st) /\
  c_pingDeadline (ws_conn (foldl stream_ev st es)) = c_pingDeadline (ws_conn st).
Proof.
  revert st. induction es as [|e es IH]; intros st; [done|]. cbn [foldl].
  destruct (IH (stream_ev st e)) as (-> & -> & ->). apply stream_ev_frame.
Qed.

#[global] Instance workerLaws : RoleLaws workerRole.
Proof.
  split.
  - done.
  - intros st e. apply (stream_evs_frame e st).
  - intros st e. apply (stream_evs_frame e st).
Qed.

(** ** The invariant *)

(** The connection's invariant; the stream a header block is being collected
    for is not registered yet; LastStreamID covers every registered stream. *)
Definition worker_inv (st : WState) : Prop :=
  let c := ws_conn st in
  conn_inv (ws_mem st) c /\
  (InContinuation (c_hdr c) = true -> c_streams c !! ContStreamID (c_hdr c) = None /\
     0 < ContStreamID (c_hdr c) <= LastStreamID (c_hdr c)) /\
  map_Forall (fun id _ => id <= LastStreamID (c_hdr c)) (c_streams c).

(** What the framer guarantees of the frames it returns. *)
Definition frame_ok (f : Frame) : Prop :=
  match f with
  | FSettings _ ss => Forall (fun s => is_u32 s.2) ss
  | FHeaders f => 0 < hf_StreamID f /\ Z.of_nat (length (hf_fragment f)) <= 16384
  | FContinuation f => Z.of_nat (length (cf_fragment f)) <= 16384
  | _ => True
  end.

Definition turn_ok (t : Turn) : Prop := match t_read t with RFrame f => frame_ok f | _ => True end.

(** The connection changes without touching headers, and no new stream appears. *)
Lemma worker_inv_mono st m c :
  worker_inv st -> conn_inv m c -> c_hdr c = c_hdr (ws_conn st) ->
  (forall id, is_Some (c_streams c !! id) -> is_Some (c_streams (ws_conn st) !! id)) ->
  worker_inv (mkWS m c (ws_spawned st)).
Proof.
  intros (_ & Hc & Hl) Hi Hh Hs. unfold worker_inv. cbn [ws_conn ws_mem]. rewrite Hh. split_and!; [done| |].
  - intros Hin. destruct (Hc Hin) as [Hn Hr]. split; [|done].
    destruct (c_streams c !! _) eqn:E; [|done]. destruct (Hs _ ltac:(by rewrite E)) as [? Hx]. congruence.
  - intros id s Hid. destruct (Hs id ltac:(by rewrite Hid)) as [s0 Hs0]. apply (Hl id s0 Hs0).
Qed.

Lemma stream_ev_inv st e : worker_inv st -> worker_inv (stream_ev st e).
Proof.
  intros H. pose proof H as (Hi & _). destruct st as [m c sp], e as [id now|id want|id plen|id|i|]; simpl in *.
  - unfold GetStream. destruct (c_streams c !! id) as [s|] eqn:E; [|done].
    destruct (RemoveStream_spec c id now) as (Eh & Es & _).
    apply (worker_inv_mono (mkWS m c sp)); [done|by apply RemoveStream_inv|done|].
    cbn. rewrite Es. by intros k [_ ?]%lookup_delete_is_Some.
  - unfold GetStream. destruct (c_streams c !! id) as [s|] eqn:E; [|done].
    destruct (Reserve _ _ _) as [[r sc] sw] eqn:Er.
    apply (worker_inv_mono (mkWS m c sp)); [done|exact (Reserve_inv _ _ _ _ _ _ _ _ Hi E Er)|done|].
    cbn. intros k [<- |?]%lookup_insert_is_Some'; [by rewrite E|done].
  - unfold GetStream. destruct (c_streams c !! id) as [s|] eqn:E; [|done].
    destruct (Read _ _ _) as [[m' s'] r] eqn:Er.
    apply (worker_inv_mono (mkWS m c sp)); [done|exact (Read_inv _ _ _ _ _ _ _ _ Hi E Er)|done|].
    cbn. intros k [<- |?]%lookup_insert_is_Some'; [by rewrite E|done].
  - unfold GetStream. destruct (c_streams c !! id) as [s|] eqn:E; [|done].
    destruct (BodyClose _ _) as [m' s'] eqn:Er.
    apply (worker_inv_mono (mkWS m c sp)); [done|exact (BodyClose_inv _ _ _ _ _ _ Hi E Er)|done|].
    cbn. intros k [<- |?]%lookup_insert_is_Some'; [by rewrite E|done].
  - apply (worker_inv_mono (mkWS m c sp)); [done|by apply submitAsync_inv|..];
      unfold submitAsync; by destruct (c_writeDead c).
  - apply (worker_inv_mono (mkWS m c sp)); [done|by eapply conn_inv_same|done..].
Qed.

Lemma decodeBlock_spec h id blk es h' r :
  decodeBlock h id blk es = (h', r) ->
  contStreamID h' = contStreamID h /\ LastStreamID h' = LastStreamID h /\
  forall d, r = inl d -> dh_StreamID d = id /\ dh_EndStream d = es.
Proof.
  unfold decodeBlock. destruct (dec_write _ _) as [[d fs] [e|]]; [intros; by simplify_eq|].
  destruct (dec_close d) as [d' [e|]]; intros; simplify_eq; (split_and!; [done|done|]); by intros ? [= <-].
Qed.

Lemma StartHeaders_spec h f h' r :
  InContinuation h = false -> StartHeaders h f = (h', r) ->
  LastStreamID h' = Z.max (LastStreamID h) (hf_StreamID f) /\
  contStreamID h' = (if hf_endHeaders f then 0 else hf_StreamID f) /\
  match r with
  | inl (Some d) => hf_endHeaders f = true /\ dh_StreamID d = hf_StreamID f /\ dh_EndStream d = hf_endStream f
  | inl None => hf_endHeaders f = false
  | inr _ => True
  end.
Proof.
  intros Hc H. unfold InContinuation in Hc. bool_prop. unfold StartHeaders in H.
  set (h1 := if _ <? _ then _ else h) in *.
  assert (H1 : LastStreamID h1 = Z.max (LastStreamID h) (hf_StreamID f) /\ contStreamID h1 = contStreamID h).
  { unfold h1. destruct (_ <? _) eqn:E; bool_prop; cbn; (split; [lia|done]). }
  destruct H1 as [HL HC]. destruct (hf_endHeaders f); [|by simplify_eq].
  destruct (decodeBlock h1 _ _ _) as [h2 r2] eqn:E. destruct (decodeBlock_spec _ _ _ _ _ _ E) as (E1 & E2 & E3).
  destruct r2 as [d|e]; simpl in H; simplify_eq; (split; [lia|split; [lia|]]); [|done].
  split; [done|]. by apply E3.
Qed.

Lemma ConsumeContinuation_spec h f h' r :
  ConsumeContinuation h f = (h', r) ->
  LastStreamID h' = LastStreamID h /\ (contStreamID h' = contStreamID h \/ contStreamID h' = 0) /\
  forall d, r = inl (Some d) ->
    contStreamID h' = 0 /\ dh_StreamID d = contStreamID h /\ dh_EndStream d = contStreamEnded h.
Proof.
  intros H. unfold ConsumeContinuation in H. destruct (_ <? _); [simplify_eq; split_and!; [done|by left|done]|].
  destruct (negb _); [simplify_eq; split_and!; [done|by left|done]|].
  destruct (decodeBlock _ _ _ _) as [h2 r2] eqn:E. destruct (decodeBlock_spec _ _ _ _ _ _ E) as (E1 & E2 & E3).
  cbn in E1, E2. destruct r2 as [d|e]; simpl in H; simplify_eq; (split_and!; [done|by right|]); [|done].
  intros d0 [= <-]. split; [done|]. by apply E3.
Qed.

(** The state just before a block is dispatched. *)
Lemma dispatch_inv st d :
  conn_inv (ws_mem st) (ws_conn st) -> InContinuation (c_hdr (ws_conn st)) = false ->
  map_Forall (fun id _ => id <= LastStreamID (c_hdr (ws_conn st))) (c_streams (ws_conn st)) ->
  c_streams (ws_conn st) !! dh_StreamID d = None -> dh_StreamID d <= LastStreamID (c_hdr (ws_conn st)) ->
  worker_inv (dispatchInboundHeaders st d).
Proof.
  intros Hi Hc Hl Hn Hle. unfold dispatchInboundHeaders, worker_inv. cbn [ws_mem ws_conn].
  set (s := Acquire newStream _ _ _). set (c1 := AddStream (ws_conn st) s).
  assert (H1 : conn_inv (ws_mem st) c1).
  { apply AddStream_new_inv; [done|done|]. destruct Hi as ((_ & ? & _) & _). unfold InitialStreamWindow. range32. }
  assert (Hs1 : c_streams c1 !! dh_StreamID d = Some s) by (apply lookup_insert_eq).
  assert (Hl1 : map_Forall (fun id _ => id <= LastStreamID (c_hdr (ws_conn st))) (c_streams c1)).
  { by apply map_Forall_insert_2. }
  assert (Hh1 : c_hdr c1 = c_hdr (ws_conn st)) by done. clearbody s c1.
  assert (H2 : conn_inv (ws_mem st) (if dh_EndStream d then update_stream c1 (dh_StreamID d) (CloseData s) else c1) /\
    c_hdr (if dh_EndStream d then update_stream c1 (dh_StreamID d) (CloseData s) else c1) = c_hdr (ws_conn st)).
  { destruct (dh_EndStream d); [|done]. split; [|done].
    eapply (body_step_inv _ _ c1 _ s (CloseData s) (BCloseData (dh_StreamID d)) None); try done.
    unfold body_step. cbn. by rewrite Hs1. }
  destruct H2 as [H2 ->]. split_and!; [done|by rewrite Hc|].
  destruct (dh_EndStream d); [|done]. unfold update_stream. cbn. by apply map_Forall_insert_2.
Qed.

Lemma set_hdr_inv st h :
  worker_inv st -> cont_bounded h -> conn_inv (ws_mem st) (set_c_hdr (ws_conn st) h).
Proof. intros (Hi & _) Hb. by apply set_c_hdr_inv. Qed.

Lemma streams_below st h :
  worker_inv st -> LastStreamID (c_hdr (ws_conn st)) <= LastStreamID h ->
  map_Forall (fun id _ => id <= LastStreamID h) (c_streams (ws_conn st)).
Proof. intros (_ & _ & Hl) Hle id s Hs. specialize (Hl id s Hs). simpl in *. lia. Qed.

Lemma handleFrame_inv st ch now f st' e :
  worker_inv st -> InContinuation (c_hdr (ws_conn st)) = false -> frame_ok f ->
  handleFrame st ch now f = (st', e) -> worker_inv st'.
Proof.
  intros H Hc Hf Hh. pose proof H as (Hi & _ & Hl).
  assert (Hsame : forall m c, conn_inv m c -> same_regs (ws_conn st) c -> worker_inv (mkWS m c (ws_spawned st)))
    by (intros m c ? [? Hd ? ? ?]; apply worker_inv_mono; [done..|intros; by apply Hd]).
  destruct f as [ack ss|id inc|f|f|id data len es|ack data|l code|id code|]; simpl in Hh; try by simplify_eq.
  - destruct ack; [by simplify_eq|].
    pose proof (ApplyPeerSettings_inv _ _ ss Hi Hf) as Hi'. pose proof (ApplyPeerSettings_regs (ws_conn st) ss) as Hr.
    destruct (ApplyPeerSettings _ _) as [c1 [e1|]]; simplify_eq; apply Hsame; auto with conn.
    etrans; [exact Hr|by apply submitAsync_regs].
  - simplify_eq. apply Hsame; auto with conn.
  - unfold GetStream in Hh. destruct (c_streams (ws_conn st) !! hf_StreamID f) eqn:E; [by simplify_eq|].
    destruct Hf as [Hid Hlen]. destruct (StartHeaders _ f) as [h r] eqn:Es.
    pose proof (StartHeaders_bounded (c_hdr (ws_conn st)) f ltac:(apply Hi) Hlen) as Hb. rewrite Es in Hb.
    destruct (StartHeaders_spec _ _ _ _ Hc Es) as (HL & HC & Hr).
    pose proof (set_hdr_inv st h H Hb) as Hi'. pose proof (streams_below st h H ltac:(lia)) as Hl'.
    destruct r as [[d|]|e1]; simplify_eq.
    + destruct Hr as (He & Hd & _). rewrite He in HC. apply dispatch_inv; cbn; try done.
      * unfold InContinuation. by rewrite HC.
      * by rewrite Hd.
      * lia.
    + rewrite Hr in HC. split_and!; cbn; [done| |done]. intros _. unfold ContStreamID. rewrite HC. split; [done|lia].
    + split_and!; cbn; [done| |done]. unfold InContinuation, ContStreamID. rewrite HC.
      destruct (hf_endHeaders f); [done|]. intros _. split; [done|lia].
  - destruct (HandleInboundData _ _ _ _ _ _ _) as [m c] eqn:E. simplify_eq. apply Hsame.
    + by eapply HandleInboundData_inv.
    + pose proof (HandleInboundData_regs (ws_mem st) (ws_conn st) ch id data len es) as Hr. by rewrite E in Hr.
  - destruct ack; simplify_eq; apply Hsame; auto with conn. by apply submitAsync_regs.
  - destruct (negb _); simplify_eq; [done|]. apply Hsame; auto with conn.
  - simplify_eq. apply Hsame; auto with conn.
Qed.

Lemma continueBlock_inv st f st' e :
  worker_inv st -> InContinuation (c_hdr (ws_conn st)) = true -> frame_ok f ->
  continueBlock (R := workerRole) st f = (st', e) -> worker_inv st'.
Proof.
  intros H Hin Hf Hh. pose proof H as (Hi & Hc & Hl). destruct (Hc Hin) as [Hn Hid].
  destruct f as [| | |cf| | | | |]; simpl in Hh; try by simplify_eq.
  destruct (negb _); [by simplify_eq|].
  destruct (ConsumeContinuation _ cf) as [h r] eqn:E.
  pose proof (proj1 (continuation_accumulator_bounded' (c_hdr (ws_conn st)) cf ltac:(apply Hi) Hf)) as Hb. rewrite E in Hb.
  destruct (ConsumeContinuation_spec _ _ _ _ E) as (HL & HC & Hd).
  pose proof (set_hdr_inv st h H Hb) as Hi'. pose proof (streams_below st h H ltac:(lia)) as Hl'.
  unfold ContStreamID in *.
  assert (Hkeep : worker_inv (ws_with st (set_c_hdr (ws_conn st) h))).
  { split_and!; cbn; [done| |done]. unfold InContinuation, ContStreamID. destruct HC as [-> | ->]; [|done].
    intros _. split; [done|lia]. }
  destruct r as [[d|]|e1]; simplify_eq; [|done..].
  destruct (Hd d eq_refl) as (HC0 & Hds & _). apply dispatch_inv; cbn; try done.
  - unfold InContinuation. by rewrite HC0.
  - by rewrite Hds.
  - lia.
Qed.

Lemma turn_env_inv st start es :
  worker_inv st -> worker_inv (foldl stream_ev (ws_with st (SetIdleDeadline (ws_conn st) start)) es).
Proof.
  intros H. assert (H0 : worker_inv (ws_with st (SetIdleDeadline (ws_conn st) start))).
  { pose proof H as (Hi & _). destruct (SetIdleDeadline_regs (ws_conn st) start) as [E1 E2 _ _ _].
    apply worker_inv_mono; auto with conn. }
  revert H0. generalize (ws_with st (SetIdleDeadline (ws_conn st) start)).
  induction es as [|e es IH]; intros st0 H0; [done|]. by apply IH, stream_ev_inv.
Qed.

Lemma handleTurn_inv st t : worker_inv st -> turn_ok t -> worker_inv (handleTurn (R := workerRole) st t).1.
Proof.
  intros H Ht. unfold handleTurn. destruct (t_shutdown t); [done|]. destruct (DrainComplete _); [done|].
  set (st1 := role_env _ _).
  assert (H1 : worker_inv st1) by (exact (turn_env_inv st (t_start t) (t_env t) H)).
  clearbody st1. unfold turn_ok in Ht. destruct (t_read t) as [f| |e].
  - destruct (InContinuation _) eqn:Hc.
    + destruct (continueBlock st1 f) as [st2 e] eqn:E. by eapply continueBlock_inv.
    + destruct (role_frame st1 _ _ f) as [st2 e] eqn:E. by eapply handleFrame_inv.
  - destruct (t_shutdown2 t); [done|]. destruct (DrainComplete _); [done|].
    pose proof H1 as (Hi & _). pose proof (SendOrCheckPing_inv _ _ (t_now t) Hi) as Hi'.
    destruct (SendOrCheckPing_regs (ws_conn st1) (t_now t)) as [E1 E2 _ _ _].
    cbn [role_conn workerRole] in *. destruct (SendOrCheckPing _ _) as [c e].
    apply worker_inv_mono; [done..|intros; by apply E2].
  - done.
Qed.


Definition read_ok (r : ReadOutcome) : Prop := match r with RFrame f => frame_ok f | _ => True end.

Lemma awaitSettings_inv st rs st' r :
  worker_inv st -> Forall read_ok rs -> awaitSettings (R := workerRole) st rs = (st', r) -> worker_inv st'.
Proof.
  intros H Hrs. revert st H. induction Hrs as [|x rs Hx Hrs IH]; intros st H Ha; simpl in Ha; [by simplify_eq|].
  destruct x as [f| |e]; [|by simplify_eq..].
  destruct f as [ack ss| | | | | | | |]; try by eapply IH.
  destruct ack; [by eapply IH|]. pose proof H as (Hi & _).
  pose proof (ApplyPeerSettings_inv _ _ ss Hi Hx) as Hi'. pose proof (ApplyPeerSettings_regs (ws_conn st) ss) as [E1 E2 _ _ _].
  cbn [role_conn workerRole] in *. destruct (ApplyPeerSettings _ _) as [c1 [e1|]]; simplify_eq.
  - apply worker_inv_mono; [done..|intros; by apply E2].
  - destruct (submitAsync_regs c1 SendSettingsAck ltac:(done)) as [E3 E4 _ _ _].
    apply worker_inv_mono; [done|by apply submitAsync_inv|cbn in *; congruence|].
    intros id Hid. by apply E2, E4.
Qed.

(** What the teardown leaves behind. *)
Definition torn_down (c : Conn) : Prop :=
  dead (c_Send c) = true /\ c_writeDead c = true /\
  map_Forall (fun _ s => s_dataDone s = true /\ is_Some (s_dataErr s) /\ s_ctx s <> Some false) (c_streams c).

Lemma serveTeardown_spec st :
  worker_inv st ->
  worker_inv (serveTeardown st) /\ torn_down (ws_conn (serveTeardown st)) /\
  c_out (ws_conn (serveTeardown st)) =
    (if c_writeDead (ws_conn st) then c_out (ws_conn st)
     else c_out (ws_conn st) ++ [SendGoAway (LastStreamID (c_hdr (ws_conn st))) ErrCodeNo]).
Proof.
  intros H. pose proof H as (Hi & Hc & Hl).
  set (c0 := set_c_Send (ws_conn st) (MarkDead (c_Send (ws_conn st)))).
  assert (H0 : conn_inv (ws_mem st) c0).
  { destruct Hi as ((? & ? & ?) & ? & ? & ? & ?). by split_and!. }
  set (c1 := FailAllStreams c0 ErrConnClosed).
  assert (H1 : conn_inv (ws_mem st) c1) by (by apply FailAllStreams_inv).
  assert (Hlk : forall id s, c_streams c1 !! id = Some s ->
    exists s0, c_streams (ws_conn st) !! id = Some s0 /\ s = FailBody s0 ErrConnClosed).
  { intros id s Hs. cbn in Hs. rewrite lookup_fmap in Hs. destruct (c_streams (ws_conn st) !! id); simplify_eq/=. eauto. }
  assert (Hall : map_Forall (fun _ s => s_dataDone s = true /\ is_Some (s_dataErr s) /\ s_ctx s <> Some false) (c_streams c1)).
  { intros id s (s0 & _ & ->)%Hlk. cbn. split_and!; [done|by destruct (s_dataErr s0)|by destruct (s_ctx s0)]. }
  assert (Hst : forall c, conn_inv (ws_mem st) c -> c_hdr c = c_hdr (ws_conn st) -> c_streams c = c_streams c1 ->
    worker_inv (mkWS (ws_mem st) c (ws_spawned st))).
  { intros c Hic Eh Es. apply worker_inv_mono; [done..|]. intros id [s Hs]. rewrite Es in Hs.
    destruct (Hlk _ _ Hs) as (s0 & -> & _). done. }
  unfold serveTeardown. fold c0 c1.
  pose proof (submitAsync_inv _ _ (SendGoAway (LastStreamID (c_hdr c1)) ErrCodeNo) H1) as H2.
  split; [|split].
  - apply Hst; [by eapply conn_inv_same| |]; unfold submitAsync; by destruct (c_writeDead c1).
  - unfold torn_down, submitAsync. by destruct (c_writeDead c1).
  - unfold submitAsync. cbn. by destruct (c_writeDead (ws_conn st)).
Qed.

(** The worker's state when [serve] is called on a new connection. *)
Definition serve_init (d : decoder) : WState :=
  mkWS (mkMem ∅ ∅ [] 0) (newConn d) [].

Lemma serve_init_inv d : worker_inv (serve_init d).
Proof. split; [apply New_inv|]. split; [done|apply map_Forall_empty]. Qed.

Lemma serve_inv st rs ts st' r :
  worker_inv st -> Forall read_ok rs -> Forall turn_ok ts -> serve st rs ts = (st', r) -> worker_inv st'.
Proof.
  intros H Hrs Hts Hs. unfold serve in Hs. destruct (awaitSettings (R := workerRole) st rs) as [st1 [[e|]|]] eqn:E;
    pose proof (awaitSettings_inv _ _ _ _ H Hrs E) as H1.
  - simplify_eq. by apply serveTeardown_spec.
  - destruct (frameLoop (R := workerRole) st1 ts) as [st2 r2] eqn:E2.
    pose proof (frameLoop_inv worker_inv turn_ok st1 ts st2 r2 handleTurn_inv H1 Hts E2) as H2.
    destruct r2; simplify_eq; [by apply serveTeardown_spec|done].
  - by simplify_eq.
Qed.

(** C18. The worker's state stays consistent: from a new connection, whatever
    frames arrive, in whatever order, interleaved with any activity of the
    stream goroutines, the peer's settings are within their RFC bounds, every
    stream is registered under its own id with an int32 window, every pooled
    buffer has one owner, the header accumulator is bounded, LastStreamID
    covers every registered stream, and the stream whose header block is
    being collected is not registered. *)
Theorem worker_state_invariant d rs ts st r :
  Forall read_ok rs -> Forall turn_ok ts -> serve (serve_init d) rs ts = (st, r) -> worker_inv st.
Proof. intros Hrs Hts H. by eapply serve_inv, H; [apply serve_init_inv|..]. Qed.

(** *** Until the writer dies *)










(** A complete request HEADERS block starts exactly one stream goroutine:
    the block is decoded, the stream is registered under its id with the
    peer's initial window, an empty body that is ended iff END_STREAM was set,
    and no other stream changes. *)
Theorem request_dispatched_once st ch now f h d :
  GetStream (ws_conn st) (hf_StreamID f) = None -> InContinuation (c_hdr (ws_conn st)) = false ->
  StartHeaders (c_hdr (ws_conn st)) f = (h, inl (Some d)) ->
  exists st' s, handleFrame st ch now (FHeaders f) = (st', None) /\
    ws_spawned st' = ws_spawned st ++ [d] /\ dh_StreamID d = hf_StreamID f /\ c_hdr (ws_conn st') = h /\
    c_streams (ws_conn st') = <[hf_StreamID f := s]> (c_streams (ws_conn st)) /\
    s_ID s = hf_StreamID f /\ s_SendWindow s = PeerInitWindow (c_Send (ws_conn st)) /\
    s_dataDone s = hf_endStream f /\ s_dataErr s = None /\ s_ctx s = Some false /\ held s = [].
Proof.
  intros Hn Hc Hs. destruct (StartHeaders_spec _ _ _ _ Hc Hs) as (_ & _ & _ & Hd & He).
  unfold handleFrame. rewrite Hn, Hs. unfold dispatchInboundHeaders. cbn [ws_conn ws_with].
  rewrite Hd, He. destruct (hf_endStream f).
  - do 2 eexists. split; [reflexivity|]. cbn. rewrite insert_insert_eq. by split_and!.
  - do 2 eexists. split; [reflexivity|]. cbn. by split_and!.
Qed.

(** Request trailers are dropped: a HEADERS frame for a registered stream
    is ignored as a whole, so its END_STREAM does not end the request body
    (a handler reading the body waits on) and its block does not reach the
    HPACK decoder, which the peer's encoder assumes it did. *)
Theorem trailers_are_ignored st ch now f s :
  GetStream (ws_conn st) (hf_StreamID f) = Some s -> s_dataDone s = false -> hf_endStream f = true ->
  held s = [] -> ring_wf s -> sl_len (buf (s_body s)) = 0%nat ->
  handleFrame st ch now (FHeaders f) = (st, None) /\
  (forall m plen, (Read m s plen).2 = RBlocked) /\
  h_dec (c_hdr (ws_conn (handleFrame st ch now (FHeaders f)).1)) = h_dec (c_hdr (ws_conn st)).
Proof.
  intros Hs Hd He Hh [Hq _] Hb. unfold handleFrame. rewrite Hs. split_and!; [done| |done].
  intros m plen. unfold Read. rewrite Hb, Hd. cbn [Nat.ltb Nat.leb negb].
  unfold held in Hh. apply app_eq_nil in Hh as [_ Hdrop].
  apply (f_equal length) in Hdrop. rewrite length_drop in Hdrop. simpl in Hdrop.
  by replace (s_qHead s =? length (s_queue s))%nat with true by (symmetry; apply Nat.eqb_eq; lia).
Qed.

(** ** No limit on what the peer opens *)

Fixpoint handleFrames (st : WState) (fs : list Frame) : WState * option gerror :=
  match fs with
  | [] => (st, None)
  | f :: fs =>
      match handleFrame st None 0 f with
      | (st, None) => handleFrames st fs
      | (st, Some e) => (st, Some e)
      end
  end.

(** The shortest request there is: an empty header block that ends the stream. *)
Definition emptyRequest (id : Z) : Frame := FHeaders (mkHeadersFrame id [] true true).

(** A header block of no bytes carries no fields. *)
Definition decodes_empty : Prop :=
  forall d, exists d', dec_write d [] = (d', [], None) /\ (dec_close d').2 = None.

Lemma emptyRequest_opens st id :
  decodes_empty -> GetStream (ws_conn st) id = None ->
  exists st' d, handleFrame st None 0 (emptyRequest id) = (st', None) /\
    ws_spawned st' = ws_spawned st ++ [d] /\ dh_StreamID d = id /\ c_peerMaxStreams (ws_conn st') = c_peerMaxStreams (ws_conn st) /\
    dom (c_streams (ws_conn st')) = {[id]} ∪ dom (c_streams (ws_conn st)).
Proof.
  intros He Hid. destruct st as [m c sp]. cbn [ws_conn ws_spawned] in *. cbn [handleFrame emptyRequest ws_conn hf_StreamID]. rewrite Hid.
  unfold StartHeaders, decodeBlock. cbn [hf_StreamID hf_endHeaders hf_fragment hf_endStream].
  set (h := if _ <? _ then _ else _). destruct (He (h_dec h)) as (d' & -> & Hc).
  destruct (dec_close d') as [d2 e2]. cbn [snd] in Hc. subst e2. do 2 eexists.
  split; [reflexivity|]. split; [reflexivity|]. split_and!; [done|done|].
  unfold update_stream. cbn. rewrite insert_insert_eq. apply dom_insert_L.
Qed.

(** The worker advertises SETTINGS_MAX_CONCURRENT_STREAMS but never looks at it
    again, nor at the order or parity of stream ids: however many requests a
    peer opens, with whatever ids not in use, each is accepted without an
    error and gets a handler's goroutine of its own. *)
Theorem stream_cap_not_enforced ids st :
  decodes_empty -> NoDup ids -> Forall (fun id => GetStream (ws_conn st) id = None) ids ->
  exists st', handleFrames st (emptyRequest <$> ids) = (st', None) /\
    ActiveStreams (ws_conn st') = ActiveStreams (ws_conn st) + Z.of_nat (length ids) /\
    exists ds, ws_spawned st' = ws_spawned st ++ ds /\ dh_StreamID <$> ds = ids.
Proof.
  intros He. revert st. induction ids as [|id ids IH]; intros st Hnd Hf.
  { exists st. split_and!; [done|cbn; lia|exists []; by rewrite app_nil_r]. }
  apply NoDup_cons in Hnd as [Hid Hnd]. apply Forall_cons in Hf as [Hfree Hf].
  destruct (emptyRequest_opens st id He Hfree) as (st1 & d & E & Es & Ed & _ & Edom).
  destruct (IH st1 Hnd) as (st' & E' & Ea & ds & Eds & Ei).
  { apply Forall_forall. intros k Hk. rewrite Forall_forall in Hf. apply not_elem_of_dom. rewrite Edom.
    specialize (Hf _ Hk). unfold GetStream in Hf. apply not_elem_of_dom in Hf.
    by intros [->%elem_of_singleton|?]%elem_of_union. }
  exists st'. cbn [fmap list_fmap handleFrames]. rewrite E. split_and!; [done| |].
  - rewrite Ea. unfold ActiveStreams. rewrite <- !size_dom, Edom, size_union, size_singleton.
    + cbn [length]. lia.
    + apply disjoint_singleton_l, not_elem_of_dom. exact Hfree.
  - exists (d :: ds). rewrite Eds, Es, <- app_assoc. split; [done|]. cbn. by rewrite Ed, Ei.
Qed.

End Serve.

(** ** Witnesses *)

Module ServeDemo.

Definition block : list byte := Eval vm_compute in requestBlock map_to_list Plain.demo_writer Plain.demo_request.

Definition request : HeadersFrame := mkHeadersFrame 1 block true true.

Definition turn (env : list StreamEv) (r : ReadOutcome) (stop : bool) : Turn :=
  mkTurn (R := workerRole) false 0 env None 1 r stop.

Definition start : WState := serve_init (HD := Plain.plain_decoder) tt.

Definition hello : list ReadOutcome := [RFrame (FSettings false [(SettingInitialWindowSize, 1000)])].

(** A request, a ping, then the pool shuts down. *)
Definition session : list Turn :=
  [turn [] (RFrame (FHeaders request)) false; turn [SReserve 1 10] (RFrame (FPing false [x61])) false; turn [] RTimeout true].

Definition ended : WState := (serve start hello session).1.

Lemma hello_ok : Forall read_ok hello.
Proof. repeat constructor; vm_compute; discriminate. Qed.

Lemma session_ok : Forall turn_ok session.
Proof. repeat constructor; vm_compute; discriminate. Qed.

Lemma session_runs : serve start hello session = (ended, Some None).
Proof. unfold ended. apply pair_fst. vm_compute. reflexivity. Qed.

Lemma worker_state_invariant_witness : settings_inv (ws_conn ended) /\ is_Some (c_streams (ws_conn ended) !! 1).
Proof.
  split; [|vm_compute; eauto].
  exact (proj1 (proj1 (worker_state_invariant (HD := Plain.plain_decoder) tt hello session ended _ hello_ok session_ok session_runs))).
Defined.


Definition started : HdrState := (StartHeaders (c_hdr (ws_conn start)) request).1.

Definition decoded : DecodedHeaders :=
  mkDecoded (filter forwardable Plain.demo_header) "GET" "/a" "example.com" "" 1 true.

Lemma request_decoded : StartHeaders (c_hdr (ws_conn start)) request = (started, inl (Some decoded)).
Proof. unfold started. apply pair_fst. vm_compute. reflexivity. Qed.

Lemma request_dispatched_once_witness :
  exists st', handleFrame start None 0 (FHeaders request) = (st', None) /\ ws_spawned st' = [decoded].
Proof.
  destruct (request_dispatched_once start None 0 request started decoded eq_refl eq_refl request_decoded)
    as (st' & s & H & Hs & _).
  exists st'. split; [exact H|exact Hs].
Defined.

(** Stream 1 is open for a request body when trailers arrive. *)
Definition receiving : WState := ws_with start ConnDemo.conn1.

Lemma trailers_are_ignored_witness :
  handleFrame receiving None 0 (FHeaders request) = (receiving, None).
Proof.
  refine (proj1 (trailers_are_ignored receiving None 0 request (Acquire newStream 1 0 65535) _ _ _ _ _ _));
    first [reflexivity|split; cbn; lia|idtac].
Defined.

(** No SETTINGS from the peer yet, a PING already sent. *)
Lemma silent_peer_is_detected_witness :
  (frameLoop (R := workerRole) start
     [mkTurn (R := workerRole) false 0 [] None PingInterval RTimeout false;
      mkTurn (R := workerRole) false PingInterval [] None (2 * PingInterval) RTimeout false]).2
    = Returned (Some ErrPingTimeout).
Proof.
  destruct (silent_peer_is_detected (R := workerRole) start
     (mkTurn (R := workerRole) false 0 [] None PingInterval RTimeout false)
     (mkTurn (R := workerRole) false PingInterval [] None (2 * PingInterval) RTimeout false)) as [H|H].
  - by split_and!.
  - by split_and!.
  - cbn. lia.
  - cbn. lia.
  - done.
  - exact H.
  - exfalso. vm_compute in H. discriminate.
Defined.

Definition many : list Z := (fun k => 2 * Z.of_nat k + 1) <$> rev (seq 0 200).

Lemma stream_cap_not_enforced_witness :
  exists st', handleFrames start (emptyRequest <$> many) = (st', None) /\ ActiveStreams (ws_conn st') = 200.
Proof.
  destruct (stream_cap_not_enforced (HD := Plain.plain_decoder) many start) as (st' & E & Ea & _).
  - intros []. exists tt. split; reflexivity.
  - apply (bool_decide_unpack _). vm_compute. exact I.
  - apply Forall_forall. intros id _. reflexivity.
  - exists st'. split; [exact E|]. rewrite Ea. vm_compute. reflexivity.
Defined.

End ServeDemo.
