(* ===== verification/Drain.v ===== *)
(** * Graceful drain under concurrency (conn.go, internal/proxy/worker.go)

    [BeginDrain] (frame reader), [RemoveStream] (one goroutine per finished
    stream) and the check-then-add of [openStream] interleave: each is cut
    into its atomic sections, an atomic flag access or a critical section of
    [streamsMu] or a [sync.Once].  The theorems: a drain is never left
    incomplete, and what an opener between its check and its registration
    can do to it. *)

From S2P Require Import Prelude Errors Flow Names H2Stream Writer HeaderBlock Conn.

Section Drain.

Context {HD : HpackDecoder}.

(** Where a goroutine is.  [PB]: in [BeginDrain]; [PR]: in [RemoveStream];
    [PO]: in [openStream]. *)
Inductive PC :=
| PB0 | PB1 | PB2
| PR0 (id : Z) | PR1 | PR2
| PO0 (id : Z) | PO1 (id : Z)
| PEnd.

Record DState := mkD { d_conn : Conn; d_threads : gmap nat PC }.

(** One atomic section; [now] is the clock for [finishDrain]. *)
Definition dstep (c : Conn) (pc : PC) (now : Z) : option (Conn * PC) :=
  match pc with
  | PB0 => Some (set_c_drainStarted (set_c_draining c true) true, PB1)
  | PB1 => Some (c, if (size (c_streams c) =? 0)%nat then PB2 else PEnd)
  | PB2 => Some (finishDrain c now, PEnd)
  | PR0 id =>
      let c := set_c_streams c (delete id (c_streams c)) in
      Some (c, if (size (c_streams c) =? 0)%nat then PR1 else PEnd)
  | PR1 => Some (c, if Draining c then PR2 else PEnd)
  | PR2 => Some (finishDrain c now, PEnd)
  | PO0 id => Some (c, if Draining c then PEnd else PO1 id)
  | PO1 id => Some (AddStream c (Acquire newStream id 0 (InitialStreamWindow (c_Send c))), PEnd)
  | PEnd => None
  end.

Inductive DAction :=
| DStart (t : nat) (pc : PC)
| DRun (t : nat) (now : Z).

Definition entry (pc : PC) : bool :=
  match pc with PB0 | PR0 _ | PO0 _ => true | _ => false end.

Definition dact (s : DState) (a : DAction) : option DState :=
  match a with
  | DStart t pc =>
      if entry pc && bool_decide (d_threads s !! t = None) then Some (mkD (d_conn s) (<[t := pc]> (d_threads s)))
      else None
  | DRun t now =>
      pc ← d_threads s !! t;
      '(c, pc) ← dstep (d_conn s) pc now;
      Some (mkD c (<[t := pc]> (d_threads s)))
  end.

Definition drain_step (s : DState) (a : DAction) (s' : DState) : Prop := dact s a = Some s'.

Fixpoint drun (s : DState) (acts : list DAction) : option DState :=
  match acts with
  | [] => Some s
  | a :: acts => s ← dact s a; drun s acts
  end.

(** A goroutine that will still look at the registry or finish the drain. *)
Definition will_finish (pc : PC) : bool :=
  match pc with PB1 | PB2 | PR1 | PR2 => true | _ => false end.

Definition drain_pending (s : DState) : Prop :=
  exists t pc, d_threads s !! t = Some pc /\ will_finish pc = true.

(** If the drain has begun and the registry is empty, the drain is complete or
    somebody is about to complete it. *)
Definition not_missed (s : DState) : Prop :=
  c_draining (d_conn s) = true -> c_streams (d_conn s) = ∅ ->
  c_drainDone (d_conn s) = true \/ drain_pending s.

(** No goroutine is inside one of the operations. *)
Definition quiescent (s : DState) : Prop := map_Forall (fun _ pc => pc = PEnd) (d_threads s).

Lemma pending_here s t pc c : will_finish pc = true -> drain_pending (mkD c (<[t := pc]> (d_threads s))).
Proof. intros H. exists t, pc. cbn. by rewrite lookup_insert_eq. Qed.

Lemma pending_other s t pc pc' c :
  d_threads s !! t = Some pc -> will_finish pc = false -> drain_pending s ->
  drain_pending (mkD c (<[t := pc']> (d_threads s))).
Proof.
  intros Ht Hpc (u & pcu & Hu & Hw). exists u, pcu. split; [|done]. cbn.
  rewrite lookup_insert_ne; [done|]. intros ->. congruence.
Qed.

Lemma finishDrain_done c now : c_drainDone (finishDrain c now) = true.
Proof. unfold finishDrain. by destruct (c_drainDone c) eqn:E. Qed.

Lemma size_zero (m : gmap Z Stream) : (size m =? 0)%nat = true <-> m = ∅.
Proof. rewrite Nat.eqb_eq. apply map_size_empty_iff. Qed.

Lemma not_missed_step s a s' : not_missed s -> drain_step s a s' -> not_missed s'.
Proof.
  unfold drain_step. intros H Hs. destruct a as [t pc|t now]; simpl in Hs.
  - destruct (entry pc && _) eqn:E; simplify_eq. bool_prop. unfold not_missed. cbn. intros Hd He.
    destruct (H Hd He) as [?|(u & pcu & Hu & Hw)]; [by left|right]. exists u, pcu. split; [|done]. cbn.
    rewrite lookup_insert_ne; [done|]. intros ->. case_bool_decide; congruence.
  - destruct (d_threads s !! t) as [pc|] eqn:Ht; [|done]. simpl in Hs.
    unfold not_missed in *.
    destruct pc as [| | |id| | |id|id|]; simpl in Hs; simplify_eq; cbn; intros Hd He.
    + right. by apply pending_here.
    + rewrite He. right. by apply pending_here.
    + left. apply finishDrain_done.
    + rewrite He. right. by apply pending_here.
    + unfold Draining. rewrite Hd. right. by apply pending_here.
    + left. apply finishDrain_done.
    + destruct (H Hd He) as [?|?]; [by left|right]. by eapply pending_other.
    + exfalso. by apply insert_non_empty in He.
Qed.

Definition drain_init (c : Conn) : DState := mkD c ∅.

(** C32. A drain that has begun always completes: in every interleaving of
    BeginDrain, any number of RemoveStream and openStream calls, once no call
    is in progress and the registry is empty, DrainComplete holds (so the
    frame loop ends); no removal is lost between the flag and the count. *)
Theorem drain_never_missed c acts s :
  c_draining c = false -> steps drain_step (drain_init c) acts s -> quiescent s ->
  c_draining (d_conn s) = true -> c_streams (d_conn s) = ∅ -> DrainComplete (d_conn s) = true.
Proof.
  intros Hc H Hq Hd He.
  assert (Hn : not_missed s).
  { apply (steps_inv drain_step not_missed not_missed_step _ _ _ H). intros Hd'. simpl in Hd'. congruence. }
  destruct (Hn Hd He) as [?|(t & pc & Ht & Hw)]; [done|]. apply Hq in Ht. by subst pc.
Qed.

(** *** Operations that run alone *)

(** Whole operations: [openStream]'s check and registration, [RemoveStream],
    [BeginDrain], with the clock. *)
Inductive DOp :=
| DOpen (id : Z)
| DRemove (id now : Z)
| DBegin (now : Z).

Definition dop (c : Conn) (o : DOp) : Conn :=
  match o with
  | DOpen id => if Draining c then c else AddStream c (Acquire newStream id 0 (InitialStreamWindow (c_Send c)))
  | DRemove id now => RemoveStream c id now
  | DBegin now => BeginDrain c now
  end.

(** The goroutine that runs an operation. *)
Definition dop_entry (o : DOp) : PC :=
  match o with DOpen id => PO0 id | DRemove id _ => PR0 id | DBegin _ => PB0 end.

Definition dop_now (o : DOp) : Z := match o with DOpen _ => 0 | DRemove _ now | DBegin now => now end.

Fixpoint run_alone (fuel : nat) (c : Conn) (pc : PC) (now : Z) : Conn * PC :=
  match fuel with
  | O => (c, pc)
  | S fuel => match dstep c pc now with Some (c, pc) => run_alone fuel c pc now | None => (c, pc) end
  end.

(** The sections in program order are the operations of Conn.v. *)
Lemma run_alone_op c o : run_alone 4 c (dop_entry o) (dop_now o) = (dop c o, PEnd).
Proof.
  destruct o as [id|id now|now]; simpl; unfold dop, Draining.
  - by destruct (c_draining c) eqn:E.
  - unfold RemoveStream, Draining. destruct (size _ =? 0)%nat eqn:E; cbn; [|done].
    cbn. by destruct (c_draining c) eqn:E'; cbn.
  - unfold BeginDrain. by destruct (size _ =? 0)%nat eqn:E; cbn.
Qed.

Lemma dop_inv c o : drain_inv c -> drain_inv (dop c o).
Proof.
  intros [Hd Hs]. destruct o as [id|id now|now]; unfold dop.
  - destruct (Draining c) eqn:E; [done|]. unfold Draining in E. unfold drain_inv. cbn. split; [by rewrite Hd, E|done].
  - unfold RemoveStream, finishDrain, drain_inv. cbn.
    destruct (size (delete id (c_streams c)) =? 0)%nat eqn:Ez; cbn; [|].
    + destruct (c_draining c) eqn:E; cbn; [|by split; [rewrite Hd, E|rewrite E]].
      destruct (c_drainDone c) eqn:Edone; cbn; rewrite ?Edone, ?E, ?Ez; by split.
    + rewrite Ez, Hd. rewrite andb_false_r.
      destruct (c_draining c) eqn:E; [|done]. simpl. split; [|done].
      apply Nat.eqb_neq in Ez. destruct (size (c_streams c) =? 0)%nat eqn:E0; [|done].
      exfalso. apply size_zero in E0. rewrite E0, delete_empty, map_size_empty in Ez. done.
  - unfold BeginDrain, finishDrain, drain_inv. cbn.
    destruct (size (c_streams c) =? 0)%nat eqn:Ez; cbn; [|].
    + destruct (c_drainDone c) eqn:Edone; cbn; rewrite ?Edone, ?Ez; by split.
    + rewrite Ez, Hd, ?Ez, ?andb_false_r. done.
Qed.

(** When the operations do not overlap, DrainComplete is exact: after any
    history of openings, removals and drain requests, it reports that a drain
    was begun and that no stream is registered, and opening is refused from
    the drain request on; each operation is its atomic sections run in order. *)
Theorem sequential_drain_exact d ops :
  let c := foldl dop (newConn d) ops in
  (DrainComplete c = true <-> Draining c = true /\ c_streams c = ∅) /\
  (forall id, Draining c = true -> dop c (DOpen id) = c) /\
  (forall o, run_alone 4 c (dop_entry o) (dop_now o) = (dop c o, PEnd)).
Proof.
  cbv zeta.
  assert (H : drain_inv (foldl dop (newConn d) ops)).
  { assert (H0 : drain_inv (newConn d)) by done. revert H0. generalize (newConn d).
    induction ops as [|o ops IH]; intros c H0; [done|]. by apply IH, dop_inv. }
  generalize dependent (foldl dop (newConn d) ops). intros c [Hd _]. split_and!.
  - unfold DrainComplete, Draining. rewrite Hd, andb_true_iff, size_zero. done.
  - intros id E. unfold dop. by rewrite E.
  - apply run_alone_op.
Qed.

(** *** Overlapping operations *)

(** The last stream's RemoveStream has counted zero streams when another
    stream is opened and a drain begins; then it looks at the flag. *)
Definition premature_acts : list DAction :=
  [DStart 0 (PO0 1); DRun 0 0; DRun 0 0;      (* stream 1 is opened *)
   DStart 1 (PR0 1); DRun 1 0;                (* and removed: 0 streams, flag not yet read *)
   DStart 2 (PO0 3); DRun 2 0; DRun 2 0;      (* stream 3 is opened, no drain yet *)
   DStart 3 PB0; DRun 3 0; DRun 3 0;          (* BeginDrain sees stream 3: not complete *)
   DRun 1 0; DRun 1 0].                       (* the removal reads the flag and finishes the drain *)

(** What the run's end state shows. *)
Definition end_flags (s : DState) : bool * bool * bool :=
  (forallb (fun '(_, pc) => match pc with PEnd => true | _ => false end) (map_to_list (d_threads s)),
   DrainComplete (d_conn s), match c_streams (d_conn s) !! 3 with Some _ => true | None => false end).

Lemma end_flags_spec s : end_flags s = (true, true, true) ->
  quiescent s /\ DrainComplete (d_conn s) = true /\ is_Some (c_streams (d_conn s) !! 3).
Proof.
  unfold end_flags. intros [= Hq Hd Hs]. split_and!; [|done|by destruct (_ !! 3)].
  apply map_Forall_to_list, Forall_forall. intros [t pc] Hin.
  pose proof (proj1 (forallb_forall _ _) Hq (t, pc) ltac:(by apply list_elem_of_In)) as H. by destruct pc.
Qed.

Lemma premature_flags d : end_flags <$> drun (drain_init (newConn d)) premature_acts = Some (true, true, true).
Proof. vm_compute. reflexivity. Qed.

(** DrainComplete can be reported while a stream is in flight, although
    it was opened before the drain began: RemoveStream counts the registry and
    reads the draining flag in two steps, and a drain that starts between them
    is finished by a count that is out of date; the frame loop then ends and
    takes the stream down with it. *)
Theorem drain_may_complete_early d :
  exists s, drun (drain_init (newConn d)) premature_acts = Some s /\ quiescent s /\
    DrainComplete (d_conn s) = true /\ is_Some (c_streams (d_conn s) !! 3).
Proof.
  pose proof (premature_flags d) as H. destruct (drun _ _) as [s|]; [|done].
  exists s. split; [done|]. apply end_flags_spec. by apply (inj Some) in H.
Qed.

Lemma drun_steps acts s s' : drun s acts = Some s' -> steps drain_step s acts s'.
Proof.
  revert s. induction acts as [|a acts IH]; intros s H; simpl in H; simplify_eq; [constructor|].
  destruct (dact s a) as [s1|] eqn:E; [|done]. eapply steps_cons; [exact E|by apply IH].
Qed.

End Drain.

(** ** A witness *)

Module DrainDemo.

(** A stream is opened, the drain begins, the stream ends: its removal
    overlaps the end of [BeginDrain]. *)
Definition demo_acts : list DAction :=
  [DStart 0 (PO0 1); DRun 0 0; DRun 0 0; DStart 1 PB0; DRun 1 5; DStart 2 (PR0 1); DRun 2 6; DRun 1 7; DRun 2 8;
   DRun 1 9; DRun 2 10].

Definition demo_end : DState := default (drain_init ConnDemo.conn0) (drun (drain_init ConnDemo.conn0) demo_acts).

Lemma demo_run : drun (drain_init ConnDemo.conn0) demo_acts = Some demo_end.
Proof. apply some_default. vm_compute. reflexivity. Qed.

Lemma demo_quiescent : quiescent demo_end.
Proof.
  apply map_Forall_to_list, Forall_forall. intros [t pc] Hin.
  assert (H : forallb (fun '(_, pc) => match pc with PEnd => true | _ => false end) (map_to_list (d_threads demo_end)) = true)
    by (vm_compute; reflexivity).
  pose proof (proj1 (forallb_forall _ _) H (t, pc) ltac:(by apply list_elem_of_In)) as Hp. by destruct pc.
Qed.

Lemma demo_empty : c_streams (d_conn demo_end) = ∅.
Proof. vm_compute. reflexivity. Qed.

Lemma demo_draining : c_draining (d_conn demo_end) = true.
Proof. vm_compute. reflexivity. Qed.

Lemma drain_never_missed_witness : DrainComplete (d_conn demo_end) = true.
Proof.
  exact (drain_never_missed ConnDemo.conn0 demo_acts demo_end eq_refl (drun_steps _ _ _ demo_run) demo_quiescent
    demo_draining demo_empty).
Defined.

End DrainDemo.
