(* ===== verification/Tunnel.v ===== *)
(** * The proxy's side of a tunnel (internal/proxy/worker.go, tunnel.go)

    [Worker] with the stream registry the forwarders share, [openStream] and
    its rollback, [clientStream] with the one-shot response, and the proxy's
    instance of the frame loop.  A [clientStream]'s [h2] field is the stream
    registered in the connection under the same id: both are entered by
    [openStream] and removed by the forwarder's [defer]. *)

From Stdlib Require Import Strings.Byte Strings.Ascii Strings.String.
From S2P Require Import Prelude Errors Flow Names H2Stream Writer HeaderBlock Conn ConnInv FrameLoop.

Open Scope Z_scope.

(** [strconv.Atoi] as [deliverResponse] uses it: the value, the error dropped;
    0 for a malformed number, the nearest int64 for one out of range. *)
Definition atoi_digits (l : list ascii) : option Z :=
  if negb (length l =? 0)%nat && forallb is_digit l then
    Some (foldl (fun acc c => acc * 10 + (Z.of_N (N_of_ascii c) - 48)) 0 l)
  else None.

Definition Atoi (s : string) : Z :=
  let l := list_ascii_of_string s in
  let '(neg, l) := match l with
                   | c :: l' => if Ascii.eqb c "-" then (true, l') else if Ascii.eqb c "+" then (false, l') else (false, l)
                   | [] => (false, [])
                   end in
  match atoi_digits l with
  | None => 0
  | Some v => if neg then Z.max (- v) (- 2 ^ 63) else Z.min v (2 ^ 63 - 1)
  end.

Section Tunnel.

Context {HD : HpackDecoder}.

(** [cs_closed]: [respCh] is closed, which happens inside [respOnce]. *)
Record clientStream := mkCS {
  cs_respErr : option gerror;
  cs_respHeader : header;
  cs_respStatus : Z;
  cs_closed : bool
}.

Definition newClientStream : clientStream := mkCS None ∅ 0 false.

(** [w_done]: [shutdownCh] is closed.  [w_mem] is the process's store. *)
Record Worker := mkWorker {
  w_mem : Mem;
  w_conn : Conn;
  w_streams : gmap Z clientStream;
  w_inFlight : Z;
  w_done : bool
}.

Definition set_conn (w : Worker) (c : Conn) : Worker :=
  mkWorker (w_mem w) c (w_streams w) (w_inFlight w) (w_done w).

Definition set_streams (w : Worker) (ss : gmap Z clientStream) : Worker :=
  mkWorker (w_mem w) (w_conn w) ss (w_inFlight w) (w_done w).

Definition set_mem_conn (w : Worker) (m : Mem) (c : Conn) : Worker :=
  mkWorker m c (w_streams w) (w_inFlight w) (w_done w).

Definition saturated (w : Worker) : bool :=
  PeerMaxStreams (w_conn w) <=? u32 (Z.of_nat (size (w_streams w))).

Definition detach (w : Worker) : Worker :=
  mkWorker (w_mem w) (w_conn w) (w_streams w) (w_inFlight w) true.

Definition deregisterStream (w : Worker) (id : Z) : Worker := set_streams w (delete id (w_streams w)).

Definition getStream (w : Worker) (id : Z) : option clientStream := w_streams w !! id.

(** [respOnce.Do] in both. *)
Definition deliverHeaders (cs : clientStream) (status : Z) (h : header) : clientStream :=
  if cs_closed cs then cs else mkCS (cs_respErr cs) h status true.

Definition failOnce (cs : clientStream) (err : gerror) : clientStream :=
  if cs_closed cs then cs else mkCS (Some err) (cs_respHeader cs) (cs_respStatus cs) true.

(** An operation on [cs.h2]. *)
Definition on_h2 (w : Worker) (id : Z) (f : Stream -> Stream) : Worker :=
  set_conn w (set_c_streams (w_conn w) (alter f id (c_streams (w_conn w)))).

(** [cs.fail(err)] for the stream registered under [id]. *)
Definition fail (w : Worker) (id : Z) (err : gerror) : Worker :=
  on_h2 (set_streams w (alter (fun cs => failOnce cs err) id (w_streams w))) id (fun s => FailBody s err).

Definition failAllStreams (w : Worker) (err : gerror) : Worker :=
  mkWorker (w_mem w)
    (set_c_streams (w_conn w)
       (map_imap (fun id s => Some (if decide (is_Some (w_streams w !! id)) then FailBody s err else s))
          (c_streams (w_conn w))))
    ((fun cs => failOnce cs err) <$> w_streams w) (w_inFlight w) (w_done w).

(** [sendErr]: the result of [SendRequestHeaders]; [req id] is its intent. *)
Definition openStream (w : Worker) (connPtr : nat) (initialWindow : Z) (req : Z -> writeIntent)
    (sendErr : option gerror) (now : Z) : Worker * (Z + gerror) :=
  let c := w_conn w in
  if Draining c then (w, inr ErrTunnelDraining)
  else if PeerMaxStreams c <=? u32 (Z.of_nat (size (w_streams w))) then (w, inr ErrTunnelSaturated)
  else
    let '(c, id) := NextStreamID c in
    let s := Acquire newStream id connPtr initialWindow in
    let c := Conn.AddStream c s in
    let w := set_streams (set_conn w c) (<[id := newClientStream]> (w_streams w)) in
    let w := set_conn w (submitAsync (w_conn w) (req id)) in
    match sendErr with
    | Some e =>
        let w := deregisterStream w id in
        let w := set_conn w (RemoveStream (w_conn w) id now) in
        let '(m, _) := Release (w_mem w) s in
        (set_mem_conn w m (w_conn w), inr e)
    | None => (w, inl id)
    end.

(** The forwarder's cleanup; its three calls as one step (Handover.v has them
    one by one). *)
Definition closeStream (w : Worker) (id now : Z) : Worker :=
  match GetStream (w_conn w) id with
  | Some s =>
      let w := deregisterStream (set_conn w (RemoveStream (w_conn w) id now)) id in
      set_mem_conn w (Release (w_mem w) s).1 (w_conn w)
  | None => deregisterStream w id
  end.

Definition deliverResponse (w : Worker) (d : DecodedHeaders) : Worker :=
  let id := dh_StreamID d in
  match getStream w id with
  | None => set_conn w (submitAsync (w_conn w) (SendRSTStream id ErrCodeStreamClosed))
  | Some cs =>
      let status := Atoi (dh_Status d) in
      let w := set_streams w (<[id := deliverHeaders cs status (dh_Header d)]> (w_streams w)) in
      if dh_EndStream d then on_h2 w id CloseData else w
  end.

Definition handleProxyFrame (w : Worker) (choice : PoolChoice) (now : Z) (f : Frame) : Worker * option gerror :=
  let c := w_conn w in
  match f with
  | FSettings ack ss =>
      if ack then (w, None)
      else match ApplyPeerSettings c ss with
           | (c, Some e) => (set_conn w c, Some e)
           | (c, None) => (set_conn w (submitAsync c SendSettingsAck), None)
           end
  | FWindowUpdate id inc => (set_conn w (HandleWindowUpdate c id (i32 inc)), None)
  | FHeaders f =>
      let '(h, r) := StartHeaders (c_hdr c) f in
      let w := set_conn w (set_c_hdr c h) in
      match r with
      | inr e => (w, Some e)
      | inl None => (w, None)
      | inl (Some d) => (deliverResponse w d, None)
      end
  | FData id data len es =>
      let '(m, c) := HandleInboundData (w_mem w) c choice id data len es in
      (set_mem_conn w m c, None)
  | FPing ack data =>
      if ack then (set_conn w (HandlePingAck c data), None)
      else (set_conn w (submitAsync c (SendPing true data)), None)
  | FGoAway _ code =>
      if negb (code =? ErrCodeNo) then (w, Some ErrGoaway)
      else (set_conn w (BeginDrain c now), None)
  | FRSTStream id _ =>
      let w := match getStream w id with Some _ => fail w id ErrStreamReset | None => w end in
      (set_conn w (HandleRSTStream (w_conn w) id), None)
  | FContinuation _ | FOther => (w, None)
  end.

(** What the forwarders do between two turns of the loop. *)
Inductive ForwardEv :=
| FwOpen (req : Z -> writeIntent) (sendErr : option gerror) (now : Z)
| FwClose (id now : Z)
| FwReserve (id want : Z)
| FwRead (id : Z) (plen : nat)
| FwSubmit (i : writeIntent).

Definition forward_ev (w : Worker) (e : ForwardEv) : Worker :=
  match e with
  | FwOpen req err now => (openStream w 0 (InitialStreamWindow (c_Send (w_conn w))) req err now).1
  | FwClose id now => closeStream w id now
  | FwReserve id want =>
      match GetStream (w_conn w) id with
      | Some s =>
          let '(_, sc, sw) := Reserve (c_Send (w_conn w)) (s_SendWindow s) want in
          set_conn w (set_c_streams (set_c_Send (w_conn w) sc) (<[id := set_SendWindow s sw]> (c_streams (w_conn w))))
      | None => w
      end
  | FwRead id plen =>
      match GetStream (w_conn w) id with
      | Some s =>
          let '(m, s, _) := Read (w_mem w) s plen in
          set_mem_conn w m (set_c_streams (w_conn w) (<[id := s]> (c_streams (w_conn w))))
      | None => w
      end
  | FwSubmit i => set_conn w (submitAsync (w_conn w) i)
  end.

#[global] Instance proxyRole : Role := {
  rstate := Worker;
  renv := list ForwardEv;
  role_conn := w_conn;
  role_setConn := set_conn;
  role_env := foldl forward_ev;
  role_frame := handleProxyFrame;
  role_dispatch := deliverResponse
}.

(** The teardown [defer] of [serveTunnel]. *)
Definition tunnelTeardown (w : Worker) : Worker :=
  let w := set_conn w (set_c_Send (w_conn w) (MarkDead (c_Send (w_conn w)))) in
  let w := failAllStreams w ErrConnClosed in
  let w := set_conn w (FailAllStreams (w_conn w) ErrConnClosed) in
  let w := set_conn w (submitAsync (w_conn w) (SendGoAway 0 ErrCodeNo)) in
  detach (set_conn w (set_c_writeDead (w_conn w) true)).

Definition serveTunnel (w : Worker) (rs : list ReadOutcome) (ts : list Turn) : Worker * option (option gerror) :=
  match awaitSettings w rs with
  | (w, None) => (w, None)
  | (w, Some (Some e)) => (tunnelTeardown w, Some (Some e))
  | (w, Some None) =>
      match frameLoop w ts with
      | (w, Reading) => (w, None)
      | (w, Returned e) => (tunnelTeardown w, Some e)
      end
  end.

(** ** The invariant *)

(** The stream counter after [j] calls of [NextStreamID]. *)
Definition next_after (j : nat) : Z := if (j =? 0)%nat then 0 else 2 * Z.of_nat j - 1.

(** The request HEADERS submitted carry odd, strictly increasing ids that have
    been issued. *)
Definition requests_in_order (c : Conn) : Prop :=
  StronglySorted Z.lt (request_ids (c_out c)) /\
  Forall (fun id => Z.odd id = true /\ 0 < id <= c_nextStreamID c) (request_ids (c_out c)).

(** The two registries hold the same streams, under ids issued before; at most
    [k] ids have been issued; the connection's invariant. *)
Record proxy_inv (k : nat) (w : Worker) : Prop := {
  pi_conn : conn_inv (w_mem w) (w_conn w);
  pi_regs id : is_Some (w_streams w !! id) <-> is_Some (c_streams (w_conn w) !! id);
  pi_ids : map_Forall (fun id _ => 0 < id <= c_nextStreamID (w_conn w)) (w_streams w);
  pi_next : exists j, (j <= k)%nat /\ c_nextStreamID (w_conn w) = next_after j;
  pi_order : requests_in_order (w_conn w)
}.

Lemma proxy_inv_mono k k' w : (k <= k')%nat -> proxy_inv k w -> proxy_inv k' w.
Proof. intros Hk [H1 H2 H3 (j & Hj & E) H5]. split; try done. exists j. split; [lia|done]. Qed.

Lemma requests_same c c' :
  c_nextStreamID c' = c_nextStreamID c -> request_ids (c_out c') = request_ids (c_out c) ->
  requests_in_order c -> requests_in_order c'.
Proof. unfold requests_in_order. by intros -> ->. Qed.

(** An operation of the connection that registers and removes nothing. *)
Lemma proxy_conn_step k w m c :
  proxy_inv k w -> conn_inv m c -> same_regs (w_conn w) c -> proxy_inv k (set_mem_conn w m c).
Proof.
  intros [H1 H2 H3 H4 H5] Hi [Eh Es En Er _]. split; cbn; [done| | | |].
  - intros id. by rewrite Es, H2.
  - by rewrite En.
  - by rewrite En.
  - by eapply requests_same.
Qed.

Lemma proxy_streams_step k w ss :
  proxy_inv k w -> (forall id, is_Some (ss !! id) <-> is_Some (w_streams w !! id)) -> proxy_inv k (set_streams w ss).
Proof.
  intros [H1 H2 H3 H4 H5] Hs. split; cbn; try done.
  - intros id. by rewrite Hs, H2.
  - intros id cs Hid. destruct (proj1 (Hs id) ltac:(by rewrite Hid)) as [cs0 Hcs]. by apply (H3 id cs0).
Qed.

Lemma alter_Some {A} (f : A -> A) (m : gmap Z A) i x : m !! i = Some x -> alter f i m = <[i := f x]> m.
Proof.
  intros H. apply map_eq. intros j. rewrite lookup_alter. destruct (decide (i = j)) as [<-|].
  - by rewrite lookup_insert_eq, H.
  - by rewrite lookup_insert_ne.
Qed.

Lemma alter_None {A} (f : A -> A) (m : gmap Z A) i : m !! i = None -> alter f i m = m.
Proof.
  intros H. apply map_eq. intros j. rewrite lookup_alter. destruct (decide (i = j)) as [<-|]; [by rewrite H|done].
Qed.

(** A body operation on the stream behind a [clientStream]. *)
Lemma on_h2_inv k w id f (o : BOp) :
  (forall s, s_ID (f s) = s_ID s /\ s_SendWindow (f s) = s_SendWindow s) ->
  (forall m ss s, ss !! id = Some s -> body_step (mkBodySys m ss) (o, None) (mkBodySys m (<[id := f s]> ss))) ->
  proxy_inv k w -> proxy_inv k (on_h2 w id f).
Proof.
  intros Hf Ho H. unfold on_h2. destruct (c_streams (w_conn w) !! id) as [s|] eqn:E.
  - rewrite (alter_Some _ _ _ _ E). apply (proxy_conn_step k w (w_mem w)); [done| |by eapply same_regs_insert].
    destruct (Hf s). eapply (body_step_inv _ _ _ _ s _ o None); try done; [apply H|by apply Ho].
  - rewrite alter_None by done. by destruct w as [m [] ss ? ?].
Qed.

Lemma CloseData_h2_inv k w id : proxy_inv k w -> proxy_inv k (on_h2 w id CloseData).
Proof.
  apply (on_h2_inv k w id CloseData (BCloseData id)); [done|].
  intros m ss s Hs. unfold body_step. cbn. by rewrite Hs.
Qed.

Lemma FailBody_h2_inv k w id err : proxy_inv k w -> proxy_inv k (on_h2 w id (fun s => FailBody s err)).
Proof.
  apply (on_h2_inv k w id _ (BFail id err)); [done|].
  intros m ss s Hs. unfold body_step. cbn. by rewrite Hs.
Qed.

Lemma fail_inv k w id err : proxy_inv k w -> proxy_inv k (fail w id err).
Proof.
  intros H. apply FailBody_h2_inv, proxy_streams_step; [done|]. intros j. apply lookup_alter_is_Some.
Qed.

Lemma deliverResponse_inv k w d : proxy_inv k w -> proxy_inv k (deliverResponse w d).
Proof.
  intros H. unfold deliverResponse, getStream. destruct (w_streams w !! dh_StreamID d) as [cs|] eqn:E.
  - assert (Hs : proxy_inv k (set_streams w (<[dh_StreamID d := deliverHeaders cs (Atoi (dh_Status d)) (dh_Header d)]> (w_streams w)))).
    { apply proxy_streams_step; [done|]. intros j. rewrite lookup_insert_is_Some'.
      split; [intros [<- |?]; [by rewrite E|done]|by right]. }
    destruct (dh_EndStream d); [by apply CloseData_h2_inv|done].
  - apply (proxy_conn_step k w (w_mem w)); [done|apply submitAsync_inv, H|by apply submitAsync_regs].
Qed.

(** *** Opening and closing *)

Lemma request_ids_one i : wi_kind i = wkReqHeaders -> request_ids [i] = [wi_streamID i].
Proof. intros H. unfold request_ids. cbn. by rewrite H. Qed.

Definition is_request (req : Z -> writeIntent) : Prop :=
  forall id, wi_kind (req id) = wkReqHeaders /\ wi_streamID (req id) = id.

(** One more id: odd, larger than all before. *)
Lemma next_id k c :
  Z.of_nat k < 2 ^ 30 -> (exists j, (j <= k)%nat /\ c_nextStreamID c = next_after j) ->
  exists j, (j <= k)%nat /\ (NextStreamID c).2 = next_after (S j) /\
    c_nextStreamID (NextStreamID c).1 = next_after (S j) /\ c_nextStreamID c < next_after (S j) /\
    Z.odd (next_after (S j)) = true /\ 0 < next_after (S j).
Proof.
  intros Hk (j & Hj & E). exists j. unfold next_after in *. cbn [Nat.eqb].
  destruct (NextStreamID_spec c (Z.of_nat j)) as [E1 E2]; [lia| |].
  { rewrite E. destruct j; [done|]. by rewrite (proj2 (Z.eqb_neq _ _)) by lia. }
  split_and!; [done|lia|lia| | |lia].
  - destruct (j =? 0)%nat eqn:E0; bool_prop; lia.
  - replace (2 * Z.of_nat (S j) - 1) with (1 + 2 * Z.of_nat j) by lia. by rewrite Z.odd_add_mul_2.
Qed.

(** [openStream] up to the HEADERS submission. *)
Definition opened (w : Worker) (connPtr : nat) (initialWindow : Z) (req : Z -> writeIntent) : Worker :=
  let '(c, id) := NextStreamID (w_conn w) in
  let c := Conn.AddStream c (Acquire newStream id connPtr initialWindow) in
  let w := set_streams (set_conn w c) (<[id := newClientStream]> (w_streams w)) in
  set_conn w (submitAsync (w_conn w) (req id)).

Lemma opened_inv k w p iw req :
  Z.of_nat k < 2 ^ 30 -> proxy_inv k w -> is_i32 iw -> is_request req -> proxy_inv (S k) (opened w p iw req).
Proof.
  intros Hk [H1 H2 H3 H4 H5] Hw Hreq. unfold opened.
  destruct (next_id k (w_conn w) Hk H4) as (j & Hj & Eid & En & Hlt & Hodd & Hpos).
  destruct (NextStreamID (w_conn w)) as [c1 id] eqn:E. cbn [fst snd] in *. subst id. remember (next_after (S j)) as id eqn:Hidj.
  assert (Hc1 : c_streams c1 = c_streams (w_conn w) /\ c_out c1 = c_out (w_conn w) /\ conn_inv (w_mem w) c1).
  { unfold NextStreamID in E. injection E as <- _. split_and!; [done..|]. by eapply conn_inv_same. }
  destruct Hc1 as (Es & Eo & Hi1).
  assert (Hfresh : w_streams w !! id = None).
  { destruct (w_streams w !! id) as [cs|] eqn:Ew; [|done]. specialize (H3 _ _ Ew). simpl in H3. lia. }
  assert (Hfreshc : c_streams c1 !! id = None).
  { rewrite Es. destruct (c_streams (w_conn w) !! id) eqn:Ec; [|done].
    destruct (proj2 (H2 id) ltac:(by rewrite Ec)). congruence. }
  pose proof (AddStream_new_inv (w_mem w) c1 id p iw Hi1 Hfreshc Hw) as Hi2.
  set (c2 := Conn.AddStream c1 (Acquire newStream id p iw)) in *.
  assert (Hc2 : c_streams c2 = <[id := Acquire newStream id p iw]> (c_streams (w_conn w)) /\
    c_nextStreamID c2 = id /\ c_out c2 = c_out (w_conn w)) by (rewrite <- Es, <- Eo; done).
  destruct Hc2 as (Es2 & En2 & Eo2). clearbody c2.
  cbn [w_conn set_streams set_conn]. destruct (Hreq id) as [Hkd Hid].
  destruct H5 as [Hso Hall].
  pose proof (submitAsync_inv _ _ (req id) Hi2) as Hi3.
  assert (Hc3 : c_streams (submitAsync c2 (req id)) = c_streams c2 /\ c_nextStreamID (submitAsync c2 (req id)) = id /\
    (request_ids (c_out (submitAsync c2 (req id))) = request_ids (c_out c2) \/
     request_ids (c_out (submitAsync c2 (req id))) = request_ids (c_out c2) ++ [id])).
  { unfold submitAsync. destruct (c_writeDead c2); [by auto|]. cbn. split_and!; [done|done|right].
    rewrite request_ids_app, request_ids_one by done. by rewrite Hid. }
  destruct Hc3 as (Es3 & En3 & Er3). set (c3 := submitAsync c2 (req id)) in *. clearbody c3.
  assert (Hall' : Forall (fun i => Z.odd i = true /\ 0 < i <= id) (request_ids (c_out c2))).
  { rewrite Eo2. eapply Forall_impl; [exact Hall|]. cbn. intros i [? ?]. split; [done|lia]. }
  split; cbn; [done| | | |].
  - intros i. by rewrite Es3, Es2, !lookup_insert_is_Some', H2.
  - rewrite En3. apply map_Forall_insert_2; [lia|]. intros i cs Hics. specialize (H3 i cs Hics). simpl in H3. lia.
  - exists (S j). split; [lia|congruence].
  - unfold requests_in_order. rewrite En3. destruct Er3 as [-> | ->]; [by rewrite Eo2 in *|]. split.
    + apply StronglySorted_snoc; [by rewrite Eo2|]. rewrite Eo2. eapply Forall_impl; [exact Hall|].
      cbn. intros i [_ ?]. lia.
    + apply Forall_app. split; [done|]. repeat constructor; [done|lia|lia].
Qed.

Lemma openStream_eq w p iw req err now :
  openStream w p iw req err now =
    if Draining (w_conn w) then (w, inr ErrTunnelDraining)
    else if PeerMaxStreams (w_conn w) <=? u32 (Z.of_nat (size (w_streams w))) then (w, inr ErrTunnelSaturated)
    else
      let id := (NextStreamID (w_conn w)).2 in
      let w1 := opened w p iw req in
      match err with
      | None => (w1, inl id)
      | Some e =>
          (set_mem_conn (set_conn (deregisterStream w1 id) (RemoveStream (w_conn w1) id now))
             (Release (w_mem w1) (Acquire newStream id p iw)).1 (RemoveStream (w_conn w1) id now), inr e)
      end.
Proof.
  unfold openStream, opened. destruct (Draining _); [done|]. destruct (_ <=? _); [done|].
  destruct (NextStreamID (w_conn w)) as [c id]. cbn [snd]. by destruct err.
Qed.

(** The registries lose the same stream, whose buffers go back. *)
Lemma remove_inv k w id now s :
  proxy_inv k w -> c_streams (w_conn w) !! id = Some s ->
  proxy_inv k (mkWorker (Release (w_mem w) s).1 (RemoveStream (w_conn w) id now) (delete id (w_streams w))
    (w_inFlight w) (w_done w)).
Proof.
  intros [H1 H2 H3 H4 H5] Hs. destruct (RemoveStream_spec (w_conn w) id now) as (_ & Es & En & Eo & _).
  split; cbn.
  - by apply RemoveStream_inv.
  - intros i. by rewrite Es, !lookup_delete_is_Some, H2.
  - rewrite En. by apply map_Forall_delete.
  - by rewrite En.
  - by eapply requests_same; [..|exact H5]; rewrite ?Eo.
Qed.

Lemma closeStream_inv k w id now : proxy_inv k w -> proxy_inv k (closeStream w id now).
Proof.
  intros H. unfold closeStream, GetStream. destruct (c_streams (w_conn w) !! id) as [s|] eqn:E.
  - by apply (remove_inv k w id now s).
  - destruct H as [H1 H2 H3 H4 H5].
    assert (Hn : w_streams w !! id = None).
    { destruct (w_streams w !! id) eqn:Ew; [|done]. destruct (proj1 (H2 id) ltac:(by rewrite Ew)). congruence. }
    split; cbn; rewrite ?delete_id by done; done.
Qed.

Lemma opened_stream w p iw req :
  c_streams (w_conn (opened w p iw req)) !! (NextStreamID (w_conn w)).2 =
  Some (Acquire newStream (NextStreamID (w_conn w)).2 p iw).
Proof.
  unfold opened. destruct (NextStreamID (w_conn w)) as [c id]. cbn [snd w_conn set_conn set_streams].
  rewrite (proj1 (submitAsync_frame _ _)). apply lookup_insert_eq.
Qed.

Lemma openStream_inv k w p iw req err now w' r :
  Z.of_nat k < 2 ^ 30 -> proxy_inv k w -> is_i32 iw -> is_request req ->
  openStream w p iw req err now = (w', r) -> proxy_inv (S k) w'.
Proof.
  intros Hk H Hw Hreq Ho. rewrite openStream_eq in Ho. cbv zeta in Ho.
  destruct (Draining _); [simplify_eq; by eapply (proxy_inv_mono k); [lia|]|].
  destruct (_ <=? _); [simplify_eq; by eapply (proxy_inv_mono k); [lia|]|].
  pose proof (opened_inv k w p iw req Hk H Hw Hreq) as H1.
  destruct err; simplify_eq; [|done].
  apply (remove_inv (S k) _ _ now _ H1). apply opened_stream.
Qed.

(** *** The loop *)

(** [SendRequestHeaders] is only called through [openStream]. *)
Definition forward_ok (e : ForwardEv) : Prop :=
  match e with
  | FwOpen req _ _ => is_request req
  | FwSubmit i => wi_kind i <> wkReqHeaders
  | _ => True
  end.

Definition opens (e : ForwardEv) : nat := match e with FwOpen _ _ _ => 1 | _ => 0 end.

(** The invariant, as long as fewer than 2^30 ids have been asked for. *)
Definition bounded_inv (k : nat) (w : Worker) : Prop := Z.of_nat k <= 2 ^ 30 -> proxy_inv k w.

Lemma bounded_mono k k' w : (k <= k')%nat -> bounded_inv k w -> bounded_inv k' w.
Proof. intros Hk H Hb. eapply proxy_inv_mono; [done|]. apply H. lia. Qed.

Lemma PeerInit_i32 m c : conn_inv m c -> is_i32 (InitialStreamWindow (c_Send c)).
Proof. intros ((_ & H & _) & _). unfold InitialStreamWindow. range32. Qed.

Lemma forward_ev_inv k w e : bounded_inv k w -> forward_ok e -> bounded_inv (k + opens e) (forward_ev w e).
Proof.
  intros H He Hb. destruct e as [req err now|id now|id want|id plen|i]; cbn [opens forward_ev] in *;
    pose proof (H ltac:(lia)) as Hi; rewrite ?Nat.add_0_r, ?Nat.add_1_r in *.
  - destruct (openStream _ _ _ _ _ _) as [w' r] eqn:E. eapply openStream_inv, E; try done; [lia|].
    eapply PeerInit_i32, Hi.
  - by apply closeStream_inv.
  - unfold GetStream. destruct (c_streams (w_conn w) !! id) as [s|] eqn:E; [|done].
    destruct (Reserve _ _ _) as [[r sc] sw] eqn:Er.
    apply (proxy_conn_step k w (w_mem w)); [done|exact (Reserve_inv _ _ _ _ _ _ _ _ (pi_conn _ _ Hi) E Er)|].
    etrans; [|exact (same_regs_insert (set_c_Send (w_conn w) sc) id s (set_SendWindow s sw) E)].
    by apply same_regs_streams.
  - unfold GetStream. destruct (c_streams (w_conn w) !! id) as [s|] eqn:E; [|done].
    destruct (Read _ _ _) as [[m' s'] r] eqn:Er.
    apply proxy_conn_step; [done|exact (Read_inv _ _ _ _ _ _ _ _ (pi_conn _ _ Hi) E Er)|by eapply same_regs_insert].
  - apply (proxy_conn_step k w (w_mem w)); [done|apply submitAsync_inv, Hi|by apply submitAsync_regs].
Qed.

Lemma set_hdr_proxy k w h : proxy_inv k w -> cont_bounded h -> proxy_inv k (set_conn w (set_c_hdr (w_conn w) h)).
Proof. intros [H1 H2 H3 H4 H5] Hb. split; cbn; try done. by apply set_c_hdr_inv. Qed.

(** What the framer guarantees of the frames it returns. *)
Definition frame_typed (f : Frame) : Prop :=
  match f with
  | FSettings _ ss => Forall (fun s => is_u32 s.2) ss
  | FHeaders f => Z.of_nat (length (hf_fragment f)) <= 16384
  | FContinuation f => Z.of_nat (length (cf_fragment f)) <= 16384
  | _ => True
  end.

Lemma handleProxyFrame_inv k w ch now f w' e :
  proxy_inv k w -> frame_typed f -> handleProxyFrame w ch now f = (w', e) -> proxy_inv k w'.
Proof.
  intros H Hf Hh. pose proof (pi_conn _ _ H) as Hi.
  pose proof (proxy_conn_step k w (w_mem w)) as Hstep. specialize (fun c => Hstep c H).
  destruct f as [ack ss|id inc|f|f|id data len es|ack data|l code|id code|]; simpl in Hh; try by simplify_eq.
  - destruct ack; [by simplify_eq|].
    pose proof (ApplyPeerSettings_inv _ _ ss Hi Hf) as Hi'. pose proof (ApplyPeerSettings_regs (w_conn w) ss) as Hr.
    destruct (ApplyPeerSettings _ _) as [c1 [e1|]]; simplify_eq; apply Hstep; auto with conn.
    etrans; [exact Hr|by apply submitAsync_regs].
  - simplify_eq. apply Hstep; auto with conn.
  - destruct (StartHeaders _ f) as [h r] eqn:Es.
    pose proof (StartHeaders_bounded (c_hdr (w_conn w)) f ltac:(apply Hi) Hf) as Hb. rewrite Es in Hb.
    pose proof (set_hdr_proxy k w h H Hb) as Hw1. destruct r as [[d|]|e1]; simplify_eq; [|done..].
    by apply deliverResponse_inv.
  - destruct (HandleInboundData _ _ _ _ _ _ _) as [m c] eqn:E. simplify_eq.
    apply proxy_conn_step; [done|by eapply HandleInboundData_inv|].
    pose proof (HandleInboundData_regs (w_mem w) (w_conn w) ch id data len es) as Hr. by rewrite E in Hr.
  - destruct ack; simplify_eq; apply Hstep; auto with conn. by apply submitAsync_regs.
  - destruct (negb _); simplify_eq; [done|]. apply Hstep; auto with conn.
  - simplify_eq. assert (Hw1 : proxy_inv k (match getStream w id with Some _ => fail w id ErrStreamReset | None => w end))
      by (destruct (getStream w id); [by apply fail_inv|done]).
    set (w1 := match getStream w id with Some _ => _ | None => w end) in *.
    apply (proxy_conn_step k w1 (w_mem w1)); [done|apply HandleRSTStream_inv, Hw1|apply HandleRSTStream_regs].
Qed.

Lemma continueBlock_proxy k w f w' e :
  proxy_inv k w -> frame_typed f -> continueBlock (R := proxyRole) w f = (w', e) -> proxy_inv k w'.
Proof.
  intros H Hf Hh. destruct f as [| | |cf| | | | |]; simpl in Hh; try by simplify_eq.
  destruct (negb _); [by simplify_eq|]. destruct (ConsumeContinuation _ cf) as [h r] eqn:E.
  pose proof (proj1 (continuation_accumulator_bounded' (c_hdr (w_conn w)) cf ltac:(apply (pi_conn _ _ H)) Hf)) as Hb.
  rewrite E in Hb. pose proof (set_hdr_proxy k w h H Hb) as Hw1.
  destruct r as [[d|]|e1]; simplify_eq; [|done..]. by apply deliverResponse_inv.
Qed.

Definition proxy_turn_ok (t : Turn) : Prop :=
  Forall forward_ok (t_env t : list ForwardEv) /\
  match t_read t with RFrame f => frame_typed f | _ => True end.

Definition turn_opens (t : Turn) : nat := sum_list_with opens (t_env t : list ForwardEv).

Lemma forward_evs_inv es k w :
  bounded_inv k w -> Forall forward_ok es -> bounded_inv (k + sum_list_with opens es) (foldl forward_ev w es).
Proof.
  intros H Hes. revert k w H. induction Hes as [|e es He Hes IH]; intros k w H; simpl; [by rewrite Nat.add_0_r|].
  rewrite Nat.add_assoc. by apply IH, forward_ev_inv.
Qed.

Lemma proxy_turn_inv k w t :
  bounded_inv k w -> proxy_turn_ok t -> bounded_inv (k + turn_opens t) (handleTurn (R := proxyRole) w t).1.
Proof.
  intros H [He Ht]. unfold handleTurn.
  destruct (t_shutdown t); [by eapply bounded_mono, H; lia|].
  destruct (DrainComplete _); [by eapply bounded_mono, H; lia|].
  set (w1 := role_env _ _).
  assert (H1 : bounded_inv (k + turn_opens t) w1).
  { apply forward_evs_inv; [|done]. intros Hb. specialize (H Hb).
    apply (proxy_conn_step k w (w_mem w)); auto with conn. apply SetIdleDeadline_inv, H. }
  clearbody w1. destruct (t_read t) as [f| |e]; [| |done].
  - destruct (InContinuation _).
    + destruct (continueBlock w1 f) as [w2 e] eqn:E. intros Hb. by eapply continueBlock_proxy; [apply H1| |].
    + destruct (role_frame w1 _ _ f) as [w2 e] eqn:E. intros Hb. by eapply handleProxyFrame_inv; [apply H1| |].
  - destruct (t_shutdown2 t); [done|]. destruct (DrainComplete _); [done|].
    cbn [role_conn proxyRole]. destruct (SendOrCheckPing (w_conn w1) (t_now t)) as [c e] eqn:E. intros Hb. specialize (H1 Hb).
    pose proof (SendOrCheckPing_inv _ _ (t_now t) (pi_conn _ _ H1)) as Hi.
    pose proof (SendOrCheckPing_regs (w_conn w1) (t_now t)) as Hr. rewrite E in Hi, Hr.
    by apply (proxy_conn_step _ w1 (w_mem w1)).
Qed.

Lemma awaitSettings_proxy k w rs w' r :
  proxy_inv k w -> Forall (fun x => match x with RFrame f => frame_typed f | _ => True end) rs ->
  awaitSettings (R := proxyRole) w rs = (w', r) -> proxy_inv k w'.
Proof.
  intros H Hrs. revert w H. induction Hrs as [|x rs Hx Hrs IH]; intros w H Ha; simpl in Ha; [by simplify_eq|].
  destruct x as [f| |e]; [|by simplify_eq..].
  destruct f as [ack ss| | | | | | | |]; try by eapply IH.
  destruct ack; [by eapply IH|].
  pose proof (ApplyPeerSettings_inv _ _ ss (pi_conn _ _ H) Hx) as Hi'. pose proof (ApplyPeerSettings_regs (w_conn w) ss) as Hr.
  destruct (ApplyPeerSettings _ _) as [c1 [e1|]]; simplify_eq;
    apply (proxy_conn_step k w (w_mem w)); auto with conn.
  etrans; [exact Hr|by apply submitAsync_regs].
Qed.

(** *** Teardown *)

(** Nobody is left waiting: for the response, for a body, for credit. *)
Definition tunnel_down (w : Worker) : Prop :=
  w_done w = true /\ dead (c_Send (w_conn w)) = true /\ c_writeDead (w_conn w) = true /\
  map_Forall (fun _ cs => cs_closed cs = true) (w_streams w) /\
  map_Forall (fun _ s => s_dataDone s = true /\ is_Some (s_dataErr s) /\ s_ctx s <> Some false) (c_streams (w_conn w)).

Lemma failOnce_closed cs e : cs_closed (failOnce cs e) = true.
Proof. unfold failOnce. by destruct (cs_closed cs) eqn:E. Qed.

Lemma failOnce_error cs e : cs_closed cs = false -> cs_respErr (failOnce cs e) = Some e.
Proof. unfold failOnce. by intros ->. Qed.

Lemma tunnelTeardown_streams w id :
  w_streams (tunnelTeardown w) !! id = (fun cs => failOnce cs ErrConnClosed) <$> w_streams w !! id.
Proof. unfold tunnelTeardown. cbn. by rewrite lookup_fmap. Qed.

Lemma tunnelTeardown_down w : tunnel_down (tunnelTeardown w).
Proof.
  unfold tunnelTeardown, submitAsync. cbn. split; [done|]. split; [by case_match|]. split; [by case_match|]. split.
  - intros id cs Hid. cbn in Hid. rewrite lookup_fmap in Hid. destruct (w_streams w !! id); simplify_eq/=.
    apply failOnce_closed.
  - assert (Hall : forall id s, ((fun s => FailBody s ErrConnClosed) <$>
      map_imap (fun id s => Some (if decide (is_Some (w_streams w !! id)) then FailBody s ErrConnClosed else s))
        (c_streams (w_conn w))) !! id = Some s ->
      s_dataDone s = true /\ is_Some (s_dataErr s) /\ s_ctx s <> Some false).
    { intros id s. rewrite lookup_fmap, map_lookup_imap. destruct (c_streams (w_conn w) !! id) as [s0|]; [|done]. simpl.
      intros [= <-]. set (s1 := if decide _ then _ else s0). cbn.
      split_and!; [done|by destruct (s_dataErr s1)|by destruct (s_ctx s1)]. }
    by case_match.
Qed.

(** [acceptTunnel]'s Worker. *)
Definition newWorker (d : decoder) : Worker :=
  mkWorker (mkMem ∅ ∅ [] 0) (newConn d) ∅ 0 false.

Lemma newWorker_inv d : proxy_inv 0 (newWorker d).
Proof.
  split; cbn.
  - apply (New_inv d).
  - intros id. by rewrite !lookup_empty.
  - apply map_Forall_empty.
  - by exists 0%nat.
  - split; constructor.
Qed.

Definition total_opens (ts : list Turn) : nat := sum_list_with turn_opens ts.

(** The proxy's tunnel state stays consistent: from a new tunnel, whatever
    frames the worker sends, interleaved with any activity of the forwarders,
    the proxy's stream registry and the connection's hold the same streams
    after each of this file's steps (Handover.v has what they hold between the
    critical sections of an opening or a cleanup), the connection's invariant
    holds, and the request HEADERS submitted so far carry odd, strictly
    increasing stream ids, as RFC 9113 5.1.1 demands (for up to 2^30 streams
    per tunnel). *)
Theorem tunnel_state_invariant d w0 rs ts w r :
  Forall (fun x => match x with RFrame f => frame_typed f | _ => True end) rs -> Forall proxy_turn_ok ts ->
  Z.of_nat (total_opens ts) <= 2 ^ 30 ->
  awaitSettings (R := proxyRole) (newWorker d) rs = (w0, Some None) ->
  frameLoop (R := proxyRole) w0 ts = (w, r) ->
  proxy_inv (total_opens ts) w.
Proof.
  intros Hrs Hts Hb H0 H. pose proof (awaitSettings_proxy 0 _ rs w0 _ (newWorker_inv d) Hrs H0) as Hw0.
  refine (frameLoop_inv_n (R := proxyRole) bounded_inv turn_opens proxy_turn_ok 0 w0 ts w r
    bounded_mono proxy_turn_inv _ Hts H Hb).
  by intros _.
Qed.

(** [openStream] refuses without a trace or opens exactly one stream: a
    draining tunnel and one with as many streams as the peer allows are
    refused with their own errors and unchanged; otherwise a fresh stream is
    in both registries, unanswered, with the given window, and the number of
    open streams is within the peer's limit; if the HEADERS cannot be sent,
    both registries are as before. *)
Theorem openStream_outcomes k w p iw req err now w' r :
  Z.of_nat k < 2 ^ 30 -> proxy_inv k w -> Z.of_nat (size (w_streams w)) <= MaxUint32 ->
  openStream w p iw req err now = (w', r) ->
  match r with
  | inr e =>
      (e = ErrTunnelDraining /\ Draining (w_conn w) = true /\ w' = w) \/
      (e = ErrTunnelSaturated /\ saturated w = true /\ w' = w) \/
      (err = Some e /\ w_streams w' = w_streams w /\ c_streams (w_conn w') = c_streams (w_conn w))
  | inl id =>
      Draining (w_conn w) = false /\ err = None /\ w_streams w !! id = None /\
      w_streams w' = <[id := newClientStream]> (w_streams w) /\
      c_streams (w_conn w') = <[id := Acquire newStream id p iw]> (c_streams (w_conn w)) /\
      Z.of_nat (size (w_streams w')) <= PeerMaxStreams (w_conn w)
  end.
Proof.
  intros Hk Hinv Hsz Ho. rewrite openStream_eq in Ho. cbv zeta in Ho. unfold saturated.
  destruct (Draining _) eqn:Hd; [simplify_eq; by left|].
  destruct (PeerMaxStreams _ <=? _) eqn:Hs; [simplify_eq; right; by left|]. bool_prop.
  rewrite u32_small in Hs by range32.
  destruct (next_id k (w_conn w) Hk (pi_next _ _ Hinv)) as (j & _ & Eid & _ & Hlt & _).
  assert (Hfresh : w_streams w !! (NextStreamID (w_conn w)).2 = None).
  { destruct (w_streams w !! _) as [cs|] eqn:Ew; [|done]. pose proof (pi_ids _ _ Hinv _ _ Ew) as Hx. cbn beta in Hx. lia. }
  assert (Hfreshc : c_streams (w_conn w) !! (NextStreamID (w_conn w)).2 = None).
  { destruct (c_streams (w_conn w) !! _) eqn:Ec; [|done].
    destruct (proj2 (pi_regs _ _ Hinv _) ltac:(by rewrite Ec)). congruence. }
  assert (Hop : w_streams (opened w p iw req) = <[(NextStreamID (w_conn w)).2 := newClientStream]> (w_streams w) /\
    c_streams (w_conn (opened w p iw req)) =
      <[(NextStreamID (w_conn w)).2 := Acquire newStream (NextStreamID (w_conn w)).2 p iw]> (c_streams (w_conn w))).
  { unfold opened. destruct (NextStreamID (w_conn w)) as [c id] eqn:E. cbn [snd w_conn w_streams set_conn set_streams].
    split; [done|]. rewrite (proj1 (submitAsync_frame _ _)). unfold NextStreamID in E. by injection E as <- _. }
  destruct Hop as [Hop1 Hop2]. set (id := (NextStreamID (w_conn w)).2) in *. clearbody id.
  destruct err as [e|]; injection Ho as <- <-.
  - right; right. split; [done|].
    destruct (RemoveStream_spec (w_conn (opened w p iw req)) id now) as (_ & Es & _). split.
    + transitivity (delete id (w_streams (opened w p iw req))); [done|].
      by rewrite Hop1, delete_insert_eq, delete_id.
    + etrans; [exact Es|]. by rewrite Hop2, delete_insert_eq, delete_id.
  - rewrite Hop1, Hop2, map_size_insert_None by done. split_and!; try done. lia.
Qed.

(** The state in which the teardown finds the tunnel. *)
Definition tunnel_ends (w : Worker) (rs : list ReadOutcome) (ts : list Turn) (w1 : Worker) (e : option gerror) : Prop :=
  awaitSettings w rs = (w1, Some e) /\ e <> None \/
  exists w0, awaitSettings w rs = (w0, Some None) /\ frameLoop w0 ts = (w1, Returned e).

Lemma serveTunnel_ends w rs ts w' e :
  serveTunnel w rs ts = (w', Some e) -> exists w1, tunnel_ends w rs ts w1 e /\ w' = tunnelTeardown w1.
Proof.
  unfold serveTunnel, tunnel_ends. intros H. destruct (awaitSettings (R := proxyRole) w rs) as [w1 [[e1|]|]]; [| |done].
  - simplify_eq. exists w1. split; [by left|done].
  - destruct (frameLoop (R := proxyRole) w1 ts) as [w2 [e2|]] eqn:E; simplify_eq.
    exists w2. split; [right; by exists w1|done].
Qed.

(** C21. However [serveTunnel] ends, every forwarder is released: the worker is
    marked done, the send credit is dead, every pending response is completed
    (with ErrConnClosed unless it had been delivered or failed before, in
    which case it is unchanged), every body is finished and failed, the last
    frame queued is a GOAWAY unless the writer had died, and the writer is
    shut down. *)
Theorem tunnel_teardown_releases_all w rs ts w' e :
  serveTunnel w rs ts = (w', Some e) ->
  tunnel_down w' /\
  exists w1, tunnel_ends w rs ts w1 e /\
    (c_writeDead (w_conn w1) = false -> last (c_out (w_conn w')) = Some (SendGoAway 0 ErrCodeNo)) /\
    forall id cs, w_streams w1 !! id = Some cs ->
      exists cs', w_streams w' !! id = Some cs' /\
        if cs_closed cs then cs' = cs else cs_closed cs' = true /\ cs_respErr cs' = Some ErrConnClosed.
Proof.
  intros (w1 & Hend & ->)%serveTunnel_ends. split; [apply tunnelTeardown_down|]. exists w1. split; [done|]. split.
  - intros Hd. unfold tunnelTeardown, submitAsync. cbn. rewrite Hd. cbn. by rewrite last_snoc.
  - intros id cs Hcs. exists (failOnce cs ErrConnClosed). rewrite tunnelTeardown_streams, Hcs. split; [done|].
    unfold failOnce. by destruct (cs_closed cs) eqn:E.
Qed.

(** *** Responses *)

(** What can happen to a [clientStream]. *)
Inductive RespEv :=
| EvDeliver (status : Z) (h : header)
| EvFail (err : gerror).

Definition resp_ev (cs : clientStream) (e : RespEv) : clientStream :=
  match e with EvDeliver st h => deliverHeaders cs st h | EvFail err => failOnce cs err end.

Lemma resp_ev_closed cs e : cs_closed cs = true -> resp_ev cs e = cs.
Proof. intros H. destruct e; unfold resp_ev, deliverHeaders, failOnce; by rewrite H. Qed.

(** A forwarder gets one answer: whatever HEADERS, resets and teardowns
    reach a stream, in whatever order, the first of them decides what the
    forwarder sees, status and headers or an error, never a mixture. *)
Theorem first_answer_wins e es :
  foldl resp_ev newClientStream (e :: es) =
    match e with
    | EvDeliver st h => mkCS None h st true
    | EvFail err => mkCS (Some err) ∅ 0 true
    end.
Proof.
  cbn [foldl]. assert (H : forall cs, cs_closed cs = true -> foldl resp_ev cs es = cs).
  { intros cs Hc. induction es as [|e' es IH]; [done|]. cbn [foldl]. by rewrite resp_ev_closed. }
  rewrite H; by destruct e.
Qed.

(** An interim response is taken for the final one: when a worker sends a
    1xx HEADERS and then the final HEADERS on a stream, the proxy's forwarder
    gets the 1xx status and its headers, and the final status and headers are
    dropped. *)
Theorem interim_response_is_final w d1 d2 :
  getStream w (dh_StreamID d1) = Some newClientStream -> dh_StreamID d2 = dh_StreamID d1 ->
  100 <= Atoi (dh_Status d1) <= 199 -> dh_EndStream d1 = false ->
  getStream (deliverResponse (deliverResponse w d1) d2) (dh_StreamID d1) =
    Some (mkCS None (dh_Header d1) (Atoi (dh_Status d1)) true).
Proof.
  intros Hg Hid _ He. unfold deliverResponse at 2. rewrite Hg, He.
  unfold deliverResponse, getStream. cbn [w_streams set_streams]. rewrite Hid, lookup_insert_eq.
  destruct (dh_EndStream d2); cbn; by rewrite lookup_insert_eq.
Qed.

End Tunnel.

(** ** Responses across the tunnel *)

Section Response.

Context {FR : Framer} {HE : HpackEncoder} {HD : HpackDecoder} {HC : HpackCodec}.

(** The fields of a response HEADERS intent, and their encoding. *)
Definition responseFields (range : header -> list (string * list string)) (i : writeIntent)
  : list (string * string) := responsePseudo (wi_status i) ++ regularFields (range (wi_header i)).

Definition responseBlock (range : header -> list (string * list string)) (wr : Writer) (i : writeIntent)
  : list byte := (writeFields (wr_enc wr) (responseFields range i)).2.

(** [strconv.Atoi] undoes [StatusString] on every status code. *)
Lemma Atoi_StatusString code : 0 <= code <= 999 -> Atoi (StatusString code) = code.
Proof.
  intros H.
  assert (Hall : forallb (fun n => Atoi (StatusString (Z.of_nat n)) =? Z.of_nat n) (seq 0 1000) = true) by (vm_compute; reflexivity).
  pose proof (proj1 (forallb_forall _ _) Hall (Z.to_nat code)) as Hc.
  cbv beta in Hc. replace (Z.of_nat (Z.to_nat code)) with code in Hc by lia.
  apply Z.eqb_eq, Hc. apply in_seq. lia.
Qed.

Lemma process_response range wr i fr err :
  wi_kind i = wkRespHeaders -> cache_ok ToLower (wr_lower wr) ->
  fr_write (wr_framer wr) (WHeaders (wi_streamID i) (responseBlock range wr i) (wi_endStream i) true) = (fr, err) ->
  exists lower', cache_ok ToLower lower' /\
    processIntent range wr i = (mkWriter (writeFields (wr_enc wr) (responseFields range i)).1 lower' fr, err).
Proof.
  intros Hk Hlow Hfr.
  destruct (encodeRegularHeaders_spec (wr_lower wr) (range (wi_header i)) Hlow) as [Hf Hc].
  eexists. split; [exact Hc|].
  unfold processIntent, encodeAndWriteResponseHeaders, writeHeaderBlock. rewrite Hk.
  destruct (encodeRegularHeaders (wr_lower wr) _) as [lower fs']. cbn [fst snd] in *. subst fs'.
  fold (responseFields range i). unfold responseBlock in Hfr.
  destruct (writeFields (wr_enc wr) (responseFields range i)) as [e b]. cbn [fst snd] in *. by rewrite Hfr.
Qed.

Lemma emit_response range cn i :
  range (wi_header i) ≡ₚ map_to_list (wi_header i) ->
  map_Forall (fun k _ => canonical_key k) (wi_header i) -> cache_ok CanonicalMIMEHeaderKey cn ->
  scratch_eq (foldl emitHeader (mkScratch ∅ "" "" "" "" cn) (responseFields range i))
    (filter forwardable (wi_header i)) "" "" "" (StatusString (wi_status i)).
Proof.
  intros Hr Hcan Hcn. destruct (range_permutation _ _ Hr) as (Hnd & Hmap & Hall).
  unfold responseFields. rewrite foldl_app.
  assert (H0 : scratch_eq (foldl emitHeader (mkScratch ∅ "" "" "" "" cn) (responsePseudo (wi_status i)))
    ∅ "" "" "" (StatusString (wi_status i))) by by split_and!.
  pose proof (emit_headers (range (wi_header i)) _ ∅ _ _ _ _ H0 Hnd (Hall Hcan) ltac:(done)) as He.
  by rewrite Hmap, (right_id_L ∅ (∪)) in He.
Qed.

(** A decoder in sync decodes the block and stays in sync. *)
Lemma decode_response range wr i c streamID :
  range (wi_header i) ≡ₚ map_to_list (wi_header i) ->
  map_Forall (fun k _ => canonical_key k) (wi_header i) -> cache_ok CanonicalMIMEHeaderKey (h_canon c) ->
  in_sync (wr_enc wr) (h_dec c) ->
  exists c',
    decodeBlock c streamID (responseBlock range wr i) (wi_endStream i) =
      (c', inl (mkDecoded (filter forwardable (wi_header i)) "" "" "" (StatusString (wi_status i)) streamID
                  (wi_endStream i))) /\
    in_sync (writeFields (wr_enc wr) (responseFields range i)).1 (h_dec c') /\
    cache_ok CanonicalMIMEHeaderKey (h_canon c') /\ c' = set_dec c (h_dec c') (h_canon c').
Proof.
  intros Hr Hcan Hcn Hsync.
  destruct (hpack_round_trip (wr_enc wr) (h_dec c) (responseFields range i) Hsync) as (d1 & d2 & Hd1 & Hd2 & Hsync').
  destruct (emit_response range (h_canon c) i Hr Hcan Hcn) as (Hh & Hm & Hp & Ha & Hs & Hok).
  exists (set_dec c d2 (canonNames (foldl emitHeader (mkScratch ∅ "" "" "" "" (h_canon c)) (responseFields range i)))).
  split_and!; [|exact Hsync'|exact Hok|done].
  unfold decodeBlock, responseBlock. rewrite Hd1, Hd2. by rewrite Hh, Hm, Hp, Ha, Hs.
Qed.

(** C15. A response survives the tunnel: when a worker writes response HEADERS
    with canonical header names and the proxy's decoder is in sync with the
    worker's encoder, the forwarder waiting on that stream gets exactly the
    worker's status code and its headers without the connection-specific ones;
    encoder and decoder stay in sync. *)
Theorem response_headers_round_trip range wr i fr c w :
  range (wi_header i) ≡ₚ map_to_list (wi_header i) ->
  wi_kind i = wkRespHeaders -> 0 <= wi_status i <= 999 ->
  map_Forall (fun k _ => canonical_key k) (wi_header i) ->
  cache_ok ToLower (wr_lower wr) -> cache_ok CanonicalMIMEHeaderKey (h_canon c) ->
  in_sync (wr_enc wr) (h_dec c) ->
  fr_write (wr_framer wr) (WHeaders (wi_streamID i) (responseBlock range wr i) (wi_endStream i) true) = (fr, None) ->
  getStream w (wi_streamID i) = Some newClientStream ->
  exists wr' c' d,
    processIntent range wr i = (wr', None) /\ wr_framer wr' = fr /\
    decodeBlock c (wi_streamID i) (responseBlock range wr i) (wi_endStream i) = (c', inl d) /\
    getStream (deliverResponse w d) (wi_streamID i) =
      Some (mkCS None (filter forwardable (wi_header i)) (wi_status i) true) /\
    in_sync (wr_enc wr') (h_dec c').
Proof.
  intros Hr Hk Hst Hcan Hlow Hcn Hsync Hfr Hg.
  destruct (decode_response range wr i c (wi_streamID i) Hr Hcan Hcn Hsync) as (c' & Hd & Hs & _).
  destruct (process_response range wr i fr None Hk Hlow Hfr) as (lower' & Hl & Hproc).
  do 3 eexists. split_and!; [exact Hproc|done|exact Hd| |exact Hs].
  unfold deliverResponse. cbn [dh_StreamID dh_Status dh_Header dh_EndStream]. rewrite Hg, Atoi_StatusString by done.
  destruct (wi_endStream i); unfold getStream; cbn [w_streams on_h2 set_conn set_streams]; by rewrite lookup_insert_eq.
Qed.

End Response.

(** ** Witnesses *)

Module TunnelDemo.

Definition hello : list ReadOutcome := [RFrame (FSettings false [(SettingMaxConcurrentStreams, 1)])].

Definition start : Worker := newWorker (HD := Plain.plain_decoder) tt.

Definition request (id : Z) : writeIntent := SendRequestHeaders id "GET" "http" "example.com" "/a" ∅ true.

Lemma request_ok : is_request request.
Proof. by intros id. Qed.

(** The worker's answer: HEADERS, then a body byte. *)
Definition answer : writeIntent := SendResponseHeaders 1 200 {[ "X-Test"%string := ["1"]%string ]} false.

Definition answer_block : list byte := Eval vm_compute in responseBlock map_to_list Plain.demo_writer answer.

Definition turn (env : list ForwardEv) (r : ReadOutcome) (stop : bool) : Turn :=
  mkTurn (R := proxyRole) false 0 env None 1 r stop.

(** One request is forwarded, a second refused; then the proxy shuts down with
    the response body still open. *)
Definition session : list Turn :=
  [turn [FwOpen request None 0; FwOpen request None 0] (RFrame (FHeaders (mkHeadersFrame 1 answer_block false true))) false;
   turn [FwRead 1 10] (RFrame (FData 1 [x61] 1 false)) false;
   turn [] RTimeout true].

Definition greeted : Worker := (awaitSettings (R := proxyRole) start hello).1.

Definition served : Worker := (frameLoop (R := proxyRole) greeted session).1.

Lemma greet_ok : Forall (fun x => match x with RFrame f => frame_typed f | _ => True end) hello.
Proof. repeat constructor; vm_compute; discriminate. Qed.

Lemma tunnel_session_ok : Forall proxy_turn_ok session.
Proof. repeat constructor; try apply request_ok; vm_compute; discriminate. Qed.

Lemma greeting : awaitSettings (R := proxyRole) start hello = (greeted, Some None).
Proof. unfold greeted. apply pair_fst. vm_compute. reflexivity. Qed.

Lemma serving : frameLoop (R := proxyRole) greeted session = (served, Returned None).
Proof. unfold served. apply pair_fst. vm_compute. reflexivity. Qed.

Lemma tunnel_state_invariant_witness :
  proxy_inv (total_opens session) served /\ request_ids (c_out (w_conn served)) = [1].
Proof.
  split; [|vm_compute; reflexivity].
  refine (tunnel_state_invariant (HD := Plain.plain_decoder) tt greeted hello session served _ greet_ok tunnel_session_ok _
    greeting serving).
  vm_compute. discriminate.
Defined.

Lemma start_inv : proxy_inv 0 start.
Proof. apply newWorker_inv. Qed.

Definition opened1 : Worker * (Z + gerror) := openStream start 0 65535 request None 0.

Lemma openStream_outcomes_witness :
  Z.of_nat (size (w_streams opened1.1)) <= PeerMaxStreams (w_conn start).
Proof.
  assert (Hsz : Z.of_nat (size (w_streams start)) <= MaxUint32) by (vm_compute; discriminate).
  assert (E : openStream start 0 65535 request None 0 = (opened1.1, inl 1)) by (unfold opened1; apply pair_fst; vm_compute; reflexivity).
  exact (proj2 (proj2 (proj2 (proj2 (proj2
    (openStream_outcomes 0 start 0 65535 request None 0 opened1.1 (inl 1) eq_refl start_inv Hsz E)))))).
Defined.

Definition ended : Worker := (serveTunnel start hello session).1.

Lemma ending : serveTunnel start hello session = (ended, Some None).
Proof. unfold ended. apply pair_fst. vm_compute. reflexivity. Qed.

Lemma tunnel_teardown_releases_all_witness : tunnel_down ended /\ is_Some (w_streams ended !! 1).
Proof.
  split; [|vm_compute; eauto].
  exact (proj1 (tunnel_teardown_releases_all start hello session ended None ending)).
Defined.

Definition early : DecodedHeaders := mkDecoded ∅ "" "" "" "103" 1 false.

Definition final : DecodedHeaders := mkDecoded ∅ "" "" "" "200" 1 true.

Lemma interim_response_is_final_witness :
  getStream (deliverResponse (deliverResponse opened1.1 early) final) 1 = Some (mkCS None ∅ 103 true).
Proof.
  refine (interim_response_is_final opened1.1 early final _ eq_refl _ eq_refl).
  - vm_compute. reflexivity.
  - vm_compute. split; discriminate.
Defined.

Lemma response_headers_round_trip_witness :
  exists wr' c' d,
    processIntent map_to_list Plain.demo_writer answer = (wr', None) /\
    wr_framer wr' = [WHeaders 1 answer_block false true] /\
    decodeBlock Plain.demo_hdr 1 answer_block false = (c', inl d) /\
    getStream (deliverResponse opened1.1 d) 1 = Some (mkCS None (filter forwardable (wi_header answer)) 200 true) /\
    in_sync (wr_enc wr') (h_dec c').
Proof.
  refine (response_headers_round_trip map_to_list Plain.demo_writer answer _ Plain.demo_hdr opened1.1 _ _ _ _ _ _ _ _ _).
  - done.
  - reflexivity.
  - vm_compute. split; discriminate.
  - apply (bool_decide_unpack _). vm_compute. exact I.
  - exact CommonLowerNames_ok.
  - exact CommonCanonNames_ok.
  - exact I.
  - reflexivity.
  - vm_compute. reflexivity.
Defined.

End TunnelDemo.
