(* ===== verification/Handover.v ===== *)
(** * Streams between their critical sections (worker.go, forward.go, handler.go, stream.go)

    Tunnel.v and Serve.v open and close a stream in one step.  In the code
    these are several critical sections, under two mutexes, and the frame
    reader looks a stream up in one and uses the pointer after it.  Here each
    section is a step, the Stream objects have addresses and come from
    streamPool, and any steps of the forwarders (or, on the worker, of the
    handlers' goroutines) and of the frame reader may come in between: what
    the registries hold at each moment, and that the bodies behave as in
    H2Stream.v as long as nobody uses a pointer to a stream that has been
    released.  Nothing in the code prevents the latter: the last theorem. *)

From Stdlib Require Import Strings.Byte.
From S2P Require Import Prelude Errors Flow Names H2Stream Writer HeaderBlock Conn ConnInv FrameLoop Tunnel.

Open Scope Z_scope.

(** ** The state *)

(** Where the goroutine of a stream is.  [Added] to [RolledOut] are inside
    [openStream], which holds [w.streamsMu] all along; [Removed] and
    [Unlisted] are between the three calls of its cleanup. *)
Inductive Stage := Added | Inserted | Running | RolledBack | RolledOut | Removed | Unlisted.

#[global] Instance stage_dec : EqDecision Stage.
Proof. solve_decision. Defined.

(** [ho_objs]: the Stream objects by address; [ho_pool]: streamPool;
    [ho_conn]: the connection's registry; [ho_listed]: [w.streams], by the
    object of the [clientStream] (empty on the worker); [ho_mu]: the opener
    that holds [w.streamsMu]; [ho_next]: the last stream id; [ho_at]: the
    streams whose goroutine has not released them; [ho_kept]: the pointer
    each goroutine holds, also after its end (a handler may keep [req.Body]);
    [ho_seen]: what the frame reader has looked up. *)
Record Handover := mkHandover {
  ho_mem : Mem;
  ho_objs : gmap nat Stream;
  ho_pool : list nat;
  ho_conn : gmap Z nat;
  ho_listed : gmap Z nat;
  ho_mu : option Z;
  ho_next : Z;
  ho_draining : bool;
  ho_limit : Z;
  ho_at : gmap Z (nat * Stage);
  ho_kept : gmap Z nat;
  ho_seen : option (Z * nat)
}.

Definition ho_init : Handover := mkHandover (mkMem ∅ ∅ [] 0) ∅ [] ∅ ∅ None 0 false MaxUint32 ∅ ∅ None.

Definition with_objs (h : Handover) (m : Mem) (objs : gmap nat Stream) : Handover :=
  mkHandover m objs (ho_pool h) (ho_conn h) (ho_listed h) (ho_mu h) (ho_next h) (ho_draining h) (ho_limit h) (ho_at h) (ho_kept h) (ho_seen h).

Definition with_regs (h : Handover) (conn listed : gmap Z nat) (mu : option Z) (at' : gmap Z (nat * Stage)) : Handover :=
  mkHandover (ho_mem h) (ho_objs h) (ho_pool h) conn listed mu (ho_next h) (ho_draining h) (ho_limit h) at' (ho_kept h) (ho_seen h).

Definition with_seen (h : Handover) (seen : option (Z * nat)) : Handover :=
  mkHandover (ho_mem h) (ho_objs h) (ho_pool h) (ho_conn h) (ho_listed h) (ho_mu h) (ho_next h) (ho_draining h) (ho_limit h) (ho_at h) (ho_kept h) seen.

Definition with_peer (h : Handover) (draining : bool) (limit : Z) : Handover :=
  mkHandover (ho_mem h) (ho_objs h) (ho_pool h) (ho_conn h) (ho_listed h) (ho_mu h) (ho_next h) draining limit (ho_at h) (ho_kept h) (ho_seen h).

(** ** The sections *)

Inductive HAct :=
(* the opener of a tunnel stream *)
| HAdd (ch : option nat) (win : Z)   (* up to [conn.AddStream], or refused *)
| HInsert (id : Z)                   (* [w.streams[id] = cs] *)
| HSent (id : Z)                     (* [sendHeaders] succeeds; unlock *)
| HSendFailed (id : Z)               (* it fails; [delete(w.streams, id)] *)
| HRollRemove (id : Z)
| HRollRelease (id : Z)              (* and unlock *)
(* the worker's frame reader opens a stream for its peer, which numbers its
   streams upwards (RFC 9113 5.1.1; the code does not check it) *)
| HDispatch (ch : option nat) (id : Z) (win : Z) (es : bool)
(* the goroutine's cleanup: [RemoveStream]; [deregisterStream], on the worker
   [HeaderPool.Put]; [Release] *)
| HRemove (id : Z)
| HUnlist (id : Z)
| HRelease (id : Z)
(* whoever holds the body *)
| HRead (id : Z) (plen : nat)
| HClose (id : Z)
(* the frame reader: a lookup, and what it does with the pointer *)
| HFind (id : Z)
| HFindListed (id : Z)
| HPush (id : Z) (ch : PoolChoice) (data : list byte)
| HCloseData (id : Z)
| HFail (id : Z) (e : gerror)
| HForget
| HPeer (draining : bool) (limit : Z)
(* [FailAllStreams] and [failAllStreams]: the loop under the lock *)
| HFailConn (e : gerror)
| HFailListed (e : gerror).

(** [streamPool.Get()] *)
Definition getObject (h : Handover) (ch : option nat) : nat * list nat :=
  match ch with
  | Some a => if decide (a ∈ ho_pool h) then (a, filter (fun x => x <> a) (ho_pool h)) else (fresh (dom (ho_objs h)), ho_pool h)
  | None => (fresh (dom (ho_objs h)), ho_pool h)
  end.

Section Side.

(** [lists]: the proxy, whose forwarders are also in [w.streams]; [ptr]: the
    connection. *)
Context (lists : bool) (ptr : nat).

(** [Acquire] and [AddStream]. *)
Definition addObject (h : Handover) (ch : option nat) (id win : Z) (mu : option Z) (st : Stage) : Handover :=
  let '(a, pool) := getObject h ch in
  let s := Acquire (default newStream (ho_objs h !! a)) id ptr win in
  mkHandover (ho_mem h) (<[a := s]> (ho_objs h)) pool (<[id := a]> (ho_conn h)) (ho_listed h) mu id (ho_draining h) (ho_limit h)
    (<[id := (a, st)]> (ho_at h)) (<[id := a]> (ho_kept h)) (ho_seen h).

(** [Release] *)
Definition releaseObject (h : Handover) (id : Z) (a : nat) (mu : option Z) : Handover :=
  let s := default newStream (ho_objs h !! a) in
  let '(m, s) := Release (ho_mem h) s in
  mkHandover m (<[a := s]> (ho_objs h)) (a :: ho_pool h) (ho_conn h) (ho_listed h) mu (ho_next h) (ho_draining h) (ho_limit h)
    (delete id (ho_at h)) (ho_kept h) (ho_seen h).

Definition onObject (h : Handover) (a : nat) (f : Mem -> Stream -> Mem * Stream) : Handover :=
  match ho_objs h !! a with
  | Some s => let '(m, s) := f (ho_mem h) s in with_objs h m (<[a := s]> (ho_objs h))
  | None => h
  end.

Definition failObjects (h : Handover) (l : list (Z * nat)) (e : gerror) : Handover :=
  foldl (fun h x => onObject h x.2 (fun m s => (m, FailBody s e))) h l.

(** The stage of a goroutine, if it is [st]. *)
Definition atStage (h : Handover) (id : Z) (st : Stage) : option nat :=
  match ho_at h !! id with Some (a, st') => if decide (st' = st) then Some a else None | None => None end.

(** The frame reader's pointer, if it is for stream [id]. *)
Definition seenAs (h : Handover) (id : Z) : option nat :=
  match ho_seen h with Some (i, a) => if decide (i = id) then Some a else None | None => None end.

Definition nextID (h : Handover) : Z := if ho_next h =? 0 then 1 else u32 (ho_next h + 2).

Definition ho_act (h : Handover) (x : HAct) : option (Handover * option ReadResult) :=
  let quiet h := Some (h, None) in
  match x with
  | HAdd ch win =>
      match lists, ho_mu h with
      | true, None =>
          if ho_draining h || (ho_limit h <=? u32 (Z.of_nat (size (ho_listed h)))) then quiet h
          else let id := nextID h in quiet (addObject h ch id win (Some id) Added)
      | _, _ => None
      end
  | HInsert id =>
      a ← atStage h id Added;
      quiet (with_regs h (ho_conn h) (<[id := a]> (ho_listed h)) (ho_mu h) (<[id := (a, Inserted)]> (ho_at h)))
  | HSent id =>
      a ← atStage h id Inserted;
      quiet (with_regs h (ho_conn h) (ho_listed h) None (<[id := (a, Running)]> (ho_at h)))
  | HSendFailed id =>
      a ← atStage h id Inserted;
      quiet (with_regs h (ho_conn h) (delete id (ho_listed h)) (ho_mu h) (<[id := (a, RolledBack)]> (ho_at h)))
  | HRollRemove id =>
      a ← atStage h id RolledBack;
      quiet (with_regs h (delete id (ho_conn h)) (ho_listed h) (ho_mu h) (<[id := (a, RolledOut)]> (ho_at h)))
  | HRollRelease id => a ← atStage h id RolledOut; quiet (releaseObject h id a None)
  | HDispatch ch id win es =>
      if lists then None
      else if ho_next h <? id then
        let h := addObject h ch id win None Running in
        match ho_conn h !! id with
        | Some a => quiet (if es then onObject h a (fun m s => (m, CloseData s)) else h)
        | None => None
        end
      else None
  | HRemove id =>
      a ← atStage h id Running;
      quiet (with_regs h (delete id (ho_conn h)) (ho_listed h) (ho_mu h) (<[id := (a, Removed)]> (ho_at h)))
  | HUnlist id =>
      a ← atStage h id Removed;
      match ho_mu h with
      | None => quiet (with_regs h (ho_conn h) (delete id (ho_listed h)) None (<[id := (a, Unlisted)]> (ho_at h)))
      | Some _ => None
      end
  | HRelease id => a ← atStage h id Unlisted; quiet (releaseObject h id a (ho_mu h))
  | HRead id plen =>
      a ← ho_kept h !! id; s ← ho_objs h !! a;
      let '(m, s, r) := Read (ho_mem h) s plen in Some (with_objs h m (<[a := s]> (ho_objs h)), Some r)
  | HClose id => a ← ho_kept h !! id; quiet (onObject h a BodyClose)
  | HFind id =>
      match ho_seen h with
      | None => quiet (with_seen h ((fun a => (id, a)) <$> ho_conn h !! id))
      | Some _ => None
      end
  | HFindListed id =>
      match ho_seen h, ho_mu h with
      | None, None => quiet (with_seen h ((fun a => (id, a)) <$> ho_listed h !! id))
      | _, _ => None
      end
  | HPush id ch data => a ← seenAs h id; quiet (onObject h a (fun m s => pushBytes m s ch data))
  | HCloseData id => a ← seenAs h id; quiet (onObject h a (fun m s => (m, CloseData s)))
  | HFail id e => a ← seenAs h id; quiet (onObject h a (fun m s => (m, FailBody s e)))
  | HForget => quiet (with_seen h None)
  | HPeer draining limit => quiet (with_peer h (ho_draining h || draining) limit)
  | HFailConn e => quiet (failObjects h (map_to_list (ho_conn h)) e)
  | HFailListed e =>
      match ho_mu h with None => quiet (failObjects h (map_to_list (ho_listed h)) e) | Some _ => None end
  end.

(** Nobody's pointer is to a released stream when it is used. *)
Definition holds (h : Handover) (id : Z) : bool := bool_decide (is_Some (ho_at h !! id)).

Definition live_use (h : Handover) (x : HAct) : bool :=
  match x with HRead id _ | HClose id | HPush id _ _ | HCloseData id | HFail id _ => holds h id | _ => true end.

(** A step, with what a read returns and whether the pointer it uses is live. *)
Definition ho_step (h : Handover) (l : HAct * option ReadResult * bool) (h' : Handover) : Prop :=
  ho_act h l.1.1 = Some (h', l.1.2) /\ l.2 = live_use h l.1.1.

Fixpoint ho_run (h : Handover) (l : list HAct) : option (Handover * list (HAct * option ReadResult * bool)) :=
  match l with
  | [] => Some (h, [])
  | x :: l => '(h1, r) ← ho_act h x; '(h2, ls) ← ho_run h1 l; Some (h2, (x, r, live_use h x) :: ls)
  end.

Lemma ho_run_steps l h h' ls : ho_run h l = Some (h', ls) -> steps ho_step h ls h'.
Proof.
  revert h ls. induction l as [|x l IH]; intros h ls H; simplify_eq/=; [constructor|].
  destruct (ho_act h x) as [[h1 r]|] eqn:E; simplify_eq/=. destruct (ho_run h1 l) as [[h2 ls2]|] eqn:E2; simplify_eq/=.
  econstructor; [split; [exact E|done]|by apply IH].
Qed.

(** ** The invariant *)

(** In which stages a stream is in the connection's registry, in [w.streams],
    and its opener inside the lock. *)
Definition in_conn (st : Stage) : bool := match st with Added | Inserted | Running | RolledBack => true | _ => false end.

Definition in_listed (st : Stage) : bool := lists && match st with Inserted | Running | Removed => true | _ => false end.

Definition locking (st : Stage) : bool := match st with Added | Inserted | RolledBack | RolledOut => true | _ => false end.

Definition opening (l : HAct * option ReadResult * bool) : nat := match l.1.1 with HAdd _ _ => 1 | _ => 0 end.

Record ho_inv (k : nat) (h : Handover) : Prop := {
  hi_conn id a : ho_conn h !! id = Some a <-> exists st, ho_at h !! id = Some (a, st) /\ in_conn st = true;
  hi_listed id a : ho_listed h !! id = Some a <-> exists st, ho_at h !! id = Some (a, st) /\ in_listed st = true;
  hi_mu id : ho_mu h = Some id <-> exists a st, ho_at h !! id = Some (a, st) /\ locking st = true;
  hi_obj id a st : ho_at h !! id = Some (a, st) -> (a ∉ ho_pool h) /\ s_ID <$> ho_objs h !! a = Some id;
  hi_pool : NoDup (ho_pool h) /\ (forall a, a ∈ ho_pool h -> is_Some (ho_objs h !! a));
  hi_ids : map_Forall (fun id _ => 0 < id <= ho_next h) (ho_kept h) /\ 0 <= ho_next h;
  hi_kept id a st : ho_at h !! id = Some (a, st) -> ho_kept h !! id = Some a;
  hi_seen id a : ho_seen h = Some (id, a) -> ho_kept h !! id = Some a;
  hi_odd : lists = true -> exists j, (j <= k)%nat /\ ho_next h = next_after j;
  hi_side id a st : ho_at h !! id = Some (a, st) -> lists = false -> locking st = false
}.

Lemma ho_inv_init : ho_inv 0 ho_init.
Proof.
  split; cbn; intros *; rewrite ?lookup_empty.
  - split; [done|]. by intros (? & ? & _).
  - split; [done|]. by intros (? & ? & _).
  - split; [done|]. by intros (? & ? & ? & _).
  - done.
  - split; [constructor|]. by intros a ?%not_elem_of_nil.
  - split; [apply map_Forall_empty|done].
  - done.
  - done.
  - intros _. by exists 0%nat.
  - done.
Qed.

Lemma ho_inv_mono k k' h : (k <= k')%nat -> ho_inv k h -> ho_inv k' h.
Proof. intros Hk [H1 H2 H3 H4 H5 H6 H7 H8 H9 H10]. split; try done. intros Hl. destruct (H9 Hl) as (j & ? & ?). exists j. split; [lia|done]. Qed.

(** No object has two goroutines. *)
Lemma ho_owner k h i j a st st' :
  ho_inv k h -> ho_at h !! i = Some (a, st) -> ho_at h !! j = Some (a, st') -> i = j.
Proof. intros H Hi Hj. destruct (hi_obj _ _ H _ _ _ Hi) as [_ E1], (hi_obj _ _ H _ _ _ Hj) as [_ E2]. rewrite E1 in E2. by injection E2. Qed.

Lemma atStage_Some h id st a : atStage h id st = Some a <-> ho_at h !! id = Some (a, st).
Proof. unfold atStage. split; [|intros ->; by rewrite decide_True]. by repeat case_match; intros; simplify_eq. Qed.

(** Only the state of objects changes. *)
Record same_handover (h h' : Handover) : Prop := {
  sh_pool : ho_pool h' = ho_pool h; sh_conn : ho_conn h' = ho_conn h; sh_listed : ho_listed h' = ho_listed h;
  sh_mu : ho_mu h' = ho_mu h; sh_next : ho_next h' = ho_next h; sh_at : ho_at h' = ho_at h; sh_kept : ho_kept h' = ho_kept h;
  sh_seen : ho_seen h' = ho_seen h \/ ho_seen h' = None;
  sh_ids a : s_ID <$> ho_objs h' !! a = s_ID <$> ho_objs h !! a
}.

Lemma ho_inv_regs k h h' : same_handover h h' -> ho_inv k h -> ho_inv k h'.
Proof.
  intros [E1 E2 E3 E4 E5 E6 E7 E8 E9] [H1 H2 H3 H4 H5 H6 H7 H8 H9 H10].
  split; rewrite ?E1, ?E2, ?E3, ?E4, ?E5, ?E6, ?E7; try done.
  - intros id a st. rewrite E9. apply H4.
  - split; [apply H5|]. intros a Ha. apply (fmap_is_Some s_ID). rewrite E9. apply fmap_is_Some. by apply H5.
  - intros id a. destruct E8 as [-> | ->]; [apply H8|done].
Qed.

Lemma onObject_regs h a f :
  (forall m s, s_ID (f m s).2 = s_ID s) -> same_handover h (onObject h a f).
Proof.
  intros Hf. unfold onObject. destruct (ho_objs h !! a) as [s|] eqn:E; [|split; auto].
  specialize (Hf (ho_mem h) s). destruct (f (ho_mem h) s) as [m s']. split; cbn; auto.
  intros b. rewrite lookup_insert. destruct (decide (a = b)) as [<-|]; [|done]. by rewrite E; cbn in *; rewrite Hf.
Qed.

(** ** Each section keeps it *)

Definition moved {A} (m : gmap Z A) (id : Z) (x : option A) (m' : gmap Z A) : Prop :=
  forall j, m' !! j = if decide (j = id) then x else m !! j.

Lemma moved_insert {A} (m : gmap Z A) id x : moved m id (Some x) (<[id := x]> m).
Proof. intros j. rewrite lookup_insert. repeat case_decide; congruence. Qed.

Lemma moved_delete {A} (m : gmap Z A) id : moved m id None (delete id m).
Proof. intros j. rewrite lookup_delete. repeat case_decide; congruence. Qed.

Lemma moved_id {A} (m : gmap Z A) id x : m !! id = x -> moved m id x m.
Proof. intros <- j. by case_decide; subst. Qed.

(** A goroutine goes on to its next stage. *)
Lemma move_inv k h id a st0 st1 conn' listed' mu' :
  ho_inv k h -> ho_at h !! id = Some (a, st0) ->
  moved (ho_conn h) id (if in_conn st1 then Some a else None) conn' ->
  moved (ho_listed h) id (if in_listed st1 then Some a else None) listed' ->
  (forall j, mu' = Some j <-> if decide (j = id) then locking st1 = true else ho_mu h = Some j) ->
  (lists = false -> locking st1 = false) ->
  ho_inv k (with_regs h conn' listed' mu' (<[id := (a, st1)]> (ho_at h))).
Proof.
  intros [H1 H2 H3 H4 H5 H6 H7 H8 H9 H10] Hid Hc Hl Hm Hside.
  assert (Hcase : forall (P : Stage -> bool) (m m' : gmap Z nat),
    (forall j b, m !! j = Some b <-> exists st, ho_at h !! j = Some (b, st) /\ P st = true) ->
    moved m id (if P st1 then Some a else None) m' ->
    forall j b, m' !! j = Some b <-> exists st, <[id := (a, st1)]> (ho_at h) !! j = Some (b, st) /\ P st = true).
  { intros P m m' Hm0 Hmv j b. rewrite (Hmv j). destruct (decide (j = id)) as [->|Hne].
    - rewrite lookup_insert_eq. split.
      + destruct (P st1) eqn:E; intros [= <-]. by exists st1.
      + intros (st & [= <- <-] & ->). done.
    - by rewrite lookup_insert_ne by done. }
  split; cbn [ho_conn ho_listed ho_mu ho_at ho_pool ho_objs ho_next ho_kept ho_seen with_regs]; try done.
  - by apply (Hcase in_conn (ho_conn h)).
  - by apply (Hcase in_listed (ho_listed h)).
  - intros j. rewrite Hm. destruct (decide (j = id)) as [->|Hne].
    + rewrite lookup_insert_eq. split; [by eauto|]. by intros (b & st & [= <- <-] & ?).
    + rewrite lookup_insert_ne by done. apply H3.
  - intros j b st. rewrite lookup_insert. destruct (decide (id = j)) as [<-|]; [|apply H4]. intros [= <- _]. by eapply H4.
  - intros j b st. rewrite lookup_insert. destruct (decide (id = j)) as [<-|]; [|apply H7]. intros [= <- _]. by eapply H7.
  - intros j b st. rewrite lookup_insert. destruct (decide (id = j)) as [<-|]; [|apply H10]. by intros [= _ <-].
Qed.

Lemma conn_at k h id a st : ho_inv k h -> ho_at h !! id = Some (a, st) -> ho_conn h !! id = if in_conn st then Some a else None.
Proof.
  intros H Hid. destruct (in_conn st) eqn:E; [apply (hi_conn _ _ H); eauto|].
  destruct (ho_conn h !! id) as [b|] eqn:Eb; [|done]. apply (hi_conn _ _ H) in Eb as (st' & Hst & ?). congruence.
Qed.

Lemma listed_at k h id a st : ho_inv k h -> ho_at h !! id = Some (a, st) -> ho_listed h !! id = if in_listed st then Some a else None.
Proof.
  intros H Hid. destruct (in_listed st) eqn:E; [apply (hi_listed _ _ H); eauto|].
  destruct (ho_listed h !! id) as [b|] eqn:Eb; [|done]. apply (hi_listed _ _ H) in Eb as (st' & Hst & ?). congruence.
Qed.

Lemma mu_at k h id a st : ho_inv k h -> ho_at h !! id = Some (a, st) -> locking st = true -> ho_mu h = Some id.
Proof. intros H Hid Hl. apply (hi_mu _ _ H). eauto. Qed.

Lemma mu_free k h id a st : ho_inv k h -> ho_at h !! id = Some (a, st) -> locking st = false -> ho_mu h <> Some id.
Proof. intros H Hid Hl Hm. apply (hi_mu _ _ H) in Hm as (b & st' & ? & ?). congruence. Qed.

(** The sections that only move a goroutine on. *)
Lemma section_inv k h x h' r :
  match x with HInsert _ | HSent _ | HSendFailed _ | HRollRemove _ | HRemove _ | HUnlist _ => True | _ => False end ->
  ho_inv k h -> ho_act h x = Some (h', r) -> ho_inv k h'.
Proof.
  intros Hx H Ha.
  destruct x as [|id|id|id|id| | |id|id| | | | | | | | | | | |]; try done; cbn [ho_act] in Ha;
    destruct (atStage h id _) as [a|] eqn:E; simplify_eq/=; apply atStage_Some in E;
    pose proof (conn_at _ _ _ _ _ H E) as Ec; pose proof (listed_at _ _ _ _ _ H E) as El; pose proof (hi_side _ _ H _ _ _ E) as Hside.
  - assert (Hl : lists = true) by (destruct lists; [done|by specialize (Hside eq_refl)]).
    pose proof (mu_at _ _ _ _ _ H E eq_refl) as Hmu. unfold in_listed in *. rewrite Hl in *. cbn in *.
    eapply move_inv; [done|exact E|by apply moved_id|unfold in_listed; rewrite Hl; apply moved_insert| |first [done|exact Hside|congruence]].
    intros j. rewrite Hmu. destruct (decide (j = id)) as [->|]; cbn; split; congruence.
  - pose proof (mu_at _ _ _ _ _ H E eq_refl) as Hmu.
    eapply move_inv; [done|exact E|by apply moved_id|by apply moved_id| |first [done|exact Hside|congruence]].
    intros j. rewrite Hmu. destruct (decide (j = id)) as [->|]; cbn; split; congruence.
  - pose proof (mu_at _ _ _ _ _ H E eq_refl) as Hmu.
    eapply move_inv; [done|exact E|by apply moved_id| | |first [done|exact Hside|congruence]].
    + unfold in_listed. rewrite andb_false_r. apply moved_delete.
    + intros j. rewrite Hmu. destruct (decide (j = id)) as [->|]; cbn; split; congruence.
  - pose proof (mu_at _ _ _ _ _ H E eq_refl) as Hmu.
    eapply move_inv; [done|exact E|apply moved_delete|by apply moved_id| |first [done|exact Hside|congruence]].
    intros j. rewrite Hmu. destruct (decide (j = id)) as [->|]; cbn; split; congruence.
  - pose proof (mu_free _ _ _ _ _ H E eq_refl) as Hmu.
    eapply move_inv; [done|exact E|apply moved_delete|by apply moved_id| |first [done|exact Hside|congruence]].
    intros j. destruct (decide (j = id)) as [->|]; [cbn; split; congruence|done].
  - destruct (ho_mu h) eqn:Hmu; simplify_eq. eapply move_inv; [done|exact E|by apply moved_id| | |first [done|exact Hside|congruence]].
    + unfold in_listed. rewrite andb_false_r. apply moved_delete.
    + intros j. rewrite Hmu. destruct (decide (j = id)) as [->|]; cbn; split; congruence.
Qed.

(** A released stream goes back to the pool. *)
Lemma release_inv k h id a st mu' :
  ho_inv k h -> ho_at h !! id = Some (a, st) -> in_conn st = false -> in_listed st = false ->
  mu' = (if locking st then None else ho_mu h) -> ho_inv k (releaseObject h id a mu').
Proof.
  intros H Hid Hc Hl Hm. pose proof (conn_at _ _ _ _ _ H Hid) as Ec. pose proof (listed_at _ _ _ _ _ H Hid) as El. rewrite Hc in Ec. rewrite Hl in El.
  assert (Hown : forall j b st', delete id (ho_at h) !! j = Some (b, st') -> b <> a /\ j <> id /\ ho_at h !! j = Some (b, st')).
  { intros j b st' Hj. apply lookup_delete_Some in Hj as [Hne Hj]. split_and!; [|done..]. intros ->. by apply Hne, (ho_owner k h id j a st st'). }
  pose proof H as [H1 H2 H3 H4 H5 H6 H7 H8 H9 H10]. destruct (H4 _ _ _ Hid) as [Hnp Hs].
  destruct (ho_objs h !! a) as [s|] eqn:Es; [|done]. injection Hs as Hs.
  assert (Ed : default newStream (ho_objs h !! a) = s) by by rewrite Es.
  unfold releaseObject. rewrite Ed. destruct (Release (ho_mem h) s) as [m s'] eqn:Er.
  assert (Hs' : s_ID s' = s_ID s) by (unfold Release in Er; destruct (returnBuf _ _); by simplify_eq).
  split; cbn [ho_conn ho_listed ho_mu ho_at ho_pool ho_objs ho_next ho_kept ho_seen]; try done.
  - intros j b. rewrite H1. split; intros (st' & Hj & Hi).
    + exists st'. rewrite lookup_delete_ne; [done|]. intros <-. congruence.
    + exists st'. split; [by apply Hown in Hj as (_ & _ & ?)|done].
  - intros j b. rewrite H2. split; intros (st' & Hj & Hi).
    + exists st'. rewrite lookup_delete_ne; [done|]. intros <-. congruence.
    + exists st'. split; [by apply Hown in Hj as (_ & _ & ?)|done].
  - intros j. subst mu'. split.
    + intros Hj. assert (Hj' : ho_mu h = Some j) by (by destruct (locking st)). apply H3 in Hj' as (b & st' & Hb & Hlk).
      exists b, st'. rewrite lookup_delete_ne; [done|]. intros <-. rewrite Hid in Hb. simplify_eq. by rewrite Hlk in Hj.
    + intros (b & st' & (_ & Hne & Hb)%Hown & Hlk). assert (Hj : ho_mu h = Some j) by (apply H3; eauto).
      destruct (locking st) eqn:E; [|done]. assert (ho_mu h = Some id) by (apply H3; eauto). congruence.
  - intros j b st' (Hne & _ & Hj)%Hown. rewrite lookup_insert_ne by done. destruct (H4 _ _ _ Hj) as [Hp ?].
    split; [|done].
    intros [->|?]%elem_of_cons; [by destruct Hne|by apply Hp].
  - split; [apply NoDup_cons; split; [done|apply H5]|]. intros b [->|Hb]%elem_of_cons; [by rewrite lookup_insert_eq|].
    rewrite lookup_insert. case_decide; [done|]. by apply H5.
  - intros j b st' (_ & _ & Hj)%Hown. by eapply H7.
  - intros j b st' (_ & _ & Hj)%Hown. by eapply H10.
Qed.

Lemma getObject_spec h ch a pool :
  (NoDup (ho_pool h) /\ (forall a, a ∈ ho_pool h -> is_Some (ho_objs h !! a))) -> getObject h ch = (a, pool) ->
  (a ∉ pool) /\ NoDup pool /\ (forall b, b ∈ pool -> b ∈ ho_pool h) /\ (a ∈ ho_pool h \/ ho_objs h !! a = None).
Proof.
  intros [Hnd Hin] H.
  assert (Hnew : (fresh (dom (ho_objs h)), ho_pool h) = (a, pool) ->
    (a ∉ pool) /\ NoDup pool /\ (forall b, b ∈ pool -> b ∈ ho_pool h) /\ (a ∈ ho_pool h \/ ho_objs h !! a = None)).
  { intros [= <- <-]. assert (Hf : ho_objs h !! fresh (dom (ho_objs h)) = None) by (apply not_elem_of_dom, is_fresh).
    split_and!; [|done..|by right]. intros Hi. apply Hin in Hi. rewrite Hf in Hi. by destruct Hi. }
  unfold getObject in H. destruct ch as [b|]; [|by apply Hnew]. destruct (decide (b ∈ ho_pool h)) as [Hb|]; [|by apply Hnew].
  injection H as <- <-. split_and!; [|by apply NoDup_filter| |by left].
  - intros [? _]%list_elem_of_filter. done.
  - by intros c [_ ?]%list_elem_of_filter.
Qed.

(** A new stream. *)
Lemma add_inv k k' h ch id win mu st :
  ho_inv k h -> (k <= k')%nat -> ho_next h < id -> in_conn st = true -> in_listed st = false \/ lists = false ->
  mu = (if locking st then Some id else None) -> ho_mu h = None ->
  (lists = true -> exists j, (j <= k')%nat /\ id = next_after j) -> (lists = false -> locking st = false) ->
  ho_inv k' (addObject h ch id win mu st).
Proof.
  intros H Hk Hlt Hc Hl Hm Hmu0 Hodd Hside. pose proof H as [H1 H2 H3 H4 H5 H6 H7 H8 H9 H10].
  unfold addObject. destruct (getObject h ch) as [a pool] eqn:Eg. destruct (getObject_spec _ _ _ _ H5 Eg) as (Hap & Hnd & Hsub & Hold).
  assert (Hnk : ho_kept h !! id = None).
  { destruct (ho_kept h !! id) as [b|] eqn:E; [|done]. destruct H6 as [H6 _]. specialize (H6 _ _ E). cbn in H6. lia. }
  assert (Hna : ho_at h !! id = None).
  { destruct (ho_at h !! id) as [[b st']|] eqn:E; [|done]. apply H7 in E. congruence. }
  assert (Hother : forall j b st', ho_at h !! j = Some (b, st') -> b <> a /\ j <> id).
  { intros j b st' Hj. destruct (H4 _ _ _ Hj) as [Hnp Hs]. split; [|intros ->; congruence]. intros ->.
    destruct Hold as [?|Hn]; [done|]. by rewrite Hn in Hs. }
  assert (Hl' : in_listed st = false) by (destruct Hl as [?|E]; [done|unfold in_listed; by rewrite E]).
  split; cbn [ho_conn ho_listed ho_mu ho_at ho_pool ho_objs ho_next ho_kept ho_seen].
  - intros j b. rewrite !lookup_insert. destruct (decide (id = j)) as [<-|]; [|apply H1]. split; [intros [= <-]; by exists st|].
    by intros (st' & [= <- _] & _).
  - intros j b. rewrite lookup_insert. destruct (decide (id = j)) as [<-|]; [|apply H2]. rewrite H2, Hna. split.
    + by intros (st' & ? & _).
    + intros (st' & [= <- <-] & ?). congruence.
  - intros j. rewrite lookup_insert. subst mu. destruct (decide (id = j)) as [<-|].
    + split; [|by intros (b & st' & [= <- <-] & ->)]. destruct (locking st) eqn:E; [|done]. intros _. by exists a, st.
    + rewrite <- H3, Hmu0. split; [|done]. destruct (locking st); [congruence|done].
  - intros j b st'. rewrite lookup_insert. destruct (decide (id = j)) as [<-|].
    + intros [= <- <-]. by rewrite lookup_insert_eq.
    + intros Hj. destruct (H4 _ _ _ Hj) as [Hnp Hs]. destruct (Hother _ _ _ Hj) as [Hne _]. rewrite lookup_insert_ne by done.
      split; [|done]. intros Hb. by apply Hnp, Hsub.
  - split; [done|]. intros b Hb. apply lookup_insert_is_Some'. right. by apply H5, Hsub.
  - destruct H6 as [H6 H0]. split; [|lia]. apply map_Forall_insert_2; [lia|]. eapply map_Forall_impl; [exact H6|]. cbn. intros; lia.
  - intros j b st'. rewrite !lookup_insert. destruct (decide (id = j)) as [<-|]; [by intros [= <- _]|apply H7].
  - intros j b Hj. rewrite lookup_insert_ne; [by apply H8|]. intros <-. apply H8 in Hj. congruence.
  - done.
  - intros j b st'. rewrite lookup_insert. destruct (decide (id = j)) as [<-|]; [by intros [= _ <-]|apply H10].
Qed.

Lemma Read_ID m s plen : s_ID (Read m s plen).1.2 = s_ID s.
Proof.
  unfold Read. destruct (_ <? _)%nat.
  - destruct (_ =? _)%nat; [|done]. by destruct (returnBuf _ _).
  - destruct (_ && _); [done|]. destruct (s_queue s !! s_qHead s); [|done]. destruct (compact _ _). destruct (_ <? _)%nat; [done|].
    by destruct (returnBuf _ _).
Qed.

Lemma BodyClose_ID m s : s_ID (BodyClose m s).2 = s_ID s.
Proof. unfold BodyClose. by destruct (returnBuf _ _). Qed.

Lemma pushBytes_ID m s ch data : s_ID (pushBytes m s ch data).2 = s_ID s.
Proof. unfold pushBytes. destruct (_ <? _)%nat; [|done]. by destruct (GetDataSlice _ _ _) as [[? ?] ?]. Qed.

Lemma same_handover_trans h1 h2 h3 : same_handover h1 h2 -> same_handover h2 h3 -> same_handover h1 h3.
Proof.
  intros [A1 A2 A3 A4 A5 A6 A7 A8 A9] [B1 B2 B3 B4 B5 B6 B7 B8 B9]. split; try congruence.
  destruct B8 as [-> | ->]; auto.
Qed.

Lemma failObjects_regs l h e : same_handover h (failObjects h l e).
Proof.
  unfold failObjects. revert h. induction l as [|x l IH]; intros h; [by split; auto|]. cbn [foldl].
  eapply same_handover_trans; [|apply IH]. by apply onObject_regs.
Qed.

(** What only works on objects. *)
Lemma object_regs h x h' r :
  ho_act h x = Some (h', r) ->
  match x with
  | HRead _ _ | HClose _ | HPush _ _ _ | HCloseData _ | HFail _ _ | HForget | HPeer _ _ | HFailConn _ | HFailListed _ => same_handover h h'
  | _ => True
  end.
Proof.
  intros H. destruct x; try done; cbn [ho_act] in H.
  - destruct (ho_kept h !! id) as [a|]; [|done]. cbn in H. destruct (ho_objs h !! a) as [s|] eqn:E; [|done]. cbn in H.
    pose proof (Read_ID (ho_mem h) s plen) as Hi. destruct (Read _ _ _) as [[m s'] r']. simplify_eq. cbn in Hi.
    split; cbn; auto. intros b. rewrite lookup_insert. destruct (decide (a = b)) as [<-|]; [|done]. by rewrite E; cbn; rewrite Hi.
  - destruct (ho_kept h !! id) as [a|]; simplify_eq/=. apply onObject_regs, BodyClose_ID.
  - destruct (seenAs h id) as [a|]; simplify_eq/=. apply onObject_regs. intros; apply pushBytes_ID.
  - destruct (seenAs h id) as [a|]; simplify_eq/=. by apply onObject_regs.
  - destruct (seenAs h id) as [a|]; simplify_eq/=. by apply onObject_regs.
  - simplify_eq. by split; auto.
  - simplify_eq. by split; auto.
  - simplify_eq. apply failObjects_regs.
  - destruct (ho_mu h); simplify_eq. apply failObjects_regs.
Qed.

Lemma nextID_after k h :
  ho_inv k h -> lists = true -> Z.of_nat k < 2 ^ 30 ->
  ho_next h < nextID h /\ exists j, (j <= S k)%nat /\ nextID h = next_after j.
Proof.
  intros H Hl Hk. destruct (hi_odd _ _ H Hl) as (j & Hj & E). unfold nextID. rewrite E. unfold next_after.
  destruct j as [|j]; cbn [Nat.eqb].
  - split; [done|]. exists 1%nat. split; [lia|done].
  - rewrite (proj2 (Z.eqb_neq _ 0)) by lia. unfold u32. rewrite Z.mod_small by lia. split; [lia|]. exists (S (S j)). cbn [Nat.eqb]. lia.
Qed.

Lemma worker_unlocked k h : ho_inv k h -> lists = false -> ho_mu h = None.
Proof.
  intros H Hl. destruct (ho_mu h) as [id|] eqn:E; [|done]. apply (hi_mu _ _ H) in E as (a & st & Ha & Hk).
  pose proof (hi_side _ _ H _ _ _ Ha Hl). congruence.
Qed.

Definition bounded_ho (k : nat) (h : Handover) : Prop := Z.of_nat k <= 2 ^ 30 -> ho_inv k h.

Lemma ho_inv_step k h l h' : bounded_ho k h -> ho_step h l h' -> bounded_ho (k + opening l) h'.
Proof.
  intros H [Ha _] Hb. destruct l as [[x r] live]. cbn [fst snd opening] in *.
  assert (H0 : ho_inv k h) by (apply H; destruct x; unfold opening in Hb; cbn [fst] in Hb; lia).
  pose proof (object_regs _ _ _ _ Ha) as Ho.
  destruct x as [ch win|id|id|id|id|id|ch id win es|id|id|id|id plen|id|id|id|id ch data|id|id e| |dr li|e|e];
    unfold opening in *; cbn [fst] in *; rewrite ?Nat.add_0_r in *; try (by eapply ho_inv_regs); try (eapply (section_inv k h); [|exact H0|exact Ha]; exact I);
    clear Ho; cbn [ho_act] in Ha.
  - destruct lists eqn:Hl; [|done]. destruct (ho_mu h) eqn:Hmu; [done|]. destruct (_ || _); simplify_eq; [eapply ho_inv_mono, H0; lia|].
    destruct (nextID_after k h H0 Hl ltac:(lia)) as [Hlt Hj].
    apply (add_inv k); try done; try lia; [left; unfold in_listed; apply andb_false_r| |congruence].
    intros _. destruct Hj as (j & ? & ?). exists j. split; [lia|done].
  - destruct (atStage h id _) as [a|] eqn:E; simplify_eq/=. apply atStage_Some in E.
    eapply release_inv; try done. unfold in_listed. apply andb_false_r.
  - destruct lists eqn:Hl; [done|]. destruct (ho_next h <? id) eqn:Hn; [|done]. bool_prop.
    assert (Hadd : ho_inv k (addObject h ch id win None Running)).
    { apply (add_inv k); try done; [by right|by eapply worker_unlocked|by rewrite Hl]. }
    destruct (ho_conn _ !! id) as [a|]; [|done]. destruct es; simplify_eq; [|done].
    eapply ho_inv_regs, Hadd. by apply onObject_regs.
  - destruct (atStage h id _) as [a|] eqn:E; simplify_eq/=. apply atStage_Some in E.
    eapply release_inv; try done. unfold in_listed. apply andb_false_r.
  - destruct (ho_seen h) eqn:Es; simplify_eq. destruct H0 as [H1 H2 H3 H4 H5 H6 H7 H8 H9 H10]. split; cbn; try done.
    intros i a. destruct (ho_conn h !! id) as [b|] eqn:E; [|done]. intros [= <- <-].
    apply H1 in E as (st & E & _). by eapply H7.
  - destruct (ho_seen h) eqn:Es; [done|]. destruct (ho_mu h) eqn:Em; simplify_eq.
    destruct H0 as [H1 H2 H3 H4 H5 H6 H7 H8 H9 H10]. split; cbn; try done.
    intros i a. destruct (ho_listed h !! id) as [b|] eqn:E; [|done]. intros [= <- <-].
    apply H2 in E as (st & E & _). by eapply H7.
Qed.

Lemma ho_reachable ls h :
  steps ho_step ho_init ls h -> bounded_ho (sum_list_with opening ls) h.
Proof.
  assert (G : forall k h0, bounded_ho k h0 -> steps ho_step h0 ls h -> bounded_ho (k + sum_list_with opening ls) h).
  { induction ls as [|l ls IH]; intros k h0 H0 H; inv H; cbn [sum_list_with]; [by rewrite Nat.add_0_r|].
    rewrite Nat.add_assoc. eapply IH; [|done]. by eapply ho_inv_step. }
  intros H. apply (G 0%nat ho_init); [|done]. intros _. apply ho_inv_init.
Qed.

(** ** The bodies *)

(** The streams somebody's goroutine has not released. *)
Definition ho_bodies (h : Handover) : BodySys := mkBodySys (ho_mem h) (omap (fun x => ho_objs h !! x.1) (ho_at h)).

Lemma body_of k h id a st : ho_inv k h -> ho_at h !! id = Some (a, st) -> exists s, ho_objs h !! a = Some s /\ bs_streams (ho_bodies h) !! id = Some s.
Proof.
  intros H Hid. destruct (hi_obj _ _ H _ _ _ Hid) as [_ Hs]. destruct (ho_objs h !! a) as [s|] eqn:E; [|done].
  exists s. split; [done|]. cbn. by rewrite lookup_omap, Hid.
Qed.

Lemma bodies_stage h conn listed mu id a st0 st1 :
  ho_at h !! id = Some (a, st0) -> ho_bodies (with_regs h conn listed mu (<[id := (a, st1)]> (ho_at h))) = ho_bodies h.
Proof.
  intros Hid. unfold ho_bodies. cbn. f_equal. apply map_eq. intros j. rewrite !lookup_omap, lookup_insert.
  destruct (decide (id = j)) as [<-|]; [by rewrite Hid|done].
Qed.

Lemma bodies_onObject k h id a st f s m' s' :
  ho_inv k h -> ho_at h !! id = Some (a, st) -> ho_objs h !! a = Some s -> f (ho_mem h) s = (m', s') ->
  ho_bodies (onObject h a f) = mkBodySys m' (<[id := s']> (bs_streams (ho_bodies h))).
Proof.
  intros H Hid Hs Hf. unfold onObject. rewrite Hs, Hf. unfold ho_bodies. cbn. f_equal. apply map_eq. intros j.
  rewrite lookup_insert, !lookup_omap. destruct (decide (id = j)) as [<-|Hne].
  - rewrite Hid. cbn. by rewrite lookup_insert_eq.
  - destruct (ho_at h !! j) as [[b st']|] eqn:E; [|done]. cbn. rewrite lookup_insert_ne; [done|].
    intros <-. by apply Hne, (ho_owner k h id j a st st').
Qed.

(** What goes through a body: the traffic of the two views is the same. *)
Definition traffic (l : BOp * option ReadResult) : bool :=
  match l.1 with BPush _ _ _ | BRead _ _ | BClose _ => true | _ => false end.

Definition ho_traffic (l : HAct * option ReadResult * bool) : option (BOp * option ReadResult) :=
  match l.1.1 with
  | HPush id ch data => Some (BPush id ch data, None)
  | HRead id plen => Some (BRead id plen, l.1.2)
  | HClose id => Some (BClose id, None)
  | _ => None
  end.

Definition body_run (y : BodySys) (t : list (BOp * option ReadResult)) (y' : BodySys) : Prop :=
  exists bs, steps body_step y bs y' /\ filter (fun l => traffic l = true) bs = t.

Lemma body_run_nil y : body_run y [] y.
Proof. exists []. split; [constructor|done]. Qed.

Lemma body_run_app y1 t1 y2 t2 y3 : body_run y1 t1 y2 -> body_run y2 t2 y3 -> body_run y1 (t1 ++ t2) y3.
Proof.
  intros (b1 & H1 & <-) (b2 & H2 & <-). exists (b1 ++ b2). split; [by eapply steps_app|apply filter_app].
Qed.

Lemma body_run_one y o r y' : body_step y (o, r) y' -> body_run y (if traffic (o, r) then [(o, r)] else []) y'.
Proof.
  intros H. exists [(o, r)]. split; [econstructor; [done|constructor]|]. rewrite filter_cons.
  destruct (traffic (o, r)) eqn:E; [by rewrite decide_True|by rewrite decide_False].
Qed.

(** An operation on the object of a live stream is that operation on its body. *)
Lemma object_run k h id a st f (o : BOp) :
  ho_inv k h -> ho_at h !! id = Some (a, st) ->
  (forall m ss s, ss !! id = Some s -> body_op (mkBodySys m ss) o = Some (let '(m', s') := f m s in mkBodySys m' (<[id := s']> ss), None)) ->
  body_run (ho_bodies h) (if traffic (o, None) then [(o, None)] else []) (ho_bodies (onObject h a f)).
Proof.
  intros H Hid Hop. destruct (body_of _ _ _ _ _ H Hid) as (s & Hs & Hb). destruct (f (ho_mem h) s) as [m' s'] eqn:Ef.
  rewrite (bodies_onObject k h id a st f s m' s' H Hid Hs Ef). apply body_run_one. unfold body_step. cbn [fst snd].
  change (ho_bodies h) with (mkBodySys (ho_mem h) (bs_streams (ho_bodies h))).
  by rewrite (Hop _ _ s Hb), Ef.
Qed.

Lemma fail_run k h l e :
  ho_inv k h -> Forall (fun x => exists st, ho_at h !! x.1 = Some (x.2, st)) l ->
  body_run (ho_bodies h) [] (ho_bodies (failObjects h l e)).
Proof.
  intros H Hl. unfold failObjects. revert h H Hl. induction l as [|[id a] l IH]; intros h H Hl; [apply body_run_nil|].
  apply Forall_cons in Hl as [[st Hid] Hl]. cbn [foldl fst snd] in *. change [] with (@nil (BOp * option ReadResult) ++ []).
  set (f := fun (m : Mem) s => (m, FailBody s e)).
  assert (Hr : same_handover h (onObject h a f)) by by apply onObject_regs. eapply body_run_app.
  - apply (object_run k h id a st f (BFail id e) H Hid). intros m ss s Hs. unfold f. cbn. by rewrite Hs.
  - apply IH; [by eapply ho_inv_regs|]. by rewrite (sh_at _ _ Hr).
Qed.

Lemma new_object k h ch a pool j b st :
  ho_inv k h -> getObject h ch = (a, pool) -> ho_at h !! j = Some (b, st) -> b <> a.
Proof.
  intros H Hg Hj ->. destruct (getObject_spec _ _ _ _ (hi_pool _ _ H) Hg) as (_ & _ & _ & Hold).
  destruct (hi_obj _ _ H _ _ _ Hj) as [Hnp Hs]. destruct Hold as [?|Hn]; [done|]. by rewrite Hn in Hs.
Qed.

Lemma unknown_id k h id : ho_inv k h -> ho_next h < id -> ho_at h !! id = None.
Proof.
  intros H Hlt. destruct (ho_at h !! id) as [[a st]|] eqn:E; [|done]. apply (hi_kept _ _ H) in E.
  destruct (hi_ids _ _ H) as [Hids _]. specialize (Hids _ _ E). cbn in Hids. lia.
Qed.

Lemma add_run k h ch id win mu st :
  ho_inv k h -> ho_next h < id -> body_run (ho_bodies h) [] (ho_bodies (addObject h ch id win mu st)).
Proof.
  intros H Hlt. pose proof (unknown_id _ _ _ H Hlt) as Hna. unfold addObject. destruct (getObject h ch) as [a pool] eqn:Eg.
  apply (body_run_one _ (BAcquire id ptr win) None). unfold body_step. cbn. rewrite lookup_omap, Hna. cbn. do 2 f_equal.
  unfold ho_bodies. cbn. f_equal. apply map_eq. intros j. rewrite lookup_insert, !lookup_omap, lookup_insert.
  destruct (decide (id = j)) as [<-|Hne]; cbn; [by rewrite lookup_insert_eq|].
  destruct (ho_at h !! j) as [[b st']|] eqn:E; [|done]. cbn.
  rewrite lookup_insert_ne; [done|]. intros <-. by apply (new_object _ _ _ _ _ _ _ _ H Eg E).
Qed.

Lemma release_run k h id a st mu :
  ho_inv k h -> ho_at h !! id = Some (a, st) -> body_run (ho_bodies h) [] (ho_bodies (releaseObject h id a mu)).
Proof.
  intros H Hid. destruct (body_of _ _ _ _ _ H Hid) as (s & Hs & Hb).
  apply (body_run_one _ (BRelease id) None). unfold body_step. cbn [fst snd body_op].
  change (ho_bodies h) with (mkBodySys (ho_mem h) (bs_streams (ho_bodies h))). cbn [body_op]. rewrite Hb.
  assert (Ed : default newStream (ho_objs h !! a) = s) by by rewrite Hs.
  unfold releaseObject. rewrite Ed. cbn [mbind option_bind]. destruct (Release (ho_mem h) s) as [m s']. do 2 f_equal.
  unfold ho_bodies. cbn. f_equal. apply map_eq. intros j. rewrite lookup_delete, !lookup_omap, lookup_delete.
  destruct (decide (id = j)) as [<-|Hne]; [done|]. destruct (ho_at h !! j) as [[b st']|] eqn:E; [|done]. cbn.
  rewrite lookup_insert_ne; [done|]. intros <-. by apply Hne, (ho_owner k h id j a st st').
Qed.

Lemma seen_live k h id a : ho_inv k h -> seenAs h id = Some a -> holds h id = true -> exists st, ho_at h !! id = Some (a, st).
Proof.
  intros H Hs Hh. apply bool_decide_eq_true in Hh as [[b st] Hb]. unfold seenAs in Hs.
  destruct (ho_seen h) as [[i a']|] eqn:E; [|done]. destruct (decide (i = id)) as [->|]; simplify_eq.
  apply (hi_seen _ _ H) in E. pose proof (hi_kept _ _ H _ _ _ Hb). exists st. congruence.
Qed.

Lemma kept_live k h id a : ho_inv k h -> ho_kept h !! id = Some a -> holds h id = true -> exists st, ho_at h !! id = Some (a, st).
Proof.
  intros H Hs Hh. apply bool_decide_eq_true in Hh as [[b st] Hb]. pose proof (hi_kept _ _ H _ _ _ Hb). exists st. congruence.
Qed.

Lemma read_run k h id a st plen m s r :
  ho_inv k h -> ho_at h !! id = Some (a, st) -> Read (ho_mem h) (default newStream (ho_objs h !! a)) plen = (m, s, r) ->
  body_run (ho_bodies h) [(BRead id plen, Some r)] (ho_bodies (with_objs h m (<[a := s]> (ho_objs h)))).
Proof.
  intros H Hid Hr. destruct (body_of _ _ _ _ _ H Hid) as (s0 & Hs & Hb). rewrite Hs in Hr. cbn in Hr.
  apply (body_run_one _ (BRead id plen) (Some r)). unfold body_step. cbn [fst snd].
  change (ho_bodies h) with (mkBodySys (ho_mem h) (bs_streams (ho_bodies h))). cbn [body_op]. rewrite Hb. cbn [mbind option_bind].
  rewrite Hr. do 2 f_equal.
  pose proof (bodies_onObject k h id a st (fun m s0 => (Read m s0 plen).1) s0 m s H Hid Hs ltac:(cbv beta; by rewrite Hr)) as E.
  unfold onObject in E. rewrite Hs, Hr in E. cbn [fst] in E. by rewrite E.
Qed.

Lemma ho_step_bodies k h x r h' :
  ho_inv k h -> Z.of_nat k < 2 ^ 30 -> ho_act h x = Some (h', r) -> live_use h x = true ->
  body_run (ho_bodies h) (option_list (ho_traffic (x, r, true))) (ho_bodies h').
Proof.
  intros H Hk Ha Hlive.
  destruct x as [ch win|id|id|id|id|id|ch id win es|id|id|id|id plen|id|id|id|id ch data|id|id e| |dr li|e|e];
    cbn [ho_act live_use ho_traffic fst snd option_list] in *;
    try (destruct (atStage h id _) as [a|] eqn:E; simplify_eq/=; apply atStage_Some in E);
    try (rewrite (bodies_stage h _ _ _ id a _ _ E); apply body_run_nil); try by eapply release_run.
  - destruct lists eqn:Hl; [|done]. destruct (ho_mu h); [done|]. destruct (_ || _); simplify_eq; [apply body_run_nil|].
    eapply add_run; [done|]. by eapply nextID_after.
  - destruct lists eqn:Hl; [done|]. destruct (ho_next h <? id) eqn:Hn; [|done]. bool_prop.
    assert (Hadd : ho_inv k (addObject h ch id win None Running)).
    { apply (add_inv k); try done; [by right|by eapply worker_unlocked|by rewrite Hl]. }
    pose proof (add_run k h ch id win None Running H Hn) as Hrun. set (h1 := addObject _ _ _ _ _ _) in *.
    destruct (ho_conn h1 !! id) as [a|] eqn:Ec; [|done]. destruct es; simplify_eq; [|done].
    apply (hi_conn _ _ Hadd) in Ec as (st & Hst & _).
    apply (body_run_app _ [] _ [] _ Hrun). apply (object_run k h1 id a st _ (BCloseData id) Hadd Hst).
    intros m ss s Hs. cbn. by rewrite Hs.
  - destruct (ho_mu h); simplify_eq.
    rewrite (bodies_stage h _ _ _ id a _ _ E). apply body_run_nil.
  - destruct (ho_kept h !! id) as [a|] eqn:E; [|done]. destruct (kept_live _ _ _ _ H E Hlive) as [st Hst].
    cbn in Ha. destruct (ho_objs h !! a) as [s|] eqn:Es; [|done]. cbn in Ha. destruct (Read _ _ _) as [[m s'] r'] eqn:Er. simplify_eq.
    eapply read_run; [done|done|]. by rewrite Es.
  - destruct (ho_kept h !! id) as [a|] eqn:E; simplify_eq/=. destruct (kept_live _ _ _ _ H E Hlive) as [st Hst].
    apply (object_run k h id a st _ (BClose id) H Hst). intros m ss s Hs. cbn. rewrite Hs. cbn. by destruct (BodyClose m s).
  - destruct (ho_seen h); simplify_eq. apply body_run_nil.
  - destruct (ho_seen h); [done|]. destruct (ho_mu h); simplify_eq. apply body_run_nil.
  - destruct (seenAs h id) as [a|] eqn:E; simplify_eq/=. destruct (seen_live _ _ _ _ H E Hlive) as [st Hst].
    apply (object_run k h id a st _ (BPush id ch data) H Hst). intros m ss s Hs. cbn. rewrite Hs. cbn. by destruct (pushBytes m s ch data).
  - destruct (seenAs h id) as [a|] eqn:E; simplify_eq/=. destruct (seen_live _ _ _ _ H E Hlive) as [st Hst].
    apply (object_run k h id a st _ (BCloseData id) H Hst). intros m ss s Hs. cbn. by rewrite Hs.
  - destruct (seenAs h id) as [a|] eqn:E; simplify_eq/=. destruct (seen_live _ _ _ _ H E Hlive) as [st Hst].
    apply (object_run k h id a st _ (BFail id e) H Hst). intros m ss s Hs. cbn. by rewrite Hs.
  - simplify_eq. apply body_run_nil.
  - simplify_eq. apply body_run_nil.
  - simplify_eq. eapply fail_run; [done|]. apply Forall_forall. intros [i a] Hin. apply elem_of_map_to_list in Hin.
    apply (hi_conn _ _ H) in Hin as (st & ? & _). by exists st.
  - destruct (ho_mu h); simplify_eq. eapply fail_run; [done|]. apply Forall_forall. intros [i a] Hin. apply elem_of_map_to_list in Hin.
    apply (hi_listed _ _ H) in Hin as (st & ? & _). by exists st.
Qed.

Lemma ho_bodies_run ls h k h0 :
  bounded_ho k h0 -> steps ho_step h0 ls h -> Z.of_nat (k + sum_list_with opening ls) < 2 ^ 30 -> Forall (fun l => l.2 = true) ls ->
  body_run (ho_bodies h0) (omap ho_traffic ls) (ho_bodies h).
Proof.
  intros H0 H. revert k H0. induction H as [h0|h0 l h1 ls h2 Hs _ IH]; intros k H0 Hb Hl; [apply body_run_nil|].
  apply Forall_cons in Hl as [Hl1 Hl]. cbn [sum_list_with] in Hb. pose proof (ho_inv_step _ _ _ _ H0 Hs) as H1.
  destruct Hs as [Ha Hv]. destruct l as [[x r] b]. cbn [fst snd] in *. rewrite Hl1 in *. symmetry in Hv.
  assert (E : omap ho_traffic ((x, r, true) :: ls) = option_list (ho_traffic (x, r, true)) ++ omap ho_traffic ls)
    by (cbn [omap list_omap]; by destruct (ho_traffic (x, r, true))).
  rewrite E. eapply body_run_app; [|apply (IH _ H1); [lia|done]].
  apply (ho_step_bodies k); [apply H0; lia|lia|done|done].
Qed.

(** ** Uninterrupted, the sections are the steps of Tunnel.v *)

(** The tunnel's Worker, seen through its object store. *)
Record shadows (h : Handover) (w : Worker) : Prop := {
  sw_mem : ho_mem h = w_mem w;
  sw_conn id : c_streams (w_conn w) !! id = a ← ho_conn h !! id; ho_objs h !! a;
  sw_listed : dom (ho_listed h) = dom (w_streams w);
  sw_next : ho_next h = c_nextStreamID (w_conn w);
  sw_peer : ho_draining h = Draining (w_conn w) /\ ho_limit h = PeerMaxStreams (w_conn w)
}.

Lemma RemoveStream_peer c id now : Draining (RemoveStream c id now) = Draining c /\ PeerMaxStreams (RemoveStream c id now) = PeerMaxStreams c.
Proof. unfold RemoveStream, finishDrain. destruct (_ && _); [|done]. cbn. by destruct (c_drainDone c). Qed.

Lemma submitAsync_peer c i :
  Draining (submitAsync c i) = Draining c /\ PeerMaxStreams (submitAsync c i) = PeerMaxStreams c /\
  c_nextStreamID (submitAsync c i) = c_nextStreamID c.
Proof. unfold submitAsync. by destruct (c_writeDead c). Qed.

(** [RemoveStream], [deregisterStream] and [Release], in either cleanup. *)
Lemma shadows_close k h w id a st now :
  ho_inv k h -> shadows h w -> ho_at h !! id = Some (a, st) -> in_conn st = true ->
  exists s, c_streams (w_conn w) !! id = Some s /\ ho_objs h !! a = Some s /\
    forall mu pool kept seen at',
    shadows (mkHandover (Release (ho_mem h) s).1 (<[a := (Release (ho_mem h) s).2]> (ho_objs h)) pool
        (delete id (ho_conn h)) (delete id (ho_listed h)) mu (ho_next h) (ho_draining h) (ho_limit h) at' kept seen)
      (closeStream w id now).
Proof.
  intros H [S1 S2 S3 S4 [S5 S6]] Hid Hc. pose proof (conn_at _ _ _ _ _ H Hid) as Ec. rewrite Hc in Ec.
  destruct (hi_obj _ _ H _ _ _ Hid) as [_ Hs]. destruct (ho_objs h !! a) as [s|] eqn:Es; [|done].
  assert (Ew : c_streams (w_conn w) !! id = Some s) by (rewrite S2, Ec; exact Es).
  exists s. split_and!; [done..|]. intros mu pool kept seen at'. unfold closeStream, GetStream. rewrite Ew.
  destruct (RemoveStream_spec (w_conn w) id now) as (_ & E1 & E2 & _). destruct (RemoveStream_peer (w_conn w) id now) as [E3 E4].
  split; cbn [ho_mem ho_conn ho_objs ho_listed ho_next ho_draining ho_limit w_mem w_conn w_streams deregisterStream set_conn set_streams set_mem_conn].
  - by rewrite S1.
  - intros j. rewrite E1, !lookup_delete. destruct (decide (id = j)) as [<-|Hne]; [done|]. rewrite S2.
    destruct (ho_conn h !! j) as [b|] eqn:Eb; [|done]. cbn. rewrite lookup_insert_ne; [done|]. intros <-.
    apply (hi_conn _ _ H) in Eb as (st' & Hj & _). by apply Hne, (ho_owner k h id j a st st').
  - by rewrite !dom_delete_L, S3.
  - by rewrite E2.
  - by rewrite E3, E4.
Qed.

(** [AddStream], the insertion in [w.streams] and [sendHeaders]. *)
Lemma shadows_opened k h w ch win req :
  ho_inv k h -> shadows h w -> ho_mu h = None -> ho_next h < nextID h ->
  let id := nextID h in
  let h1 := addObject h ch id win (Some id) Added in
  forall mu at', shadows (with_regs h1 (ho_conn h1) (<[id := (getObject h ch).1]> (ho_listed h)) mu at') (opened w ptr win req).
Proof.
  intros H [S1 S2 S3 S4 [S5 S6]] Hmu Hlt id h1 mu at'. assert (Eid : id = (NextStreamID (w_conn w)).2).
  { unfold id, nextID, NextStreamID. by rewrite S4. }
  unfold opened, h1, addObject. destruct (getObject h ch) as [a pool] eqn:Eg. unfold NextStreamID in *. cbn [snd] in Eid. rewrite <- Eid.
  set (c := Conn.AddStream _ _). destruct (submitAsync_peer c (req id)) as (E1 & E2 & E3).
  split; cbn [with_regs ho_mem ho_conn ho_objs ho_listed ho_next ho_draining ho_limit w_mem w_conn w_streams set_conn set_streams fst].
  - done.
  - intros j. rewrite (proj1 (submitAsync_frame _ _)). unfold c. cbn [Conn.AddStream set_c_streams c_streams set_c_nextStreamID s_ID Acquire].
    rewrite !lookup_insert. destruct (decide (id = j)) as [<-|Hne]; cbn; [by rewrite lookup_insert_eq|]. rewrite S2.
    destruct (ho_conn h !! j) as [b|] eqn:Eb; [|done]. cbn. apply (hi_conn _ _ H) in Eb as (st & Hst & _).
    rewrite lookup_insert_ne; [done|]. intros <-. by apply (new_object _ _ _ _ _ _ _ _ H Eg Hst).
  - by rewrite !dom_insert_L, S3.
  - by rewrite E3.
  - by rewrite E1, E2.
Qed.

Lemma ho_run_cons h x h1 r l h2 ls :
  ho_act h x = Some (h1, r) -> ho_run h1 l = Some (h2, ls) -> ho_run h (x :: l) = Some (h2, (x, r, live_use h x) :: ls).
Proof. intros E1 E2. cbn [ho_run]. rewrite E1. cbn [mbind option_bind]. by rewrite E2. Qed.

(** The stage after a section. *)
Lemma atStage_next h conn listed mu id a st : atStage (with_regs h conn listed mu (<[id := (a, st)]> (ho_at h))) id st = Some a.
Proof. apply atStage_Some. apply lookup_insert_eq. Qed.

(** A cleanup that nobody interrupts is Tunnel.v's [closeStream]. *)
Theorem closeStream_is_its_sections k h w id a now :
  ho_inv k h -> shadows h w -> ho_at h !! id = Some (a, Running) -> ho_mu h = None ->
  exists h' ls, ho_run h [HRemove id; HUnlist id; HRelease id] = Some (h', ls) /\ shadows h' (closeStream w id now).
Proof.
  intros H Sh Hid Hmu. destruct (shadows_close k h w id a Running now H Sh Hid eq_refl) as (s & _ & Es & Hsh).
  assert (E1 : atStage h id Running = Some a) by by apply atStage_Some.
  do 2 eexists. split.
  - eapply ho_run_cons; [cbn [ho_act]; by rewrite E1|].
    eapply ho_run_cons; [cbn [ho_act]; rewrite atStage_next; cbn [mbind option_bind with_regs ho_mu]; by rewrite Hmu|].
    eapply ho_run_cons; [cbn [ho_act]; by rewrite atStage_next|done].
  - unfold releaseObject. cbn [ho_objs with_regs ho_mem]. assert (Ed : default newStream (ho_objs h !! a) = s) by by rewrite Es.
    rewrite Ed. pose proof (Hsh None) as Hsh'. destruct (Release (ho_mem h) s) as [m s']. apply Hsh'.
Qed.

(** An opening that nobody interrupts is Tunnel.v's [openStream]: refused,
    rolled back, or done. *)
Theorem openStream_is_its_sections k h w ch win req err now :
  ho_inv k h -> Z.of_nat k < 2 ^ 30 -> shadows h w -> lists = true -> ho_mu h = None ->
  let id := nextID h in
  exists h' ls,
    ho_run h (if Draining (w_conn w) || saturated w then [HAdd ch win]
              else HAdd ch win :: HInsert id ::
                   match err with None => [HSent id] | Some _ => [HSendFailed id; HRollRemove id; HRollRelease id] end)
      = Some (h', ls) /\
    shadows h' (openStream w ptr win req err now).1.
Proof.
  intros H Hk Sh Hl Hmu id. pose proof Sh as [S1 S2 S3 S4 [S5 S6]]. rewrite openStream_eq. cbv zeta.
  assert (Hsz : size (ho_listed h) = size (w_streams w)) by (by rewrite <- !size_dom, S3).
  assert (Hadd : ho_act h (HAdd ch win) = if Draining (w_conn w) || saturated w then Some (h, None) else Some (addObject h ch id win (Some id) Added, None)).
  { cbn [ho_act]. rewrite Hl, Hmu, S5, S6, Hsz. unfold saturated. by destruct (_ || _). }
  unfold saturated in *. destruct (Draining (w_conn w)); cbn [orb] in *.
  { do 2 eexists. split; [by eapply ho_run_cons|done]. }
  destruct (_ <=? _); cbn [orb] in *.
  { do 2 eexists. split; [by eapply ho_run_cons|done]. }
  destruct (nextID_after k h H Hl Hk) as [Hlt Hj].
  assert (H1 : ho_inv (S k) (addObject h ch id win (Some id) Added)).
  { apply (add_inv k); try done; [lia|left; unfold in_listed; apply andb_false_r|congruence]. }
  pose proof (shadows_opened k h w ch win req H Sh Hmu Hlt) as Hsh. fold id in Hsh. cbv zeta in Hsh.
  set (h1 := addObject h ch id win (Some id) Added) in *. set (a := (getObject h ch).1) in *.
  assert (E1 : atStage h1 id Added = Some a).
  { apply atStage_Some. unfold h1, a, addObject. destruct (getObject h ch) as [b pool]. apply lookup_insert_eq. }
  assert (El : ho_listed h1 = ho_listed h /\ ho_mu h1 = Some id) by (unfold h1, addObject; by destruct (getObject h ch)).
  destruct El as [El Em].
  assert (Hins : ho_act h1 (HInsert id) = Some (with_regs h1 (ho_conn h1) (<[id := a]> (ho_listed h1)) (ho_mu h1) (<[id := (a, Inserted)]> (ho_at h1)), None))
    by (cbn [ho_act]; by rewrite E1).
  pose proof (section_inv (S k) h1 (HInsert id) _ _ I H1 Hins) as H2. rewrite El in *. set (h2 := with_regs h1 _ _ _ _) in *.
  assert (Sh2 : shadows h2 (opened w ptr win req)) by apply Hsh.
  assert (E2 : atStage h2 id Inserted = Some a) by (apply atStage_Some, lookup_insert_eq).
  destruct err as [e|].
  - destruct (shadows_close (S k) h2 _ id a Inserted now H2 Sh2 ltac:(apply lookup_insert_eq) eq_refl) as (s & Ews & Es & Hcl).
    do 2 eexists. split.
    + eapply ho_run_cons; [exact Hadd|]. eapply ho_run_cons; [exact Hins|].
      eapply ho_run_cons; [cbn [ho_act]; by rewrite E2|].
      eapply ho_run_cons; [cbn [ho_act]; by rewrite atStage_next|].
      eapply ho_run_cons; [cbn [ho_act]; by rewrite atStage_next|done].
    + unfold releaseObject. cbn [ho_objs with_regs ho_mem ho_conn ho_listed ho_next ho_draining ho_limit ho_pool ho_kept ho_seen].
      assert (Ed : default newStream (ho_objs h2 !! a) = s) by by rewrite Es.
      rewrite Ed. pose proof (Hcl None) as Hcl'. unfold closeStream, GetStream in Hcl'. rewrite Ews in Hcl'.
      assert (Eid : (NextStreamID (w_conn w)).2 = id) by (unfold id, nextID, NextStreamID; by rewrite S4).
      pose proof (opened_stream w ptr win req) as Eo. rewrite Eid in *. rewrite Ews in Eo. injection Eo as <-.
      cbn [fst w_mem w_conn deregisterStream set_conn set_streams set_mem_conn] in *.
      destruct (Release (ho_mem h2) s) as [m s']. apply Hcl'.
  - do 2 eexists. split.
    + eapply ho_run_cons; [exact Hadd|]. eapply ho_run_cons; [exact Hins|].
      eapply ho_run_cons; [cbn [ho_act]; by rewrite E2|done].
    + cbn [fst]. destruct Sh2 as [T1 T2 T3 T4 T5]. by split.
Qed.

(** ** The registries at every moment *)

(** C19. Between any two critical sections of a tunnel (or a worker
    connection) that has opened fewer than 2^30 streams, with any
    interleaving of its openers, its cleanups and the frame reader: the
    connection's registry holds exactly the streams from [AddStream] to
    [RemoveStream], [w.streams] those from its insertion to
    [deregisterStream] or the roll-back, under their ids and with their
    objects; no object belongs to two streams or to one and the pool; at most
    one opener is inside the lock; so the two registries agree whenever
    nobody is between two of its sections.  As long as nobody uses the
    pointer to a stream that has been released, the bodies go through exactly
    the operations of H2Stream.v, with the same pushes, reads and results. *)
Theorem registries_at_every_section ls h :
  steps ho_step ho_init ls h -> Z.of_nat (sum_list_with opening ls) < 2 ^ 30 ->
  ho_inv (sum_list_with opening ls) h /\
  (lists = true -> (forall id a st, ho_at h !! id = Some (a, st) -> st = Inserted \/ st = Running \/ st = RolledOut \/ st = Unlisted) ->
   ho_listed h = ho_conn h) /\
  (Forall (fun l => l.2 = true) ls -> body_run body_init (omap ho_traffic ls) (ho_bodies h)).
Proof.
  intros H Hb. assert (Hi : ho_inv (sum_list_with opening ls) h) by (apply ho_reachable; [done|lia]). split_and!; [done| |].
  - intros Hl Hrest. apply map_eq. intros id. apply option_eq. intros a. rewrite (hi_conn _ _ Hi), (hi_listed _ _ Hi).
    split; intros (st & Hst & Hin); exists st; (split; [done|]); unfold in_listed in *; rewrite Hl in *;
      destruct (Hrest _ _ _ Hst) as [->|[->|[-> | ->]]]; done.
  - intros Hl. apply (ho_bodies_run ls h 0 ho_init); [by intros _; apply ho_inv_init|done|done|done].
Qed.

End Side.

(** ** Runs *)

Module HandoverDemo.

(** One tunnel stream after the other, each released before the next. *)
Definition orderly : list HAct :=
  [HAdd None 100; HInsert 1; HSent 1; HFind 1; HPush 1 None [x61; x62]; HForget; HRead 1 10;
   HRemove 1; HFind 1; HForget; HUnlist 1; HRelease 1; HAdd (Some 0%nat) 100; HInsert 3].

Definition orderly_end : Handover * list (HAct * option ReadResult * bool) := default (ho_init, []) (ho_run true 0 ho_init orderly).

Lemma orderly_runs : ho_run true 0 ho_init orderly = Some orderly_end.
Proof. vm_compute. reflexivity. Qed.

Lemma registries_at_every_section_witness :
  ho_listed orderly_end.1 = ho_conn orderly_end.1 /\
  body_run body_init [(BPush 1 None [x61; x62], None); (BRead 1 10, Some (RRead [x61; x62]))] (ho_bodies orderly_end.1).
Proof.
  destruct (registries_at_every_section true 0 orderly_end.2 orderly_end.1) as (_ & H1 & H2).
  - apply (ho_run_steps true 0 orderly). rewrite orderly_runs. by destruct orderly_end.
  - vm_compute. reflexivity.
  - split.
    + apply H1; [reflexivity|]. intros id a st Hst.
      assert (E : ho_at orderly_end.1 = {[3 := (0%nat, Inserted)]}) by (vm_compute; reflexivity).
      rewrite E in Hst. apply lookup_singleton_Some in Hst as [_ [= _ <-]]. by left.
    + apply H2. vm_compute. repeat constructor.
Defined.

(** The frame reader has found stream 1 for a DATA frame; before it queues
    the bytes, the stream's forwarder cleans up and another one opens stream
    3, which gets the object. *)
Definition crossing : list HAct :=
  [HAdd None 100; HInsert 1; HSent 1; HFind 1; HRemove 1; HUnlist 1; HRelease 1;
   HAdd (Some 0%nat) 100; HInsert 3; HSent 3; HPush 1 None [x61; x62]; HForget; HRead 3 10].

(** Stream 3's caller then reads the bytes that were sent on stream 1, as a
    part of its own response. *)
Theorem found_then_recycled :
  exists h ls, ho_run true 0 ho_init crossing = Some (h, ls) /\
    last ls = Some (HRead 3 10, Some (RRead [x61; x62]), true) /\
    Forall (fun l => match l.1.1 with HPush id _ _ => id = 1 | _ => True end) ls.
Proof.
  set (e := default (ho_init, []) (ho_run true 0 ho_init crossing)).
  exists e.1, e.2. split; [vm_compute; reflexivity|]. split; [vm_compute; reflexivity|]. vm_compute. repeat constructor.
Qed.

End HandoverDemo.
