(* ===== verification/TunnelEvents.v ===== *)
(** * What happens to a tunnel while one forwarder works

    The frame reader, the other forwarders and the teardown as events on the
    [Worker] state of Tunnel.v, with the lemmas a forwarder's proof needs: an
    event keeps the tunnel's invariant, leaves a foreign stream registered, and
    changes its body only by the DATA it carries or by failing it. *)

From Stdlib Require Import Strings.Byte.
From S2P Require Import Prelude Errors Flow Names H2Stream Writer HeaderBlock Conn ConnInv FrameLoop Tunnel.

(** The effect of one body operation on one FIFO. *)
Definition op_data (id : Z) (o : BOp) : list byte :=
  match o with BPush j _ data => if decide (j = id) then data else [] | _ => [] end.

Definition op_fails (id : Z) (o : BOp) : bool :=
  match o with BFail j _ => bool_decide (j = id) | _ => false end.

(** The operation is not one the owner of stream [id] would do. *)
Definition op_foreign (id : Z) (o : BOp) : Prop :=
  match o with BClose j | BRelease j | BRead j _ => j <> id | _ => True end.

Definition grown (f f' : Fifo) (data : list byte) (fails : bool) : Prop :=
  garbled f' = garbled f /\ pending f' = pending f ++ data /\ (is_Some (failure f') <-> is_Some (failure f) \/ fails = true) /\
  (ended f = true \/ fails = true -> ended f' = true).

Lemma grown_intro f f' data :
  garbled f' = garbled f -> pending f' = pending f ++ data -> failure f' = failure f ->
  (ended f = true -> ended f' = true) -> grown f f' data false.
Proof.
  intros Hg Hp He Hd. split_and!; [done..| |by intros [?|?]; auto]. rewrite He. split; [by left|by intros [?|?]].
Qed.

Lemma grown_refl f : grown f f [] false.
Proof. apply grown_intro; [done|by rewrite app_nil_r|done..]. Qed.

Lemma grown_failed f f' :
  garbled f' = garbled f -> pending f' = pending f -> is_Some (failure f') -> ended f' = true -> grown f f' [] true.
Proof. intros Hg Hp He Hd. split_and!; [done|by rewrite app_nil_r| |done]. split; [by right|done]. Qed.

Lemma grown_trans f1 f2 f3 d1 d2 b1 b2 :
  grown f1 f2 d1 b1 -> grown f2 f3 d2 b2 -> grown f1 f3 (d1 ++ d2) (b1 || b2).
Proof.
  intros (G1 & P1 & F1 & E1) (G2 & P2 & F2 & E2). split_and!; [congruence|by rewrite P2, P1, app_assoc| |].
  - rewrite F2, F1, orb_true_iff. tauto.
  - rewrite orb_true_iff. tauto.
Qed.

(** One stream's FIFO changes, the others stay. *)
Lemma grown_at (fs : gmap Z Fifo) i id f f0 f' data fails :
  fs !! i = Some f0 -> fs !! id = Some f -> (i = id -> grown f0 f' data fails) -> (i <> id -> data = [] /\ fails = false) ->
  exists f1, <[i := f']> fs !! id = Some f1 /\ grown f f1 data fails.
Proof.
  intros Hi Hid Heq Hne. destruct (decide (i = id)) as [->|Hx].
  - simplify_eq. eexists. rewrite lookup_insert_eq. eauto.
  - destruct (Hne Hx) as [-> ->]. exists f. rewrite lookup_insert_ne by done. split; [done|apply grown_refl].
Qed.

Lemma fifo_op_grown fs o r fs' id f :
  fifo_op fs o r fs' -> op_foreign id o -> fs !! id = Some f ->
  exists f', fs' !! id = Some f' /\ grown f f' (op_data id o) (op_fails id o).
Proof.
  intros H Ho Hf. inv H as [? i ? ? Hn|? i ? ? f0 Hi|? i f0 Hi|? i ? f0 Hi|? i ? f0 ? ? Hi|? i f0 ? Hi|? i]; cbn in *.
  - exists f. rewrite lookup_insert_ne by congruence. split; [done|apply grown_refl].
  - eapply grown_at; [done..|intros ->|intros ?].
    + rewrite decide_True by done. by apply grown_intro.
    + by rewrite decide_False.
  - eapply grown_at; [done..| |done]. intros _. apply grown_intro; [done|by rewrite app_nil_r|done..].
  - eapply grown_at; [done..|intros ->|intros ?].
    + rewrite bool_decide_eq_true_2 by done. apply grown_failed; [done..| |done]. cbn. by destruct (failure f0).
    + by rewrite bool_decide_eq_false_2.
  - eapply grown_at; [done..| |done]. by intros ->.
  - eapply grown_at; [done..| |done]. by intros ->.
  - exists f. rewrite lookup_delete_ne by done. split; [done|apply grown_refl].
Qed.

(** The same for a step of the streams that share the store. *)
Lemma body_step_grown y o r y' id f :
  sys_wf y -> body_step y (o, r) y' -> op_foreign id o -> abs y !! id = Some f ->
  exists f', abs y' !! id = Some f' /\ grown f f' (op_data id o) (op_fails id o).
Proof. intros Hy Hs Ho Hf. eapply fifo_op_grown; [exact (proj2 (body_step_refines _ _ _ Hy Hs))|done|done]. Qed.

(** Send windows are no part of a body. *)
Lemma abs_window m s w : abs_stream m (set_SendWindow s w) = abs_stream m s.
Proof. done. Qed.

Lemma abs_set_window m ss id s w :
  ss !! id = Some s -> abs (mkBodySys m (<[id := set_SendWindow s w]> ss)) = abs (mkBodySys m ss).
Proof.
  intros Hs. unfold abs. cbn. apply map_eq. intros k. rewrite !lookup_fmap. destruct (decide (id = k)) as [<-|].
  - by rewrite lookup_insert_eq, Hs.
  - by rewrite lookup_insert_ne.
Qed.

Section Events.

Context {HD : HpackDecoder}.

Lemma applySetting_abs m c s : abs (bodies m (applySetting c s).1) = abs (bodies m c).
Proof.
  destruct s as [id v]. unfold applySetting.
  destruct (id =? SettingMaxFrameSize); [by destruct (_ || _)|].
  destruct (id =? SettingInitialWindowSize).
  - destruct (2 ^ 31 - 1 <? v); [done|]. destruct (ApplyInitialWindowDelta _ _ _) as [sc sws].
    unfold bodies, abs. cbn. generalize (zip (map_to_list (c_streams c)) sws). intros l.
    induction l as [|[[k s] sw] l IH]; [done|]. cbn [foldr]. rewrite <- IH. apply map_eq. intros j.
    rewrite !lookup_fmap, lookup_alter. destruct (decide (k = j)) as [<-|]; [|done]. by destruct (foldr _ _ _ !! k).
  - destruct (id =? SettingHeaderTableSize); [cbn; unfold bodies; by rewrite (proj1 (submitAsync_frame _ _))|].
    by repeat case_match.
Qed.

Lemma ApplyPeerSettings_abs m c ss : abs (bodies m (ApplyPeerSettings c ss).1) = abs (bodies m c).
Proof.
  revert c. induction ss as [|s ss IH]; intros c; [done|]. simpl.
  pose proof (applySetting_abs m c s) as H. destruct (applySetting c s) as [c1 [e|]]; [done|]. by rewrite IH.
Qed.

Lemma submitAsync_bodies m c i : bodies m (submitAsync c i) = bodies m c.
Proof. unfold bodies. by rewrite (proj1 (submitAsync_frame _ _)). Qed.

(** ** Events *)

Inductive TunnelEv :=
| TFrame (choice : PoolChoice) (now : Z) (f : Frame)   (* the frame reader *)
| TForward (e : ForwardEv)                             (* another forwarder, or this one's body pump and watcher *)
| TInFlight (delta : Z)                                (* another forwarder's [inFlight.Add] *)
| TTeardown.                                           (* [serveTunnel] returns *)

(** [w.inFlight.Add(delta)] *)
Definition addInFlight (w : Worker) (delta : Z) : Worker :=
  mkWorker (w_mem w) (w_conn w) (w_streams w) (i64 (w_inFlight w + delta)) (w_done w).

Definition tunnel_ev (w : Worker) (e : TunnelEv) : Worker :=
  match e with
  | TFrame choice now f =>
      if InContinuation (c_hdr (w_conn w)) then (continueBlock (R := proxyRole) w f).1
      else (handleProxyFrame w choice now f).1
  | TForward e => forward_ev w e
  | TInFlight delta => addInFlight w delta
  | TTeardown => tunnelTeardown w
  end.

Definition tunnel_evs (w : Worker) (es : list TunnelEv) : Worker := foldl tunnel_ev w es.

Definition wbodies (w : Worker) : BodySys := bodies (w_mem w) (w_conn w).

(** The DATA an event carries for stream [id], and whether it fails it. *)
Definition ev_data (id : Z) (w : Worker) (e : TunnelEv) : list byte :=
  match e with
  | TFrame _ _ (FData i data _ _) =>
      if InContinuation (c_hdr (w_conn w)) then [] else if decide (i = id) then data else []
  | _ => []
  end.

Definition ev_fails (id : Z) (w : Worker) (e : TunnelEv) : bool :=
  match e with
  | TFrame _ _ (FRSTStream i _) => negb (InContinuation (c_hdr (w_conn w))) && bool_decide (i = id)
  | TTeardown => true
  | _ => false
  end.

Fixpoint received (id : Z) (w : Worker) (es : list TunnelEv) : list byte :=
  match es with [] => [] | e :: es => ev_data id w e ++ received id (tunnel_ev w e) es end.

Fixpoint failed (id : Z) (w : Worker) (es : list TunnelEv) : bool :=
  match es with [] => false | e :: es => ev_fails id w e || failed id (tunnel_ev w e) es end.

(** Only its own forwarder reads or closes stream [id]. *)
Definition foreign (id : Z) (e : TunnelEv) : Prop :=
  match e with TForward (FwClose i _) | TForward (FwRead i _) => i <> id | _ => True end.

Definition tunnel_ev_ok (e : TunnelEv) : Prop :=
  match e with TFrame _ _ f => frame_typed f | TForward e => forward_ok e | _ => True end.

Definition ev_opens (e : TunnelEv) : nat := match e with TForward e => opens e | _ => 0 end.

Definition ev_inFlight (e : TunnelEv) : Z := match e with TInFlight d => d | _ => 0 end.

(** ** The invariant *)

Lemma addInFlight_inv k w d : proxy_inv k w -> proxy_inv k (addInFlight w d).
Proof. intros [H1 H2 H3 H4 H5]. by split. Qed.

(** The tunnel's [failAllStreams] and the connection's do the same to bodies
    when the registries agree. *)
Lemma failAllStreams_conn k w err :
  proxy_inv k w -> c_streams (w_conn (failAllStreams w err)) = (fun s => FailBody s err) <$> c_streams (w_conn w).
Proof.
  intros H. cbn. apply map_eq. intros id. rewrite map_lookup_imap, lookup_fmap.
  destruct (c_streams (w_conn w) !! id) as [s|] eqn:E; [|done]. simpl.
  by rewrite decide_True by (apply (pi_regs _ _ H); by rewrite E).
Qed.

Lemma failAllStreams_proxy k w err : proxy_inv k w -> proxy_inv k (failAllStreams w err).
Proof.
  intros H. pose proof (failAllStreams_conn k w err H) as E. destruct H as [H1 H2 H3 H4 H5].
  split; cbn; try done.
  - unfold failAllStreams in E. cbn in E. rewrite E. by apply FailAllStreams_inv.
  - intros id. unfold failAllStreams in E. cbn in E. by rewrite E, !lookup_fmap, !fmap_is_Some, H2.
  - intros id cs. rewrite lookup_fmap. destruct (w_streams w !! id) eqn:Ew; [|done]. intros _. by apply (H3 id c).
Qed.

Lemma tunnelTeardown_inv k w : proxy_inv k w -> proxy_inv k (tunnelTeardown w).
Proof.
  intros H. unfold tunnelTeardown.
  assert (H1 : proxy_inv k (set_conn w (set_c_Send (w_conn w) (MarkDead (c_Send (w_conn w)))))).
  { apply (proxy_conn_step k w (w_mem w)); [done| |by apply same_regs_streams].
    destruct (pi_conn _ _ H) as ((? & ? & ?) & ? & ? & ? & ?). by split_and!. }
  apply (failAllStreams_proxy k _ ErrConnClosed) in H1. set (w1 := failAllStreams _ _) in *. clearbody w1.
  assert (H2 : proxy_inv k (set_conn w1 (FailAllStreams (w_conn w1) ErrConnClosed))).
  { apply (proxy_conn_step k w1 (w_mem w1)); [done|apply FailAllStreams_inv, H1|].
    split; [done| |done..]. intros id. cbn. by rewrite lookup_fmap, fmap_is_Some. }
  set (w2 := set_conn w1 _) in *. clearbody w2.
  assert (H3 : proxy_inv k (set_conn w2 (submitAsync (w_conn w2) (SendGoAway 0 ErrCodeNo)))).
  { apply (proxy_conn_step k w2 (w_mem w2)); [done|apply submitAsync_inv, H2|by apply submitAsync_regs]. }
  set (w3 := set_conn w2 _) in *. clearbody w3. destruct H3 as [? ? ? ? ?]. by split.
Qed.

Lemma tunnel_ev_inv k w e : bounded_inv k w -> tunnel_ev_ok e -> bounded_inv (k + ev_opens e) (tunnel_ev w e).
Proof.
  intros H He. destruct e as [ch now f|e|d|]; cbn [ev_opens tunnel_ev]; [|by apply forward_ev_inv|..];
    intros Hb; rewrite Nat.add_0_r in *; specialize (H Hb).
  - destruct (InContinuation _).
    + destruct (continueBlock (R := proxyRole) w f) as [w' e] eqn:E. by eapply continueBlock_proxy.
    + destruct (handleProxyFrame w ch now f) as [w' e] eqn:E. by eapply handleProxyFrame_inv.
  - by apply addInFlight_inv.
  - by apply tunnelTeardown_inv.
Qed.

Lemma tunnel_evs_inv k w es :
  bounded_inv k w -> Forall tunnel_ev_ok es -> bounded_inv (k + sum_list_with ev_opens es) (tunnel_evs w es).
Proof.
  intros H Hes. revert k w H. induction Hes as [|e es He Hes IH]; intros k w H; simpl; [by rewrite Nat.add_0_r|].
  rewrite Nat.add_assoc. by apply IH, tunnel_ev_inv.
Qed.

(** ** Bodies *)

(** Stream [id]'s FIFO grows by [data] from one state to another. *)
Definition body_grows (id : Z) (w w' : Worker) (data : list byte) (fails : bool) : Prop :=
  forall f, abs (wbodies w) !! id = Some f ->
  exists f', abs (wbodies w') !! id = Some f' /\ grown f f' data fails.

Lemma body_grows_same id w w' : abs (wbodies w') = abs (wbodies w) -> body_grows id w w' [] false.
Proof. intros E f Hf. exists f. rewrite E. split; [done|apply grown_refl]. Qed.

Lemma body_grows_trans id w1 w2 w3 d1 d2 b1 b2 :
  body_grows id w1 w2 d1 b1 -> body_grows id w2 w3 d2 b2 -> body_grows id w1 w3 (d1 ++ d2) (b1 || b2).
Proof.
  intros H1 H2 f Hf. destruct (H1 f Hf) as (f1 & Hf1 & G1). destruct (H2 f1 Hf1) as (f2 & Hf2 & G2).
  exists f2. split; [done|by eapply grown_trans].
Qed.

Lemma body_grows_step id k w w' o r :
  proxy_inv k w -> body_step (wbodies w) (o, r) (wbodies w') -> op_foreign id o ->
  body_grows id w w' (op_data id o) (op_fails id o).
Proof. intros Hi Hs Ho f Hf. eapply body_step_grown; [apply (pi_conn _ _ Hi)|exact Hs|done|done]. Qed.

(** An operation on the stream behind a [clientStream]. *)
Lemma on_h2_grows id k w i g (o : BOp) :
  proxy_inv k w -> op_foreign id o -> op_data id o = [] -> (i <> id -> op_fails id o = false) ->
  (forall m ss s, ss !! i = Some s -> body_step (mkBodySys m ss) (o, None) (mkBodySys m (<[i := g s]> ss))) ->
  body_grows id w (on_h2 w i g) [] (op_fails id o).
Proof.
  intros Hi Ho Hd Hne Hst. destruct (c_streams (w_conn w) !! i) as [s|] eqn:E.
  - rewrite <- Hd. eapply (body_grows_step id k _ _ o None); [done| |done].
    unfold wbodies, bodies, on_h2. cbn. rewrite (alter_Some _ _ _ _ E). by apply Hst.
  - intros f Hf. exists f. unfold wbodies, bodies, on_h2. cbn. rewrite alter_None by done. split; [done|].
    assert (Hx : i <> id).
    { intros ->. unfold wbodies, abs in Hf. cbn in Hf. by rewrite lookup_fmap, E in Hf. }
    rewrite Hne by done. apply grown_refl.
Qed.

Lemma deliverResponse_grows id k w d : proxy_inv k w -> body_grows id w (deliverResponse w d) [] false.
Proof.
  intros H. unfold deliverResponse. destruct (getStream w (dh_StreamID d)) as [cs|] eqn:E.
  - set (w1 := set_streams w _).
    assert (H1 : proxy_inv k w1).
    { apply proxy_streams_step; [done|]. intros j. unfold getStream in E. rewrite lookup_insert_is_Some'.
      split; [intros [<- |?]; [by rewrite E|done]|by right]. }
    destruct (dh_EndStream d); [|by apply body_grows_same].
    change false with (op_fails id (BCloseData (dh_StreamID d))).
    apply (on_h2_grows id k w1 (dh_StreamID d) CloseData (BCloseData (dh_StreamID d))); try done.
    intros m ss s Hs. unfold body_step. cbn. by rewrite Hs.
  - apply body_grows_same. unfold wbodies. cbn [w_mem w_conn set_conn]. by rewrite submitAsync_bodies.
Qed.

Lemma fail_grows id k w i err :
  proxy_inv k w -> body_grows id w (fail w i err) [] (bool_decide (i = id)).
Proof.
  intros H. apply (on_h2_grows id k (set_streams w _) i _ (BFail i err)); try done.
  - apply proxy_streams_step; [done|]. intros j. apply lookup_alter_is_Some.
  - intros ?. by apply bool_decide_eq_false.
  - intros m ss s Hs. unfold body_step. cbn. by rewrite Hs.
Qed.

Lemma HandleRSTStream_grows id k w i :
  proxy_inv k w -> body_grows id w (set_conn w (HandleRSTStream (w_conn w) i)) [] (bool_decide (i = id)).
Proof.
  intros H. unfold HandleRSTStream, GetStream. destruct (c_streams (w_conn w) !! i) as [s|] eqn:E.
  - change (bool_decide (i = id)) with (op_fails id (BFail i ErrStreamReset)). change [] with (op_data id (BFail i ErrStreamReset)).
    apply (body_grows_step id k _ _ _ None); [done| |done]. unfold body_step. cbn. by rewrite E.
  - intros f Hf. exists f. split; [done|].
    rewrite bool_decide_eq_false_2; [apply grown_refl|]. intros ->.
    unfold wbodies, abs in Hf. cbn in Hf. by rewrite lookup_fmap, E in Hf.
Qed.

Lemma HandleInboundData_grows id k w ch i data len es m c :
  proxy_inv k w -> HandleInboundData (w_mem w) (w_conn w) ch i data len es = (m, c) ->
  body_grows id w (set_mem_conn w m c) (if decide (i = id) then data else []) false.
Proof.
  intros H E f Hf. destruct (pi_conn _ _ H) as (_ & _ & Hwf & _).
  destruct (HandleInboundData_fifo _ _ (mkData ch i data len es) _ _ Hwf E) as [_ Ha].
  unfold wbodies in *. cbn [w_mem w_conn set_mem_conn] in *. cbn [df_id df_data df_choice df_len df_end] in Ha.
  destruct (decide (i = id)) as [->|Hne].
  - rewrite Hf in Ha. eexists. rewrite Ha, lookup_insert_eq. split; [done|].
    apply grown_intro; [done..|]. cbn. by intros ->.
  - exists f. rewrite Ha. split; [|apply grown_refl].
    destruct (abs _ !! i); [by rewrite lookup_insert_ne|done].
Qed.

Lemma handleProxyFrame_grows id k w ch now f :
  proxy_inv k w -> InContinuation (c_hdr (w_conn w)) = false -> frame_typed f ->
  body_grows id w (handleProxyFrame w ch now f).1 (ev_data id w (TFrame ch now f)) (ev_fails id w (TFrame ch now f)).
Proof.
  intros H Hc Hf. destruct f as [ack ss|i inc|f|f|i data len es|ack data|l code|i code|]; cbn [ev_data ev_fails handleProxyFrame];
    rewrite ?Hc; try by apply body_grows_same.
  - destruct ack; [by apply body_grows_same|]. apply body_grows_same. unfold wbodies.
    pose proof (ApplyPeerSettings_abs (w_mem w) (w_conn w) ss) as Ha.
    destruct (ApplyPeerSettings _ _) as [c [e|]]; cbn [fst w_mem w_conn set_conn] in *; [done|]. by rewrite submitAsync_bodies.
  - apply body_grows_same. unfold wbodies, bodies, HandleWindowUpdate, GetStream. cbn.
    destruct (i =? 0); [done|]. destruct (c_streams (w_conn w) !! i) as [s|] eqn:E; [|done]. by apply abs_set_window.
  - destruct (StartHeaders _ f) as [h r] eqn:E.
    pose proof (StartHeaders_bounded (c_hdr (w_conn w)) f ltac:(apply (pi_conn _ _ H)) Hf) as Hb. rewrite E in Hb.
    pose proof (set_hdr_proxy k w h H Hb) as H1. destruct r as [[d|]|e]; [|by apply body_grows_same..].
    exact (deliverResponse_grows id k _ d H1).
  - destruct (HandleInboundData _ _ _ _ _ _ _) as [m c] eqn:E. by eapply HandleInboundData_grows.
  - destruct ack; apply body_grows_same; unfold wbodies; cbn [w_mem w_conn set_conn fst].
    + unfold HandlePingAck. by destruct (_ && _).
    + by rewrite submitAsync_bodies.
  - destruct (negb _); [by apply body_grows_same|]. apply body_grows_same. unfold wbodies, bodies, BeginDrain, finishDrain. cbn.
    destruct (_ =? _)%nat; [|done]. cbn. by destruct (c_drainDone _).
  - cbn [negb]. rewrite andb_true_l.
    destruct (getStream w i) eqn:E.
    + cbn [fst]. rewrite <- (orb_diag (bool_decide (i = id))). change [] with ([] ++ [] : list byte).
      eapply body_grows_trans; [by apply (fail_grows id k w i ErrStreamReset)|].
      eapply (HandleRSTStream_grows id k). by apply fail_inv.
    + cbn [fst]. by apply (HandleRSTStream_grows id k w i).
Qed.

Lemma continueBlock_grows id k w f :
  proxy_inv k w -> frame_typed f -> body_grows id w (continueBlock (R := proxyRole) w f).1 [] false.
Proof.
  intros H Hf. unfold continueBlock. destruct f as [| | |cf| | | | |]; try by apply body_grows_same.
  destruct (negb _); [by apply body_grows_same|]. cbn [role_conn proxyRole].
  destruct (ConsumeContinuation (c_hdr (w_conn w)) cf) as [h r] eqn:E.
  pose proof (proj1 (continuation_accumulator_bounded' (c_hdr (w_conn w)) cf ltac:(apply (pi_conn _ _ H)) Hf)) as Hb.
  rewrite E in Hb. pose proof (set_hdr_proxy k w h H Hb) as H1.
  destruct r as [[d|]|e]; [|by apply body_grows_same..]. exact (deliverResponse_grows id k _ d H1).
Qed.

(** Opening another stream registers a fresh id. *)
Lemma NextStreamID_fresh k w :
  Z.of_nat k < 2 ^ 30 -> proxy_inv k w -> c_streams (w_conn w) !! (NextStreamID (w_conn w)).2 = None.
Proof.
  intros Hk H. destruct (next_id k (w_conn w) Hk (pi_next _ _ H)) as (j & _ & -> & _ & Hlt & _).
  destruct (c_streams (w_conn w) !! next_after (S j)) eqn:E; [|done].
  destruct (proj2 (pi_regs _ _ H (next_after (S j)))) as [cs Hcs]; [by rewrite E|].
  apply (pi_ids _ _ H) in Hcs. cbn beta in Hcs. lia.
Qed.

(** Opening and closing a stream, as steps of the bodies. *)
Lemma opened_step k w p iw req :
  Z.of_nat k < 2 ^ 30 -> proxy_inv k w ->
  body_step (wbodies w) (BAcquire (NextStreamID (w_conn w)).2 p iw, None) (wbodies (opened w p iw req)).
Proof.
  intros Hk H. pose proof (NextStreamID_fresh k w Hk H) as Hfr. set (i := (NextStreamID (w_conn w)).2) in *.
  unfold body_step. unfold wbodies, opened, bodies. cbn [body_op fst]. rewrite Hfr. subst i.
  destruct (NextStreamID (w_conn w)) as [c i] eqn:En. cbn [snd w_conn w_mem set_conn set_streams].
  rewrite (proj1 (submitAsync_frame _ _)). unfold NextStreamID in En. by injection En as <- _.
Qed.

Lemma open_failed_step w p iw req e now :
  Draining (w_conn w) = false -> (PeerMaxStreams (w_conn w) <=? u32 (Z.of_nat (size (w_streams w)))) = false ->
  body_step (wbodies (opened w p iw req)) (BRelease (NextStreamID (w_conn w)).2, None)
    (wbodies (openStream w p iw req (Some e) now).1).
Proof.
  intros Hd Hm. rewrite openStream_eq. cbv zeta. rewrite Hd, Hm. cbn [fst].
  pose proof (opened_stream w p iw req) as Hop. set (i := (NextStreamID (w_conn w)).2) in *.
  cbn [set_mem_conn set_conn deregisterStream set_streams w_conn w_mem].
  set (o := opened w p iw req) in *. clearbody o i.
  unfold body_step. unfold wbodies, bodies. cbn [body_op fst]. rewrite Hop. cbn.
  destruct (RemoveStream_spec (w_conn o) i now) as (_ & -> & _). done.
Qed.

Lemma closeStream_step w i now s :
  c_streams (w_conn w) !! i = Some s -> body_step (wbodies w) (BRelease i, None) (wbodies (closeStream w i now)).
Proof.
  intros E. unfold closeStream, GetStream. rewrite E. unfold body_step. unfold wbodies, bodies. cbn. rewrite E. cbn.
  destruct (RemoveStream_spec (w_conn w) i now) as (_ & -> & _). by destruct (Release (w_mem w) s).
Qed.

Lemma openStream_grows id k w p iw req err now :
  Z.of_nat k < 2 ^ 30 -> proxy_inv k w -> is_i32 iw -> is_request req ->
  body_grows id w (openStream w p iw req err now).1 [] false.
Proof.
  intros Hk H Hw Hreq. pose proof (NextStreamID_fresh k w Hk H) as Hfr. set (i := (NextStreamID (w_conn w)).2) in *.
  assert (G1 : body_grows id w (opened w p iw req) [] false).
  { change false with (op_fails id (BAcquire i p iw)). by apply (body_grows_step id k _ _ _ None H (opened_step k w p iw req Hk H)). }
  pose proof (open_failed_step w p iw req) as Hfail. rewrite openStream_eq. cbv zeta.
  destruct (Draining _) eqn:Ed; [by apply body_grows_same|]. destruct (_ <=? _) eqn:Em; [by apply body_grows_same|].
  destruct err as [e|]; [|exact G1].
  assert (Hst := Hfail e now eq_refl eq_refl). rewrite openStream_eq in Hst. cbv zeta in Hst. rewrite Ed, Em in Hst.
  intros f Hf.
  assert (Hne : i <> id).
  { intros E. rewrite <- E in Hf. unfold wbodies, abs in Hf. cbn [bodies bs_streams] in Hf. by rewrite lookup_fmap, Hfr in Hf. }
  change [] with ([] ++ [] : list byte). change false with (false || false). revert f Hf.
  eapply body_grows_trans; [exact G1|].
  change [] with (op_data id (BRelease i)). change false with (op_fails id (BRelease i)).
  eapply (body_grows_step id (S k) _ _ _ None); [by apply opened_inv|exact Hst|done].
Qed.

Lemma closeStream_grows id k w i now :
  proxy_inv k w -> i <> id -> body_grows id w (closeStream w i now) [] false.
Proof.
  intros H Hne. destruct (c_streams (w_conn w) !! i) as [s|] eqn:E.
  - change [] with (op_data id (BRelease i)). change false with (op_fails id (BRelease i)).
    eapply (body_grows_step id k _ _ _ None); [done|by eapply closeStream_step|done].
  - unfold closeStream, GetStream. rewrite E. by apply body_grows_same.
Qed.

Lemma tunnelTeardown_grows id k w : proxy_inv k w -> body_grows id w (tunnelTeardown w) [] true.
Proof.
  intros H f Hf. unfold wbodies, abs in Hf. cbn in Hf. rewrite lookup_fmap in Hf.
  destruct (c_streams (w_conn w) !! id) as [s|] eqn:E; [|done]. injection Hf as <-.
  exists (abs_stream (w_mem w) (FailBody (FailBody s ErrConnClosed) ErrConnClosed)). split.
  - unfold wbodies, abs, tunnelTeardown. cbn [bs_mem bs_streams bodies w_mem w_conn detach set_conn set_mem_conn c_streams set_c_writeDead].
    rewrite (proj1 (submitAsync_frame _ _)). cbn [c_streams FailAllStreams set_c_streams].
    rewrite !lookup_fmap. cbn. rewrite map_lookup_imap, E. cbn.
    by rewrite decide_True by (apply (pi_regs _ _ H); by rewrite E).
  - apply grown_failed; [done..| |done]. cbn. by destruct (s_dataErr s).
Qed.

(** What an event does to a foreign stream's body. *)
Lemma tunnel_ev_grows id k w e :
  proxy_inv k w -> tunnel_ev_ok e -> Z.of_nat (k + ev_opens e) <= 2 ^ 30 -> foreign id e ->
  body_grows id w (tunnel_ev w e) (ev_data id w e) (ev_fails id w e).
Proof.
  intros H He Hk Hf. destruct e as [ch now f|e|d|]; cbn [tunnel_ev].
  - destruct (InContinuation _) eqn:Hc; [|by eapply handleProxyFrame_grows].
    replace (ev_data id w (TFrame ch now f)) with ([] : list byte) by (by destruct f; cbn; rewrite ?Hc).
    replace (ev_fails id w (TFrame ch now f)) with false by (by destruct f; cbn; rewrite ?Hc).
    by eapply continueBlock_grows.
  - cbn [ev_data ev_fails ev_opens] in *.
    destruct e as [req err now|i now|i want|i plen|i]; cbn [forward_ev opens] in *.
    + eapply openStream_grows; try done; [lia|eapply PeerInit_i32, H].
    + by eapply closeStream_grows.
    + unfold GetStream. destruct (c_streams (w_conn w) !! i) as [s|] eqn:E; [|by apply body_grows_same].
      destruct (Reserve _ _ _) as [[r sc] sw]. apply body_grows_same. unfold wbodies, bodies. cbn. by apply abs_set_window.
    + unfold GetStream. destruct (c_streams (w_conn w) !! i) as [s|] eqn:E; [|by apply body_grows_same].
      destruct (Read _ _ _) as [[m s'] r] eqn:Er.
      change [] with (op_data id (BRead i plen)). change false with (op_fails id (BRead i plen)).
      eapply (body_grows_step id k _ _ _ (Some r)); [done| |done]. unfold body_step. cbn. rewrite E. cbn. by rewrite Er.
    + apply body_grows_same. unfold wbodies. cbn [w_mem w_conn set_conn]. by rewrite submitAsync_bodies.
  - by apply body_grows_same.
  - by eapply tunnelTeardown_grows.
Qed.

(** And what a sequence of events does. *)
Lemma tunnel_evs_grows id k w es :
  proxy_inv k w -> Forall tunnel_ev_ok es -> Z.of_nat (k + sum_list_with ev_opens es) <= 2 ^ 30 -> Forall (foreign id) es ->
  body_grows id w (tunnel_evs w es) (received id w es) (failed id w es) /\
  proxy_inv (k + sum_list_with ev_opens es) (tunnel_evs w es).
Proof.
  intros H Hok Hk Hf. revert k w H Hk. induction Hok as [|e es He Hok IH]; intros k w H Hk; cbn in *.
  { rewrite Nat.add_0_r. split; [by apply body_grows_same|done]. }
  apply Forall_cons in Hf as [Hfe Hf].
  assert (H1 : proxy_inv (k + ev_opens e) (tunnel_ev w e)) by (apply tunnel_ev_inv; [by intros _|done|lia]).
  destruct (IH Hf (k + ev_opens e)%nat _ H1 ltac:(lia)) as [G2 H2]. rewrite Nat.add_assoc. split; [|done].
  eapply body_grows_trans; [|exact G2]. eapply tunnel_ev_grows; try done. lia.
Qed.

(** The registries keep a foreign stream. *)
Lemma body_grows_registered id k w w' data fails :
  body_grows id w w' data fails -> proxy_inv k w' -> is_Some (c_streams (w_conn w) !! id) ->
  is_Some (c_streams (w_conn w') !! id) /\ is_Some (w_streams w' !! id).
Proof.
  intros G H [s Hs]. destruct (G (abs_stream (w_mem w) s)) as (f' & Hf & _).
  { unfold wbodies, abs. cbn. by rewrite lookup_fmap, Hs. }
  assert (Hid : is_Some (c_streams (w_conn w') !! id)).
  { unfold wbodies, abs in Hf. cbn in Hf. rewrite lookup_fmap in Hf. by destruct (c_streams (w_conn w') !! id). }
  split; [done|]. by apply (pi_regs _ _ H).
Qed.

End Events.
