(* ===== verification/Forward.v ===== *)
(** * Forwarding a public request (internal/proxy/forward.go)

    The request the proxy sends into a tunnel (the first half of
    [openForward], [buildForwardedHeader]) and the goroutine that pumps the
    request body ([streamRequestBody]).  [http.Request] is net/http's: what
    reading it returns is an argument.  The handler itself is in Exchange.v. *)

From Stdlib Require Import Strings.Byte Strings.Ascii Strings.String.
From S2P Require Import Prelude Errors Flow Names H2Stream Writer HeaderBlock Conn SendPath FrameLoop Tunnel.

Open Scope Z_scope.

(** ** The request *)

(** [rq_requestURI]: what [req.URL.RequestURI()] returns; [rq_noBody]: Body is
    nil or [http.NoBody]. *)
Record Request := mkRequest {
  rq_method : string;
  rq_host : string;
  rq_urlHost : string;
  rq_requestURI : string;
  rq_tls : bool;
  rq_header : header;
  rq_noBody : bool;
  rq_contentLength : Z
}.

(** [range]: the order in which [range] visits a map. *)
Definition buildForwardedHeader (range : header -> list (string * list string)) (req : Request) : header :=
  foldl (fun h '(k, vv) => if isHopByHop k then h else foldl (fun h v => headerAdd h k v) h vv) ∅
    (range (rq_header req)).

Definition bodyEmpty (req : Request) : bool := rq_noBody req || (rq_contentLength req =? 0).

(** The intent [openForward]'s callback submits. *)
Definition forwardIntent (range : header -> list (string * list string)) (req : Request) (streamID : Z) : writeIntent :=
  let authority := if String.eqb (rq_host req) "" then rq_urlHost req else rq_host req in
  let path := if String.eqb (rq_requestURI req) "" then "/"%string else rq_requestURI req in
  let scheme := if rq_tls req then "https"%string else "http"%string in
  SendRequestHeaders streamID (rq_method req) scheme authority path (buildForwardedHeader range req) (bodyEmpty req).

(** ** The body pump *)

Inductive BodyErr := BodyEOF | BodyErr' (e : gerror).

(** One [body.Read(buf)]: whether the worker was detached just before, the
    bytes, the error. *)
Record BodyRead := mkBodyRead { br_detached : bool; br_data : list byte; br_err : option BodyErr }.

Inductive ChunkResult := ChunkSent | ChunkFailed (e : gerror) | ChunkParked | ChunkFuel.

(** The inner loop, [p = buf[offset:n]]. *)
Fixpoint pumpChunk (fuel : nat) (id : Z) (w : World) (p : list byte) : World * ChunkResult :=
  match p with
  | [] => (w, ChunkSent)
  | _ =>
      match fuel with
      | O => (w, ChunkFuel)
      | S fuel =>
          let want := i32 (Z.of_nat (length p)) in
          let '(w, r) := reserve w want in
          match r with
          | None => (w, ChunkParked)
          | Some (got, true) => (w, ChunkFailed ErrForwardConnDead)
          | Some (got, false) =>
              let '(w, e) := submit w (SendData id (take (Z.to_nat got) p) false) in
              match e with
              | Some e => (w, ChunkFailed e)
              | None => pumpChunk fuel id w (drop (Z.to_nat got) p)
              end
          end
      end
  end.

(** [PumpReading]: still inside [body.Read]. *)
Inductive PumpResult := PumpDone (err : option gerror) | PumpParked | PumpReading | PumpFuel.

Fixpoint streamRequestBody (id : Z) (w : World) (reads : list BodyRead) : World * PumpResult :=
  match reads with
  | [] => (w, PumpReading)
  | rd :: reads =>
      if br_detached rd then (w, PumpDone (Some ErrWorkerDetached))
      else
        match pumpChunk (length (br_data rd)) id w (br_data rd) with
        | (w, ChunkSent) =>
            match br_err rd with
            | None => streamRequestBody id w reads
            | Some BodyEOF => let '(w, e) := submit w (SendData id [] true) in (w, PumpDone e)
            | Some (BodyErr' e) => (submitOnly w (SendRSTStream id ErrCodeCancel), PumpDone (Some e))
            end
        | (w, ChunkFailed e) => (w, PumpDone (Some e))
        | (w, ChunkParked) => (w, PumpParked)
        | (w, ChunkFuel) => (w, PumpFuel)
        end
  end.

(** ** Lemmas *)

(** What stays of a header map when [skip]ped names are left out: the entries
    that have a value. *)
Definition kept (skip : string -> bool) (kv : string * list string) : Prop := skip kv.1 = false /\ kv.2 <> [].

#[global] Instance kept_dec skip kv : Decision (kept skip kv).
Proof. unfold kept. apply _. Defined.

Abbreviation end_to_end := (kept isHopByHop).

Lemma headerAdd_values k vv h :
  CanonicalMIMEHeaderKey k = k ->
  foldl (fun h v => headerAdd h k v) h vv = match vv with [] => h | _ => <[k := default [] (h !! k) ++ vv]> h end.
Proof.
  intros Hk. revert h. induction vv as [|v vv IH]; intros h; [done|]. cbn [foldl]. rewrite IH.
  unfold headerAdd. rewrite Hk. destruct vv as [|v2 vv]; [done|].
  rewrite lookup_insert_eq, insert_insert_eq. simpl. by rewrite <- app_assoc.
Qed.

(** Copying a header map with [Add], in any order. *)
Lemma addAll_spec (skip : string -> bool) (hs : list (string * list string)) (h : header) :
  NoDup hs.*1 -> Forall (fun k => CanonicalMIMEHeaderKey k = k) hs.*1 -> (forall k, k ∈ hs.*1 -> h !! k = None) ->
  foldl (fun h '(k, vv) => if skip k then h else foldl (fun h v => headerAdd h k v) h vv) h hs =
  filter (kept skip) (list_to_map hs : header) ∪ h.
Proof.
  revert h. induction hs as [|[k vv] hs IH]; intros h Hnd Hcan Hnone.
  - cbn. by rewrite map_filter_empty, (left_id_L ∅ (∪)).
  - rewrite fmap_cons in Hnd, Hcan. apply NoDup_cons in Hnd as [Hk Hnd]. apply Forall_cons in Hcan as [Hck Hcan].
    cbn [fst snd] in *. cbn [foldl list_to_map foldr uncurry].
    assert (Hk0 : h !! k = None) by (apply Hnone, elem_of_cons; by left).
    assert (Hrest : forall k', k' ∈ hs.*1 -> h !! k' = None) by (intros; apply Hnone, elem_of_cons; by right).
    assert (Hkm : (list_to_map hs : header) !! k = None) by by apply not_elem_of_list_to_map.
    assert (Hkf : filter (kept skip) (list_to_map hs : header) !! k = None) by (apply map_lookup_filter_None; by left).
    rewrite headerAdd_values by done.
    assert (Hskip : ~ kept skip (k, vv) ->
      filter (kept skip) (list_to_map hs : header) ∪ h = filter (kept skip) (<[k:=vv]> (list_to_map hs) : header) ∪ h).
    { intros Hn. rewrite map_filter_insert_False by done. by rewrite (delete_id (list_to_map hs : header)). }
    destruct (skip k) eqn:Hh.
    + rewrite IH by done. apply Hskip. intros [? _]. simpl in *. congruence.
    + destruct vv as [|v vv].
      * rewrite IH by done. apply Hskip. by intros [_ ?].
      * rewrite IH; try done.
        -- rewrite map_filter_insert_True by (split; done). rewrite Hk0. simpl.
           by rewrite <- insert_union_l, insert_union_r.
        -- intros k' Hk'. rewrite lookup_insert_ne; [by apply Hrest|]. intros <-. done.
Qed.

Lemma addAll_filter (skip : string -> bool) (range : header -> list (string * list string)) (h : header) :
  range h ≡ₚ map_to_list h -> map_Forall (fun k _ => CanonicalMIMEHeaderKey k = k) h ->
  foldl (fun h '(k, vv) => if skip k then h else foldl (fun h v => headerAdd h k v) h vv) (∅ : header) (range h) =
  filter (kept skip) h.
Proof.
  intros Hp Hcan. destruct (range_permutation _ _ Hp) as (Hnd & Hmap & _).
  rewrite addAll_spec; [by rewrite Hmap, (right_id_L ∅ (∪))|done| |by intros ? _].
  apply Forall_forall. intros k (kv & -> & Hin)%list_elem_of_fmap.
  rewrite Hp in Hin. destruct kv as [k vv]. apply elem_of_map_to_list in Hin. by apply (Hcan _ _ Hin).
Qed.

Lemma buildForwardedHeader_filter range req :
  range (rq_header req) ≡ₚ map_to_list (rq_header req) ->
  map_Forall (fun k _ => CanonicalMIMEHeaderKey k = k) (rq_header req) ->
  buildForwardedHeader range req = filter end_to_end (rq_header req).
Proof. apply addAll_filter. Qed.

(** The request that enters the tunnel carries exactly the caller's
    end-to-end headers: every header with a value except the nine hop-by-hop
    ones, values and their order unchanged, in whatever order the map is
    walked; the body is announced (no END_STREAM on HEADERS) exactly when the
    request has one. *)
Theorem forwarded_request range req id :
  range (rq_header req) ≡ₚ map_to_list (rq_header req) ->
  map_Forall (fun k _ => CanonicalMIMEHeaderKey k = k) (rq_header req) ->
  wi_header (forwardIntent range req id) = filter end_to_end (rq_header req) /\
  wi_kind (forwardIntent range req id) = wkReqHeaders /\ wi_streamID (forwardIntent range req id) = id /\
  wi_method (forwardIntent range req id) = rq_method req /\
  (wi_endStream (forwardIntent range req id) = true <-> rq_noBody req = true \/ rq_contentLength req = 0) /\
  (wi_path (forwardIntent range req id) <> "")%string.
Proof.
  intros Hp Hcan. split_and!; try done.
  - by apply buildForwardedHeader_filter.
  - cbn. unfold bodyEmpty. by rewrite orb_true_iff, Z.eqb_eq.
  - cbn. destruct (String.eqb (rq_requestURI req) "") eqn:E; [done|]. by apply String.eqb_neq in E.
Qed.

(** Headers named by Connection are forwarded: a header that the caller
    declares hop-by-hop by listing it in Connection enters the tunnel like any
    other, although only its Connection header is removed. *)
Theorem connection_listed_header_is_forwarded range req k vv :
  range (rq_header req) ≡ₚ map_to_list (rq_header req) ->
  map_Forall (fun k _ => CanonicalMIMEHeaderKey k = k) (rq_header req) ->
  rq_header req !! "Connection"%string = Some [k] -> rq_header req !! k = Some vv -> end_to_end (k, vv) ->
  buildForwardedHeader range req !! k = Some vv /\ buildForwardedHeader range req !! "Connection"%string = None.
Proof.
  intros Hp Hcan Hc Hk He. rewrite buildForwardedHeader_filter by done. split.
  - by apply map_lookup_filter_Some.
  - apply map_lookup_filter_None. right. intros x Hx [Hn _]. by vm_compute in Hn.
Qed.

(** ** The body pump *)

Section Pump.

Variable id : Z.

Definition sent (cs : list (list byte)) : list (writeIntent * option gerror) :=
  (fun c => (SendData id c false, None)) <$> cs.

Definition size_ok (n : Z) (c : list byte) : Prop := 0 < Z.of_nat (length c) <= n.

(** What one run of the inner loop leaves of [p]. *)
Definition chunk_result (p : list byte) (chunks : list (list byte)) (more : list (writeIntent * option gerror))
    (w' : World) (r : ChunkResult) : Prop :=
  exists rest, p = concat chunks ++ rest /\
  match r with
  | ChunkSent => rest = [] /\ more = []
  | ChunkFailed e =>
      (more = [] /\ e = ErrForwardConnDead /\ dead (w_credit w') = true) \/
      (exists c, c `prefix_of` rest /\ more = [(SendData id c false, Some e)])
  | ChunkParked => more = [] /\ starved w' /\ rest <> []
  | ChunkFuel => False
  end.

Lemma pumpChunk_S fuel w p :
  (0 < length p)%nat ->
  pumpChunk (S fuel) id w p =
    let '(w, r) := reserve w (i32 (Z.of_nat (length p))) in
    match r with
    | None => (w, ChunkParked)
    | Some (got, true) => (w, ChunkFailed ErrForwardConnDead)
    | Some (got, false) =>
        let '(w, e) := submit w (SendData id (take (Z.to_nat got) p) false) in
        match e with
        | Some e => (w, ChunkFailed e)
        | None => pumpChunk fuel id w (drop (Z.to_nat got) p)
        end
    end.
Proof. destruct p; [simpl; lia|done]. Qed.

Lemma pumpChunk_spec fuel w p w' r :
  Z.of_nat (length p) <= MaxInt32 -> (length p <= fuel)%nat -> world_ok w -> pumpChunk fuel id w p = (w', r) ->
  exists chunks more, Forall (size_ok (Z.of_nat (length p))) chunks /\ chunk_result p chunks more w' r /\
    w_log w' = w_log w ++ sent chunks ++ more /\ world_ok w'.
Proof.
  revert w p. induction fuel as [|fuel IH]; intros w p Hlen Hfuel Hok H.
  all: destruct (decide (length p = 0%nat)) as [Hz|Hnz].
  1, 3: destruct p; [|done]; simpl in H; simplify_eq; exists [], [];
    (split_and!; [constructor|by exists []|by rewrite app_nil_r|done]).
  { lia. }
  rewrite pumpChunk_S in H by lia. rewrite i32_small in H by range32.
  destruct (reserve w _) as [w1 rr] eqn:Er.
  destruct (reserve_spec w (Z.of_nat (length p)) _ _ ltac:(lia) Hok Er) as (Hok1 & _ & Hlog & Hr).
  assert (Hne : p <> []) by (intros ->; done).
  destruct rr as [[got []]|].
  - simplify_eq. exists [], []. split_and!; [constructor| |by rewrite Hlog, app_nil_r|done].
    exists p. split; [done|left]. by destruct Hr.
  - destruct (submit w1 _) as [w2 e] eqn:Es. destruct (submit_spec _ _ _ _ Es) as (Hl2 & Hok2 & _).
    assert (Hc : length (take (Z.to_nat got) p) = Z.to_nat got) by (rewrite length_take; lia).
    destruct e as [e|].
    + simplify_eq. exists [], [(SendData id (take (Z.to_nat got) p) false, Some e)].
      split_and!; [constructor| |by rewrite Hl2, Hlog|auto]. exists p. split; [done|right].
      exists (take (Z.to_nat got) p). split; [apply prefix_take|done].
    + apply IH in H; rewrite ?length_drop; auto; try lia.
      destruct H as (chunks & more & Hcs & (rest & Hp & Hres) & Hlog' & Hok').
      exists (take (Z.to_nat got) p :: chunks), more. split_and!; [| | |done].
      * constructor; [unfold size_ok; lia|]. eapply Forall_impl; [exact Hcs|]. unfold size_ok.
        intros c. rewrite length_drop. lia.
      * exists rest. split; [|done]. cbn [concat]. by rewrite <- app_assoc, <- Hp, take_drop.
      * rewrite Hlog', Hl2, Hlog, <- !app_assoc. done.
  - simplify_eq. exists [], []. split_and!; [constructor| |by rewrite Hlog, app_nil_r|done].
    exists p. split_and!; [done|done|apply Hr|done].
Qed.

(** The body up to its end. *)
Definition whole_body (reads : list BodyRead) (bs : list byte) : Prop :=
  exists pre rd post, reads = pre ++ rd :: post /\ Forall (fun rd => br_err rd = None) pre /\ br_err rd = Some BodyEOF /\
    bs = concat (br_data <$> pre ++ [rd]).

Lemma whole_body_cons rd reads bs0 bs :
  br_err rd = None -> bs0 = br_data rd -> whole_body reads bs -> whole_body (rd :: reads) (bs0 ++ bs).
Proof. intros H0 -> (pre & rd' & post & -> & Hn & He & ->). exists (rd :: pre), rd', post. by split_and!; [|constructor|..]. Qed.

(** What the whole pump did with the bytes of [reads]. *)
Definition pump_result (reads : list BodyRead) (chunks : list (list byte))
    (more : list (writeIntent * option gerror)) (w' : World) (r : PumpResult) : Prop :=
  match r with
  | PumpDone None => whole_body reads (concat chunks) /\ more = [(SendData id [] true, None)]
  | PumpDone (Some e) =>
      more = [] \/
      (exists c es, more = [(SendData id c es, Some e)] /\
        (concat chunks ++ c `prefix_of` concat (br_data <$> reads)) /\
        (es = true -> c = [] /\ whole_body reads (concat chunks))) \/
      (more = [(SendRSTStream id ErrCodeCancel, None)] /\ exists rd, rd ∈ reads /\ br_err rd = Some (BodyErr' e))
  | PumpParked => more = [] /\ starved w'
  | PumpReading => concat chunks = concat (br_data <$> reads) /\ more = []
  | PumpFuel => False
  end.

Lemma pump_result_cons rd reads chunks0 chunks more w' r :
  br_err rd = None -> concat chunks0 = br_data rd ->
  pump_result reads chunks more w' r -> pump_result (rd :: reads) (chunks0 ++ chunks) more w' r.
Proof.
  intros He Hc H. destruct r as [[e|]| | |]; cbn in *; rewrite ?concat_app, ?Hc.
  - destruct H as [?|[(c & es & ? & Hp & Hw)|(? & rd' & Hin & ?)]]; [by left|right; left|right; right].
    + exists c, es. rewrite <- app_assoc. split_and!; [done|by apply prefix_app|]. intros He'. destruct (Hw He').
      split; [done|by apply whole_body_cons].
    + split; [done|]. exists rd'. split; [|done]. apply elem_of_cons. by right.
  - destruct H as [? ?]. split; [by apply whole_body_cons|done].
  - done.
  - destruct H as [-> ?]. done.
  - done.
Qed.

(** The request body crosses the tunnel intact: the DATA frames the pump
    gets accepted carry a prefix of the body's bytes in order, each non-empty
    and within the buffer's size; END_STREAM is sent exactly when the body
    reported EOF and every byte before it was accepted; a body error resets
    the stream with CANCEL, a refused write or a dead tunnel ends the pump
    with an error and no END_STREAM, and the pump can only stall inside the
    body's own Read or parked without credit on a live connection. *)
Theorem request_body_pumped maxFrame w reads w' r :
  0 < maxFrame <= MaxInt32 -> Forall (fun rd => Z.of_nat (length (br_data rd)) <= maxFrame) reads -> world_ok w ->
  streamRequestBody id w reads = (w', r) ->
  exists chunks more, Forall (size_ok maxFrame) chunks /\
    (concat chunks `prefix_of` concat (br_data <$> reads)) /\
    w_log w' = w_log w ++ sent chunks ++ more /\ pump_result reads chunks more w' r.
Proof.
  intros Hm Hrs. revert w. induction Hrs as [|rd reads Hrd Hrs IH]; intros w Hok H; cbn [streamRequestBody] in H.
  { simplify_eq. exists [], []. split_and!; [constructor|done|by rewrite app_nil_r|done]. }
  destruct (br_detached rd).
  { simplify_eq. exists [], []. split_and!; [constructor|apply prefix_nil|by rewrite app_nil_r|by left]. }
  destruct (pumpChunk (length (br_data rd)) id w (br_data rd)) as [w1 r1] eqn:E.
  destruct (pumpChunk_spec _ w (br_data rd) w1 r1 ltac:(lia) ltac:(done) Hok E) as (cs & more & Hcs & (rest & Hp & Hres) & Hlog & Hok1).
  assert (Hcs' : Forall (size_ok maxFrame) cs) by (eapply Forall_impl; [exact Hcs|]; intros c; unfold size_ok; lia).
  assert (Hpre : concat cs `prefix_of` concat (br_data <$> rd :: reads)).
  { rewrite fmap_cons. cbn [concat]. rewrite Hp, <- app_assoc. by eexists. }
  destruct r1 as [|e| |]; [|simplify_eq..].
  2: { exists cs, more. split_and!; [done..|]. cbn. destruct Hres as [(? & _)|(c & [k ->] & ->)]; [by left|right; left].
       exists c, false. split_and!; [done| |done]. rewrite Hp, <- !app_assoc. by apply prefix_app, prefix_app_r. }
  2: { exists cs, more. split_and!; [done..|]. by destruct Hres as (? & ? & _). }
  2: { done. }
  destruct Hres as [-> ->]. rewrite app_nil_r in Hp, Hlog.
  destruct (br_err rd) as [[|e]|] eqn:Ee.
  - destruct (submit w1 _) as [w2 e] eqn:Es. destruct (submit_spec _ _ _ _ Es) as (Hl2 & _). simplify_eq.
    exists cs, [(SendData id [] true, e)]. split_and!; [done|done|by rewrite Hl2, Hlog, <- app_assoc|].
    assert (Hw : whole_body (rd :: reads) (concat cs)).
    { exists [], rd, reads. split_and!; [done..|]. cbn. by rewrite app_nil_r. }
    destruct e as [e|]; cbn; [|done]. right; left. exists [], true. by rewrite app_nil_r.
  - simplify_eq. exists cs, [(SendRSTStream id ErrCodeCancel, None)].
    split_and!; [done|done|by cbn; rewrite Hlog, <- app_assoc|]. cbn. right; right. split; [done|].
    exists rd. split; [apply elem_of_cons; by left|done].
  - destruct (IH w1 Hok1 H) as (cs2 & more2 & Hcs2 & Hpre2 & Hlog2 & Hres2).
    exists (cs ++ cs2), more2. split_and!.
    + by apply Forall_app.
    + rewrite fmap_cons. cbn [concat]. rewrite concat_app, Hp. by apply prefix_app.
    + rewrite Hlog2, Hlog. unfold sent. by rewrite fmap_app, <- !app_assoc.
    + by apply pump_result_cons.
Qed.

End Pump.

(** ** Witnesses *)

Module ForwardDemo.

Definition demo_request : Request :=
  mkRequest "POST" "example.com" "" "/upload" true
    {[ "X-Trace"%string := ["1"; "2"]%string; "Connection"%string := ["X-Trace"]%string; "Empty"%string := [] ]} false 3.

Lemma demo_canonical : map_Forall (fun k _ => CanonicalMIMEHeaderKey k = k) (rq_header demo_request).
Proof. apply (bool_decide_unpack _). vm_compute. exact I. Qed.

Lemma forwarded_request_witness :
  wi_header (forwardIntent map_to_list demo_request 1) = filter end_to_end (rq_header demo_request) /\
  filter end_to_end (rq_header demo_request) = {[ "X-Trace"%string := ["1"; "2"]%string ]}.
Proof.
  split; [|vm_compute; reflexivity].
  exact (proj1 (forwarded_request map_to_list demo_request 1 (reflexivity _) demo_canonical)).
Defined.

Lemma connection_listed_header_is_forwarded_witness :
  buildForwardedHeader map_to_list demo_request !! "X-Trace"%string = Some ["1"; "2"]%string.
Proof.
  refine (proj1 (connection_listed_header_is_forwarded map_to_list demo_request "X-Trace" ["1"; "2"]%string
    (reflexivity _) demo_canonical _ _ _)).
  - reflexivity.
  - reflexivity.
  - split; [reflexivity|discriminate].
Defined.

(** One byte of window at first, then a WINDOW_UPDATE. *)
Definition demo_world : World := mkWorld (mkSendCredit false 1 65535 false) 65535 [[]; [EvConn 20]] [] [].

Definition demo_reads : list BodyRead :=
  [mkBodyRead false [x61; x62] None; mkBodyRead false [x63] (Some BodyEOF)].

Definition demo_pump : World * PumpResult := streamRequestBody 1 demo_world demo_reads.

Lemma fw_world_ok : world_ok demo_world.
Proof. repeat constructor; simpl; range32. Qed.

Lemma demo_reads_ok : Forall (fun rd => Z.of_nat (length (br_data rd)) <= 16384) demo_reads.
Proof. repeat constructor; simpl; lia. Qed.

Lemma request_body_pumped_witness :
  demo_pump.2 = PumpDone None /\
  exists chunks more, concat chunks `prefix_of` [x61; x62; x63] /\ w_log demo_pump.1 = sent 1 chunks ++ more.
Proof.
  split; [vm_compute; reflexivity|].
  destruct (request_body_pumped 1 16384 demo_world demo_reads demo_pump.1 demo_pump.2
    ltac:(unfold MaxInt32; lia) demo_reads_ok fw_world_ok (surjective_pairing _)) as (chunks & more & _ & H & Hl & _).
  exists chunks, more. split; [exact H|exact Hl].
Defined.

End ForwardDemo.
