(* ===== verification/Intents.v ===== *)
(** * The intents each role submits

    The http2 framer refuses a frame with an invalid stream id or window
    increment, and a refused frame ends the writer and with it the tunnel.
    This file types the intents of both roles: what a role submits, in reply
    to a frame or through its stream goroutines and forwarders, the framer
    accepts, and only the role's own kinds appear.  One induction over the
    frame loop serves both roles, through the class [TypedRole]. *)

From Stdlib Require Import Strings.Byte.
From S2P Require Import Prelude Errors Flow Names H2Stream Writer HeaderBlock Conn ConnInv SendPath ResponseWriter FrameLoop Serve Tunnel Forward.

(** A stream id that fits the 31 bits of a frame header. *)
Definition valid_id (id : Z) : Prop := 0 < id < 2 ^ 31.

(** The fields of the frame are within what http2.Framer writes. *)
Definition intent_ok (i : writeIntent) : Prop :=
  match wi_kind i with
  | wkSettingsAck => True
  | wkWindowUpdate => (wi_streamID i = 0 \/ valid_id (wi_streamID i)) /\ 1 <= wi_increment i <= MaxInt32
  | wkPing => length (wi_pingData i) = 8%nat
  | wkRSTStream => valid_id (wi_streamID i) /\ is_u32 (wi_code i)
  | wkRespHeaders | wkReqHeaders | wkData => valid_id (wi_streamID i)
  | wkSetMaxDynTab => is_u32 (wi_val i)
  | wkGoAway => 0 <= wi_streamID i < 2 ^ 31 /\ is_u32 (wi_code i)
  end.

(** Before the teardown neither role sends GOAWAY. *)
Definition worker_intent (i : writeIntent) : Prop :=
  intent_ok i /\ wi_kind i <> wkReqHeaders /\ wi_kind i <> wkGoAway.

(** [Q]: what is known of the requests. *)
Definition proxy_intent (Q : writeIntent -> Prop) (i : writeIntent) : Prop :=
  intent_ok i /\ wi_kind i <> wkRespHeaders /\ wi_kind i <> wkGoAway /\ (wi_kind i = wkReqHeaders -> Q i).

(** The header names are canonical tokens. *)
Definition request_typed (i : writeIntent) : Prop := map_Forall (fun k _ => canonical_key k) (wi_header i).

(** The intents the connection itself submits, in either role. *)
Class ConnIntents (P : writeIntent -> Prop) := {
  ci_settings_ack : P SendSettingsAck;
  ci_window_update id inc : id = 0 \/ valid_id id -> 1 <= inc <= MaxInt32 -> P (SendWindowUpdate id inc);
  ci_ping ack data : length data = 8%nat -> P (SendPing ack data);
  ci_rst id code : valid_id id -> is_u32 code -> P (SendRSTStream id code);
  ci_table v : is_u32 v -> P (SendSetMaxDynamicTableSize v)
}.

#[global] Instance worker_intents : ConnIntents worker_intent.
Proof. split; intros; by split_and!. Qed.

#[global] Instance proxy_intents Q : ConnIntents (proxy_intent Q).
Proof. split; intros; by split_and!. Qed.

(** What http2.Framer guarantees of the frames it returns: ids have 31 bits,
    HEADERS and DATA are on a stream, a frame is shorter than 2^24, a PING has
    eight bytes. *)
Definition frame_bounded (f : Frame) : Prop :=
  match f with
  | FSettings _ ss => Forall (fun s => is_u32 s.2) ss
  | FHeaders f => valid_id (hf_StreamID f)
  | FData id _ len _ => valid_id id /\ 0 <= len < 2 ^ 24
  | FPing _ data => length data = 8%nat
  | _ => True
  end.

Definition read_bounded (r : ReadOutcome) : Prop := match r with RFrame f => frame_bounded f | _ => True end.

Create HintDb typed.

Section Typed.

Context {HD : HpackDecoder} (P : writeIntent -> Prop) {CI : ConnIntents P}.

(** The intents submitted satisfy [P]; the ids that may end up in one are
    valid; at most [k] stream ids have been issued. *)
Record typed (k : nat) (c : Conn) : Prop := {
  ty_out : Forall P (c_out c);
  ty_last : 0 <= LastStreamID (c_hdr c) < 2 ^ 31;
  ty_cont : contStreamID (c_hdr c) = 0 \/ valid_id (contStreamID (c_hdr c));
  ty_next : 0 <= c_nextStreamID c <= Z.max 0 (2 * Z.of_nat k - 1)
}.

Lemma typed_mono k k' c : (k <= k')%nat -> typed k c -> typed k' c.
Proof. intros Hk [H1 H2 H3 H4]. split; try done. lia. Qed.

(** Operations that submit nothing and leave headers and ids alone. *)
Lemma typed_same k c c' :
  typed k c -> c_out c' = c_out c -> c_hdr c' = c_hdr c -> c_nextStreamID c' = c_nextStreamID c -> typed k c'.
Proof. intros [H1 H2 H3 H4] Eo Eh En. split; by rewrite ?Eo, ?Eh, ?En. Qed.

Lemma submitAsync_typed k c i : P i -> typed k c -> typed k (submitAsync c i).
Proof.
  intros Hi [H1 H2 H3 H4]. unfold submitAsync. destruct (c_writeDead c); [done|].
  split; try done. cbn. apply Forall_app. by split; [|constructor].
Qed.

Lemma finishDrain_typed k c now : typed k c -> typed k (finishDrain c now).
Proof. intros H. unfold finishDrain. destruct (c_drainDone c); [done|by eapply typed_same]. Qed.

Lemma RemoveStream_typed k c id now : typed k c -> typed k (RemoveStream c id now).
Proof. intros H. destruct (RemoveStream_spec c id now) as (? & _ & ? & ? & _). by eapply typed_same. Qed.

Lemma BeginDrain_typed k c now : typed k c -> typed k (BeginDrain c now).
Proof.
  intros H. unfold BeginDrain. destruct (_ =? _)%nat; [apply finishDrain_typed|]; by eapply typed_same.
Qed.

Lemma HandleWindowUpdate_typed k c id inc : typed k c -> typed k (HandleWindowUpdate c id inc).
Proof. intros H. unfold HandleWindowUpdate. destruct (id =? 0); [|destruct (GetStream c id)]; [by eapply typed_same..|done]. Qed.

Lemma HandleRSTStream_typed k c id : typed k c -> typed k (HandleRSTStream c id).
Proof. intros H. unfold HandleRSTStream. destruct (GetStream c id); [by eapply typed_same|done]. Qed.

Lemma HandlePingAck_typed k c d : typed k c -> typed k (HandlePingAck c d).
Proof. intros H. unfold HandlePingAck. destruct (_ && _); [by eapply typed_same|done]. Qed.

Lemma SendOrCheckPing_typed k c now : typed k c -> typed k (SendOrCheckPing c now).1.
Proof.
  intros H. unfold SendOrCheckPing. destruct (c_pingPending c); [by destruct (_ <? _)|].
  apply submitAsync_typed; [by apply ci_ping|by eapply typed_same].
Qed.

Lemma applySetting_typed k c s : is_u32 s.2 -> typed k c -> typed k (applySetting c s).1.
Proof.
  intros Hs H. destruct s as [id v]. unfold applySetting.
  destruct (id =? SettingMaxFrameSize); [destruct (_ || _); [done|by eapply typed_same]|].
  destruct (id =? SettingInitialWindowSize).
  - destruct (2 ^ 31 - 1 <? v); [done|]. destruct (ApplyInitialWindowDelta _ _ _). by eapply typed_same.
  - destruct (id =? SettingHeaderTableSize); [by apply submitAsync_typed; [apply ci_table|]|].
    repeat case_match; by eapply typed_same.
Qed.

Lemma ApplyPeerSettings_typed k c ss :
  Forall (fun s => is_u32 s.2) ss -> typed k c -> typed k (ApplyPeerSettings c ss).1.
Proof.
  intros Hs. revert c. induction Hs as [|s ss Hs _ IH]; intros c H; [done|]. simpl.
  pose proof (applySetting_typed k c s Hs H) as H1. destruct (applySetting c s) as [c1 [e|]]; [done|by apply IH].
Qed.

Lemma HandleInboundData_typed k m c ch id data len es :
  valid_id id -> 0 <= len < 2 ^ 24 -> typed k c -> typed k (HandleInboundData m c ch id data len es).2.
Proof.
  intros Hid Hlen H. unfold HandleInboundData, GetStream.
  assert (Hinc : 0 < len -> 1 <= len <= MaxInt32) by (unfold MaxInt32; lia).
  set (c1 := if 0 <? len then _ else c).
  assert (H1 : typed k c1).
  { unfold c1. destruct (0 <? len) eqn:El; [|done]. bool_prop.
    assert (H0 : typed k (submitAsync c (SendWindowUpdate 0 len)))
      by (apply submitAsync_typed; [apply ci_window_update; auto|done]).
    destruct (c_streams c !! id); [|done]. apply submitAsync_typed; [apply ci_window_update; auto|done]. }
  clearbody c1. destruct (c_streams c !! id) as [s|].
  - destruct (pushBytes m s ch data) as [m1 s1]. cbn. by eapply typed_same.
  - cbn. destruct (0 <? len); [|done]. by apply submitAsync_typed; [apply ci_rst|].
Qed.

(** The header state: [decodeBlock] moves no id. *)
Definition hdr_typed (h : HdrState) : Prop :=
  0 <= LastStreamID h < 2 ^ 31 /\ (contStreamID h = 0 \/ valid_id (contStreamID h)).

Lemma set_c_hdr_typed k c h : hdr_typed h -> typed k c -> typed k (set_c_hdr c h).
Proof. intros [] [H1 H2 H3 H4]. by split. Qed.

Lemma StartHeaders_typed h f h' r :
  hdr_typed h -> InContinuation h = false -> valid_id (hf_StreamID f) -> StartHeaders h f = (h', r) ->
  hdr_typed h' /\ forall d, r = inl (Some d) -> valid_id (dh_StreamID d).
Proof.
  intros [HL HC] Hin Hid E. destruct (StartHeaders_spec _ _ _ _ Hin E) as (HL' & HC' & Hr). unfold valid_id in *. split.
  - split; [lia|]. unfold valid_id. destruct (hf_endHeaders f); [by left|right; lia].
  - intros d ->. destruct Hr as (_ & -> & _). done.
Qed.

Lemma ConsumeContinuation_typed h f h' r :
  hdr_typed h -> InContinuation h = true -> ConsumeContinuation h f = (h', r) ->
  hdr_typed h' /\ forall d, r = inl (Some d) -> valid_id (dh_StreamID d).
Proof.
  intros [HL HC] Hin E. destruct (ConsumeContinuation_spec _ _ _ _ E) as (HL' & HC' & Hr).
  unfold InContinuation in Hin. bool_prop. destruct HC as [?|HC]; [done|]. split.
  - split; [lia|]. destruct HC' as [-> | ->]; [by right|by left].
  - intros d ->. by destruct (Hr d eq_refl) as (_ & -> & _).
Qed.

End Typed.

#[export] Hint Resolve finishDrain_typed RemoveStream_typed BeginDrain_typed HandleWindowUpdate_typed
  HandleRSTStream_typed HandlePingAck_typed SendOrCheckPing_typed : typed.

(** ** The loop, for both roles *)

(** What a role owes the induction: its handlers submit intents that satisfy
    [P]; what its other goroutines do may cost stream ids. *)
Class TypedRole {HD : HpackDecoder} (R : Role) (P : writeIntent -> Prop) := {
  env_cost : renv -> nat;
  env_typed : renv -> Prop;
  typed_setConn st c : role_conn (role_setConn st c) = c;
  typed_env k st e : Z.of_nat (k + env_cost e) <= 2 ^ 30 ->
    typed P k (role_conn st) -> env_typed e -> typed P (k + env_cost e) (role_conn (role_env st e));
  typed_frame k st ch now f : InContinuation (c_hdr (role_conn st)) = false ->
    typed P k (role_conn st) -> frame_bounded f -> typed P k (role_conn (role_frame st ch now f).1);
  typed_dispatch k st d :
    typed P k (role_conn st) -> valid_id (dh_StreamID d) -> typed P k (role_conn (role_dispatch st d))
}.

Section TypedLoop.

Context {HD : HpackDecoder} {R : Role} {P : writeIntent -> Prop} {CI : ConnIntents P} {TR : TypedRole R P}.

Definition turn_typed (t : Turn) : Prop := env_typed (t_env t) /\ read_bounded (t_read t).

Definition turn_cost (t : Turn) : nat := env_cost (t_env t).

(** As long as ids are left. *)
Definition typed_upto (k : nat) (st : rstate) : Prop := Z.of_nat k <= 2 ^ 30 -> typed P k (role_conn st).

Lemma typed_upto_mono k k' st : (k <= k')%nat -> typed_upto k st -> typed_upto k' st.
Proof. intros Hk H Hb. eapply typed_mono; [done|]. apply H. lia. Qed.

Lemma continueBlock_typed k st f :
  typed P k (role_conn st) -> InContinuation (c_hdr (role_conn st)) = true ->
  typed P k (role_conn (continueBlock st f).1).
Proof.
  intros H Hin. destruct f as [| | |cf| | | | |]; simpl; try done. destruct (negb _); [done|].
  destruct (ConsumeContinuation _ cf) as [h r] eqn:E.
  destruct (ConsumeContinuation_typed _ _ _ _ (conj (ty_last _ _ _ H) (ty_cont _ _ _ H)) Hin E) as [Hh Hd].
  assert (H1 : typed P k (role_conn (on_conn st (fun c => set_c_hdr c h)))).
  { unfold on_conn. rewrite typed_setConn. by apply set_c_hdr_typed. }
  destruct r as [[d|]|e]; cbn [fst]; [|done..]. apply typed_dispatch; auto.
Qed.

Lemma handleTurn_typed k st t :
  typed_upto k st -> turn_typed t -> typed_upto (k + turn_cost t) (handleTurn st t).1.
Proof.
  intros H [He Hr]. unfold handleTurn, turn_cost.
  destruct (t_shutdown t); [by eapply typed_upto_mono, H; lia|].
  destruct (DrainComplete _); [by eapply typed_upto_mono, H; lia|].
  set (st1 := role_env _ _).
  assert (H1 : typed_upto (k + env_cost (t_env t)) st1).
  { intros Hb. apply typed_env; [done| |done]. unfold on_conn. rewrite typed_setConn.
    eapply typed_same; [apply H; lia|done..]. }
  clearbody st1. intros Hb. specialize (H1 Hb). unfold read_bounded in Hr. destruct (t_read t) as [f| |e].
  - destruct (InContinuation _) eqn:Hin.
    + pose proof (continueBlock_typed _ st1 f H1 Hin) as H2. by destruct (continueBlock st1 f).
    + pose proof (typed_frame _ st1 (t_choice t) (t_now t) f Hin H1 Hr) as H2. by destruct (role_frame _ _ _ f).
  - destruct (t_shutdown2 t); [done|]. destruct (DrainComplete _); [done|].
    pose proof (SendOrCheckPing_typed P _ (role_conn st1) (t_now t) H1) as H2.
    destruct (SendOrCheckPing _ _) as [c e]. cbn [fst] in *. by rewrite typed_setConn.
  - done.
Qed.

Lemma frameLoop_typed k st ts st' r :
  typed_upto k st -> Forall turn_typed ts -> frameLoop st ts = (st', r) ->
  typed_upto (k + sum_list_with turn_cost ts) st'.
Proof. eapply frameLoop_inv_n; [apply typed_upto_mono|apply handleTurn_typed]. Qed.

Lemma awaitSettings_typed k st rs st' r :
  typed P k (role_conn st) -> Forall read_bounded rs -> awaitSettings st rs = (st', r) ->
  typed P k (role_conn st').
Proof.
  intros H Hrs. revert st H. induction Hrs as [|x rs Hx _ IH]; intros st H Ha; simpl in Ha; [by simplify_eq|].
  destruct x as [f| |e]; [|by simplify_eq..]. destruct f as [ack ss| | | | | | | |]; try by eapply IH.
  destruct ack; [by eapply IH|]. pose proof (ApplyPeerSettings_typed P k (role_conn st) ss Hx H) as H1.
  destruct (ApplyPeerSettings _ ss) as [c1 [e|]]; simplify_eq; rewrite typed_setConn; [done|].
  apply submitAsync_typed; [apply ci_settings_ack|done].
Qed.

End TypedLoop.

(** ** The worker *)

Section Worker.

Context {HD : HpackDecoder}.

Definition stream_ev_typed (e : StreamEv) : Prop := match e with SSubmit i => worker_intent i | _ => True end.

Lemma stream_ev_keeps k st e :
  stream_ev_typed e -> typed worker_intent k (ws_conn st) -> typed worker_intent k (ws_conn (stream_ev st e)).
Proof.
  intros He H. destruct st as [m c sp], e as [id now|id want|id plen|id|i|]; simpl in *.
  - destruct (GetStream c id); [cbn; auto with typed|done].
  - destruct (GetStream c id); [|done]. destruct (Reserve _ _ _) as [[? ?] ?]. by eapply typed_same.
  - destruct (GetStream c id); [|done]. destruct (Read _ _ _) as [[? ?] ?]. by eapply typed_same.
  - destruct (GetStream c id); [|done]. destruct (BodyClose _ _) as [? ?]. by eapply typed_same.
  - by apply submitAsync_typed.
  - by eapply typed_same.
Qed.

#[global] Instance worker_typed : TypedRole workerRole worker_intent.
Proof.
  refine (Build_TypedRole HD workerRole worker_intent (fun _ => 0%nat) (Forall stream_ev_typed) _ _ _ _).
  - done.
  - cbn. intros k st es _. rewrite Nat.add_0_r. revert st. induction es as [|e es IH]; intros st H He; [done|].
    inv He. apply IH; [by apply stream_ev_keeps|done].
  - cbn. intros k st ch now f Hin H Hf.
    destruct f as [ack ss|id inc|f|f|id data len es|ack data|l code|id code|]; simpl in Hf |- *; try done.
    + destruct ack; [done|]. pose proof (ApplyPeerSettings_typed worker_intent k (ws_conn st) ss Hf H) as H1.
      destruct (ApplyPeerSettings _ _) as [c [e|]]; [done|]. by apply submitAsync_typed; [apply ci_settings_ack|].
    + cbn. auto with typed.
    + destruct (GetStream _ _); [done|]. destruct (StartHeaders _ f) as [h r] eqn:E.
      destruct (StartHeaders_typed _ _ _ _ (conj (ty_last _ _ _ H) (ty_cont _ _ _ H)) Hin Hf E) as [Hh _].
      pose proof (set_c_hdr_typed worker_intent k _ h Hh H) as H1.
      destruct r as [[d|]|e]; [|done..]. cbn. destruct (dh_EndStream d); by eapply typed_same.
    + destruct Hf as [Hid Hlen]. pose proof (HandleInboundData_typed worker_intent k (ws_mem st) _ ch id data len es Hid Hlen H) as H1.
      by destruct (HandleInboundData _ _ _ _ _ _ _) as [m c].
    + destruct ack; cbn; [auto with typed|]. apply submitAsync_typed; [by apply ci_ping|done].
    + destruct (negb _); [done|]. cbn. auto with typed.
    + cbn. auto with typed.
  - cbn. intros k st d H _. unfold dispatchInboundHeaders. cbn. destruct (dh_EndStream d); by eapply typed_same.
Defined.

End Worker.

(** ** The proxy *)

Section Proxy.

Context {HD : HpackDecoder} (Q : writeIntent -> Prop).

Definition forward_ev_typed (e : ForwardEv) : Prop :=
  match e with
  | FwOpen req _ _ => is_request req /\ forall id, Q (req id)
  | FwSubmit i => proxy_intent Q i
  | _ => True
  end.

Lemma NextStreamID_typed P k c :
  Z.of_nat (S k) <= 2 ^ 30 -> typed P k c ->
  typed P (S k) (NextStreamID c).1 /\ valid_id (NextStreamID c).2.
Proof.
  intros Hb [H1 H2 H3 H4]. unfold NextStreamID. cbn [fst snd].
  set (id := if c_nextStreamID c =? 0 then 1 else u32 (c_nextStreamID c + 2)).
  assert (Hid : 0 < id <= 2 * Z.of_nat (S k) - 1).
  { unfold id. destruct (c_nextStreamID c =? 0) eqn:E; bool_prop; [lia|]. rewrite u32_small by range32. lia. }
  clearbody id. split; [|unfold valid_id; lia]. split; try done. cbn. lia.
Qed.

Lemma openStream_typed k w p iw req err now :
  Z.of_nat (S k) <= 2 ^ 30 -> typed (proxy_intent Q) k (w_conn w) -> is_request req -> (forall id, Q (req id)) ->
  typed (proxy_intent Q) (S k) (w_conn (openStream w p iw req err now).1).
Proof.
  intros Hb H Hreq Hh. unfold openStream.
  destruct (Draining _); [by eapply typed_mono, H; lia|]. destruct (_ <=? _); [by eapply typed_mono, H; lia|].
  destruct (NextStreamID_typed _ _ _ Hb H) as [H1 Hid]. destruct (NextStreamID _) as [c1 id]. cbn [fst snd] in *.
  assert (Hi : proxy_intent Q (req id)).
  { destruct (Hreq id) as [Hk Hs]. unfold proxy_intent, intent_ok. rewrite Hk, Hs. split_and!; done. }
  assert (H2 : typed (proxy_intent Q) (S k) (submitAsync (Conn.AddStream c1 (Acquire newStream id p iw)) (req id)))
    by (apply submitAsync_typed; [done|by eapply typed_same]).
  destruct err; [|done]. destruct (Release _ _) as [m ?]. cbn. auto with typed.
Qed.

Lemma deliverResponse_typed k w d :
  typed (proxy_intent Q) k (w_conn w) -> valid_id (dh_StreamID d) -> typed (proxy_intent Q) k (w_conn (deliverResponse w d)).
Proof.
  intros H Hid. unfold deliverResponse. destruct (getStream _ _).
  - destruct (dh_EndStream d); [by eapply typed_same|done].
  - apply submitAsync_typed; [by apply ci_rst|done].
Qed.

Lemma forward_ev_keeps k w e :
  Z.of_nat (k + opens e) <= 2 ^ 30 -> forward_ev_typed e ->
  typed (proxy_intent Q) k (w_conn w) -> typed (proxy_intent Q) (k + opens e) (w_conn (forward_ev w e)).
Proof.
  intros Hb He H. destruct e as [req err now|id now|id want|id plen|i]; cbn [opens forward_ev] in *;
    rewrite ?Nat.add_0_r, ?Nat.add_1_r in *.
  - by apply openStream_typed; [..|apply He|apply He].
  - unfold closeStream. destruct (GetStream _ _); [|done]. cbn. auto with typed.
  - destruct (GetStream _ _); [|done]. destruct (Reserve _ _ _) as [[? ?] ?]. by eapply typed_same.
  - destruct (GetStream _ _); [|done]. destruct (Read _ _ _) as [[? ?] ?]. by eapply typed_same.
  - by apply submitAsync_typed.
Qed.

#[global] Instance proxy_typed : TypedRole proxyRole (proxy_intent Q).
Proof.
  refine (Build_TypedRole HD proxyRole (proxy_intent Q) (sum_list_with opens) (Forall forward_ev_typed) _ _ _ _).
  - done.
  - cbn. intros k st es. revert k st. induction es as [|e es IH]; intros k st Hb H He; cbn in *; [by rewrite Nat.add_0_r|].
    inv He. rewrite Nat.add_assoc in *. apply IH; [done| |done]. apply forward_ev_keeps; [lia|done..].
  - cbn. intros k w ch now f Hin H Hf.
    destruct f as [ack ss|id inc|f|f|id data len es|ack data|l code|id code|]; simpl in Hf |- *; try done.
    + destruct ack; [done|]. pose proof (ApplyPeerSettings_typed (proxy_intent Q) k (w_conn w) ss Hf H) as H1.
      destruct (ApplyPeerSettings _ _) as [c [e|]]; [done|]. by apply submitAsync_typed; [apply ci_settings_ack|].
    + cbn. auto with typed.
    + destruct (StartHeaders _ f) as [h r] eqn:E.
      destruct (StartHeaders_typed _ _ _ _ (conj (ty_last _ _ _ H) (ty_cont _ _ _ H)) Hin Hf E) as [Hh Hd].
      pose proof (set_c_hdr_typed (proxy_intent Q) k _ h Hh H) as H1.
      destruct r as [[d|]|e]; [|done..]. apply deliverResponse_typed; auto.
    + destruct Hf as [Hid Hlen]. pose proof (HandleInboundData_typed (proxy_intent Q) k (w_mem w) _ ch id data len es Hid Hlen H) as H1.
      by destruct (HandleInboundData _ _ _ _ _ _ _) as [m c].
    + destruct ack; cbn; [auto with typed|]. apply submitAsync_typed; [by apply ci_ping|done].
    + destruct (negb _); [done|]. cbn. auto with typed.
    + cbn. apply HandleRSTStream_typed. destruct (getStream w id); [by eapply typed_same|done].
  - cbn. intros k w d. apply deliverResponse_typed.
Defined.

End Proxy.

(** ** The goroutines that send

    The intents of a stream goroutine ([serveStream]) and of a body pump
    ([streamRequestBody]) are typed: these are the ones the loops' environment
    submits. *)

Section Goroutines.

Context (P : writeIntent -> Prop).

Definition logged (w : World) : Prop := Forall P (w_log w).*1.

Lemma submit_logged w i : P i -> logged w -> logged (submit w i).1.
Proof. intros Hi H. unfold logged. cbn. rewrite fmap_app. apply Forall_app. by split; [|repeat constructor]. Qed.

Lemma submitOnly_logged w i : P i -> logged w -> logged (submitOnly w i).
Proof. intros Hi H. unfold logged. cbn. rewrite fmap_app. apply Forall_app. by split; [|repeat constructor]. Qed.

Lemma reserve_logged w want : logged w -> logged (reserve w want).1.
Proof. unfold reserve. by destruct (reserveWait _ _ _ _) as [[[r bs] sc] sw]. Qed.

End Goroutines.

Section StreamGoroutine.

Variable id : Z.
Hypothesis Hid : valid_id id.

Abbreviation logged_st st := (logged worker_intent (r_world st)).

Lemma own_headers status h es : worker_intent (SendResponseHeaders id status h es).
Proof. by split_and!. Qed.

Lemma own_data p es : worker_intent (SendData id p es).
Proof. by split_and!. Qed.

Lemma own_reset st code : is_u32 code -> logged_st st -> logged_st (Reset id st code).
Proof. intros Hc H. apply submitOnly_logged; [by split_and!|done]. Qed.

(** Destructs the first [submit] and records that its log is typed. *)
Local Ltac log_submit H :=
  match goal with
  | |- context [submit ?w ?i] =>
      let Hs := fresh in
      assert (Hs : logged worker_intent (submit w i).1)
        by (apply submit_logged; [first [apply own_headers|apply own_data]|exact H]);
      destruct (submit w i) as [? [?|]]; cbn [fst] in Hs
  end.

Lemma prepare_logged st : logged_st st -> logged_st (prepare st).
Proof. intros H. unfold prepare. by repeat case_match. Qed.

Lemma writeHeaders_logged st es : logged_st st -> logged_st (writeHeaders id st es).1.
Proof.
  intros H. unfold writeHeaders. destruct (rw_wroteHeaders _); [done|].
  assert (H1 : logged_st (set_wroteHeaders (prepare st))) by (by apply prepare_logged).
  by log_submit H1.
Qed.

Lemma WriteHeader_logged st code : logged_st st -> logged_st (WriteHeader id st code).
Proof.
  intros H. unfold WriteHeader. destruct (_ || _); [done|]. destruct (_ && _); [|done].
  destruct (_ =? 0); [|done]. unfold writeInformational. destruct (_ =? _); [done|]. by log_submit H.
Qed.

Lemma Flush_logged st : logged_st st -> logged_st (Flush id st).
Proof.
  intros H. unfold Flush. destruct (rw_err _); [done|]. pose proof (prepare_logged st H) as H1.
  set (st1 := prepare st) in *. clearbody st1. destruct (rw_noBody _); [done|].
  pose proof (writeHeaders_logged st1 false H1) as H2.
  destruct (rw_wroteHeaders _); [by log_submit H1|].
  destruct (writeHeaders id st1 false) as [st2 [e|]]; [done|]. cbn in H2. by log_submit H2.
Qed.

Lemma write_loop_logged fuel mf st p total : logged_st st -> logged_st (write_loop id fuel mf st p total).1.
Proof.
  revert st p total. induction fuel as [|fuel IH]; intros st p total H; [by destruct p|].
  destruct p as [|b p]; [done|]. cbn [write_loop].
  pose proof (reserve_logged worker_intent (r_world st) (Z.min (i32 (Z.of_nat (length (b :: p)))) mf) H) as H1.
  destruct (reserve _ _) as [w [[got []]|]]; [done| |done]. cbn [fst r_world set_world] in *.
  log_submit H1; [done|]. by apply IH.
Qed.

Lemma Write_logged fuel mfs st p : logged_st st -> logged_st (Write id fuel mfs st p).1.
Proof.
  intros H. unfold Write. destruct (rw_err _); [done|]. pose proof (prepare_logged st H) as H1.
  set (st1 := prepare st) in *. clearbody st1. destruct (rw_noBody _); [done|].
  assert (Hk : forall st2, logged_st st2 -> logged_st (if (length p =? 0)%nat then (st2, WDone 0 None)
      else if (0 <=? rw_declaredCL (r_rw st2)) && (rw_declaredCL (r_rw st2) <? i64 (rw_written (r_rw st2) + Z.of_nat (length p)))
      then (set_err (set_clViolated st2) HttpErrContentLength, WDone 0 (Some HttpErrContentLength))
      else write_loop id fuel (if i32 mfs <=? 0 then 16384 else i32 mfs) st2 p 0).1).
  { intros st2 H2. destruct (_ =? _)%nat; [done|]. destruct (_ && _); [done|]. by apply write_loop_logged. }
  destruct (rw_wroteHeaders _); [by apply Hk|].
  pose proof (writeHeaders_logged st1 false H1) as H2. destruct (writeHeaders _ _ _) as [st2 [e|]]; [done|by apply Hk].
Qed.

Lemma runHandler_logged calls st : logged_st st -> logged_st (runHandler id st calls).1.
Proof.
  revert st. induction calls as [|c calls IH]; intros st H; [done|]. destruct c; cbn [runHandler]; auto.
  - by apply IH, WriteHeader_logged.
  - pose proof (Write_logged (length p) mfs st p H) as H1. destruct (Write _ _ _ _ _) as [st1 []]; auto.
  - by apply IH, Flush_logged.
Qed.

Lemma endStream_logged st : logged_st st -> logged_st (endStream id st).1.
Proof.
  intros H. unfold endStream. pose proof (prepare_logged st H) as H1. set (st1 := prepare st) in *. clearbody st1.
  destruct (_ && _); [done|]. destruct (negb _); [by apply writeHeaders_logged|]. by log_submit H1.
Qed.

Lemma finishStream_logged st dd : logged_st st -> logged_st (finishStream id st dd).
Proof.
  intros H. unfold finishStream. pose proof (endStream_logged st H) as H1.
  set (x := if rw_clViolated _ then _ else _). assert (Hx : logged_st x.1).
  { unfold x. destruct (rw_clViolated _); [by apply own_reset|]. destruct (rw_err _); [done|].
    destruct (endStream id st) as [st1 [[]|]]; try done. by apply own_reset. }
  clearbody x. destruct x as [st1 done']. destruct (_ && _); [by apply own_reset|done].
Qed.

(** Whatever the handler does. *)
Lemma serveStream_logged method ok calls dd w :
  logged worker_intent w -> logged_st (serveStream id method ok calls dd w).1.
Proof.
  intros H. unfold serveStream. destruct ok; cbn [negb]; [|by apply own_reset].
  pose proof (runHandler_logged calls (mkR (newResponseWriter method) ∅ w) H) as H1.
  destruct (runHandler _ _ _) as [st []]; [by apply finishStream_logged| |done].
  cbn. unfold recovered. destruct (negb _); [by apply writeHeaders_logged|by apply own_reset].
Qed.

(** Whatever the caller's body yields. *)
Lemma pumpChunk_logged Q fuel w p : logged (proxy_intent Q) w -> logged (proxy_intent Q) (pumpChunk fuel id w p).1.
Proof.
  revert w p. induction fuel as [|fuel IH]; intros w p H; [by destruct p|]. destruct p as [|b p]; [done|].
  cbn [pumpChunk]. pose proof (reserve_logged (proxy_intent Q) w (i32 (Z.of_nat (length (b :: p)))) H) as H1.
  destruct (reserve _ _) as [w1 [[got []]|]]; [done| |done]. cbn [fst] in H1.
  assert (H2 := submit_logged (proxy_intent Q) w1 (SendData id (take (Z.to_nat got) (b :: p)) false) ltac:(by split_and!) H1).
  destruct (submit _ _) as [w2 [e|]]; [done|by apply IH].
Qed.

Lemma streamRequestBody_logged Q w reads : logged (proxy_intent Q) w -> logged (proxy_intent Q) (streamRequestBody id w reads).1.
Proof.
  revert w. induction reads as [|rd reads IH]; intros w H; [done|]. cbn [streamRequestBody].
  destruct (br_detached rd); [done|].
  pose proof (pumpChunk_logged Q (length (br_data rd)) w (br_data rd) H) as H1.
  destruct (pumpChunk _ _ _ _) as [w1 []]; try done. cbn [fst] in H1.
  destruct (br_err rd) as [[|e]|]; [| |by apply IH].
  - assert (H2 := submit_logged (proxy_intent Q) w1 (SendData id [] true) ltac:(by split_and!) H1).
    by destruct (submit w1 _).
  - apply submitOnly_logged; [by split_and!|done].
Qed.

End StreamGoroutine.

(** [forwardIntent] keeps the names the public server has validated. *)
Lemma forwardIntent_typed range req :
  range (rq_header req) ≡ₚ map_to_list (rq_header req) ->
  map_Forall (fun k _ => canonical_key k) (rq_header req) ->
  is_request (forwardIntent range req) /\ forall id, request_typed (forwardIntent range req id).
Proof.
  intros Hp Hc. split; [by intros id|]. intros id. unfold request_typed. cbn [wi_header forwardIntent SendRequestHeaders].
  rewrite buildForwardedHeader_filter by (done || (eapply map_Forall_impl; [exact Hc|]; by intros k vv [_ ?])).
  intros k vv Hk. apply map_lookup_filter_Some in Hk as [Hk _]. exact (Hc _ _ Hk).
Qed.

(** ** The property *)

Section Roles.

Context {HD : HpackDecoder}.

(** Typed intents, then at most the teardown's GOAWAY. *)
Definition sends (P : writeIntent -> Prop) (l : list writeIntent) : Prop :=
  exists before, Forall P before /\
    (l = before \/ exists id, 0 <= id < 2 ^ 31 /\ l = before ++ [SendGoAway id ErrCodeNo]).

Lemma typed_sends P k c : typed P k c -> sends P (c_out c).
Proof. intros H. exists (c_out c). split; [apply H|by left]. Qed.

Lemma goaway_sends P k c id :
  typed P k c -> 0 <= id < 2 ^ 31 -> sends P (c_out (submitAsync c (SendGoAway id ErrCodeNo))).
Proof.
  intros H Hid. exists (c_out c). split; [apply H|]. unfold submitAsync. destruct (c_writeDead c); [by left|right].
  by exists id.
Qed.

Lemma newConn_typed P d : typed P 0 (newConn d).
Proof. split; cbn; [constructor|lia|by left|lia]. Qed.

Lemma serveTeardown_sends k st : typed worker_intent k (ws_conn st) -> sends worker_intent (c_out (ws_conn (serveTeardown st))).
Proof.
  intros H. unfold serveTeardown. set (c := FailAllStreams _ _).
  apply (goaway_sends worker_intent k c (LastStreamID (c_hdr c))); [by eapply typed_same|apply H].
Qed.

Lemma tunnelTeardown_sends Q k w : typed (proxy_intent Q) k (w_conn w) -> sends (proxy_intent Q) (c_out (w_conn (tunnelTeardown w))).
Proof.
  intros H. unfold tunnelTeardown. set (w1 := set_conn (failAllStreams _ _) _).
  apply (goaway_sends (proxy_intent Q) k (w_conn w1) 0); [by eapply typed_same|done].
Qed.

Lemma serve_sends d rs ts st r :
  Forall read_bounded rs -> Forall (turn_typed (R := workerRole) (P := worker_intent)) ts ->
  serve (serve_init d) rs ts = (st, r) -> sends worker_intent (c_out (ws_conn st)).
Proof.
  intros Hrs Hts H. unfold serve in H. destruct (awaitSettings (R := workerRole) _ rs) as [st1 r1] eqn:E.
  pose proof (awaitSettings_typed (R := workerRole) (P := worker_intent) 0 (serve_init d) rs st1 r1 (newConn_typed _ d) Hrs E) as H1.
  destruct r1 as [[e|]|]; [simplify_eq; by eapply serveTeardown_sends| |simplify_eq; by eapply typed_sends].
  destruct (frameLoop (R := workerRole) st1 ts) as [st2 r2] eqn:E2.
  pose proof (frameLoop_typed (R := workerRole) (P := worker_intent) 0 st1 ts st2 r2 ltac:(by intros _) Hts E2) as H2.
  assert (Hz : forall l : list Turn, sum_list_with (turn_cost (R := workerRole) (P := worker_intent)) l = 0%nat)
    by (intros l; induction l; [done|exact IHl]).
  rewrite Hz in H2. specialize (H2 ltac:(cbn; lia)).
  destruct r2; simplify_eq; [by eapply serveTeardown_sends|by eapply typed_sends].
Qed.

Lemma serveTunnel_sends Q d rs ts w r :
  Forall read_bounded rs -> Forall (turn_typed (R := proxyRole) (P := proxy_intent Q)) ts ->
  Z.of_nat (total_opens ts) <= 2 ^ 30 ->
  serveTunnel (newWorker d) rs ts = (w, r) -> sends (proxy_intent Q) (c_out (w_conn w)).
Proof.
  intros Hrs Hts Hb H. unfold serveTunnel in H. destruct (awaitSettings (R := proxyRole) _ rs) as [w1 r1] eqn:E.
  pose proof (awaitSettings_typed (R := proxyRole) (P := proxy_intent Q) 0 (newWorker d) rs w1 r1 (newConn_typed _ d) Hrs E) as H1.
  destruct r1 as [[e|]|]; [simplify_eq; by eapply tunnelTeardown_sends| |simplify_eq; by eapply typed_sends].
  destruct (frameLoop (R := proxyRole) w1 ts) as [w2 r2] eqn:E2.
  pose proof (frameLoop_typed (R := proxyRole) (P := proxy_intent Q) 0 w1 ts w2 r2 ltac:(by intros _) Hts E2 Hb) as H2.
  destruct r2; simplify_eq; [by eapply tunnelTeardown_sends|by eapply typed_sends].
Qed.

(** C26. Every frame the program asks for is one the framer accepts, and each
    role sends only its own kinds: from a new connection, whatever frames
    arrive, the intents the worker submits are responses, DATA, resets,
    acknowledgements and window updates, and those of the proxy are requests
    with canonical header names instead of responses, all with 31-bit stream
    ids, increments between 1 and 2^31-1, eight-byte PINGs, ended at most by
    the teardown's GOAWAY (the proxy for up to 2^30 streams); the stream
    goroutines, whatever their handler does, and the body pumps, whatever the
    caller's body yields, submit only such intents. *)
Theorem submitted_intents_typed d :
  (forall rs ts st r,
     Forall read_bounded rs -> Forall (turn_typed (R := workerRole) (P := worker_intent)) ts ->
     serve (serve_init d) rs ts = (st, r) -> sends worker_intent (c_out (ws_conn st))) /\
  (forall rs ts w r,
     Forall read_bounded rs -> Forall (turn_typed (R := proxyRole) (P := proxy_intent request_typed)) ts ->
     Z.of_nat (total_opens ts) <= 2 ^ 30 ->
     serveTunnel (newWorker d) rs ts = (w, r) -> sends (proxy_intent request_typed) (c_out (w_conn w))) /\
  (forall id w, valid_id id -> w_log w = [] ->
     (forall method ok calls dd, logged worker_intent (r_world (serveStream id method ok calls dd w).1)) /\
     (forall reads, logged (proxy_intent request_typed) (streamRequestBody id w reads).1)).
Proof.
  split; [exact (serve_sends d)|]. split; [exact (serveTunnel_sends request_typed d)|]. intros id w Hid Hw.
  assert (H : forall P, logged P w) by (intros P; unfold logged; rewrite Hw; constructor).
  split; intros; [by apply serveStream_logged|by apply streamRequestBody_logged].
Qed.

End Roles.

(** ** Witnesses *)

Module IntentsDemo.

Import ServeDemo.

(** A request, the end of its response, a PING and a DATA frame for a stream
    that does not exist; then the pool shuts down. *)
Definition traffic : list (Turn (R := workerRole)) :=
  [turn [] (RFrame (FHeaders ServeDemo.request)) false;
   turn [SSubmit (SendData 1 [] true)] (RFrame (FPing false (be64 7))) false;
   turn [] (RFrame (FData 5 [x61] 1 false)) false; turn [] RTimeout true].

Definition final : WState := (serve ServeDemo.start hello traffic).1.

Lemma final_run : serve ServeDemo.start hello traffic = (final, Some None).
Proof. unfold final. apply pair_fst. vm_compute. reflexivity. Qed.

Lemma hello_bounded : Forall read_bounded hello /\ Forall read_bounded TunnelDemo.hello.
Proof. split; repeat constructor; vm_compute; discriminate. Qed.

Lemma traffic_typed : Forall (turn_typed (R := workerRole) (P := worker_intent)) traffic.
Proof. repeat constructor; vm_compute; discriminate. Qed.

Lemma tunnel_typed : Forall (turn_typed (R := proxyRole) (P := proxy_intent request_typed)) TunnelDemo.session.
Proof.
  assert (Hr : forall id, request_typed (TunnelDemo.request id)) by (intros id; apply map_Forall_empty).
  repeat constructor; try apply TunnelDemo.request_ok; try apply Hr; vm_compute; discriminate.
Qed.

Lemma submitted_intents_typed_witness :
  sends worker_intent (c_out (ws_conn final)) /\ sends (proxy_intent request_typed) (c_out (w_conn TunnelDemo.ended)) /\
  last (c_out (ws_conn final)) = Some (SendGoAway 1 ErrCodeNo).
Proof.
  destruct (submitted_intents_typed (HD := Plain.plain_decoder) tt) as (Hw & Ht & _). split_and!.
  - exact (Hw hello traffic final _ (proj1 hello_bounded) traffic_typed final_run).
  - refine (Ht TunnelDemo.hello TunnelDemo.session TunnelDemo.ended _ (proj2 hello_bounded) tunnel_typed _ TunnelDemo.ending).
    vm_compute. discriminate.
  - vm_compute. reflexivity.
Defined.

End IntentsDemo.
