(* ===== verification/Wire.v ===== *)
(** * One direction of a tunnel

    The writer goroutine of one end, the transport, and the frame loop of the
    other end, composed: [link] hands each intent to [processIntent] and the
    frame it becomes to [handleTurn] of the receiving role.  What the peer's
    framer reads for a frame is the class [Wire], with the documented
    behaviour of golang.org/x/net/http2.Framer as its laws; a payload above
    the read limit [New] sets (16384 bytes) is a read error. *)

From Stdlib Require Import Strings.Byte.
From S2P Require Import Prelude Errors Flow Names H2Stream Writer HeaderBlock Conn FrameLoop Serve Tunnel Intents.

(** [framer.SetMaxReadFrameSize(16384)] *)
Definition maxReadFrame : Z := 16384.

Definition fits (payload : list byte) : Prop := Z.of_nat (length payload) <= maxReadFrame.

(** What [ReadFrame] returns for a frame the peer's framer has written. *)
Class Wire := {
  received : wframe -> ReadOutcome;
  received_settings_ack : received WSettingsAck = RFrame (FSettings true []);
  received_window_update id inc : id = 0 \/ valid_id id -> 1 <= inc <= MaxInt32 ->
    received (WWindowUpdate id inc) = RFrame (FWindowUpdate id inc);
  received_ping ack data : length data = 8%nat -> received (WPing ack data) = RFrame (FPing ack data);
  received_rst id code : valid_id id -> is_u32 code -> received (WRSTStream id code) = RFrame (FRSTStream id code);
  received_headers id block es : valid_id id -> fits block ->
    received (WHeaders id block es true) = RFrame (FHeaders (mkHeadersFrame id block es true));
  received_data id es data : valid_id id -> fits data ->
    received (WData id es data) = RFrame (FData id data (Z.of_nat (length data)) es);
  received_goaway last code : 0 <= last < 2 ^ 31 -> is_u32 code ->
    received (WGoAway last code) = RFrame (FGoAway last code);
  received_large_headers id block es eh : ~ fits block -> exists e, received (WHeaders id block es eh) = RFail e;
  received_large_data id es data : ~ fits data -> exists e, received (WData id es data) = RFail e
}.

Section Sender.

Context {FR : Framer} {HE : HpackEncoder}.

Variable range : header -> list (string * list string).

(** The frame an intent becomes, and the encoder it leaves behind. *)
Definition intentFrame (w : Writer) (i : writeIntent) : option wframe :=
  match wi_kind i with
  | wkSettingsAck => Some WSettingsAck
  | wkWindowUpdate => Some (WWindowUpdate (wi_streamID i) (wi_increment i))
  | wkPing => Some (WPing (wi_isAck i) (wi_pingData i))
  | wkRSTStream => Some (WRSTStream (wi_streamID i) (wi_code i))
  | wkData => Some (WData (wi_streamID i) (wi_endStream i) (wi_data i))
  | wkRespHeaders => Some (WHeaders (wi_streamID i) (responseBlock range w i) (wi_endStream i) true)
  | wkReqHeaders => Some (WHeaders (wi_streamID i) (requestBlock range w i) (wi_endStream i) true)
  | wkSetMaxDynTab => None
  | wkGoAway => Some (WGoAway (wi_streamID i) (wi_code i))
  end.

Definition intentEncoder (w : Writer) (i : writeIntent) : encoder :=
  match wi_kind i with
  | wkRespHeaders => (writeFields (wr_enc w) (responseFields range i)).1
  | wkReqHeaders => (writeFields (wr_enc w) (requestFields range i)).1
  | wkSetMaxDynTab => enc_setMax (wr_enc w) (wi_val i)
  | _ => wr_enc w
  end.

(** The bytes whose number the peer's read limit bounds. *)
Definition payload (w : Writer) (i : writeIntent) : list byte :=
  match wi_kind i with
  | wkRespHeaders => responseBlock range w i
  | wkReqHeaders => requestBlock range w i
  | wkData => wi_data i
  | _ => []
  end.

Lemma processIntent_frame w i :
  cache_ok ToLower (wr_lower w) ->
  exists lower', cache_ok ToLower lower' /\
    processIntent range w i =
      match intentFrame w i with
      | None => (mkWriter (intentEncoder w i) lower' (wr_framer w), None)
      | Some f => (mkWriter (intentEncoder w i) lower' (fr_write (wr_framer w) f).1, (fr_write (wr_framer w) f).2)
      end.
Proof.
  intros Hl. unfold intentFrame, intentEncoder. destruct (wi_kind i) eqn:Hk.
  5: by apply process_response; [..|apply surjective_pairing].
  5: by apply process_request; [..|apply surjective_pairing].
  all: exists (wr_lower w); (split; [done|]); unfold processIntent; rewrite Hk; try done;
    unfold writeFrame; by destruct (fr_write _ _) as [fr err].
Qed.

End Sender.

(** The two ends of one direction agree: the sender's encoder and caches, the
    receiver's decoder, cache and reassembly, which is between two blocks. *)
Record codec_sync {FR : Framer} {HE : HpackEncoder} {HD : HpackDecoder} {HC : HpackCodec} (w : Writer) (h : HdrState) : Prop := {
  sn_hpack : in_sync (wr_enc w) (h_dec h);
  sn_lower : cache_ok ToLower (wr_lower w);
  sn_canon : cache_ok CanonicalMIMEHeaderKey (h_canon h);
  sn_cont : InContinuation h = false
}.

Section Link.

Context {FR : Framer} {HE : HpackEncoder} {HD : HpackDecoder} {WI : Wire} {R : Role}.

Variable range : header -> list (string * list string).

(** One intent, and the turn of the peer's loop that reads its frame: when
    the turn starts, what the peer's goroutines do before the frame is there,
    the pool's choice, the time of the read. *)
Record Hop := mkHop {
  hop_intent : writeIntent;
  hop_start : Z;
  hop_env : renv;
  hop_choice : PoolChoice;
  hop_now : Z
}.

Definition hop_turn (h : Hop) (r : ReadOutcome) : Turn :=
  mkTurn false (hop_start h) (hop_env h) (hop_choice h) (hop_now h) r false.

(** How a run ends: with everything delivered, with a failed write, or with
    the peer's loop having returned. *)
Inductive LinkEnd :=
| LinkUp
| WriteFailed (e : gerror)
| LoopEnded (e : option gerror).

Definition hop (w : Writer) (st : rstate) (h : Hop) : Writer * rstate * LinkEnd :=
  match processIntent range w (hop_intent h) with
  | (w', Some e) => (w', st, WriteFailed e)
  | (w', None) =>
      match intentFrame range w (hop_intent h) with
      | None => (w', st, LinkUp)
      | Some f =>
          match handleTurn st (hop_turn h (received f)) with
          | (st', Reading) => (w', st', LinkUp)
          | (st', Returned e) => (w', st', LoopEnded e)
          end
      end
  end.

Fixpoint link (w : Writer) (st : rstate) (hops : list Hop) : Writer * rstate * LinkEnd :=
  match hops with
  | [] => (w, st, LinkUp)
  | h :: hops =>
      match hop w st h with
      | (w, st, LinkUp) => link w st hops
      | r => r
      end
  end.

Lemma link_app w st hs1 hs2 w1 st1 :
  link w st hs1 = (w1, st1, LinkUp) -> link w st (hs1 ++ hs2) = link w1 st1 hs2.
Proof.
  revert w st. induction hs1 as [|h hs1 IH]; intros w st H; simpl in *; [by simplify_eq|].
  destruct (hop w st h) as [[w2 st2] []]; [auto|done|done].
Qed.

(** Either everything was delivered or a first hop broke the link. *)
Lemma link_split w st hs w' st' r :
  link w st hs = (w', st', r) ->
  r = LinkUp \/
  exists hs1 h hs2 w1 st1, hs = hs1 ++ h :: hs2 /\ link w st hs1 = (w1, st1, LinkUp) /\ hop w1 st1 h = (w', st', r) /\
    r <> LinkUp.
Proof.
  revert w st. induction hs as [|h hs IH]; intros w st H; simpl in H; [simplify_eq; by left|].
  destruct (hop w st h) as [[w1 st1] r1] eqn:E. destruct r1.
  - destruct (IH _ _ H) as [->|(hs1 & h' & hs2 & w2 & st2 & -> & Hl & Hh & Hr)]; [by left|right].
    exists (h :: hs1), h', hs2, w2, st2. split_and!; [done| |done..]. simpl. by rewrite E.
  - simplify_eq. right. by exists [], h, hs, w, st.
  - simplify_eq. right. by exists [], h, hs, w, st.
Qed.

(** A property every delivered hop keeps. *)
Lemma link_inv (P : Writer -> rstate -> Prop) (Q : Hop -> Prop) w st hs w' st' :
  (forall w st h w' st', P w st -> Q h -> hop w st h = (w', st', LinkUp) -> P w' st') ->
  P w st -> Forall Q hs -> link w st hs = (w', st', LinkUp) -> P w' st'.
Proof.
  intros Hstep H Hq. revert w st H. induction Hq as [|h hs Hh _ IH]; intros w st H Hl; simpl in Hl; [by simplify_eq|].
  destruct (hop w st h) as [[w1 st1] []] eqn:E; [|done..]. by eapply IH; [eapply Hstep|].
Qed.

End Link.

(** ** A concrete wire *)

Module PlainWire.

Definition limited (data : list byte) (f : Frame) : ReadOutcome :=
  if Z.of_nat (length data) <=? maxReadFrame then RFrame f else RFail (ErrExternal 2).

Definition plain_received (f : wframe) : ReadOutcome :=
  match f with
  | WSettingsAck => RFrame (FSettings true [])
  | WWindowUpdate id inc => RFrame (FWindowUpdate id inc)
  | WPing ack data => RFrame (FPing ack data)
  | WRSTStream id code => RFrame (FRSTStream id code)
  | WHeaders id block es eh => limited block (FHeaders (mkHeadersFrame id block es eh))
  | WData id es data => limited data (FData id data (Z.of_nat (length data)) es)
  | WGoAway last code => RFrame (FGoAway last code)
  end.

Lemma limited_fits data f : fits data -> limited data f = RFrame f.
Proof. unfold fits, limited. by intros ->%Z.leb_le. Qed.

Lemma limited_large data f : ~ fits data -> limited data f = RFail (ErrExternal 2).
Proof. unfold fits, limited. intros H. by rewrite (proj2 (Z.leb_gt _ _)) by lia. Qed.

#[global] Instance plain_wire : Wire.
Proof.
  refine {| received := plain_received |}; try done; intros; cbn [plain_received].
  - by apply limited_fits.
  - by apply limited_fits.
  - eexists. by apply limited_large.
  - eexists. by apply limited_large.
Defined.

End PlainWire.
