(* ===== verification/EndToEnd.v ===== *)
(** * A request from the public side to the handler

    The proxy's writer, the transport and the worker's frame loop composed
    (Wire.v), and the [http.Request] that [serveStream] builds (stream.go).
    The theorems: whatever else shares the tunnel, every forwarded request
    starts one stream goroutine, in order, and its handler sees the public
    request; nothing a proxy sends makes the worker's loop return, except a
    header block or DATA payload above the read limit. *)

From Stdlib Require Import Strings.Ascii Strings.Byte Strings.String.
From S2P Require Import Prelude Errors Flow Names H2Stream Writer HeaderBlock Conn ConnInv SendPath Uri FrameLoop Serve Tunnel Forward Intents Wire.

Open Scope Z_scope.

(** ** The request the handler is given *)

(** The fields [serveStream] sets; [ContentLength] keeps its zero value. *)
Record ServedRequest := mkServed {
  sv_Method : string;
  sv_URL : URL;
  sv_RequestURI : string;
  sv_Proto : string;
  sv_ProtoMajor : Z;
  sv_Header : header;
  sv_Host : string;
  sv_ContentLength : Z
}.

(** [None]: the stream is reset with PROTOCOL_ERROR and no handler runs. *)
Definition servedRequest (d : DecodedHeaders) : option ServedRequest :=
  match parseRequestURI (list_ascii_of_string (dh_Path d)) with
  | None => None
  | Some uri => Some (mkServed (dh_Method d) uri (dh_Path d) "HTTP/2.0" 2 (dh_Header d) (dh_Authority d) 0)
  end.

(** What the worker decodes of a request intent. *)
Definition arrived (i : writeIntent) : DecodedHeaders :=
  mkDecoded (filter forwardable (wi_header i)) (wi_method i) (wi_path i) (wi_authority i) ""
    (wi_streamID i) (wi_endStream i).

Definition is_req (i : writeIntent) : bool := match wi_kind i with wkReqHeaders => true | _ => false end.

Definition requests (l : list writeIntent) : list writeIntent := filter (fun i => is_req i = true) l.

(** The public request as its handler should see it. *)
Definition publicView (req : Request) : option ServedRequest :=
  let path := if String.eqb (rq_requestURI req) "" then "/"%string else rq_requestURI req in
  match parseRequestURI (list_ascii_of_string path) with
  | None => None
  | Some uri =>
      Some (mkServed (rq_method req) uri path "HTTP/2.0" 2 (filter end_to_end (rq_header req))
        (if String.eqb (rq_host req) "" then rq_urlHost req else rq_host req) 0)
  end.

(** ** Two filters *)

(** The names the encoder drops are among those [buildForwardedHeader] has
    already removed. *)
Lemma forbidden_is_hop_by_hop k :
  canonical_key k -> forbiddenForwardHeader (ToLower k) = true -> isHopByHop k = true.
Proof.
  intros [Ht Hc] Hf. assert (E : CanonicalMIMEHeaderKey (ToLower k) = k) by (rewrite canonical_of_lower; done).
  unfold forbiddenForwardHeader in Hf. apply existsb_exists in Hf as (x & Hin & Hx). apply String.eqb_eq in Hx.
  rewrite Hx in E. clear Hx Ht Hc. cbn [In] in Hin.
  destruct Hin as [<- |[<- |[<- |[<- |[<- |[]]]]]]; vm_compute in E; subst k; reflexivity.
Qed.

Lemma forwardable_end_to_end (h : header) :
  map_Forall (fun k _ => canonical_key k) h ->
  filter forwardable (filter end_to_end h) = filter end_to_end h.
Proof.
  intros Hc. apply map_filter_id. intros k vv Hk. apply map_lookup_filter_Some in Hk as [Hk [Hh Hv]].
  change (isHopByHop k = false) in Hh. split; [|done]. cbn [fst]. destruct (forbiddenForwardHeader (ToLower k)) eqn:E; [|done].
  pose proof (forbidden_is_hop_by_hop k (Hc _ _ Hk) E). congruence.
Qed.

Lemma arrived_forwardIntent range req id :
  range (rq_header req) ≡ₚ map_to_list (rq_header req) ->
  map_Forall (fun k _ => canonical_key k) (rq_header req) ->
  dh_Header (arrived (forwardIntent range req id)) = filter end_to_end (rq_header req) /\
  servedRequest (arrived (forwardIntent range req id)) = publicView req.
Proof.
  intros Hp Hc.
  assert (Hh : dh_Header (arrived (forwardIntent range req id)) = filter end_to_end (rq_header req)).
  { cbn [dh_Header arrived wi_header forwardIntent SendRequestHeaders].
    rewrite buildForwardedHeader_filter by (done || (eapply map_Forall_impl; [exact Hc|]; by intros k vv [_ ?])).
    by apply forwardable_end_to_end. }
  split; [done|]. unfold servedRequest, publicView. rewrite Hh. reflexivity.
Qed.

(** ** The worker's end of the link *)

Section Worker.

Context {FR : Framer} {HE : HpackEncoder} {HD : HpackDecoder} {HC : HpackCodec} {WI : Wire}.

Variable range : header -> list (string * list string).
Hypothesis range_perm : forall h, range h ≡ₚ map_to_list h.

(** The two ends agree, and the receiving loop is not draining. *)
Record synced (w : Writer) (c : Conn) : Prop := {
  sy_codec : codec_sync w (c_hdr c);
  sy_draining : c_draining c = false;
  sy_done : c_drainDone c = false
}.

(** Nothing the connection's reader owns changes. *)
Record quiet (c c' : Conn) : Prop := {
  qu_hdr : c_hdr c' = c_hdr c;
  qu_draining : c_draining c' = c_draining c;
  qu_done : c_draining c = false -> c_drainDone c' = c_drainDone c
}.

#[local] Instance quiet_refl : Reflexive quiet.
Proof. by intros c. Qed.

#[local] Instance quiet_trans : Transitive quiet.
Proof. intros c1 c2 c3 [H1 D1 F1] [H2 D2 F2]. split; [congruence..|]. intros Hd. rewrite F2, F1; congruence. Qed.

Lemma synced_quiet w c c' : synced w c -> quiet c c' -> synced w c'.
Proof. intros [H1 H2 H3] [Hh Hd Hf]. split; rewrite ?Hh, ?Hd, ?Hf; done. Qed.

Lemma submitAsync_quiet c i : quiet c (submitAsync c i).
Proof. unfold submitAsync. by destruct (c_writeDead c). Qed.

Lemma RemoveStream_quiet c id now : quiet c (RemoveStream c id now).
Proof.
  unfold RemoveStream. cbn. destruct (c_draining c) eqn:E; [|rewrite andb_false_r; by split].
  rewrite andb_true_r. destruct (_ =? _)%nat; [|by split].
  unfold finishDrain. cbn. destruct (c_drainDone c); split; cbn; congruence.
Qed.

Lemma HandleInboundData_quiet m c ch id data len es : quiet c (HandleInboundData m c ch id data len es).2.
Proof.
  unfold HandleInboundData, GetStream.
  destruct (c_streams c !! id) as [s|]; [destruct (pushBytes m s ch data) as [m1 s1]|]; cbn [snd];
    destruct (0 <? len); try done.
  - etrans; [exact (submitAsync_quiet c (SendWindowUpdate 0 len))|].
    etrans; [exact (submitAsync_quiet _ (SendWindowUpdate id len))|done].
  - etrans; [exact (submitAsync_quiet c (SendWindowUpdate 0 len))|apply submitAsync_quiet].
Qed.

Lemma stream_ev_quiet st e : quiet (ws_conn st) (ws_conn (stream_ev st e)).
Proof.
  destruct st as [m c sp], e as [id now|id want|id plen|id|i|]; simpl; [..|done].
  - destruct (GetStream c id); [apply RemoveStream_quiet|done].
  - destruct (GetStream c id); [|done]. by destruct (Reserve _ _ _) as [[? ?] ?].
  - destruct (GetStream c id); [|done]. by destruct (Read _ _ _) as [[? ?] ?].
  - destruct (GetStream c id); [|done]. by destruct (BodyClose _ _) as [? ?].
  - apply submitAsync_quiet.
Qed.

Lemma stream_ev_spawned st e : ws_spawned (stream_ev st e) = ws_spawned st.
Proof.
  destruct st as [m c sp], e as [id now|id want|id plen|id|i|]; simpl; try done.
  - by destruct (GetStream c id).
  - destruct (GetStream c id); [|done]. by destruct (Reserve _ _ _) as [[? ?] ?].
  - destruct (GetStream c id); [|done]. by destruct (Read _ _ _) as [[? ?] ?].
  - destruct (GetStream c id); [|done]. by destruct (BodyClose _ _) as [? ?].
Qed.

Lemma stream_evs_quiet es st :
  quiet (ws_conn st) (ws_conn (foldl stream_ev st es)) /\ ws_spawned (foldl stream_ev st es) = ws_spawned st.
Proof.
  revert st. induction es as [|e es IH]; intros st; [done|]. cbn [foldl]. destruct (IH (stream_ev st e)) as [Hq Hs].
  split; [etrans; [apply stream_ev_quiet|done]|]. by rewrite Hs, stream_ev_spawned.
Qed.

(** Frames other than HEADERS and GOAWAY. *)
Definition plain_frame (f : Frame) : bool :=
  match f with
  | FSettings ack _ => ack
  | FWindowUpdate _ _ | FData _ _ _ _ | FPing _ _ | FRSTStream _ _ => true
  | _ => false
  end.

Lemma handleFrame_plain st ch now f :
  plain_frame f = true ->
  (handleFrame st ch now f).2 = None /\ ws_spawned (handleFrame st ch now f).1 = ws_spawned st /\
  quiet (ws_conn st) (ws_conn (handleFrame st ch now f).1).
Proof.
  intros Hf. destruct f as [[] ss|id inc| | |id data len es|ack data| |id code|]; try done; simpl.
  - split_and!; [done..|]. unfold HandleWindowUpdate. destruct (_ =? _); [done|]. by destruct (GetStream _ _).
  - pose proof (HandleInboundData_quiet (ws_mem st) (ws_conn st) ch id data len es) as H.
    by destruct (HandleInboundData _ _ _ _ _ _ _) as [m c].
  - destruct ack; (split_and!; [done..|]); [|apply submitAsync_quiet].
    cbn. unfold HandlePingAck. by destruct (_ && _).
  - split_and!; [done..|]. unfold HandleRSTStream. by destruct (GetStream _ _).
Qed.

(** The turn of the loop that reads a frame, when it is between two blocks. *)
Lemma handleTurn_frame st h f :
  c_drainDone (ws_conn st) = false -> InContinuation (c_hdr (ws_conn st)) = false ->
  let st1 := foldl stream_ev (ws_with st (SetIdleDeadline (ws_conn st) (hop_start h))) (hop_env (R := workerRole) h) in
  handleTurn (R := workerRole) st (hop_turn h (RFrame f)) =
    (let '(st2, e) := handleFrame st1 (hop_choice h) (hop_now h) f in
     (st2, match e with Some e => Returned (Some e) | None => Reading end)) /\
  quiet (ws_conn st) (ws_conn st1) /\ ws_spawned st1 = ws_spawned st.
Proof.
  intros Hd Hc. cbv zeta.
  set (st0 := ws_with st (SetIdleDeadline (ws_conn st) (hop_start h))).
  destruct (stream_evs_quiet (hop_env (R := workerRole) h) st0) as [Hq Hs].
  assert (Hq' : quiet (ws_conn st) (ws_conn (foldl stream_ev st0 (hop_env (R := workerRole) h))))
    by (etrans; [|exact Hq]; done).
  split; [|split; [exact Hq'|by rewrite Hs]].
  unfold handleTurn. cbn [t_shutdown hop_turn t_read t_env t_start role_conn workerRole role_env role_frame role_setConn].
  unfold DrainComplete. rewrite Hd. unfold on_conn. cbn [role_conn workerRole role_setConn]. fold st0.
  by rewrite (qu_hdr _ _ Hq'), Hc.
Qed.

(** What the worker's framer makes of the proxy's frames. *)
Definition arriving (w : Writer) (i : writeIntent) : Frame :=
  match wi_kind i with
  | wkWindowUpdate => FWindowUpdate (wi_streamID i) (wi_increment i)
  | wkPing => FPing (wi_isAck i) (wi_pingData i)
  | wkRSTStream => FRSTStream (wi_streamID i) (wi_code i)
  | wkReqHeaders => FHeaders (mkHeadersFrame (wi_streamID i) (requestBlock range w i) (wi_endStream i) true)
  | wkData => FData (wi_streamID i) (wi_data i) (Z.of_nat (length (wi_data i))) (wi_endStream i)
  | _ => FSettings true []
  end.

Lemma received_proxy w i fr :
  proxy_intent request_typed i -> intentFrame range w i = Some fr -> fits (payload range w i) ->
  received fr = RFrame (arriving w i) /\ frame_ok (arriving w i) /\
  (is_req i = false -> plain_frame (arriving w i) = true).
Proof.
  unfold proxy_intent, intent_ok, intentFrame, payload, is_req, arriving. intros (Hok & Hk1 & Hk2 & _) Hf Hfit.
  destruct (wi_kind i); simplify_eq; try done.
  - rewrite received_settings_ack. split; [done|]. by split; [constructor|].
  - by rewrite received_window_update by apply Hok.
  - by rewrite received_ping by apply Hok.
  - by rewrite received_rst by apply Hok.
  - rewrite received_headers by done. split; [done|]. by split; [split; [apply Hok|]|].
  - by rewrite received_data by done.
Qed.

Lemma received_oversized w i fr :
  intentFrame range w i = Some fr -> ~ fits (payload range w i) -> exists e, received fr = RFail e.
Proof.
  unfold intentFrame, payload. intros Hf Hfit.
  destruct (wi_kind i); simplify_eq; try (exfalso; apply Hfit; unfold fits, maxReadFrame; simpl; lia).
  - by apply received_large_headers.
  - by apply received_large_headers.
  - by apply received_large_data.
Qed.

(** A turn that reads an unreadable frame. *)
Lemma handleTurn_fail st h e :
  exists st' e', handleTurn (R := workerRole) st (hop_turn h (RFail e)) = (st', Returned e') /\
    ws_spawned st' = ws_spawned st.
Proof.
  unfold handleTurn. cbn [t_shutdown hop_turn t_read t_env]. destruct (DrainComplete _); [by do 2 eexists|].
  do 2 eexists. split; [done|]. cbn [role_env workerRole]. by rewrite (proj2 (stream_evs_quiet _ _)).
Qed.

(** One complete request block: decoded, registered, dispatched. *)
Lemma handleFrame_request w st ch now i :
  worker_inv st -> synced w (ws_conn st) -> LastStreamID (c_hdr (ws_conn st)) < wi_streamID i ->
  map_Forall (fun k _ => canonical_key k) (wi_header i) ->
  exists h,
    let st' := dispatchInboundHeaders (ws_with st (set_c_hdr (ws_conn st) h)) (arrived i) in
    handleFrame st ch now (FHeaders (mkHeadersFrame (wi_streamID i) (requestBlock range w i) (wi_endStream i) true)) =
      (st', None) /\
    ws_spawned st' = ws_spawned st ++ [arrived i] /\
    LastStreamID (c_hdr (ws_conn st')) = wi_streamID i /\
    forall lower fr, cache_ok ToLower lower ->
      synced (mkWriter (writeFields (wr_enc w) (requestFields range i)).1 lower fr) (ws_conn st').
Proof.
  intros (Hi & _ & Hl) [[S1 S2 S3 S4] S5 S6] Hlt Hcan. cbn [handleFrame hf_StreamID].
  assert (Hg : GetStream (ws_conn st) (wi_streamID i) = None).
  { unfold GetStream. destruct (c_streams (ws_conn st) !! wi_streamID i) eqn:E; [|done]. specialize (Hl _ _ E). simpl in Hl. lia. }
  rewrite Hg. unfold StartHeaders. cbn [hf_StreamID hf_endHeaders hf_fragment hf_endStream].
  rewrite (proj2 (Z.ltb_lt _ _) Hlt).
  set (h0 := mkHdr (h_dec (c_hdr (ws_conn st))) _ _ _ _ _).
  destruct (decode_request range w i h0 (wi_streamID i) (range_perm _) Hcan S3 S1) as (h1 & Hd & Hs & Hok & E1).
  rewrite Hd. cbn [lift_decoded]. exists h1. cbv zeta. split; [reflexivity|]. unfold dispatchInboundHeaders.
  cbn [ws_conn ws_with ws_spawned dh_EndStream arrived dh_StreamID]. split; [done|].
  split; [destruct (wi_endStream i); cbn; by rewrite E1|].
  intros lower fr Hlow. split; [split|..]; destruct (wi_endStream i); cbn; try done; by rewrite E1.
Qed.

Lemma hop_worker w st h w' st' r :
  worker_inv st -> synced w (ws_conn st) -> proxy_intent request_typed (hop_intent h) ->
  (is_req (hop_intent h) = true -> LastStreamID (c_hdr (ws_conn st)) < wi_streamID (hop_intent h)) ->
  hop (R := workerRole) range w st h = (w', st', r) ->
  match r with
  | LinkUp =>
      worker_inv st' /\ synced w' (ws_conn st') /\
      ws_spawned st' = ws_spawned st ++ (arrived <$> requests [hop_intent h]) /\
      LastStreamID (c_hdr (ws_conn st')) =
        (if is_req (hop_intent h) then wi_streamID (hop_intent h) else LastStreamID (c_hdr (ws_conn st)))
  | WriteFailed _ => ws_spawned st' = ws_spawned st
  | LoopEnded _ => ws_spawned st' = ws_spawned st /\ ~ fits (payload range w (hop_intent h))
  end.
Proof.
  intros Hw Hs Hp Hlt H. unfold hop in H. set (i := hop_intent h) in *.
  destruct (processIntent_frame range w i (sn_lower _ _ (sy_codec _ _ Hs))) as (lower & Hlow & Hproc). rewrite Hproc in H.
  destruct (intentFrame range w i) as [fr|] eqn:Ef.
  2: { simplify_eq. assert (Hk : wi_kind i = wkSetMaxDynTab) by (unfold intentFrame in Ef; by destruct (wi_kind i)).
       unfold requests, is_req. rewrite filter_cons_False, Hk, app_nil_r by (by rewrite Hk). split_and!; [done| |done..].
       destruct Hs as [[S1 S2 S3 S4] S5 S6]. split; [|done..]. split; try done. cbn. unfold intentEncoder. rewrite Hk.
       by apply hpack_set_max. }
  destruct (fr_write _ fr) as [fr' [e|]]; cbn [fst snd] in H; [by simplify_eq|].
  destruct (decide (fits (payload range w i))) as [Hfit|Hfit].
  2: { destruct (received_oversized w i fr Ef Hfit) as [e He]. rewrite He in H.
       destruct (handleTurn_fail st h e) as (st1 & e1 & Ht & Hsp). rewrite Ht in H. simplify_eq. done. }
  destruct (received_proxy w i fr Hp Ef Hfit) as (Hf & Hfok & Hkind). rewrite Hf in H. set (f := arriving w i) in *.
  destruct (handleTurn_frame st h f (sy_done _ _ Hs) (sn_cont _ _ (sy_codec _ _ Hs))) as (Ht & Hq & Hsp).
  pose proof (handleTurn_inv st (hop_turn h (RFrame f)) Hw Hfok) as Hw'.
  pose proof (turn_env_inv st (hop_start h) (hop_env h) Hw) as Hw1.
  set (st1 := foldl stream_ev _ _) in *. rewrite Ht in H, Hw'. pose proof (synced_quiet _ _ _ Hs Hq) as Hs1.
  unfold requests, intentEncoder in *. destruct (is_req i) eqn:Er.
  - assert (Hk : wi_kind i = wkReqHeaders) by (unfold is_req in Er; by destruct (wi_kind i)).
    destruct Hp as (_ & _ & _ & Hcan). unfold f, arriving in *. rewrite Hk in *.
    destruct (handleFrame_request w st1 (hop_choice h) (hop_now h) i Hw1 Hs1) as (h1 & Hh & Hsp2 & HL & Hsy);
      [by rewrite (qu_hdr _ _ Hq); auto|by apply Hcan|].
    rewrite Hh in H, Hw'. simplify_eq. rewrite filter_cons_True by done.
    split_and!; [done|by apply Hsy|by rewrite Hsp2, Hsp|done].
  - destruct (handleFrame_plain st1 (hop_choice h) (hop_now h) f (Hkind eq_refl)) as (He & Hsp2 & Hq2).
    destruct (handleFrame st1 _ _ f) as [st2 e2]. cbn [fst snd] in *. subst e2. simplify_eq.
    rewrite filter_cons_False, app_nil_r by congruence. rewrite (qu_hdr _ _ Hq2), (qu_hdr _ _ Hq).
    split_and!; [done| |by rewrite Hsp2, Hsp|done].
    destruct (synced_quiet _ _ _ Hs1 Hq2) as [[S1 S2 S3 S4] S5 S6]. split; [|done..]. split; try done. cbn.
    assert (Hke : wi_kind i <> wkReqHeaders) by (intros E; unfold is_req in Er; by rewrite E in Er).
    assert (Hkr : wi_kind i <> wkRespHeaders) by apply Hp.
    assert (Hkt : wi_kind i <> wkSetMaxDynTab) by (intros E; unfold intentFrame in Ef; by rewrite E in Ef).
    by destruct (wi_kind i).
Qed.

(** How far a run got, and why it ended. *)
Definition run_result (w : Writer) (st : WState) (hs1 hs2 : list (Hop (R := workerRole))) (st' : WState) (r : LinkEnd) : Prop :=
  match r with
  | LinkUp => hs2 = []
  | WriteFailed e => exists h hs3 w1 st1, hs2 = h :: hs3 /\ link (R := workerRole) range w st hs1 = (w1, st1, LinkUp) /\
      (processIntent range w1 (hop_intent h)).2 = Some e
  | LoopEnded _ => exists h hs3 w1 st1, hs2 = h :: hs3 /\ link (R := workerRole) range w st hs1 = (w1, st1, LinkUp) /\
      ~ fits (payload range w1 (hop_intent h))
  end.

Definition intents (hs : list (Hop (R := workerRole))) : list writeIntent := hop_intent <$> hs.

Lemma link_worker hs w st w' st' r :
  worker_inv st -> synced w (ws_conn st) -> Forall (proxy_intent request_typed) (intents hs) ->
  StronglySorted Z.lt (request_ids (intents hs)) ->
  Forall (Z.lt (LastStreamID (c_hdr (ws_conn st)))) (request_ids (intents hs)) ->
  link (R := workerRole) range w st hs = (w', st', r) ->
  exists hs1 hs2, hs = hs1 ++ hs2 /\
    ws_spawned st' = ws_spawned st ++ (arrived <$> requests (intents hs1)) /\ run_result w st hs1 hs2 st' r.
Proof.
  revert w st. induction hs as [|h hs IH]; intros w st Hw Hs Hp Hso Hlt H; cbn [link] in H.
  { simplify_eq. exists [], []. cbn. by rewrite app_nil_r. }
  unfold intents in *. rewrite fmap_cons in *. inv Hp.
  change (hop_intent h :: (hop_intent <$> hs)) with ([hop_intent h] ++ (hop_intent <$> hs)) in Hso, Hlt.
  rewrite request_ids_app in Hso, Hlt. apply StronglySorted_app in Hso as (Hcross & _ & Hso). apply Forall_app in Hlt as [Hlt0 Hlt].
  assert (Hids : request_ids [hop_intent h] = if is_req (hop_intent h) then [wi_streamID (hop_intent h)] else []).
  { unfold request_ids, is_req. cbn. by destruct (wi_kind (hop_intent h)). }
  rewrite Hids in *.
  destruct (hop (R := workerRole) range w st h) as [[w1 st1] r1] eqn:E.
  assert (Hh := hop_worker w st h w1 st1 r1 Hw Hs ltac:(done)).
  specialize (Hh ltac:(intros Hr; rewrite Hr in Hlt0; by inv Hlt0) E).
  destruct r1 as [|e|e]; [|simplify_eq..].
  - destruct Hh as (Hw1 & Hs1 & Hsp & HL).
    destruct (IH w1 st1 Hw1 Hs1 ltac:(done) Hso) as (hs1 & hs2 & -> & Hsp2 & Hres); [|exact H|].
    { rewrite HL. destruct (is_req (hop_intent h)); [|done].
      apply Forall_forall. intros x Hx. apply (Hcross _ _ ltac:(by left) Hx). }
    exists (h :: hs1), hs2. split_and!; [done| |].
    + rewrite Hsp2, Hsp, <- app_assoc, fmap_cons. f_equal. unfold requests. rewrite <- fmap_app, <- filter_app. done.
    + unfold run_result in *. destruct r; [done|..]; destruct Hres as (h' & hs3 & w2 & st2 & ? & Hl & ?);
        exists h', hs3, w2, st2; (split_and!; [done| |done]); cbn [link]; by rewrite E.
  - exists [], (h :: hs). cbn. rewrite app_nil_r. split_and!; [done|done|]. exists h, hs, w, st. split_and!; [done|done|].
    unfold hop in E. destruct (processIntent range w (hop_intent h)) as [w2 [e2|]]; [by simplify_eq|].
    destruct (intentFrame _ _ _); [|by simplify_eq]. destruct (handleTurn _ _) as [st2 []]; by simplify_eq.
  - exists [], (h :: hs). cbn. rewrite app_nil_r. destruct Hh as [Hsp Hfit]. split_and!; [done|done|].
    by exists h, hs, w, st.
Qed.

(** ** Both ends from the start *)

Lemma applySetting_quiet c s : quiet c (applySetting c s).1.
Proof.
  destruct s as [id v]. unfold applySetting. destruct (id =? SettingMaxFrameSize); [by destruct (_ || _)|].
  destruct (id =? SettingInitialWindowSize).
  - destruct (_ <? v); [done|]. by destruct (ApplyInitialWindowDelta _ _ _).
  - destruct (id =? SettingHeaderTableSize); [apply submitAsync_quiet|]. by repeat case_match.
Qed.

Lemma ApplyPeerSettings_quiet c ss : quiet c (ApplyPeerSettings c ss).1.
Proof.
  revert c. induction ss as [|s ss IH]; intros c; [done|]. simpl. pose proof (applySetting_quiet c s) as H.
  destruct (applySetting c s) as [c1 [e|]]; [done|]. etrans; [exact H|apply IH].
Qed.

Lemma awaitSettings_quiet st rs st' r :
  awaitSettings (R := workerRole) st rs = (st', r) ->
  quiet (ws_conn st) (ws_conn st') /\ ws_spawned st' = ws_spawned st.
Proof.
  revert st. induction rs as [|x rs IH]; intros st H; simpl in H; [by simplify_eq|].
  destruct x as [f| |e]; [|by simplify_eq..]. destruct f as [ack ss| | | | | | | |]; try by apply IH.
  destruct ack; [by apply IH|]. pose proof (ApplyPeerSettings_quiet (ws_conn st) ss) as Hq. cbn [role_conn workerRole] in H.
  destruct (ApplyPeerSettings _ ss) as [c1 [e|]]; simplify_eq; [done|]. split; [|done].
  etrans; [exact Hq|]. apply submitAsync_quiet.
Qed.

(** A worker that has read the proxy's SETTINGS. *)
Lemma worker_ready d e fr rs st :
  in_sync e d -> Forall read_ok rs -> awaitSettings (R := workerRole) (serve_init d) rs = (st, Some None) ->
  worker_inv st /\ synced (newWriter e fr) (ws_conn st) /\ LastStreamID (c_hdr (ws_conn st)) = 0 /\ ws_spawned st = [].
Proof.
  intros Hs Hrs H. destruct (awaitSettings_quiet _ _ _ _ H) as [Hq Hsp]. split_and!.
  - by eapply awaitSettings_inv, H; [apply serve_init_inv|].
  - eapply synced_quiet, Hq. split; [|done..].
    split; cbn; [done|apply CommonLowerNames_ok|apply CommonCanonNames_ok|done].
  - by rewrite (qu_hdr _ _ Hq).
  - by rewrite Hsp.
Qed.

(** What net/http hands the proxy: header names it has validated. *)
Definition public_ok (req : Request) : Prop := map_Forall (fun k _ => canonical_key k) (rq_header req).

Definition forwarded (i : writeIntent) : Prop :=
  exists req, public_ok req /\ i = forwardIntent range req (wi_streamID i).

(** Streams are opened for public requests only. *)
Definition public_ev (e : ForwardEv) : Prop :=
  match e with
  | FwOpen req _ _ => exists rq, public_ok rq /\ req = forwardIntent range rq
  | FwSubmit i => proxy_intent (fun _ => False) i
  | _ => True
  end.

Definition public_read (r : ReadOutcome) : Prop :=
  match r with RFrame f => frame_typed f /\ frame_bounded f | _ => True end.

Definition public_turn (t : Turn (R := proxyRole)) : Prop := Forall public_ev (t_env t) /\ public_read (t_read t).

Lemma public_ev_ok e : public_ev e -> forward_ok e /\ forward_ev_typed forwarded e.
Proof.
  destruct e as [req err now| | | |i]; try done; cbn.
  - intros (rq & Hrq & ->). assert (Hr : is_request (forwardIntent range rq)) by (by intros id). split; [done|].
    split; [done|]. intros id. by exists rq.
  - intros (H1 & H2 & H3 & H4). by split; [exact H4|].
Qed.

Lemma public_turn_ok t :
  public_turn t -> proxy_turn_ok t /\ turn_typed (R := proxyRole) (P := proxy_intent forwarded) t.
Proof.
  intros [He Hr]. unfold proxy_turn_ok, turn_typed, public_read, read_bounded in *.
  split; (split; [eapply Forall_impl; [exact He|]; intros e Hpe; by apply public_ev_ok|]);
    (destruct (t_read t) as [f| |]; [apply Hr|done..]).
Qed.

(** The intents of a tunnel: typed, its requests forwarded ones with fresh
    increasing ids. *)
Lemma tunnel_intents d rs ts w0 w r :
  Forall public_read rs -> Forall public_turn ts -> Z.of_nat (total_opens ts) <= 2 ^ 30 ->
  awaitSettings (R := proxyRole) (newWorker d) rs = (w0, Some None) -> frameLoop (R := proxyRole) w0 ts = (w, r) ->
  Forall (proxy_intent forwarded) (c_out (w_conn w)) /\
  StronglySorted Z.lt (request_ids (c_out (w_conn w))) /\ Forall (Z.lt 0) (request_ids (c_out (w_conn w))).
Proof.
  intros Hrs Hts Hb H0 H.
  assert (Hr1 : Forall (fun x => match x with RFrame f => frame_typed f | _ => True end) rs)
    by (eapply Forall_impl; [exact Hrs|]; by intros [f| |]; [intros []|..]).
  assert (Hr2 : Forall read_bounded rs) by (eapply Forall_impl; [exact Hrs|]; by intros [f| |]; [intros []|..]).
  assert (Ht1 : Forall proxy_turn_ok ts) by (eapply Forall_impl; [exact Hts|]; intros t Ht; by apply public_turn_ok).
  assert (Ht2 : Forall (turn_typed (R := proxyRole) (P := proxy_intent forwarded)) ts)
    by (eapply Forall_impl; [exact Hts|]; intros t Ht; by apply public_turn_ok).
  pose proof (awaitSettings_proxy 0 _ rs w0 _ (newWorker_inv d) Hr1 H0) as Hi0.
  pose proof (frameLoop_inv_n (R := proxyRole) bounded_inv turn_opens proxy_turn_ok 0 w0 ts w r
    bounded_mono proxy_turn_inv ltac:(by intros _) Ht1 H Hb) as [_ _ _ _ [Hso Hpos]].
  pose proof (awaitSettings_typed (R := proxyRole) (P := proxy_intent forwarded) 0 (newWorker d) rs w0 _
    (newConn_typed _ d) Hr2 H0) as Ht0.
  pose proof (frameLoop_typed (R := proxyRole) (P := proxy_intent forwarded) 0 w0 ts w r ltac:(by intros _) Ht2 H Hb) as [Hout _ _ _].
  split_and!; [done|done|]. eapply Forall_impl; [exact Hpos|]. cbn. intros id [_ ?]. lia.
Qed.

(** The forwarded requests among some intents. *)
Lemma requests_forwarded l :
  Forall (proxy_intent forwarded) l ->
  exists reqs, requests l = (fun '(id, rq) => forwardIntent range rq id) <$> reqs /\ Forall public_ok reqs.*2.
Proof.
  induction 1 as [|i l (_ & _ & _ & Hi) _ (reqs & E & Hok)]; [by exists []|]. unfold requests in *.
  destruct (is_req i) eqn:Er.
  - rewrite filter_cons_True by done. destruct Hi as (rq & Hrq & Ei); [unfold is_req in Er; by destruct (wi_kind i)|].
    exists ((wi_streamID i, rq) :: reqs). rewrite E, !fmap_cons. split; [by f_equal|by constructor].
  - rewrite filter_cons_False by congruence. by exists reqs.
Qed.

Lemma forwarded_typed i : proxy_intent forwarded i -> proxy_intent request_typed i.
Proof.
  intros (H1 & H2 & H3 & H4). split_and!; try done. intros Hk. destruct (H4 Hk) as (rq & Hrq & ->). by apply forwardIntent_typed.
Qed.

Lemma arrived_public reqs :
  Forall public_ok reqs.*2 ->
  dh_StreamID <$> (arrived <$> ((fun '(id, rq) => forwardIntent range rq id) <$> reqs)) = reqs.*1 /\
  servedRequest <$> (arrived <$> ((fun '(id, rq) => forwardIntent range rq id) <$> reqs)) = publicView <$> reqs.*2.
Proof.
  induction reqs as [|[id rq] reqs IH]; intros H; [done|]. rewrite !fmap_cons in *. inv H.
  destruct IH as [-> ->]; [done|]. split; [done|]. f_equal. by apply arrived_forwardIntent.
Qed.

(** C4. Public requests reach their handlers: take a proxy tunnel run from its
    start, with any forwarders and any frames from the worker, and let the
    worker at the other end of the transport, with any activity of its stream
    goroutines, read what the proxy's writer makes of the submitted intents.
    For as far as the run gets, the stream goroutines started are those of the
    forwarded requests, in order and once each, under the ids the proxy chose,
    and each builds the request the public caller made: method, path, host,
    exactly the end-to-end headers; nothing but a failed write or a payload
    above the read limit keeps an intent from arriving. *)
Theorem requests_reach_their_handlers d rs ts w0 w r0 d' rs' st e fr hs wr' st' r :
  Forall public_read rs -> Forall public_turn ts -> Z.of_nat (total_opens ts) <= 2 ^ 30 ->
  awaitSettings (R := proxyRole) (newWorker d) rs = (w0, Some None) -> frameLoop (R := proxyRole) w0 ts = (w, r0) ->
  Forall read_ok rs' -> awaitSettings (R := workerRole) (serve_init d') rs' = (st, Some None) -> in_sync e d' ->
  intents hs `prefix_of` c_out (w_conn w) ->
  link (R := workerRole) range (newWriter e fr) st hs = (wr', st', r) ->
  exists hs1 hs2 reqs, hs = hs1 ++ hs2 /\ run_result (newWriter e fr) st hs1 hs2 st' r /\
    requests (intents hs1) = (fun '(id, rq) => forwardIntent range rq id) <$> reqs /\ Forall public_ok reqs.*2 /\
    dh_StreamID <$> ws_spawned st' = reqs.*1 /\ servedRequest <$> ws_spawned st' = publicView <$> reqs.*2.
Proof.
  intros Hrs Hts Hb H0 H Hrs' H0' Hs [rest Hpre] Hl.
  destruct (tunnel_intents d rs ts w0 w r0 Hrs Hts Hb H0 H) as (Hty & Hso & Hpos).
  rewrite Hpre, ?request_ids_app in *. apply Forall_app in Hty as [Hty _]. apply Forall_app in Hpos as [Hpos _].
  apply StronglySorted_app in Hso as (_ & Hso & _).
  destruct (worker_ready d' e fr rs' st Hs Hrs' H0') as (Hw & Hsy & HL & Hsp).
  assert (Hty' : Forall (proxy_intent request_typed) (intents hs)).
  { eapply Forall_impl; [exact Hty|]. by apply forwarded_typed. }
  rewrite <- HL in Hpos.
  destruct (link_worker hs (newWriter e fr) st wr' st' r Hw Hsy Hty' Hso Hpos Hl) as (hs1 & hs2 & -> & Hsp' & Hres).
  unfold intents in Hty. rewrite fmap_app in Hty. apply Forall_app in Hty as [Hty1 _].
  destruct (requests_forwarded _ Hty1) as (reqs & Hreq & Hok). exists hs1, hs2, reqs.
  destruct (arrived_public reqs Hok) as [Hid Hv].
  rewrite Hsp', Hsp. cbn [app]. unfold intents in *. rewrite Hreq. by split_and!.
Qed.

(** A request whose encoded header block exceeds the read limit ends the
    worker's loop, and with it every other stream of the tunnel: the encoder
    writes the block as one HEADERS frame instead of continuing it. *)
Theorem large_header_block_ends_tunnel w st h w1 :
  wi_kind (hop_intent h) = wkReqHeaders -> c_drainDone (ws_conn st) = false ->
  processIntent range w (hop_intent h) = (w1, None) -> ~ fits (requestBlock range w (hop_intent h)) ->
  exists st' e, hop (R := workerRole) range w st h = (w1, st', LoopEnded (Some e)) /\ ws_spawned st' = ws_spawned st.
Proof.
  intros Hk Hd Hp Hfit. unfold hop. rewrite Hp. unfold intentFrame. rewrite Hk.
  destruct (received_large_headers (wi_streamID (hop_intent h)) _ (wi_endStream (hop_intent h)) true Hfit) as [e He].
  rewrite He. unfold handleTurn. cbn [t_shutdown hop_turn t_read t_env role_conn workerRole]. unfold DrainComplete.
  rewrite Hd. do 2 eexists. split; [done|]. exact (proj2 (stream_evs_quiet _ _)).
Qed.

(** The handler is told that the request has no content: [ContentLength] is
    zero whatever the caller declared, although the header is passed on. *)
Theorem content_length_is_lost req id sv cl :
  public_ok req -> rq_header req !! "Content-Length"%string = Some [cl] ->
  servedRequest (arrived (forwardIntent range req id)) = Some sv ->
  sv_ContentLength sv = 0 /\ sv_Header sv !! "Content-Length"%string = Some [cl].
Proof.
  intros Hok Hcl Hsv. destruct (arrived_forwardIntent range req id (range_perm _) Hok) as [_ E]. rewrite E in Hsv.
  unfold publicView in Hsv. destruct (parseRequestURI _); simplify_eq. cbn. split; [done|].
  apply map_lookup_filter_Some. by split; [|split].
Qed.

End Worker.

(** ** Witnesses *)

Module EndToEndDemo.

Import PlainWire.

Definition get_request : Request :=
  mkRequest "GET" "example.com" "" "/a%20b?q=1" false
    {[ "X-Trace"%string := ["1"]%string; "Connection"%string := ["close"]%string ]} true 0.

Lemma get_ok : public_ok get_request.
Proof. unfold public_ok. apply (bool_decide_unpack _). vm_compute. exact I. Qed.

Lemma post_ok : public_ok ForwardDemo.demo_request.
Proof. unfold public_ok. apply (bool_decide_unpack _). vm_compute. exact I. Qed.

Definition open (rq : Request) : ForwardEv := FwOpen (forwardIntent map_to_list rq) None 0.

(** Two requests, the second with a body of one byte, and a PING. *)
Definition forwarding : list (Turn (R := proxyRole)) :=
  [TunnelDemo.turn [open get_request] (RFrame (FPing false (be64 3))) false;
   TunnelDemo.turn [open ForwardDemo.demo_request; FwSubmit (SendData 3 [x61] true)] (RFrame (FWindowUpdate 0 1)) false].

Definition hello : list ReadOutcome := [RFrame (FSettings false [(SettingMaxConcurrentStreams, 10)])].

Definition greeted : Worker := (awaitSettings (R := proxyRole) TunnelDemo.start hello).1.

Definition proxied : Worker := (frameLoop (R := proxyRole) greeted forwarding).1.

Lemma e2e_greeting : awaitSettings (R := proxyRole) TunnelDemo.start hello = (greeted, Some None).
Proof. unfold greeted. apply pair_fst. vm_compute. reflexivity. Qed.

Lemma proxying : frameLoop (R := proxyRole) greeted forwarding = (proxied, Reading).
Proof. unfold proxied. apply pair_fst. vm_compute. reflexivity. Qed.

Lemma hello_public : Forall public_read hello.
Proof. repeat constructor; vm_compute; discriminate. Qed.

Lemma forwarding_public : Forall (public_turn map_to_list) forwarding.
Proof.
  assert (H1 : public_ev map_to_list (open get_request)) by (exists get_request; split; [exact get_ok|done]).
  assert (H2 : public_ev map_to_list (open ForwardDemo.demo_request)) by (exists ForwardDemo.demo_request; split; [exact post_ok|done]).
  assert (H3 : public_ev map_to_list (FwSubmit (SendData 3 [x61] true))) by done.
  assert (H : forall es r, Forall (public_ev map_to_list) es -> public_read r ->
    public_turn map_to_list (TunnelDemo.turn es r false)) by (by intros).
  unfold forwarding. repeat constructor; done.
Qed.

Definition ready : WState := (awaitSettings (R := workerRole) ServeDemo.start ServeDemo.hello).1.

Lemma readying : awaitSettings (R := workerRole) ServeDemo.start ServeDemo.hello = (ready, Some None).
Proof. unfold ready. apply pair_fst. vm_compute. reflexivity. Qed.

(** Each intent is delivered in a turn of its own; stream 1 ends before the
    second request arrives. *)
Definition hops : list (Hop (R := workerRole)) :=
  imap (fun n i => mkHop (R := workerRole) i 0 (if (n =? 2)%nat then [SDone 1 5] else []) None 1) (c_out (w_conn proxied)).

Definition delivered := link (R := workerRole) map_to_list (newWriter (HE := Plain.plain_encoder) tt ([] : framer)) ready hops.

Lemma delivery : delivered = (delivered.1.1, delivered.1.2, LinkUp).
Proof.
  assert (H : delivered.2 = LinkUp) by (vm_compute; reflexivity). by rewrite <- H, <- !surjective_pairing.
Qed.

Lemma hops_intents : intents hops `prefix_of` c_out (w_conn proxied).
Proof. exists []. vm_compute. reflexivity. Qed.

Lemma requests_reach_their_handlers_witness :
  dh_StreamID <$> ws_spawned delivered.1.2 = [1; 3] /\
  exists reqs, servedRequest <$> ws_spawned delivered.1.2 = publicView <$> reqs.
Proof.
  split; [vm_compute; reflexivity|].
  destruct (requests_reach_their_handlers (FR := Plain.plain_framer) (HE := Plain.plain_encoder) (HD := Plain.plain_decoder) map_to_list (fun h => reflexivity _) tt hello forwarding greeted proxied _
    tt ServeDemo.hello ready (tt : @encoder Plain.plain_encoder) ([] : @framer Plain.plain_framer) hops delivered.1.1 delivered.1.2 LinkUp
    hello_public forwarding_public ltac:(vm_compute; discriminate) e2e_greeting proxying ServeDemo.hello_ok readying I
    hops_intents delivery) as (hs1 & hs2 & reqs & _ & _ & _ & _ & _ & Hv).
  exists reqs.*2. exact Hv.
Defined.

(** A cookie of 10000 bytes, which the plain codec spells with two bytes each. *)
Definition big_request : Request :=
  mkRequest "GET" "example.com" "" "/" false
    {[ "Cookie"%string := [string_of_list_ascii (replicate (Z.to_nat 10000) "c"%char)] ]} true 0.

Definition big_hop : Hop (R := workerRole) := mkHop (R := workerRole) (forwardIntent map_to_list big_request 5) 0 [] None 1.

Definition plain_writer : Writer := newWriter (HE := Plain.plain_encoder) tt ([] : framer).

Definition big_sent : Writer := (processIntent map_to_list plain_writer (hop_intent big_hop)).1.

Lemma large_header_block_ends_tunnel_witness :
  exists st' e, hop (R := workerRole) map_to_list plain_writer ready big_hop = (big_sent, st', LoopEnded (Some e)).
Proof.
  destruct (large_header_block_ends_tunnel map_to_list plain_writer ready big_hop big_sent) as (st' & e & H & _).
  - reflexivity.
  - vm_compute. reflexivity.
  - unfold big_sent. apply pair_fst. reflexivity.
  - apply Z.lt_nge. vm_compute. reflexivity.
  - exists st', e. exact H.
Defined.

Definition upload : Request :=
  mkRequest "POST" "example.com" "" "/upload" false {[ "Content-Length"%string := ["3"]%string ]} false 3.

Lemma upload_ok : public_ok upload.
Proof. unfold public_ok. apply (bool_decide_unpack _). vm_compute. exact I. Qed.

Definition uploaded : ServedRequest :=
  mkServed "POST" (mkURL [] [] (list_ascii_of_string "/upload")) "/upload" "HTTP/2.0" 2
    {[ "Content-Length"%string := ["3"]%string ]} "example.com" 0.

Lemma content_length_is_lost_witness : sv_ContentLength uploaded = 0.
Proof.
  refine (proj1 (content_length_is_lost map_to_list (fun h => reflexivity _) upload 1 uploaded "3" upload_ok _ _));
    vm_compute; reflexivity.
Defined.

End EndToEndDemo.
