(* ===== verification/Upload.v ===== *)
(** * A request body's way to its handler

    The direction of EndToEnd.v, for DATA: the body pump's frames
    (Forward.v), through the proxy's writer and the worker's frame loop, into
    the body that the stream's handler reads (stream.go).  Along every run,
    what the handler has read and what is queued for it are, in order, the
    DATA sent on its stream; it sees a clean end only where the pump saw the
    caller's. *)

From Stdlib Require Import Strings.Byte Strings.String.
From S2P Require Import Prelude Errors Flow Names H2Stream Writer HeaderBlock Conn ConnInv SendPath Uri FrameLoop Serve Tunnel TunnelEvents Forward Intents Wire EndToEnd.

Open Scope Z_scope.

(** ** What has been sent on a stream *)

(** The DATA payload since the request, and what of it had been sent when the
    first END_STREAM was. *)
Record Upload := mkUpload { u_data : list byte; u_whole : option (list byte) }.

Definition note_data (u : Upload) (data : list byte) (es : bool) : Upload :=
  mkUpload (u_data u ++ data) (match u_whole u with None => if es then Some (u_data u ++ data) else None | b => b end).

Definition no_upload : Upload := mkUpload [] None.

(** [None] as long as the stream has not been opened. *)
Definition note (id : Z) (u : option Upload) (i : writeIntent) : option Upload :=
  if wi_streamID i =? id then
    match wi_kind i, u with
    | wkReqHeaders, None => Some (note_data no_upload [] (wi_endStream i))
    | wkData, Some u => Some (note_data u (wi_data i) (wi_endStream i))
    | _, u => u
    end
  else u.

(** ** What its handler has read *)

Definition bytes_of (r : ReadResult) : list byte := match r with RRead bs => bs | _ => [] end.

Definition bytes_read (rs : list ReadResult) : list byte := rs ≫= bytes_of.

(** What a handler does with its body, in order: a read and its result, or
    [None] for a Close.  The book is kept up to the first Close: from there on
    the reader may see anything (H2Stream.v). *)
Definition BodyUse : Type := option ReadResult.

Fixpoint before_close (us : list BodyUse) : list ReadResult :=
  match us with Some r :: us => r :: before_close us | _ => [] end.

Definition closed_body (us : list BodyUse) : bool := existsb (fun x => bool_decide (x = None)) us.

Lemma before_close_app us vs :
  before_close (us ++ vs) = before_close us ++ (if closed_body us then [] else before_close vs).
Proof. induction us as [|[r|] us IH]; cbn; [done|by rewrite IH|done]. Qed.

Lemma closed_body_app us vs : closed_body (us ++ vs) = closed_body us || closed_body vs.
Proof. apply existsb_app. Qed.

Lemma bytes_read_app rs1 rs2 : bytes_read (rs1 ++ rs2) = bytes_read rs1 ++ bytes_read rs2.
Proof. apply bind_app. Qed.

(** The book kept for a stream: [rs] the results of its handler's reads, [f]
    its queue if it is registered and open; [cut]: it was reset, its body was
    closed or its goroutine has ended. *)
Record accounted (u : Upload) (rs : list ReadResult) (cut : bool) (f : option Fifo) : Prop := {
  ac_read : bytes_read rs `prefix_of` u_data u;
  ac_whole b : u_whole u = Some b -> b `prefix_of` u_data u;
  ac_queue f0 : f = Some f0 -> u_data u = bytes_read rs ++ pending f0;
  ac_ended f0 : f = Some f0 -> ended f0 = true -> failure f0 = None -> is_Some (u_whole u);
  ac_closed f0 : f = Some f0 -> is_Some (u_whole u) -> ended f0 = true;
  ac_eof : REOF ∈ rs -> exists b, u_whole u = Some b /\ b `prefix_of` bytes_read rs;
  ac_fresh f0 : f = Some f0 -> garbled f0 = 0%nat;
  ac_live : cut = false -> exists f0, f = Some f0 /\ failure f0 = None
}.

Lemma accounted_new es : accounted (note_data no_upload [] es) [] false (Some (mkFifo [] es None)).
Proof.
  split; cbn; try done.
  - by destruct es; intros b [= <-].
  - by intros f0 [= <-].
  - intros f0 [= <-]. cbn. by intros ->.
  - intros f0 [= <-]. cbn. by destruct es; intros [? ?].
  - by intros ?%not_elem_of_nil.
  - by intros f0 [= <-].
  - intros _. eexists. done.
Qed.

(** The stream's goroutine ends. *)
Lemma accounted_gone u rs cut f : accounted u rs cut f -> accounted u rs true None.
Proof. intros [H1 H2 _ _ _ H6 _ _]. by split. Qed.

Lemma accounted_cut u rs cut b f : accounted u rs cut f -> accounted u rs (cut || b) f.
Proof. intros [H1 H2 H3 H4 H5 H6 H8 H7]. split; try done. intros [? _]%orb_false_iff. auto. Qed.

Lemma accounted_data u rs cut f data es :
  accounted u rs cut f ->
  accounted (note_data u data es) rs cut
    ((fun f0 => mkReader (garbled f0) (pending f0 ++ data) (ended f0 || es) (failure f0)) <$> f).
Proof.
  intros [H1 H2 H3 H4 H5 H6 H8 H7].
  split; cbn [u_data u_whole note_data].
  - etrans; [exact H1|]. by eexists.
  - intros b. destruct (u_whole u) as [b0|] eqn:E; [|destruct es]; intros [= <-]; [|done].
    etrans; [by apply H2|]. by eexists.
  - destruct f as [f0|]; [|done]. intros ? [= <-]. cbn. by rewrite (H3 _ eq_refl), app_assoc.
  - destruct f as [f0|]; [|done]. intros ? [= <-]. cbn. intros He Hf. specialize (H4 _ eq_refl).
    destruct (u_whole u); [done|]. destruct es; [done|]. rewrite orb_false_r in He. auto.
  - destruct f as [f0|]; [|done]. intros ? [= <-]. cbn. specialize (H5 _ eq_refl).
    destruct es; [intros _; apply orb_true_r|]. rewrite orb_false_r. destruct (u_whole u); auto.
  - intros Hin. destruct (H6 Hin) as (b & Hb & Hp). exists b. by rewrite Hb.
  - destruct f as [f0|]; [|done]. intros ? [= <-]. by apply (H8 f0).
  - intros Hc. destruct (H7 Hc) as (f0 & -> & Hf). by eexists.
Qed.

(** The proxy resets the stream. *)
Lemma accounted_failed u rs cut f e :
  accounted u rs cut f ->
  accounted u rs true
    ((fun f0 => mkReader (garbled f0) (pending f0) true (match failure f0 with None => Some e | x => x end)) <$> f).
Proof.
  intros [H1 H2 H3 H4 H5 H6 H8 _]. split; try done.
  - destruct f as [f0|]; [|done]. intros ? [= <-]. cbn. by apply H3.
  - destruct f as [f0|]; [|done]. intros ? [= <-] _. cbn. by destruct (failure f0).
  - destruct f as [f0|]; [|done]. by intros ? [= <-].
  - destruct f as [f0|]; [|done]. intros ? [= <-]. by apply (H8 f0).
Qed.

(** The handler reads. *)
Lemma accounted_read u rs cut plen f r f' :
  accounted u rs cut (Some f) -> fifo_read plen f r f' -> accounted u (rs ++ [r]) cut (Some f').
Proof.
  intros [H1 H2 H3 H4 H5 H6 H8 H7] Hr. specialize (H3 _ eq_refl). specialize (H8 _ eq_refl). specialize (H4 _ eq_refl). specialize (H5 _ eq_refl).
  assert (E : u_data u = bytes_read (rs ++ [r]) ++ pending f').
  { rewrite H3, bytes_read_app. inv Hr; cbn in *; [lia|by rewrite ?app_nil_r, <- ?app_assoc..]. }
  assert (Hs : ended f' = ended f /\ failure f' = failure f) by by inv Hr. destruct Hs as [Hs1 Hs2].
  split; try done.
  - rewrite E. by eexists.
  - by intros ? [= <-].
  - intros ? [= <-]. by rewrite Hs1, Hs2.
  - intros ? [= <-]. by rewrite Hs1.
  - rewrite elem_of_app, list_elem_of_singleton. intros [Hin|<-].
    + destruct (H6 Hin) as (b & Hb & Hp). exists b. split; [done|]. etrans; [exact Hp|]. rewrite bytes_read_app. by eexists.
    + inv Hr. destruct H4 as [b Hb]; [done..|]. exists b. split; [done|]. rewrite bytes_read_app. cbn. rewrite app_nil_r.
      specialize (H2 _ Hb). rewrite H3 in H2. cbn in H2. by rewrite app_nil_r in H2.
  - intros ? [= <-]. by inv Hr; cbn in *; [lia|..].
  - intros Hc. destruct (H7 Hc) as (f0 & [= <-] & Hf). exists f'. split; [done|congruence].
Qed.

(** ** What a body pump has sent *)

Definition body_on (id : Z) (i : writeIntent) : bool :=
  match wi_kind i with wkData => wi_streamID i =? id | _ => false end.

Definition body_frames (id : Z) (l : list writeIntent) : list writeIntent := filter (fun i => body_on id i = true) l.

Definition note_body (u : Upload) (i : writeIntent) : Upload := note_data u (wi_data i) (wi_endStream i).

Definition chunk_frames (id : Z) (cs : list (list byte)) : list writeIntent := (fun c => SendData id c false) <$> cs.

Definition end_frame (id : Z) (fin : bool) : list writeIntent := if fin then [SendData id [] true] else [].

Lemma body_frames_app id l1 l2 : body_frames id (l1 ++ l2) = body_frames id l1 ++ body_frames id l2.
Proof. apply filter_app. Qed.

Lemma body_frames_chunks id cs : body_frames id (chunk_frames id cs) = chunk_frames id cs.
Proof.
  unfold body_frames, chunk_frames. induction cs as [|c cs IH]; [done|].
  rewrite fmap_cons, filter_cons_True, IH; [done|]. cbn. apply Z.eqb_refl.
Qed.

Lemma body_frames_end id fin : body_frames id (end_frame id fin) = end_frame id fin.
Proof. destruct fin; [|done]. unfold body_frames. cbn. by rewrite Z.eqb_refl. Qed.

(** Whatever becomes of the pump, the frames it submits are chunks of the
    body in order, and an END_STREAM only behind the whole of it. *)
Lemma pump_frames id maxFrame pw reads pw' pr :
  0 < maxFrame <= MaxInt32 -> Forall (fun rd => Z.of_nat (length (br_data rd)) <= maxFrame) reads ->
  world_ok pw -> w_log pw = [] -> streamRequestBody id pw reads = (pw', pr) ->
  exists cs fin, body_frames id (w_log pw').*1 = chunk_frames id cs ++ end_frame id fin /\
    (concat cs `prefix_of` concat (br_data <$> reads)) /\
    (fin = true -> whole_body reads (concat cs)) /\ (pr = PumpDone None -> fin = true).
Proof.
  intros Hm Hrs Hw Hl H. destruct (request_body_pumped id maxFrame pw reads pw' pr Hm Hrs Hw H) as (cs & more & _ & Hp & Hlog & Hres).
  rewrite Hlog, Hl, !fmap_app, app_nil_l, body_frames_app.
  assert (Hc : body_frames id (sent id cs).*1 = chunk_frames id cs).
  { rewrite <- body_frames_chunks. unfold sent, chunk_frames. by rewrite <- list_fmap_compose. }
  rewrite Hc. clear Hc.
  assert (Hnone : more = [] -> pr <> PumpDone None -> exists cs0 fin, chunk_frames id cs ++ body_frames id more.*1 = chunk_frames id cs0 ++ end_frame id fin /\
    (concat cs0 `prefix_of` concat (br_data <$> reads)) /\ (fin = true -> whole_body reads (concat cs0)) /\ (pr = PumpDone None -> fin = true)).
  { intros -> Hne. exists cs, false. by split_and!. }
  destruct pr as [[e|]| | |]; cbn in Hres.
  - destruct Hres as [->|[(c & es & -> & Hpc & Hes)|(-> & _)]]; [by apply Hnone| |].
    + destruct es.
      * destruct (Hes eq_refl) as [-> Hwb]. exists cs, true. split_and!; [|done..].
        exact (f_equal (app _) (body_frames_end id true)).
      * exists (cs ++ [c]), false. rewrite concat_app. cbn [concat]. rewrite !app_nil_r. split_and!; [|done..].
        unfold chunk_frames at 2. rewrite fmap_app. exact (f_equal (app _) (body_frames_chunks id [c])).
    + exists cs, false. by split_and!.
  - destruct Hres as [Hwb ->]. exists cs, true. split_and!; [|done..]. exact (f_equal (app _) (body_frames_end id true)).
  - apply Hnone; [apply Hres|done].
  - apply Hnone; [apply Hres|done].
  - done.
Qed.

Lemma upload_chunks id cs u : u_whole u = None -> foldl note_body u (chunk_frames id cs) = mkUpload (u_data u ++ concat cs) None.
Proof.
  revert u. induction cs as [|c cs IH]; intros u Hu.
  - destruct u as [data whole]. cbn in *. by rewrite Hu, app_nil_r.
  - cbn [chunk_frames fmap list_fmap foldl]. rewrite IH; cbn; [by rewrite <- app_assoc|by rewrite Hu].
Qed.

(** What part of the body some first frames of the pump hold. *)
Lemma upload_prefix id cs fin l :
  l `prefix_of` chunk_frames id cs ++ end_frame id fin ->
  let u := foldl note_body no_upload l in
  (u_data u `prefix_of` concat cs) /\ (forall b, u_whole u = Some b -> fin = true /\ b = concat cs /\ u_data u = b) /\
  (l = chunk_frames id cs ++ end_frame id true -> u = mkUpload (concat cs) (Some (concat cs))).
Proof.
  assert (Hall : foldl note_body no_upload (chunk_frames id cs ++ end_frame id true) = mkUpload (concat cs) (Some (concat cs))).
  { rewrite foldl_app, upload_chunks by done. unfold note_body, note_data. cbn. by rewrite app_nil_r. }
  intros [k E]. cbv zeta. split_and!; [| |by intros ->].
  all: destruct (app_eq_inv _ _ _ _ E) as [(k' & Ec & _)|(k' & -> & Ee)].
  1, 3: apply fmap_app_inv in Ec as (cs1 & cs2 & -> & _ & ->); fold (chunk_frames id cs1); rewrite upload_chunks by done.
  1: by rewrite concat_app; apply prefix_app_r.
  1: done.
  all: destruct k' as [|i k'].
  1, 3: rewrite app_nil_r, upload_chunks by done; done.
  all: destruct fin; [|done]; injection Ee as <- Ee; symmetry in Ee; apply app_eq_nil in Ee as [-> _];
    change ([SendData id [] true]) with (end_frame id true); rewrite Hall; first [done|by intros b [= <-]].
Qed.

(** ** The worker's connection *)

Section Worker.

Context {FR : Framer} {HE : HpackEncoder} {HD : HpackDecoder} {HC : HpackCodec} {WI : Wire}.

Variable range : header -> list (string * list string).
Hypothesis range_perm : forall h, range h ≡ₚ map_to_list h.

Definition sbodies (st : WState) : BodySys := bodies (ws_mem st) (ws_conn st).

Definition queues (st : WState) : gmap Z Fifo := abs (sbodies st).

Lemma worker_wf st : worker_inv st -> sys_wf (sbodies st).
Proof. intros ((_ & _ & H & _) & _). exact H. Qed.

Lemma queues_None st i : c_streams (ws_conn st) !! i = None -> queues st !! i = None.
Proof. intros E. unfold queues, abs, sbodies, bodies. cbn. by rewrite lookup_fmap, E. Qed.

(** What a stream goroutine does to the queues. *)
Lemma stream_ev_queues st e :
  worker_inv st ->
  match e with
  | SDone i _ => queues (stream_ev st e) = delete i (queues st)
  | SRead i plen =>
      match GetStream (ws_conn st) i with
      | Some s => exists f f', queues st !! i = Some f /\ fifo_read plen f (Read (ws_mem st) s plen).2 f' /\
          queues (stream_ev st e) = <[i := f']> (queues st)
      | None => queues (stream_ev st e) = queues st
      end
  | SClose i =>
      match GetStream (ws_conn st) i with
      | Some _ => exists f', queues (stream_ev st e) = <[i := f']> (queues st)
      | None => queues (stream_ev st e) = queues st
      end
  | _ => queues (stream_ev st e) = queues st
  end.
Proof.
  intros H. pose proof (worker_wf st H) as Hwf. destruct st as [m c sp]. unfold queues, sbodies in *.
  destruct e as [i now|i want|i plen|i|i|]; cbn [stream_ev ws_mem ws_conn] in *; unfold GetStream.
  - destruct (c_streams c !! i) as [s|] eqn:E.
    + assert (Hst : body_step (bodies m c) (BRelease i, None) (bodies (Release m s).1 (RemoveStream c i now))).
      { unfold body_step. cbn. rewrite E. cbn. destruct (RemoveStream_spec c i now) as (_ & Es & _).
        unfold bodies. rewrite Es. by destruct (Release m s). }
      destruct (body_step_refines _ _ _ Hwf Hst) as [_ Hf]. inv Hf. done.
    + rewrite delete_id; [done|]. unfold abs, bodies. cbn. by rewrite lookup_fmap, E.
  - destruct (c_streams c !! i) as [s|] eqn:E; [|done]. destruct (Reserve _ _ _) as [[r sc] sw]. by apply abs_set_window.
  - destruct (c_streams c !! i) as [s|] eqn:E; [|done]. destruct (Read m s plen) as [[m' s'] r] eqn:Er.
    assert (Hst : body_step (bodies m c) (BRead i plen, Some r) (mkBodySys m' (<[i := s']> (c_streams c)))).
    { unfold body_step. cbn. rewrite E. cbn. by rewrite Er. }
    destruct (body_step_refines _ _ _ Hwf Hst) as [_ Hf]. inv Hf. by do 2 eexists.
  - destruct (c_streams c !! i) as [s|] eqn:E; [|done]. destruct (BodyClose m s) as [m' s'] eqn:Er.
    assert (Hst : body_step (bodies m c) (BClose i, None) (mkBodySys m' (<[i := s']> (c_streams c)))).
    { unfold body_step. cbn. rewrite E. cbn. by rewrite Er. }
    destruct (body_step_refines _ _ _ Hwf Hst) as [_ Hf]. inv Hf. by eexists.
  - by rewrite submitAsync_bodies.
  - done.
Qed.

(** What a frame other than HEADERS does to them. *)
Lemma handleFrame_queues st ch now f :
  worker_inv st -> plain_frame f = true ->
  queues (handleFrame st ch now f).1 =
    match f with
    | FData i data _ es => alter (fun f0 => mkReader (garbled f0) (pending f0 ++ data) (ended f0 || es) (failure f0)) i (queues st)
    | FRSTStream i _ =>
        alter (fun f0 => mkReader (garbled f0) (pending f0) true (match failure f0 with None => Some ErrStreamReset | x => x end)) i (queues st)
    | _ => queues st
    end.
Proof.
  intros H Hp. pose proof (worker_wf st H) as Hwf. destruct st as [m c sp]. unfold queues, sbodies in *.
  destruct f as [[] ss|i inc| | |i data len es|ack data| |i code|]; try done; cbn [handleFrame fst ws_with ws_mem ws_conn] in *.
  - unfold HandleWindowUpdate, GetStream. destruct (i =? 0); [done|]. destruct (c_streams c !! i) eqn:E; [|done].
    by apply abs_set_window.
  - destruct (HandleInboundData m c ch i data len es) as [m1 c1] eqn:E.
    destruct (HandleInboundData_fifo m c (mkData ch i data len es) m1 c1 Hwf E) as [_ Ha]. cbn [df_id fst ws_mem ws_conn] in *. rewrite Ha.
    apply map_eq. intros k. rewrite lookup_alter. destruct (abs (bodies m c) !! i) as [f0|] eqn:Ef.
    + rewrite lookup_insert. by destruct (decide (i = k)) as [<-|]; rewrite ?Ef.
    + by destruct (decide (i = k)) as [<-|]; rewrite ?Ef.
  - destruct ack; cbn [fst ws_with ws_mem ws_conn]; [|by rewrite submitAsync_bodies].
    unfold HandlePingAck. by destruct (_ && _).
  - unfold HandleRSTStream, GetStream. apply map_eq. intros k. rewrite lookup_alter.
    destruct (c_streams c !! i) as [s|] eqn:E.
    + assert (Hst : body_step (bodies m c) (BFail i ErrStreamReset, None)
        (mkBodySys m (<[i := FailBody s ErrStreamReset]> (c_streams c)))) by (unfold body_step; cbn; by rewrite E).
      destruct (body_step_refines _ _ _ Hwf Hst) as [_ Hf]. inv Hf. cbn [c_streams set_c_streams bodies] in *.
      unfold bodies in *. cbn [c_streams set_c_streams] in *.
      match goal with Hx : _ = abs (mkBodySys m (<[i := _]> _)) |- _ => rewrite <- Hx end.
      rewrite lookup_insert. by destruct (decide (i = k)) as [<-|]; simplify_map_eq.
    + destruct (decide (i = k)) as [<-|]; [|done]. unfold bodies, abs. cbn. by rewrite lookup_fmap, E.
Qed.

(** What opening a stream does. *)
Lemma dispatch_queues st d :
  queues (dispatchInboundHeaders st d) = <[dh_StreamID d := mkFifo [] (dh_EndStream d) None]> (queues st).
Proof.
  unfold queues, sbodies, abs, bodies. cbn. apply map_eq. intros k. rewrite lookup_insert, !lookup_fmap.
  destruct (dh_EndStream d); cbn; rewrite ?insert_insert_eq, lookup_insert; by destruct (decide _).
Qed.

(** *** One stream followed *)

(** What stream [id]'s handler does with its body. *)
Definition ev_use (id : Z) (st : WState) (e : StreamEv) : list BodyUse :=
  match e with
  | SRead i plen =>
      if i =? id then match GetStream (ws_conn st) i with Some s => [Some (Read (ws_mem st) s plen).2] | None => [] end else []
  | SClose i => if i =? id then match GetStream (ws_conn st) i with Some _ => [None] | None => [] end else []
  | _ => []
  end.

Fixpoint env_uses (id : Z) (st : WState) (es : list StreamEv) : list BodyUse :=
  match es with [] => [] | e :: es => ev_use id st e ++ env_uses id (stream_ev st e) es end.

Definition ev_ends (id : Z) (e : StreamEv) : bool := match e with SDone i _ | SClose i => i =? id | _ => false end.

Definition resets (id : Z) (i : writeIntent) : bool :=
  match wi_kind i with wkRSTStream => wi_streamID i =? id | _ => false end.

Definition booked (id : Z) (u : option Upload) (us : list BodyUse) (cut : bool) (st : WState) : Prop :=
  match u with
  | None => us = [] /\ queues st !! id = None
  | Some u => id <= LastStreamID (c_hdr (ws_conn st)) /\
      accounted u (before_close us) cut (if closed_body us then None else queues st !! id)
  end.

Lemma booked_same id u us cut b st st' :
  queues st' !! id = queues st !! id -> c_hdr (ws_conn st') = c_hdr (ws_conn st) ->
  booked id u us cut st -> booked id u us (cut || b) st'.
Proof. unfold booked. intros -> ->. destruct u; [|done]. intros [? ?]. split; [done|by apply accounted_cut]. Qed.

(** Stream [id]'s own events. *)
Lemma booked_use id u us cut st st' x :
  c_hdr (ws_conn st') = c_hdr (ws_conn st) -> is_Some (queues st !! id) -> booked id u us cut st ->
  match x with
  | Some r => exists f f' plen, queues st !! id = Some f /\ fifo_read plen f r f' /\ queues st' !! id = Some f'
  | None => True
  end ->
  booked id u (us ++ [x]) (cut || bool_decide (x = None)) st'.
Proof.
  intros Eh [f0 Hf0] Hb Hx. unfold booked in *. rewrite Eh. destruct u as [u|]; [|by destruct Hb; simplify_eq].
  destruct Hb as [? Hb]. split; [done|]. rewrite before_close_app, closed_body_app.
  destruct (closed_body us) eqn:Hc; cbn [orb]; [by rewrite app_nil_r; apply accounted_cut|].
  destruct x as [r|]; cbn [before_close].
  - change (closed_body [Some r]) with false. change (bool_decide (Some r = None)) with false. cbv iota.
    destruct Hx as (f & f' & plen & Hf & Hr & ->). rewrite orb_false_r. rewrite Hf in Hb. by eapply accounted_read.
  - change (closed_body [None]) with true. change (bool_decide (@None ReadResult = None)) with true. cbv iota.
    rewrite app_nil_r, orb_true_r. by eapply accounted_gone.
Qed.

Lemma queues_Some st i s : GetStream (ws_conn st) i = Some s -> is_Some (queues st !! i).
Proof. intros E. unfold queues, abs, sbodies, bodies. cbn. unfold GetStream in E. by rewrite lookup_fmap, E. Qed.

Lemma booked_ev id u us cut st e :
  worker_inv st -> booked id u us cut st ->
  booked id u (us ++ ev_use id st e) (cut || ev_ends id e) (stream_ev st e).
Proof.
  intros H Hb. pose proof (stream_ev_queues st e H) as Hq. destruct (stream_ev_frame st e) as (Eh & _).
  assert (Hsame : forall b, queues (stream_ev st e) !! id = queues st !! id -> booked id u (us ++ []) (cut || b) (stream_ev st e)).
  { intros b E. rewrite app_nil_r. by apply (booked_same _ _ _ _ _ st). }
  destruct e as [i now|i want|i plen|i|i|]; cbn [ev_use ev_ends]; try (apply Hsame; by rewrite Hq);
    try (destruct (GetStream (ws_conn st) i) as [s|] eqn:Eg;
      [|destruct (i =? id); apply Hsame; by rewrite Hq]);
    (destruct (Z.eqb_spec i id) as [->|Hne]; [|apply Hsame]).
  - rewrite app_nil_r. unfold booked in *. rewrite Hq, Eh, lookup_delete_eq. destruct u as [u|]; [|by destruct Hb].
    destruct Hb as [? Hb]. split; [done|]. rewrite orb_true_r. destruct (closed_body us); by eapply accounted_gone.
  - by rewrite Hq, lookup_delete_ne.
  - destruct Hq as (f & f' & Hf & Hr & Hq). eapply (booked_use id u us cut st _ (Some _)); [done|by eexists|done|].
    exists f, f', plen. by rewrite Hq, lookup_insert_eq.
  - destruct Hq as (f & f' & _ & _ & ->). by rewrite lookup_insert_ne.
  - by apply (booked_use id u us cut st _ None); [|eapply queues_Some|..].
  - destruct Hq as [f ->]. by rewrite lookup_insert_ne.
Qed.

Lemma booked_env id u us cut st es :
  worker_inv st -> booked id u us cut st ->
  booked id u (us ++ env_uses id st es) (cut || existsb (ev_ends id) es) (foldl stream_ev st es).
Proof.
  revert us cut st. induction es as [|e es IH]; intros us cut st H Hb; cbn [env_uses existsb foldl].
  - by rewrite app_nil_r, orb_false_r.
  - rewrite app_assoc, orb_assoc. apply IH; [by apply stream_ev_inv|by apply booked_ev].
Qed.

(** *** The frames of the link *)

Lemma booked_request id u us cut w st ch now i :
  worker_inv st -> synced w (ws_conn st) -> wi_kind i = wkReqHeaders -> map_Forall (fun k _ => canonical_key k) (wi_header i) ->
  LastStreamID (c_hdr (ws_conn st)) < wi_streamID i -> booked id u us cut st ->
  booked id (note id u i) us cut (handleFrame st ch now (arriving range w i)).1.
Proof.
  intros H Hs Hk Hcan Hlt Hb. unfold arriving. rewrite Hk.
  destruct (handleFrame_request range range_perm w st ch now i H Hs Hlt Hcan) as (h & -> & _ & HL & _). cbn [fst].
  unfold booked, note in *. rewrite HL, dispatch_queues, Hk. cbn [arrived dh_StreamID dh_EndStream].
  change (queues (ws_with st _)) with (queues st). destruct (Z.eqb_spec (wi_streamID i) id) as [<-|Hne].
  - rewrite lookup_insert_eq. destruct u as [u|]; [lia|]. destruct Hb as [-> _]. split; [lia|].
    exact (accounted_cut _ _ false cut _ (accounted_new _)).
  - rewrite lookup_insert_ne by done. destruct u; [|done]. destruct Hb. by split; [lia|].
Qed.

Lemma booked_plain id u us cut w st ch now i :
  worker_inv st -> proxy_intent request_typed i -> is_req i = false -> plain_frame (arriving range w i) = true ->
  booked id u us cut st ->
  booked id (note id u i) us (cut || resets id i) (handleFrame st ch now (arriving range w i)).1.
Proof.
  intros H (_ & Hnr & _) Hr Hp Hb. pose proof (handleFrame_queues st ch now _ H Hp) as Hq.
  destruct (handleFrame_plain st ch now _ Hp) as (_ & _ & [Eh _ _]).
  assert (Hsame : forall b, note id u i = u -> queues (handleFrame st ch now (arriving range w i)).1 !! id = queues st !! id ->
    booked id (note id u i) us (cut || b) (handleFrame st ch now (arriving range w i)).1).
  { intros b -> E. by apply (booked_same _ _ _ _ _ st). }
  unfold arriving, is_req, note, resets in *. destruct (wi_kind i) eqn:Hk; try done;
    try (apply Hsame; [by destruct (_ =? _)|by rewrite Hq]);
    (destruct (Z.eqb_spec (wi_streamID i) id) as [<-|Hne];
      [|apply Hsame; [done|by rewrite Hq, lookup_alter, decide_False]]);
    unfold booked in *; rewrite Eh, Hq, lookup_alter, decide_True by done;
    (destruct u as [u|]; [|destruct Hb as [? ->]; done]); destruct Hb as [? Hb]; (split; [done|]).
  - rewrite orb_true_r. apply (accounted_failed _ _ _ _ ErrStreamReset) in Hb. by destruct (closed_body us).
  - rewrite orb_false_r. apply (accounted_data _ _ _ _ (wi_data i) (wi_endStream i)) in Hb. by destruct (closed_body us).
Qed.

(** What the handler does while the frame of one hop is on its way. *)
Definition hop_uses (id : Z) (w : Writer) (st : WState) (h : Hop (R := workerRole)) : list BodyUse :=
  match processIntent range w (hop_intent h), intentFrame range w (hop_intent h) with
  | (_, None), Some _ => env_uses id (ws_with st (SetIdleDeadline (ws_conn st) (hop_start h))) (hop_env h)
  | _, _ => []
  end.

(** The stream is reset, its handler closes the body, or its goroutine ends. *)
Definition severs (id : Z) (h : Hop (R := workerRole)) : bool := existsb (ev_ends id) (hop_env h) || resets id (hop_intent h).

Lemma booked_hop id u us cut w st h w' st' :
  worker_inv st -> synced w (ws_conn st) -> proxy_intent request_typed (hop_intent h) ->
  (is_req (hop_intent h) = true -> LastStreamID (c_hdr (ws_conn st)) < wi_streamID (hop_intent h)) ->
  hop (R := workerRole) range w st h = (w', st', LinkUp) -> booked id u us cut st ->
  booked id (note id u (hop_intent h)) (us ++ hop_uses id w st h) (cut || severs id h) st'.
Proof.
  intros Hw Hs Hp Hlt H Hb. unfold hop, hop_uses, severs in *. set (i := hop_intent h) in *.
  destruct (processIntent range w i) as [w1 [e|]]; [done|]. destruct (intentFrame range w i) as [fr|] eqn:Ef.
  2: { simplify_eq. rewrite app_nil_r.
       assert (Hn : note id u i = u) by (unfold intentFrame, note in *; destruct (wi_kind i), (_ =? _); done).
       rewrite Hn. by apply (booked_same _ _ _ _ _ st'). }
  destruct (decide (fits (payload range w i))) as [Hfit|Hfit].
  2: { destruct (received_oversized range w i fr Ef Hfit) as [e He]. rewrite He in H.
       destruct (handleTurn_fail st h e) as (st1 & e1 & Ht & _). by rewrite Ht in H. }
  destruct (received_proxy range w i fr Hp Ef Hfit) as (Hf & _ & Hkind). rewrite Hf in H.
  destruct (handleTurn_frame st h (arriving range w i) (sy_done _ _ Hs) (sn_cont _ _ (sy_codec _ _ Hs))) as (Ht & Hq & _).
  pose proof (turn_env_inv st (hop_start h) (hop_env h) Hw) as Hw1. rewrite Ht in H.
  apply (booked_env id u us cut (ws_with st (SetIdleDeadline (ws_conn st) (hop_start h))) (hop_env h)) in Hb.
  2: { apply (turn_env_inv st (hop_start h) [] Hw). }
  pose proof (synced_quiet _ _ _ Hs Hq) as Hs1. cbn [hop_env workerRole renv role_env rstate] in *.
  set (st1 := foldl stream_ev _ _) in *. rewrite orb_assoc.
  assert (Est : st' = (handleFrame st1 (hop_choice h) (hop_now h) (arriving range w i)).1)
    by (destruct (handleFrame st1 _ _ _) as [st2 []]; by simplify_eq). rewrite Est.
  destruct (is_req i) eqn:Er.
  - assert (Hk : wi_kind i = wkReqHeaders) by (unfold is_req in Er; by destruct (wi_kind i)).
    assert (Hrst : resets id i = false) by (unfold resets; by rewrite Hk). rewrite Hrst, orb_false_r.
    apply booked_request; [done..|by apply Hp|by rewrite (qu_hdr _ _ Hq); auto|done].
  - by apply booked_plain; [..|apply Hkind|].
Qed.

(** *** The whole run *)

Fixpoint link_uses (id : Z) (w : Writer) (st : WState) (hs : list (Hop (R := workerRole))) : list BodyUse :=
  match hs with
  | [] => []
  | h :: hs =>
      hop_uses id w st h ++
      match hop (R := workerRole) range w st h with
      | (w, st, LinkUp) => link_uses id w st hs
      | _ => []
      end
  end.

Lemma booked_link id u us cut hs w st w' st' :
  worker_inv st -> synced w (ws_conn st) -> Forall (proxy_intent request_typed) (intents hs) ->
  StronglySorted Z.lt (request_ids (intents hs)) ->
  Forall (Z.lt (LastStreamID (c_hdr (ws_conn st)))) (request_ids (intents hs)) ->
  link (R := workerRole) range w st hs = (w', st', LinkUp) -> booked id u us cut st ->
  worker_inv st' /\
  booked id (foldl (note id) u (intents hs)) (us ++ link_uses id w st hs) (cut || existsb (severs id) hs) st'.
Proof.
  revert u us cut w st. induction hs as [|h hs IH]; intros u us cut w st Hw Hs Hp Hso Hlt H Hb; cbn [link link_uses existsb] in *.
  { simplify_eq. by rewrite app_nil_r, orb_false_r. }
  unfold intents in *. rewrite fmap_cons in *. cbn [foldl]. apply Forall_cons in Hp as [Hp1 Hp].
  change (hop_intent h :: (hop_intent <$> hs)) with ([hop_intent h] ++ (hop_intent <$> hs)) in Hso, Hlt.
  rewrite request_ids_app in Hso, Hlt. apply StronglySorted_app in Hso as (Hcross & _ & Hso). apply Forall_app in Hlt as [Hlt0 Hlt].
  assert (Hids : request_ids [hop_intent h] = if is_req (hop_intent h) then [wi_streamID (hop_intent h)] else []).
  { unfold request_ids, is_req. cbn. by destruct (wi_kind (hop_intent h)). }
  rewrite Hids in *.
  assert (Hreq : is_req (hop_intent h) = true -> LastStreamID (c_hdr (ws_conn st)) < wi_streamID (hop_intent h)).
  { intros Hr. rewrite Hr in Hlt0. by inv Hlt0. }
  destruct (hop (R := workerRole) range w st h) as [[w1 st1] []] eqn:E; [|done..].
  pose proof (hop_worker range range_perm w st h w1 st1 LinkUp Hw Hs Hp1 Hreq E) as (Hw1 & Hs1 & _ & HL).
  pose proof (booked_hop id u us cut w st h w1 st1 Hw Hs Hp1 Hreq E Hb) as Hb1.
  rewrite app_assoc, orb_assoc. eapply IH; try done. rewrite HL.
  destruct (is_req (hop_intent h)); [|done]. apply Forall_forall. intros x Hx. apply (Hcross _ _ ltac:(by left) Hx).
Qed.

(** ** The theorem *)

Lemma note_unopened id l : id ∉ request_ids l -> foldl (note id) None l = None.
Proof.
  induction l as [|i l IH]; [done|]. cbn [foldl]. change (i :: l) with ([i] ++ l). rewrite request_ids_app, not_elem_of_app.
  intros [Hi Hl]. rewrite <- (IH Hl) at 2. f_equal. unfold note. destruct (Z.eqb_spec (wi_streamID i) id) as [E|]; [|done].
  unfold request_ids in Hi. cbn in Hi. destruct (wi_kind i); try done. rewrite E in Hi. by destruct Hi; left.
Qed.

Lemma note_opened id u l : foldl (note id) (Some u) l = Some (foldl note_body u (body_frames id l)).
Proof.
  revert u. induction l as [|i l IH]; intros u; [done|]. cbn [foldl]. unfold body_frames. rewrite filter_cons.
  destruct (decide (body_on id i = true)) as [Hb|Hb]; unfold body_on in Hb; unfold note at 2;
    destruct (wi_kind i), (wi_streamID i =? id); try done; apply IH.
Qed.

(** A proxy tunnel run from its start, with any forwarders and any frames from
    the worker; a worker that has greeted it, and that has then read what the
    tunnel's writer [wr] made of its first intents. *)
Definition carries (wr : Writer) (st : WState) (hs : list (Hop (R := workerRole))) (st' : WState) : Prop :=
  (exists d rs ts w0 w r, Forall public_read rs /\ Forall (public_turn range) ts /\ Z.of_nat (total_opens ts) <= 2 ^ 30 /\
     awaitSettings (R := proxyRole) (newWorker d) rs = (w0, Some None) /\ frameLoop (R := proxyRole) w0 ts = (w, r) /\
     intents hs `prefix_of` c_out (w_conn w)) /\
  (exists d rs e fr, Forall read_ok rs /\ awaitSettings (R := workerRole) (serve_init d) rs = (st, Some None) /\
     in_sync e d /\ wr = newWriter e fr) /\
  exists wr', link (R := workerRole) range wr st hs = (wr', st', LinkUp).

(** The book of a stream at the end of such a run. *)
Lemma carried_book wr st hs st' id req l1 l2 :
  carries wr st hs st' -> intents hs = l1 ++ forwardIntent range req id :: l2 ->
  worker_inv st' /\
  accounted (foldl note_body (note_data no_upload [] (bodyEmpty req)) (body_frames id l2)) (before_close (link_uses id wr st hs))
    (existsb (severs id) hs) (if closed_body (link_uses id wr st hs) then None else queues st' !! id).
Proof.
  intros ((d & rs & ts & w0 & w & r & Hrs & Hts & Hb & H0 & H & [rest Hpre]) & (d' & rs' & e & fr & Hrs' & H0' & Hs & ->) & wr' & Hl) Hi.
  destruct (tunnel_intents range d rs ts w0 w r Hrs Hts Hb H0 H) as (Hty & Hso & Hpos).
  rewrite Hpre, ?request_ids_app in *. apply Forall_app in Hty as [Hty _]. apply Forall_app in Hpos as [Hpos _].
  apply StronglySorted_app in Hso as (_ & Hso & _).
  destruct (worker_ready d' e fr rs' st Hs Hrs' H0') as (Hw & Hsy & HL & Hsp). rewrite <- HL in Hpos.
  assert (Hty' : Forall (proxy_intent request_typed) (intents hs)).
  { eapply Forall_impl; [exact Hty|]. by apply forwarded_typed. }
  assert (Hnew : forall j, LastStreamID (c_hdr (ws_conn st)) < j -> queues st !! j = None).
  { intros j Hj. apply queues_None. destruct (c_streams (ws_conn st) !! j) as [s|] eqn:E; [|done].
    destruct Hw as (_ & _ & Hreg). specialize (Hreg _ _ E). cbn in Hreg. lia. }
  assert (Hnot : id ∉ request_ids l1).
  { rewrite Hi, request_ids_app in Hso. apply StronglySorted_app in Hso as (Hc & _). intros Hin.
    specialize (Hc id id Hin ltac:(by left)). lia. }
  assert (Hid : LastStreamID (c_hdr (ws_conn st)) < id).
  { rewrite Hi, request_ids_app in Hpos. apply Forall_app in Hpos as [_ Hpos]. by inv Hpos. }
  destruct (booked_link id None [] false hs (newWriter e fr) st wr' st' Hw Hsy Hty' Hso Hpos Hl) as [Hw' Hbk]; [by split; [|apply Hnew]|].
  split; [done|]. rewrite Hi, foldl_app, note_unopened in Hbk by done. cbn [foldl] in Hbk.
  assert (En : note id None (forwardIntent range req id) = Some (note_data no_upload [] (bodyEmpty req)))
    by (unfold note; cbn; by rewrite Z.eqb_refl).
  rewrite En, note_opened in Hbk. apply Hbk.
Qed.

(** C5. Request bodies reach their handlers: take a proxy tunnel run from its
    start and a worker that has read what the tunnel's writer made of its first
    intents, with any activity of its stream goroutines, and let the DATA that
    followed a request on its stream be the first frames its body pump has
    submitted.  Then what the handler has read, up to its first Close of the
    body if it closes it, is a prefix of the caller's body, byte for byte, and
    it has seen the end of it only where the caller's body ended and after all
    of it; the other streams' handlers may read, close and end as they like.
    When the pump has finished and its frames have come in, the handler still
    runs and has not closed the body, and the stream has not been reset, then
    a handler that keeps reading gets the rest of the body and its end. *)
Theorem request_bodies_reach_their_handlers wr st hs st' id req l1 l2 maxFrame pw reads pw' pr :
  carries wr st hs st' -> intents hs = l1 ++ forwardIntent range req id :: l2 -> bodyEmpty req = false ->
  0 < maxFrame <= MaxInt32 -> Forall (fun rd => Z.of_nat (length (br_data rd)) <= maxFrame) reads ->
  world_ok pw -> w_log pw = [] -> streamRequestBody id pw reads = (pw', pr) ->
  body_frames id l2 `prefix_of` body_frames id (w_log pw').*1 ->
  let got := before_close (link_uses id wr st hs) in
  (bytes_read got `prefix_of` concat (br_data <$> reads)) /\
  (REOF ∈ got -> whole_body reads (bytes_read got)) /\
  (pr = PumpDone None -> body_frames id l2 = body_frames id (w_log pw').*1 -> existsb (severs id) hs = false ->
   exists s rest, c_streams (ws_conn st') !! id = Some s /\ whole_body reads (bytes_read got ++ rest) /\
     forall plen fuel, (0 < plen)%nat -> (length rest < fuel)%nat ->
     exists m' s', readAll fuel (ws_mem st') s plen = (m', s', rest, Some REOF)).
Proof.
  intros Hc Hi Hbe Hm Hrs Hw Hlog Hrun Hpre got.
  destruct (carried_book wr st hs st' id req l1 l2 Hc Hi) as (Hw' & Hbk). rewrite Hbe in Hbk. fold got in Hbk.
  destruct (pump_frames id maxFrame pw reads pw' pr Hm Hrs Hw Hlog Hrun) as (cs & fin & Ef & Hcs & Hfin & Hdone). rewrite Ef in *.
  destruct (upload_prefix id cs fin (body_frames id l2) Hpre) as (Hu & Hwhole & Hfull).
  change (note_data no_upload [] false) with no_upload in Hbk. destruct Hbk as [H1 _ H3 _ H5 H6 H8 H7].
  split_and!.
  - do 2 (etrans; [eassumption|]). done.
  - intros Hin. destruct (H6 Hin) as (b & Hb & Hp). destruct (Hwhole b Hb) as (Hf & -> & Eu). rewrite Eu in H1.
    rewrite (anti_symm prefix _ _ H1 Hp). auto.
  - intros Hpr Hall Hcut. rewrite (Hdone Hpr) in *. rewrite (Hfull Hall) in *. cbn [u_data u_whole] in *.
    destruct (H7 Hcut) as (f & Hf & Hfail). specialize (H3 f Hf). specialize (H5 f Hf ltac:(done)).
    specialize (H8 f Hf). destruct (closed_body _); [done|]. unfold queues, sbodies, bodies, abs in Hf. cbn in Hf. rewrite lookup_fmap in Hf.
    destruct (c_streams (ws_conn st') !! id) as [s|] eqn:Es; [|done]. injection Hf as <-.
    exists s, (pending (abs_stream (ws_mem st') s)). rewrite <- H3. split_and!; [done|auto|]. intros plen fuel Hp Hl.
    destruct (readAll_drains (sbodies st') id s plen fuel (worker_wf _ Hw') Es H8 Hp H5 Hl) as (m' & s' & E).
    exists m', s'. cbn in Hfail. by rewrite Hfail in E.
Qed.

End Worker.

(** ** Witness *)

Module UploadDemo.

Import PlainWire EndToEndDemo.

(** A GET on stream 1; on stream 3 a POST whose body comes in three chunks. *)
Definition uploading : list (Turn (R := proxyRole)) :=
  [TunnelDemo.turn [open get_request] (RFrame (FPing false (be64 3))) false;
   TunnelDemo.turn [open ForwardDemo.demo_request; FwSubmit (SendData 3 [x61] false); FwSubmit (SendData 3 [x62] false)]
     (RFrame (FWindowUpdate 0 1)) false;
   TunnelDemo.turn [FwSubmit (SendData 3 [x63] false); FwSubmit (SendData 3 [] true)] (RFrame (FWindowUpdate 0 1)) false].

Definition uploaded : Worker := (frameLoop (R := proxyRole) greeted uploading).1.

Lemma uploading_runs : frameLoop (R := proxyRole) greeted uploading = (uploaded, Reading).
Proof. unfold uploaded. apply pair_fst. vm_compute. reflexivity. Qed.

Lemma uploading_public : Forall (public_turn map_to_list) uploading.
Proof.
  assert (H1 : public_ev map_to_list (open get_request)) by (exists get_request; split; [exact get_ok|done]).
  assert (H2 : public_ev map_to_list (open ForwardDemo.demo_request)) by (exists ForwardDemo.demo_request; split; [exact post_ok|done]).
  assert (H3 : forall data es, public_ev map_to_list (FwSubmit (SendData 3 data es))) by done.
  assert (H : forall es r, Forall (public_ev map_to_list) es -> public_read r ->
    public_turn map_to_list (TunnelDemo.turn es r false)) by (by intros).
  unfold uploading. repeat constructor; done.
Qed.

(** Each intent in a turn of its own; the handler of stream 3 reads one byte
    when the second chunk has come, and stream 1 closes its body and ends. *)
Definition uhops : list (Hop (R := workerRole)) :=
  imap (fun n i => mkHop (R := workerRole) i 0 (if (n =? 5)%nat then [SRead 3 1; SClose 1; SDone 1 5] else []) None 1) (c_out (w_conn uploaded)).

Definition upload_writer : Writer := newWriter (HE := Plain.plain_encoder) tt ([] : framer).

Definition uarrived : WState := (link (R := workerRole) map_to_list upload_writer ready uhops).1.2.

Lemma upload_arrives : exists wr, link (R := workerRole) map_to_list upload_writer ready uhops = (wr, uarrived, LinkUp).
Proof.
  exists (link (R := workerRole) map_to_list upload_writer ready uhops).1.1. unfold uarrived.
  assert (H : (link (R := workerRole) map_to_list upload_writer ready uhops).2 = LinkUp) by (vm_compute; reflexivity).
  by rewrite <- H, <- !surjective_pairing.
Qed.

Lemma upload_carried : carries map_to_list upload_writer ready uhops uarrived.
Proof.
  split; [|split; [|exact upload_arrives]].
  - exists tt, hello, uploading, greeted, uploaded, Reading. split_and!.
    + exact hello_public.
    + exact uploading_public.
    + vm_compute. discriminate.
    + exact e2e_greeting.
    + exact uploading_runs.
    + exists []. vm_compute. reflexivity.
  - exists tt, ServeDemo.hello, tt, []. split_and!; [exact ServeDemo.hello_ok|exact readying|exact I|reflexivity].
Qed.

Definition upload_pump : World * PumpResult := streamRequestBody 3 ForwardDemo.demo_world ForwardDemo.demo_reads.

Definition before_post : list writeIntent := take 3 (intents uhops).

Definition after_post : list writeIntent := drop 4 (intents uhops).

Lemma post_among : intents uhops = before_post ++ forwardIntent map_to_list ForwardDemo.demo_request 3 :: after_post.
Proof. vm_compute. reflexivity. Qed.

Lemma request_bodies_reach_their_handlers_witness :
  bytes_read (before_close (link_uses map_to_list 3 upload_writer ready uhops)) = [x61] /\
  exists s rest m' s', c_streams (ws_conn uarrived) !! 3 = Some s /\ whole_body ForwardDemo.demo_reads (x61 :: rest) /\
    readAll (S (length rest)) (ws_mem uarrived) s 1 = (m', s', rest, Some REOF).
Proof.
  assert (Hg : bytes_read (before_close (link_uses map_to_list 3 upload_writer ready uhops)) = [x61]) by (vm_compute; reflexivity).
  split; [exact Hg|].
  destruct (request_bodies_reach_their_handlers map_to_list (fun h => reflexivity _) upload_writer ready uhops uarrived 3
    ForwardDemo.demo_request before_post after_post 16384 ForwardDemo.demo_world ForwardDemo.demo_reads upload_pump.1 upload_pump.2
    upload_carried post_among eq_refl ltac:(unfold MaxInt32; lia) ForwardDemo.demo_reads_ok ForwardDemo.fw_world_ok eq_refl
    (surjective_pairing _) ltac:(exists []; vm_compute; reflexivity)) as (_ & _ & H).
  destruct H as (s & rest & Hs & Hw & Hr); [vm_compute; reflexivity..|].
  destruct (Hr 1%nat (S (length rest)) ltac:(lia) ltac:(lia)) as (m' & s' & E).
  exists s, rest, m', s'. split; [exact Hs|]. split; [|exact E]. rewrite Hg in Hw. exact Hw.
Defined.

End UploadDemo.
