(* ===== verification/Exchange.v ===== *)
(** * The forwarding handler (internal/proxy/forward.go)

    [forward], [openForward], [waitForResponseHeaders] and [writeResponse] on
    the tunnel's state: the handler's own steps are functions of the [Worker],
    and what the frame reader, the other forwarders, this request's body pump
    and its cancellation watcher do in between is a [Script] of the events of
    TunnelEvents.v.  net/http's side is in the script too: when the caller's
    context ends, and whether it accepts the bytes written. *)

From Stdlib Require Import Strings.Byte Strings.Ascii Strings.String.
From S2P Require Import Prelude Errors Flow Names H2Stream Writer HeaderBlock Conn ConnInv FrameLoop Tunnel TunnelEvents Forward.

Open Scope Z_scope.

(** What ends the select of [waitForResponseHeaders]. *)
Inductive WaitOutcome := WaitAnswered | WaitCancelled | WaitDetached.

(** What the public caller has been sent: an error page, the worker's status
    and headers followed by body bytes, or nothing. *)
Inductive PublicReply :=
| ErrorPage (status : Z)
| Proxied (status : Z) (h : header) (body : list byte)
| NoReply.

(** Where the handler is: in the select, in the copy loop, waiting for the
    body pump, or gone (by [return] or by the panic of [WriteHeader]). *)
Inductive Phase := Waiting | Copying | Pumping | Returned | Panicked.

#[global] Instance Phase_eq_dec : EqDecision Phase.
Proof. solve_decision. Defined.

(** One iteration of the copy loop: what happens before its [body.Read], and
    whether [w.Write] takes the bytes. *)
Record CopyStep := mkCopyStep { cp_env : list TunnelEv; cp_accepts : bool }.

(** How the copy loop ends. *)
Inductive CopyEnd := CopyEOF | CopyFailed (e : gerror) | CopyRefused.

(** The handler's surroundings, in its own order. [x_racing]: between reading
    the initial window and taking the registry's lock in [openStream].
    [x_pump]: until [bodyErrCh] yields, if it does ([x_pumped]). *)
Record Script := mkScript {
  x_before : list TunnelEv;
  x_racing : list TunnelEv;
  x_sendErr : option gerror;
  x_wait : list TunnelEv;
  x_outcome : WaitOutcome;
  x_copy : list CopyStep;
  x_pump : list TunnelEv;
  x_pumped : bool;
  x_now : Z
}.

Definition openStatus (e : gerror) : Z :=
  match e with ErrTunnelSaturated | ErrTunnelDraining => 503 | _ => 502 end.

(** [w.Header().Add] of every value. *)
Definition copyHeader (range : header -> list (string * list string)) (h : header) : header :=
  foldl (fun out '(k, vv) => foldl (fun out v => headerAdd out k v) out vv) ∅ (range h).

(** The status passed to [WriteHeader], which panics outside 100..999. *)
Definition replyStatus (cs : clientStream) : Z := if cs_respStatus cs =? 0 then 502 else cs_respStatus cs.

Definition validStatus (status : Z) : bool := (100 <=? status) && (status <=? 999).

Section Exchange.

Context {HD : HpackDecoder}.

(** [worker.conn.SendRSTStream(cs.h2.ID, http2.ErrCodeCancel)] *)
Definition sendCancel (w : Worker) (id : Z) : Worker :=
  set_conn w (submitAsync (w_conn w) (SendRSTStream id ErrCodeCancel)).

(** [openForward] up to the body pump. *)
Definition openForward (range : header -> list (string * list string)) (req : Request) (w : Worker) (x : Script)
  : Worker * (Z + gerror) :=
  let initialWindow := InitialStreamWindow (c_Send (w_conn w)) in
  let w := tunnel_evs w (x_racing x) in
  openStream w 0 initialWindow (forwardIntent range req) (x_sendErr x) (x_now x).

Inductive WaitResult := WaitParked | WaitStopped (r : PublicReply) | WaitProceed.

(** The [None] of [getStream], here and below, does not arise: the handler
    holds [cs] itself, and its stream stays registered until it closes it
    ([forward_leaves_no_trace]). *)
Definition waitForResponseHeaders (w : Worker) (id : Z) (x : Script) : Worker * WaitResult :=
  let w := tunnel_evs w (x_wait x) in
  match x_outcome x with
  | WaitAnswered =>
      match getStream w id with
      | Some cs =>
          if cs_closed cs then
            match cs_respErr cs with
            | Some _ => (w, WaitStopped (ErrorPage 502))
            | None => (w, WaitProceed)
            end
          else (w, WaitParked)
      | None => (w, WaitParked)
      end
  | WaitCancelled => (sendCancel w id, WaitStopped NoReply)
  | WaitDetached => if w_done w then (w, WaitStopped (ErrorPage 502)) else (w, WaitParked)
  end.

(** [body.Read(buf)] on the stream's body. *)
Definition readBody (w : Worker) (id : Z) (plen : nat) : option (Worker * ReadResult) :=
  match GetStream (w_conn w) id with
  | Some s =>
      let '(m, s, r) := Read (w_mem w) s plen in
      Some (set_mem_conn w m (set_c_streams (w_conn w) (<[id := s]> (c_streams (w_conn w)))), r)
  | None => None
  end.

Definition copyBuf : nat := 16 * 1024.

(** The copy loop: the bytes written, and how it ended; [None] while it has
    not.  [RBlocked] is a Read still parked. *)
Fixpoint copyBody (id : Z) (w : Worker) (steps : list CopyStep) : Worker * list byte * option CopyEnd :=
  match steps with
  | [] => (w, [], None)
  | st :: steps =>
      let w := tunnel_evs w (cp_env st) in
      match readBody w id copyBuf with
      | None => (w, [], None)
      | Some (w, RRead bs) =>
          if (0 <? length bs)%nat && negb (cp_accepts st) then (sendCancel w id, [], Some CopyRefused)
          else let '(w, out, e) := copyBody id w steps in (w, bs ++ out, e)
      | Some (w, RBlocked) => copyBody id w steps
      | Some (w, RErr e) => (w, [], Some (CopyFailed e))
      | Some (w, REOF) => (w, [], Some CopyEOF)
      end
  end.

Definition clearHeader (cs : clientStream) : clientStream :=
  mkCS (cs_respErr cs) ∅ (cs_respStatus cs) (cs_closed cs).

Definition writeResponse (range : header -> list (string * list string)) (w : Worker) (id : Z) (steps : list CopyStep)
  : Worker * PublicReply * Phase :=
  match getStream w id with
  | None => (w, NoReply, Copying)
  | Some cs =>
      let h := copyHeader range (cs_respHeader cs) in
      let w := set_streams w (<[id := clearHeader cs]> (w_streams w)) in
      let status := replyStatus cs in
      if negb (validStatus status) then (w, NoReply, Panicked)
      else
        let '(w, out, e) := copyBody id w steps in
        (w, Proxied status h out, match e with Some _ => Pumping | None => Copying end)
  end.

(** [<-bodyErrCh], then the deferred calls. *)
Definition finishForward (w : Worker) (id : Z) (x : Script) : Worker :=
  addInFlight (closeStream w id (x_now x)) (-1).

Definition awaitPump (req : Request) (w : Worker) (id : Z) (x : Script) (reply : PublicReply)
  : Worker * PublicReply * Phase :=
  let w := tunnel_evs w (x_pump x) in
  if bodyEmpty req || x_pumped x then (finishForward w id x, reply, Returned) else (w, reply, Pumping).

(** [forward] once the stream is open. *)
Definition exchange (range : header -> list (string * list string)) (req : Request) (w : Worker) (id : Z) (x : Script)
  : Worker * PublicReply * Phase :=
  match waitForResponseHeaders w id x with
  | (w, WaitParked) => (w, NoReply, Waiting)
  | (w, WaitStopped r) => awaitPump req w id x r
  | (w, WaitProceed) =>
      match writeResponse range w id (x_copy x) with
      | (w, r, Pumping) => awaitPump req w id x r
      | (w, r, Panicked) => (finishForward w id x, r, Panicked)
      | (w, r, ph) => (w, r, ph)
      end
  end.

(** After the selector: [worker] is what it picked. *)
Definition forward (range : header -> list (string * list string)) (req : Request) (worker : option Worker) (x : Script)
  : option Worker * PublicReply * Phase :=
  match worker with
  | None => (None, ErrorPage 503, Returned)
  | Some w =>
      let w := tunnel_evs (addInFlight w 1) (x_before x) in
      match openForward range req w x with
      | (w, inr e) => (Some (addInFlight w (-1)), ErrorPage (openStatus e), Returned)
      | (w, inl id) => let '(w, r, ph) := exchange range req w id x in (Some w, r, ph)
      end
  end.

End Exchange.

(** ** The copy loop *)

Section Copy.

Context {HD : HpackDecoder}.

Variable id : Z.

(** What may happen around the owner of stream [id]. *)
Definition env_ok (es : list TunnelEv) : Prop := Forall (fun e => tunnel_ev_ok e /\ foreign id e) es.

Definition copy_events (steps : list CopyStep) : list TunnelEv :=
  concat ((fun st => cp_env st ++ [TForward (FwRead id copyBuf)]) <$> steps).

Abbreviation total_opens es := (sum_list_with ev_opens es).

Lemma total_opens_app es es' : total_opens (es ++ es') = (total_opens es + total_opens es')%nat.
Proof. apply sum_list_with_app. Qed.

Lemma tunnel_evs_app w es es' : tunnel_evs w (es ++ es') = tunnel_evs (tunnel_evs w es) es'.
Proof. apply foldl_app. Qed.

Lemma received_app w es es' : received id w (es ++ es') = received id w es ++ received id (tunnel_evs w es) es'.
Proof. revert w. induction es as [|e es IH]; intros w; [done|]. cbn. by rewrite IH, app_assoc. Qed.

Lemma failed_app w es es' : failed id w (es ++ es') = failed id w es || failed id (tunnel_evs w es) es'.
Proof. revert w. induction es as [|e es IH]; intros w; [done|]. cbn. by rewrite IH, orb_assoc. Qed.

(** The owner's Read is the event the tunnel sees. *)
Lemma readBody_event w n w' r : readBody w id n = Some (w', r) -> tunnel_ev w (TForward (FwRead id n)) = w'.
Proof.
  unfold readBody. cbn [tunnel_ev forward_ev]. destruct (GetStream (w_conn w) id) as [s|]; [|done].
  destruct (Read (w_mem w) s n) as [[m s'] r']. by intros [= <- _].
Qed.

(** Stream [id]'s body, which no Close has left garbled. *)
Definition open_body (w : Worker) (f : Fifo) : Prop := abs (wbodies w) !! id = Some f /\ garbled f = 0%nat.

Lemma readBody_spec k w n w' r f :
  proxy_inv k w -> open_body w f -> readBody w id n = Some (w', r) ->
  proxy_inv k w' /\ exists f', open_body w' f' /\ fifo_read n f r f'.
Proof.
  intros H [Hf Hg] Hr. unfold readBody, GetStream in Hr. destruct (c_streams (w_conn w) !! id) as [s|] eqn:E; [|done].
  destruct (Read (w_mem w) s n) as [[m s'] r'] eqn:Er. injection Hr as <- <-. split.
  - apply proxy_conn_step; [done|exact (Read_inv _ _ _ _ _ _ _ _ (pi_conn _ _ H) E Er)|by eapply same_regs_insert].
  - destruct (pi_conn _ _ H) as (_ & _ & Hwf & _).
    destruct (read_refines (wbodies w) id s n m s' r' Hwf E Er) as [_ Ho].
    destruct (fifo_op_read_inv _ _ _ _ _ _ Ho Hf) as (f' & Hx & ?). exists f'. split; [split; [done|]|done].
    by inv Hx; cbn in *; [lia|..].
Qed.

Lemma readBody_some w n f : open_body w f -> is_Some (readBody w id n).
Proof.
  unfold open_body, wbodies, abs, readBody, GetStream. cbn. rewrite lookup_fmap. destruct (c_streams (w_conn w) !! id) as [s|]; [|by intros [? _]].
  destruct (Read (w_mem w) s n) as [[m s'] r]. by eexists.
Qed.

(** [id]'s body after the events [h], and what of it the loop has taken. *)
Record copied (k : nat) (w : Worker) (f : Fifo) (h : list TunnelEv) (taken : list byte) (f' : Fifo) : Prop := {
  cp_inv : proxy_inv (k + total_opens h) (tunnel_evs w h);
  cp_now : open_body (tunnel_evs w h) f';
  cp_bytes : pending f ++ received id w h = taken ++ pending f';
  cp_failed : is_Some (failure f') <-> is_Some (failure f) \/ failed id w h = true;
  cp_ended : ended f = true \/ failed id w h = true -> ended f' = true
}.

Lemma copied_env k w f es :
  proxy_inv k w -> open_body w f -> env_ok es -> Z.of_nat (k + total_opens es) <= 2 ^ 30 ->
  exists f', copied k w f es [] f'.
Proof.
  intros H [Hf Hg] Hes Hb. apply Forall_and in Hes as [Hok Hfor].
  destruct (tunnel_evs_grows id k w es H Hok Hb Hfor) as [G Hi]. destruct (G f Hf) as (f' & Hf' & Hg' & Hp & He & Hd).
  exists f'. split; try done. split; [exact Hf'|congruence].
Qed.

Lemma copied_app k w f h1 t1 f1 h2 t2 f2 :
  copied k w f h1 t1 f1 -> copied (k + total_opens h1) (tunnel_evs w h1) f1 h2 t2 f2 ->
  copied k w f (h1 ++ h2) (t1 ++ t2) f2.
Proof.
  intros [I1 N1 B1 F1 E1] [I2 N2 B2 F2 E2]. split.
  - by rewrite total_opens_app, Nat.add_assoc, tunnel_evs_app.
  - by rewrite tunnel_evs_app.
  - by rewrite received_app, app_assoc, B1, <- !app_assoc, B2.
  - rewrite failed_app, orb_true_iff, F2, F1. tauto.
  - rewrite failed_app, orb_true_iff. tauto.
Qed.

(** What a read takes. *)
Definition read_taken (r : ReadResult) : list byte := match r with RRead bs => bs | _ => [] end.

Lemma fifo_read_flags n f r f' : fifo_read n f r f' -> failure f' = failure f /\ ended f' = ended f.
Proof. by destruct 1. Qed.

Lemma fifo_read_taken n f r f' :
  fifo_read n f r f' -> garbled f = 0%nat ->
  pending f = read_taken r ++ pending f' /\ failure f' = failure f /\ ended f' = ended f.
Proof. by intros [k bs p d e Hk _|bs rest d e _ _ _| | |] Hg; [cbn in Hg; lia|..]. Qed.

Lemma copied_read k w f w' r :
  proxy_inv k w -> open_body w f -> readBody w id copyBuf = Some (w', r) ->
  tunnel_evs w [TForward (FwRead id copyBuf)] = w' /\
  exists f', copied k w f [TForward (FwRead id copyBuf)] (read_taken r) f' /\ fifo_read copyBuf f r f'.
Proof.
  intros H Hf Hr. destruct (readBody_spec _ _ _ _ _ _ H Hf Hr) as (H' & f' & Hf' & Hread).
  pose proof (readBody_event _ _ _ _ Hr) as He. split; [done|]. exists f'. split; [|done].
  destruct (fifo_read_taken _ _ _ _ Hread (proj2 Hf)) as (Hp & Hfl & Hd).
  split; unfold tunnel_evs; cbn [foldl]; rewrite ?He; cbn; rewrite ?Nat.add_0_r; try done.
  - by rewrite app_nil_r.
  - rewrite Hfl. split; [by left|by intros [?|?]].
  - rewrite Hd. by intros [?|?].
Qed.

(** One iteration up to the result of its Read. *)
Lemma copied_step k w f st :
  proxy_inv k w -> open_body w f -> env_ok (cp_env st) ->
  Z.of_nat (k + total_opens (copy_events [st])) <= 2 ^ 30 ->
  exists w' r f1 f', readBody (tunnel_evs w (cp_env st)) id copyBuf = Some (w', r) /\
    w' = tunnel_evs w (copy_events [st]) /\ (garbled f1 = 0%nat /\ fifo_read copyBuf f1 r f') /\
    copied k w f (copy_events [st]) (read_taken r) f'.
Proof.
  unfold copy_events. cbn [fmap list_fmap concat]. rewrite app_nil_r, total_opens_app. intros H Hf He Hb.
  destruct (copied_env k w f (cp_env st) H Hf He ltac:(cbn in Hb; lia)) as (f1 & C1).
  destruct (readBody_some (tunnel_evs w (cp_env st)) copyBuf f1 (cp_now _ _ _ _ _ _ C1)) as [[w' r] Hr].
  destruct (copied_read _ _ _ _ _ (cp_inv _ _ _ _ _ _ C1) (cp_now _ _ _ _ _ _ C1) Hr) as (<- & f' & C2 & Hread).
  eexists _, r, f1, f'. rewrite tunnel_evs_app. split_and!; [exact Hr|done|exact (proj2 (cp_now _ _ _ _ _ _ C1))|done|].
  by apply (copied_app _ _ _ _ [] f1).
Qed.

Definition steps_ok (steps : list CopyStep) : Prop := Forall (fun st => env_ok (cp_env st)) steps.

Lemma copy_events_cons st steps : copy_events (st :: steps) = copy_events [st] ++ copy_events steps.
Proof. unfold copy_events. cbn [fmap list_fmap concat]. by rewrite app_nil_r. Qed.

Lemma copy_events_app l l' : copy_events (l ++ l') = copy_events l ++ copy_events l'.
Proof. unfold copy_events. by rewrite fmap_app, concat_app. Qed.

(** Where the loop stopped: [n] iterations begun, [h] what has happened,
    [lost] read but not accepted by the caller. *)
Definition copy_result (w : Worker) (steps : list CopyStep) (n : nat) (h : list TunnelEv) (lost : list byte) (f' : Fifo)
    (w' : Worker) (r : option CopyEnd) : Prop :=
  match r with
  | None => n = length steps /\ lost = [] /\ w' = tunnel_evs w h
  | Some CopyEOF => lost = [] /\ w' = tunnel_evs w h /\ f' = mkFifo [] true None
  | Some (CopyFailed e) => lost = [] /\ w' = tunnel_evs w h /\ f' = mkFifo [] true (Some e)
  | Some CopyRefused =>
      lost <> [] /\ w' = sendCancel (tunnel_evs w h) id /\ Exists (fun st => cp_accepts st = false) steps
  end.

Definition copy_run (k : nat) (w : Worker) (f : Fifo) (steps : list CopyStep) (w' : Worker) (out : list byte)
    (r : option CopyEnd) : Prop :=
  exists n lost f', (n <= length steps)%nat /\ copied k w f (copy_events (take n steps)) (out ++ lost) f' /\
    copy_result w steps n (copy_events (take n steps)) lost f' w' r.

(** One more iteration in front. *)
Lemma copy_run_cons k w f st steps taken f1 w' out r :
  copied k w f (copy_events [st]) taken f1 ->
  copy_run (k + total_opens (copy_events [st])) (tunnel_evs w (copy_events [st])) f1 steps w' out r ->
  copy_run k w f (st :: steps) w' (taken ++ out) r.
Proof.
  intros C (n & lost & f' & Hn & C2 & Hr). exists (S n), lost, f'. cbn [take]. rewrite copy_events_cons.
  split_and!; [simpl; lia|rewrite <- app_assoc; by eapply copied_app|].
  unfold copy_result in *. rewrite tunnel_evs_app. destruct r as [[]|]; try done.
  - destruct Hr as (? & ? & ?). split_and!; [done|done|by right].
  - destruct Hr as (-> & ? & ?). done.
Qed.

Lemma copy_run_one k w f st steps out lost f' w' r :
  copied k w f (copy_events [st]) (out ++ lost) f' -> r <> None ->
  copy_result w (st :: steps) 1 (copy_events [st]) lost f' w' r -> copy_run k w f (st :: steps) w' out r.
Proof. intros C Hne Hr. exists 1%nat, lost, f'. cbn [take]. split_and!; [simpl; lia|done|done]. Qed.

Lemma copied_nil k w f : proxy_inv k w -> open_body w f -> copied k w f [] [] f.
Proof.
  intros H Hf. split; cbn; rewrite ?Nat.add_0_r, ?app_nil_r; try done.
  - split; [by left|by intros [?|?]].
  - by intros [?|?].
Qed.

Lemma copyBody_run steps k w f w' out r :
  proxy_inv k w -> open_body w f -> steps_ok steps ->
  Z.of_nat (k + total_opens (copy_events steps)) <= 2 ^ 30 ->
  copyBody id w steps = (w', out, r) -> copy_run k w f steps w' out r.
Proof.
  revert k w f w' out r. induction steps as [|st steps IH]; intros k w f w' out r H Hf Hok Hb Hc.
  { simpl in Hc. simplify_eq. exists 0%nat, [], f. split_and!; [done|by apply copied_nil|done]. }
  apply Forall_cons in Hok as [Hst Hok]. rewrite copy_events_cons, total_opens_app in Hb.
  destruct (copied_step k w f st H Hf Hst ltac:(lia)) as (w1 & r1 & f0 & f1 & Hr & Hw1 & [Hg0 Hread] & C).
  assert (Hrec : forall w2 out2 r2, copyBody id w1 steps = (w2, out2, r2) -> copy_run k w f (st :: steps) w2 (read_taken r1 ++ out2) r2).
  { intros w2 out2 r2 E. eapply copy_run_cons; [exact C|]. subst w1. eapply IH; [apply C|apply C|done|lia|done]. }
  cbn [copyBody] in Hc. rewrite Hr in Hc. destruct r1 as [bs|e| |].
  - destruct (_ && _) eqn:Ew.
    + injection Hc as <- <- <-. eapply copy_run_one; [exact C|done|]. rewrite Hw1.
      split_and!; [cbn; by destruct bs|done|left]. by destruct (cp_accepts st); [destruct (_ <? _)%nat|].
    + destruct (copyBody id w1 steps) as [[w2 out2] r2] eqn:E. injection Hc as <- <- <-. by apply Hrec.
  - injection Hc as <- <- <-. eapply (copy_run_one _ _ _ _ _ [] []); [exact C|done|]. inv Hread. done.
  - injection Hc as <- <- <-. eapply (copy_run_one _ _ _ _ _ [] []); [exact C|done|]. inv Hread. done.
  - by apply Hrec in Hc.
Qed.

(** A body that has ended: each read takes at least a byte or ends the loop. *)
Lemma copyBody_ends steps k w f :
  proxy_inv k w -> open_body w f -> steps_ok steps ->
  Z.of_nat (k + total_opens (copy_events steps)) <= 2 ^ 30 -> ended f = true ->
  (length (pending f ++ received id w (copy_events steps)) < length steps)%nat ->
  exists e, (copyBody id w steps).2 = Some e.
Proof.
  revert k w f. induction steps as [|st steps IH]; intros k w f H Hf Hok Hb Hd Hl; [simpl in Hl; lia|].
  apply Forall_cons in Hok as [Hst Hok]. rewrite copy_events_cons in Hb, Hl. rewrite total_opens_app in Hb.
  destruct (copied_step k w f st H Hf Hst ltac:(lia)) as (w1 & r1 & f0 & f1 & Hr & -> & [Hg0 Hread] & C).
  cbn [copyBody]. rewrite Hr. pose proof (cp_ended _ _ _ _ _ _ C ltac:(by left)) as Hd1.
  rewrite received_app, app_assoc, (cp_bytes _ _ _ _ _ _ C), <- app_assoc, length_app in Hl.
  destruct r1 as [bs|e| |]; [|by eexists..|].
  - destruct (_ && _); [by eexists|].
    assert (0 < length bs)%nat.
    { inv Hread; [cbn [garbled] in Hg0; exfalso; subst; by apply (Nat.lt_irrefl 0)|]. match goal with Hx : (_ -> bs <> []) |- _ => specialize (Hx ltac:(unfold copyBuf; lia)) end. by destruct bs; [|simpl; lia]. }
    simpl in Hl. destruct (IH _ _ _ (cp_inv _ _ _ _ _ _ C) (cp_now _ _ _ _ _ _ C) Hok ltac:(lia) Hd1 ltac:(lia)) as [e He].
    destruct (copyBody id _ steps) as [[w2 out] e2]. by exists e.
  - inv Hread.
Qed.

(** One iteration of the loop: it ends here, or it goes on after the bytes read. *)
Lemma copyBody_cons k w f st steps :
  proxy_inv k w -> open_body w f -> env_ok (cp_env st) ->
  Z.of_nat (k + total_opens (copy_events [st])) <= 2 ^ 30 ->
  exists taken f1, copied k w f (copy_events [st]) taken f1 /\
    ((exists e, (copyBody id w (st :: steps)).2 = Some e) \/
     (copyBody id w (st :: steps)).2 = (copyBody id (tunnel_evs w (copy_events [st])) steps).2).
Proof.
  intros H Hf Hst Hb. destruct (copied_step k w f st H Hf Hst Hb) as (w1 & r1 & f0 & f1 & Hr & -> & [Hg0 Hread] & C).
  exists (read_taken r1), f1. split; [done|]. cbn [copyBody]. rewrite Hr. destruct r1 as [bs|e| |]; [|left; eauto..|by right].
  destruct (_ && _); [left; eauto|right]. by destruct (copyBody id _ steps) as [[? ?] ?].
Qed.

(** The events of a number of iterations, whatever the loop makes of them. *)
Lemma copied_steps steps k w f :
  proxy_inv k w -> open_body w f -> steps_ok steps ->
  Z.of_nat (k + total_opens (copy_events steps)) <= 2 ^ 30 ->
  exists taken f', copied k w f (copy_events steps) taken f'.
Proof.
  revert k w f. induction steps as [|st steps IH]; intros k w f H Hf Hok Hb; [exists [], f; by apply copied_nil|].
  apply Forall_cons in Hok as [Hst Hok]. rewrite copy_events_cons, total_opens_app in Hb.
  destruct (copied_step k w f st H Hf Hst ltac:(lia)) as (w1 & r1 & f0 & f1 & _ & _ & _ & C).
  destruct (IH _ _ _ (cp_inv _ _ _ _ _ _ C) (cp_now _ _ _ _ _ _ C) Hok ltac:(lia)) as (taken & f' & C').
  rewrite copy_events_cons. do 2 eexists. by eapply copied_app.
Qed.

(** A loop whose body has ended after the iterations [pre] ends. *)
Lemma copyBody_stops k w f pre post :
  proxy_inv k w -> open_body w f -> steps_ok (pre ++ post) ->
  Z.of_nat (k + total_opens (copy_events (pre ++ post))) <= 2 ^ 30 ->
  (forall f', open_body (tunnel_evs w (copy_events pre)) f' -> ended f' = true) ->
  (length (pending f ++ received id w (copy_events (pre ++ post))) < length post)%nat ->
  exists e, (copyBody id w (pre ++ post)).2 = Some e.
Proof.
  revert k w f. induction pre as [|st pre IH]; intros k w f H Hf Hok Hb Hd Hl.
  { eapply copyBody_ends; [exact H|exact Hf|done|done|by apply Hd|done]. }
  cbn [app] in *. apply Forall_cons in Hok as [Hst Hok]. rewrite copy_events_cons in Hb, Hl, Hd. rewrite total_opens_app in Hb.
  destruct (copyBody_cons k w f st (pre ++ post) H Hf Hst ltac:(lia)) as (taken & f1 & C & [He|Hnext]); [done|].
  rewrite Hnext. apply (IH _ _ _ (cp_inv _ _ _ _ _ _ C) (cp_now _ _ _ _ _ _ C) Hok ltac:(lia)).
  - by rewrite tunnel_evs_app in Hd.
  - rewrite received_app, app_assoc, (cp_bytes _ _ _ _ _ _ C), <- app_assoc, length_app in Hl. lia.
Qed.

(** The copy loop cannot outlive its stream: once the stream has ended,
    been reset or been failed by the tunnel's teardown (before the loop or
    during its iterations [pre]), the loop returns after at most one more
    Read per byte received, plus one. *)
Theorem copy_loop_ends k w f pre post :
  proxy_inv k w -> open_body w f -> steps_ok (pre ++ post) ->
  Z.of_nat (k + total_opens (copy_events (pre ++ post))) <= 2 ^ 30 ->
  ended f = true \/ failed id w (copy_events pre) = true ->
  (length (pending f ++ received id w (copy_events (pre ++ post))) < length post)%nat ->
  exists e, (copyBody id w (pre ++ post)).2 = Some e.
Proof.
  intros H Hf Hok Hb Hd Hl. eapply copyBody_stops; [exact H|exact Hf|done|done| |done]. intros f' Hf'.
  apply Forall_app in Hok as [Hok _]. rewrite copy_events_app, total_opens_app in Hb.
  destruct (copied_steps pre k w f H Hf Hok ltac:(lia)) as (taken & f1 & C). destruct Hf' as [Hf' _]. rewrite (proj1 (cp_now _ _ _ _ _ _ C)) in Hf'. simplify_eq.
  by apply (cp_ended _ _ _ _ _ _ C).
Qed.

(** Nor does it end before its stream: with a caller that takes every write,
    and a stream that ends within [pre] and does not fail before, the loop
    ends, and if it is by an error then after all that came within [pre]. *)
Lemma copy_completes k w f pre post :
  proxy_inv k w -> open_body w f -> steps_ok (pre ++ post) ->
  Z.of_nat (k + total_opens (copy_events (pre ++ post))) <= 2 ^ 30 ->
  (forall f', open_body (tunnel_evs w (copy_events pre)) f' -> ended f' = true) ->
  failure f = None -> failed id w (copy_events pre) = false -> Forall (fun st => cp_accepts st = true) (pre ++ post) ->
  (length (pending f ++ received id w (copy_events (pre ++ post))) < length post)%nat ->
  let '(_, out, r) := copyBody id w (pre ++ post) in
  r = Some CopyEOF \/
  exists e, r = Some (CopyFailed e) /\ (pending f ++ received id w (copy_events pre)) `prefix_of` out.
Proof.
  intros H Hf Hok Hb Hd Hfl Hnf Hacc Hl. destruct (copyBody_stops k w f pre post H Hf Hok Hb Hd Hl) as [e He].
  destruct (copyBody id w (pre ++ post)) as [[w' out] r] eqn:Hc. cbn in He. subst r.
  destruct (copyBody_run (pre ++ post) k w f w' out (Some e) H Hf Hok Hb Hc) as (n & lost & f' & Hn & C & Hr).
  destruct e as [|e|]; [by left|right; exists e; split; [done|]|].
  - destruct Hr as (-> & _ & ->). rewrite app_nil_r in C. pose proof (cp_bytes _ _ _ _ _ _ C) as Hby. cbn in Hby. rewrite app_nil_r in Hby.
    assert (Hle : (length pre <= n)%nat).
    { destruct (decide (length pre <= n)%nat) as [?|Hlt]; [done|exfalso].
      destruct (proj1 (cp_failed _ _ _ _ _ _ C) ltac:(by eexists)) as [[e' ?]|Hx]; [congruence|].
      rewrite take_app_le in Hx by lia. rewrite <- (take_drop n pre), copy_events_app, failed_app, Hx in Hnf. done. }
    rewrite <- Hby. rewrite take_app_ge, copy_events_app, received_app by lia. rewrite app_assoc. by apply prefix_app_r.
  - destruct Hr as (_ & _ & Hex). exfalso. apply Exists_exists in Hex as (s1 & Hin & Hs1).
    rewrite Forall_forall in Hacc. specialize (Hacc _ Hin). congruence.
Qed.

End Copy.

(** ** The handler *)

Section Handler.

Context {HD : HpackDecoder}.

(** [d] has been added to the in-flight counter, modulo 2^64. *)
Definition counts (w w' : Worker) (d : Z) : Prop := i64 (w_inFlight w') = i64 (w_inFlight w + d).

Lemma i64_add_l a b : i64 (i64 a + b) = i64 (a + b).
Proof.
  unfold i64. f_equal. replace ((a + 2 ^ 63) `mod` 2 ^ 64 - 2 ^ 63 + b + 2 ^ 63) with ((a + 2 ^ 63) `mod` 2 ^ 64 + b) by lia.
  rewrite Z.add_mod_idemp_l by done. f_equal. lia.
Qed.

Lemma counts_same w w' : w_inFlight w' = w_inFlight w -> counts w w' 0.
Proof. unfold counts. intros ->. by rewrite Z.add_0_r. Qed.

Lemma counts_trans w1 w2 w3 d1 d2 : counts w1 w2 d1 -> counts w2 w3 d2 -> counts w1 w3 (d1 + d2).
Proof.
  unfold counts. intros H1 H2. by rewrite H2, <- (i64_add_l (w_inFlight w2)), H1, i64_add_l, Z.add_assoc.
Qed.

Lemma counts_add w d : counts w (addInFlight w d) d.
Proof. pose proof (i64_add_l (w_inFlight w + d) 0) as H. rewrite !Z.add_0_r in H. exact H. Qed.

Lemma deliverResponse_inFlight w d : w_inFlight (deliverResponse w d) = w_inFlight w.
Proof. unfold deliverResponse. destruct (getStream w _); [by destruct (dh_EndStream d)|done]. Qed.

Lemma closeStream_inFlight w id now : w_inFlight (closeStream w id now) = w_inFlight w.
Proof. unfold closeStream. by destruct (GetStream _ _). Qed.

Lemma openStream_inFlight w p iw req err now : w_inFlight (openStream w p iw req err now).1 = w_inFlight w.
Proof. rewrite openStream_eq. unfold opened. cbv zeta. destruct (Draining _); [done|]. by destruct (_ <=? _), err, (NextStreamID (w_conn w)). Qed.

Lemma handleProxyFrame_inFlight w ch now f : w_inFlight (handleProxyFrame w ch now f).1 = w_inFlight w.
Proof.
  destruct f as [ack ss|i inc|f|f|i data len es|ack data|l code|i code|]; cbn [handleProxyFrame]; try done.
  - destruct ack; [done|]. by destruct (ApplyPeerSettings _ _) as [c [e|]].
  - destruct (StartHeaders _ f) as [h [[d|]|e]]; [|done..]. exact (deliverResponse_inFlight _ d).
  - by destruct (HandleInboundData _ _ _ _ _ _ _).
  - by destruct ack.
  - by destruct (negb _).
  - by destruct (getStream w i).
Qed.

Lemma continueBlock_inFlight w f : w_inFlight (continueBlock (R := proxyRole) w f).1 = w_inFlight w.
Proof.
  unfold continueBlock. destruct f as [| | |cf| | | | |]; try done. destruct (negb _); [done|].
  destruct (ConsumeContinuation _ cf) as [h [[d|]|e]]; [|done..]. exact (deliverResponse_inFlight _ d).
Qed.

Lemma tunnel_ev_counts w e : counts w (tunnel_ev w e) (ev_inFlight e).
Proof.
  destruct e as [ch now f|e|d|]; [..|apply counts_add|by apply counts_same]; apply counts_same; cbn [tunnel_ev].
  - destruct (InContinuation _); [apply continueBlock_inFlight|apply handleProxyFrame_inFlight].
  - destruct e as [req err now|i now|i want|i plen|i]; cbn [forward_ev]; try done.
    + apply openStream_inFlight.
    + apply closeStream_inFlight.
    + destruct (GetStream _ _); [|done]. by destruct (Reserve _ _ _) as [[? ?] ?].
    + destruct (GetStream _ _); [|done]. by destruct (Read _ _ _) as [[? ?] ?].
Qed.

(** What a history adds to the counter. *)
Definition moves (es : list TunnelEv) : Z := foldr (fun e z => ev_inFlight e + z) 0 es.

Lemma moves_app es es' : moves (es ++ es') = moves es + moves es'.
Proof. unfold moves. induction es as [|e es IH]; [done|]. rewrite <- app_comm_cons. cbn [foldr]. lia. Qed.

Lemma tunnel_evs_counts w es : counts w (tunnel_evs w es) (moves es).
Proof.
  revert w. induction es as [|e es IH]; intros w; [by apply counts_same|].
  eapply counts_trans; [apply tunnel_ev_counts|apply IH].
Qed.

(** *** Opening *)

(** The state in which [openStream] runs, the id it would take, and the state
    the handler waits in. *)
Definition openingAt (w : Worker) (x : Script) : Worker :=
  tunnel_evs (tunnel_evs (addInFlight w 1) (x_before x)) (x_racing x).

Definition streamOf (w : Worker) (x : Script) : Z := (NextStreamID (w_conn (openingAt w x))).2.

Definition opening_opens (x : Script) : nat :=
  (sum_list_with ev_opens (x_before x) + sum_list_with ev_opens (x_racing x))%nat.

Definition no_stream (w : Worker) (id : Z) : Prop := c_streams (w_conn w) !! id = None /\ w_streams w !! id = None.

Lemma no_stream_iff k w id : proxy_inv k w -> c_streams (w_conn w) !! id = None -> no_stream w id.
Proof.
  intros H Hc. split; [done|]. destruct (w_streams w !! id) eqn:E; [|done].
  destruct (proj1 (pi_regs _ _ H id)) as [s Hs]; [by rewrite E|congruence].
Qed.

Lemma opened_inFlight w p iw req : w_inFlight (opened w p iw req) = w_inFlight w.
Proof. unfold opened. by destruct (NextStreamID (w_conn w)). Qed.

(** [openStream] with a fresh id: the stream's empty body, or no trace. *)
Lemma openStream_result k w p iw req err now w' r :
  Z.of_nat k < 2 ^ 30 -> proxy_inv k w -> is_i32 iw -> is_request req -> openStream w p iw req err now = (w', r) ->
  proxy_inv (S k) w' /\ w_inFlight w' = w_inFlight w /\
  match r with
  | inl id => id = (NextStreamID (w_conn w)).2 /\ c_streams (w_conn w') !! id = Some (Acquire newStream id p iw)
  | inr e => no_stream w' (NextStreamID (w_conn w)).2
  end.
Proof.
  intros Hk H Hw Hreq Ho. pose proof (openStream_inv _ _ _ _ _ _ _ _ _ Hk H Hw Hreq Ho) as H'.
  pose proof (openStream_inFlight w p iw req err now) as Hf. rewrite Ho in Hf. split_and!; [done|done|].
  pose proof (NextStreamID_fresh k w Hk H) as Hfr. rewrite openStream_eq in Ho. cbv zeta in Ho.
  destruct (Draining _); [simplify_eq; by eapply no_stream_iff|].
  destruct (_ <=? _); [simplify_eq; by eapply no_stream_iff|].
  destruct err as [e|]; injection Ho as <- <-.
  - eapply no_stream_iff; [done|].
    change (c_streams (RemoveStream (w_conn (opened w p iw req)) (NextStreamID (w_conn w)).2 now) !! (NextStreamID (w_conn w)).2 = None).
    destruct (RemoveStream_spec (w_conn (opened w p iw req)) (NextStreamID (w_conn w)).2 now) as (_ & -> & _).
    apply lookup_delete_eq.
  - split; [done|apply opened_stream].
Qed.

Lemma forwardIntent_request range req : is_request (forwardIntent range req).
Proof. by intros id. Qed.

Lemma openForward_result range req k w x w' r :
  proxy_inv k w -> Forall tunnel_ev_ok (x_racing x) -> Z.of_nat (k + sum_list_with ev_opens (x_racing x)) < 2 ^ 30 ->
  openForward range req w x = (w', r) ->
  proxy_inv (S (k + sum_list_with ev_opens (x_racing x))) w' /\ counts w w' (moves (x_racing x)) /\
  match r with
  | inl id => id = (NextStreamID (w_conn (tunnel_evs w (x_racing x)))).2 /\
      c_streams (w_conn w') !! id = Some (Acquire newStream id 0 (InitialStreamWindow (c_Send (w_conn w))))
  | inr e => no_stream w' (NextStreamID (w_conn (tunnel_evs w (x_racing x)))).2
  end.
Proof.
  intros H Hok Hb Ho. unfold openForward in Ho.
  assert (H1 : proxy_inv (k + sum_list_with ev_opens (x_racing x)) (tunnel_evs w (x_racing x)))
    by (apply tunnel_evs_inv; [by intros _|done|lia]).
  destruct (openStream_result _ _ _ _ _ _ _ _ _ Hb H1 (PeerInit_i32 _ _ (pi_conn _ _ H)) (forwardIntent_request range req) Ho) as (H2 & Hf & Hr).
  split_and!; [done| |done]. unfold counts. rewrite Hf. apply tunnel_evs_counts.
Qed.

(** *** Between opening and closing *)

(** The handler's stream is open, and the counter is [z] more than at [w0]. *)
Record alive (k : nat) (id : Z) (w0 w : Worker) (z : Z) : Prop := {
  al_inv : proxy_inv k w;
  al_body : exists f, open_body id w f;
  al_count : counts w0 w z
}.

Lemma alive_mono k k' id w0 w z : (k <= k')%nat -> alive k id w0 w z -> alive k' id w0 w z.
Proof. intros Hk [H1 H2 H3]. split; [by eapply proxy_inv_mono|done|done]. Qed.

(** A step that keeps the bodies and the counter. *)
Lemma alive_keep k id w0 w z w' :
  alive k id w0 w z -> proxy_inv k w' -> abs (wbodies w') = abs (wbodies w) -> w_inFlight w' = w_inFlight w ->
  alive k id w0 w' z.
Proof. intros [H1 H2 H3] H' Ha Hf. split; [done|unfold open_body; by rewrite Ha|]. unfold counts. by rewrite Hf. Qed.

Lemma alive_env k id w0 w z es :
  alive k id w0 w z -> env_ok id es -> Z.of_nat (k + sum_list_with ev_opens es) <= 2 ^ 30 ->
  alive (k + sum_list_with ev_opens es) id w0 (tunnel_evs w es) (z + moves es).
Proof.
  intros [H [f Hf] Hc] Hes Hb. destruct (copied_env id k w f es H Hf Hes Hb) as (f' & [I N _ _ _]).
  split; [done|by exists f'|]. eapply counts_trans; [done|apply tunnel_evs_counts].
Qed.

Lemma sendCancel_inv k w id : proxy_inv k w -> proxy_inv k (sendCancel w id).
Proof.
  intros H. apply (proxy_conn_step k w (w_mem w)); [done|apply submitAsync_inv, H|by apply submitAsync_regs].
Qed.

Lemma alive_cancel k id w0 w z : alive k id w0 w z -> alive k id w0 (sendCancel w id) z.
Proof.
  intros H. eapply alive_keep; [exact H|apply sendCancel_inv, H| |done].
  unfold wbodies, sendCancel. cbn [w_mem w_conn set_conn]. by rewrite submitAsync_bodies.
Qed.

Lemma alive_clear k id w0 w z cs :
  alive k id w0 w z -> getStream w id = Some cs -> alive k id w0 (set_streams w (<[id := clearHeader cs]> (w_streams w))) z.
Proof.
  intros H Hg. eapply alive_keep; [exact H| |done|done].
  apply proxy_streams_step; [apply H|]. intros j. unfold getStream in Hg. rewrite lookup_insert_is_Some'.
  split; [intros [<- |?]; [by rewrite Hg|done]|by right].
Qed.

Lemma copied_alive k id w0 w f z h taken f' :
  alive k id w0 w z -> copied id k w f h taken f' ->
  alive (k + sum_list_with ev_opens h) id w0 (tunnel_evs w h) (z + moves h).
Proof.
  intros [H1 H2 H3] [I N _ _ _]. split; [done|by exists f'|]. eapply counts_trans; [done|apply tunnel_evs_counts].
Qed.

Lemma total_opens_take id n steps :
  (sum_list_with ev_opens (copy_events id (take n steps)) <= sum_list_with ev_opens (copy_events id steps))%nat.
Proof.
  rewrite <- (take_drop n steps) at 2. unfold copy_events. rewrite fmap_app, concat_app, sum_list_with_app. lia.
Qed.

Lemma alive_copy k id w0 w z steps w' out r :
  alive k id w0 w z -> steps_ok id steps -> Z.of_nat (k + sum_list_with ev_opens (copy_events id steps)) <= 2 ^ 30 ->
  copyBody id w steps = (w', out, r) ->
  exists n, alive (k + sum_list_with ev_opens (copy_events id steps)) id w0 w' (z + moves (copy_events id (take n steps))).
Proof.
  intros H Hok Hb Hc. destruct (al_body _ _ _ _ _ H) as [f Hf].
  destruct (copyBody_run id steps k w f w' out r (al_inv _ _ _ _ _ H) Hf Hok Hb Hc) as (n & lost & f' & Hn & C & Hr).
  exists n. pose proof (copied_alive _ _ _ _ _ _ _ _ _ H C) as Ha.
  eapply (alive_mono _ (k + sum_list_with ev_opens (copy_events id steps))) in Ha; [|pose proof (total_opens_take id n steps); lia].
  unfold copy_result in Hr. destruct r as [[]|]; destruct_and?; subst w'; [done..|by apply alive_cancel|done].
Qed.

Lemma finishForward_inv k w id x : proxy_inv k w -> proxy_inv k (finishForward w id x).
Proof. intros H. by apply addInFlight_inv, closeStream_inv. Qed.

Lemma closeStream_gone k w id now : proxy_inv k w -> no_stream (closeStream w id now) id.
Proof.
  intros H. eapply no_stream_iff; [by apply closeStream_inv|]. unfold closeStream, GetStream.
  destruct (c_streams (w_conn w) !! id) as [s|] eqn:E; [|done]. cbn [w_conn set_mem_conn deregisterStream set_streams set_conn].
  destruct (RemoveStream_spec (w_conn w) id now) as (_ & -> & _). apply lookup_delete_eq.
Qed.

Lemma finishForward_gone k w id x : proxy_inv k w -> no_stream (finishForward w id x) id.
Proof. exact (closeStream_gone k w id (x_now x)). Qed.

Lemma counts_last w0 w z d : counts w0 w z -> w_inFlight (addInFlight w d) = i64 (w_inFlight w0 + (z + d)).
Proof. unfold counts. intros H. cbn. by rewrite <- i64_add_l, H, i64_add_l, Z.add_assoc. Qed.

(** *** The whole handler *)

(** Where a phase leaves the stream and the counter. *)
Definition settled (k : nat) (id : Z) (w0 w : Worker) (ph : Phase) (z : Z) : Prop :=
  match ph with
  | Returned | Panicked => proxy_inv k w /\ no_stream w id /\ w_inFlight w = i64 (w_inFlight w0 + (z - 1))
  | _ => alive k id w0 w z
  end.

Lemma settled_mono k k' id w0 w ph z : (k <= k')%nat -> settled k id w0 w ph z -> settled k' id w0 w ph z.
Proof.
  intros Hk. destruct ph; cbn; try by apply alive_mono.
  all: intros (H & ?); split; [by eapply proxy_inv_mono|done].
Qed.

Lemma finishForward_settled k id w0 w z x ph :
  alive k id w0 w z -> ph = Returned \/ ph = Panicked -> settled k id w0 (finishForward w id x) ph z.
Proof.
  intros [H _ Hc] Hph. assert (Hs : proxy_inv k (finishForward w id x) /\ no_stream (finishForward w id x) id /\
    w_inFlight (finishForward w id x) = i64 (w_inFlight w0 + (z - 1))).
  { split_and!; [by apply finishForward_inv|by eapply finishForward_gone|]. apply (counts_last w0 _ z (-1)).
    unfold counts. by rewrite closeStream_inFlight. }
  by destruct Hph as [-> | ->].
Qed.

(** What may have happened around the handler of stream [id] once it is open. *)
Definition ran (id : Z) (x : Script) (h : list TunnelEv) : Prop :=
  exists n (b : bool), h = x_wait x ++ copy_events id (take n (x_copy x)) ++ if b then x_pump x else [].

Definition script_ok (id : Z) (x : Script) : Prop :=
  Forall tunnel_ev_ok (x_before x ++ x_racing x) /\ env_ok id (x_wait x) /\ steps_ok id (x_copy x) /\ env_ok id (x_pump x).

Definition exchange_opens (id : Z) (x : Script) : nat :=
  (sum_list_with ev_opens (x_wait x) + sum_list_with ev_opens (copy_events id (x_copy x)) + sum_list_with ev_opens (x_pump x))%nat.

Lemma awaitPump_settled k id w0 w z req x reply w' r ph :
  alive k id w0 w z -> env_ok id (x_pump x) -> Z.of_nat (k + sum_list_with ev_opens (x_pump x)) <= 2 ^ 30 ->
  awaitPump req w id x reply = (w', r, ph) ->
  r = reply /\ (ph = Returned \/ ph = Pumping) /\
  settled (k + sum_list_with ev_opens (x_pump x)) id w0 w' ph (z + moves (x_pump x)).
Proof.
  intros H Hok Hb Ha. pose proof (alive_env _ _ _ _ _ _ H Hok Hb) as H1. unfold awaitPump in Ha.
  destruct (_ || _); injection Ha as <- <- <-; (split_and!; [done|auto|]); [|done].
  apply finishForward_settled; auto.
Qed.

(** The wait changes nothing of its own but a reset. *)
Lemma waitForResponseHeaders_alive k id w0 w z x w' r :
  alive k id w0 w z -> env_ok id (x_wait x) -> Z.of_nat (k + sum_list_with ev_opens (x_wait x)) <= 2 ^ 30 ->
  waitForResponseHeaders w id x = (w', r) ->
  alive (k + sum_list_with ev_opens (x_wait x)) id w0 w' (z + moves (x_wait x)).
Proof.
  intros H Hok Hb Hw. pose proof (alive_env _ _ _ _ _ _ H Hok Hb) as H1. unfold waitForResponseHeaders in Hw.
  destruct (x_outcome x); [|by injection Hw as <- _; apply alive_cancel|by destruct (w_done _); injection Hw as <- _].
  destruct (getStream _ id) as [cs|]; [|by injection Hw as <- _].
  by destruct (cs_closed cs), (cs_respErr cs); injection Hw as <- _.
Qed.

Lemma writeResponse_alive range k id w0 w z steps w' r ph :
  alive k id w0 w z -> steps_ok id steps -> Z.of_nat (k + sum_list_with ev_opens (copy_events id steps)) <= 2 ^ 30 ->
  writeResponse range w id steps = (w', r, ph) ->
  exists n, (ph = Copying \/ ph = Pumping \/ ph = Panicked) /\
    alive (k + sum_list_with ev_opens (copy_events id steps)) id w0 w' (z + moves (copy_events id (take n steps))).
Proof.
  intros H Hok Hb Hw. unfold writeResponse in Hw.
  assert (H0 : forall w1, alive k id w0 w1 z ->
    alive (k + sum_list_with ev_opens (copy_events id steps)) id w0 w1 (z + moves (copy_events id (take 0 steps)))).
  { intros w1 H1. cbn. rewrite Z.add_0_r. by eapply alive_mono, H1; lia. }
  destruct (getStream w id) as [cs|] eqn:Hg.
  2: { injection Hw as <- <- <-. exists 0%nat. split; [by left|by apply H0]. }
  pose proof (alive_clear _ _ _ _ _ _ H Hg) as H1. destruct (negb _).
  { injection Hw as <- <- <-. exists 0%nat. split; [by right; right|by apply H0]. }
  destruct (copyBody id _ steps) as [[w2 out] e] eqn:Hc.
  destruct (alive_copy _ _ _ _ _ _ _ _ _ H1 Hok Hb Hc) as [n H2]. injection Hw as <- <- <-. exists n.
  split; [destruct e; auto|done].
Qed.

Lemma exchange_settled range req k id w0 w z x w' reply ph :
  alive k id w0 w z -> env_ok id (x_wait x) -> steps_ok id (x_copy x) -> env_ok id (x_pump x) ->
  Z.of_nat (k + exchange_opens id x) <= 2 ^ 30 -> exchange range req w id x = (w', reply, ph) ->
  exists h, ran id x h /\ settled (k + exchange_opens id x) id w0 w' ph (z + moves h).
Proof.
  intros H Hw Hc Hp Hb Hx. unfold exchange_opens in *. unfold exchange in Hx.
  destruct (waitForResponseHeaders w id x) as [w1 r1] eqn:E1.
  pose proof (waitForResponseHeaders_alive _ _ _ _ _ _ _ _ H Hw ltac:(lia) E1) as H1.
  assert (Hran : forall n b, ran id x (x_wait x ++ copy_events id (take n (x_copy x)) ++ if b : bool then x_pump x else []))
    by (intros n b; by exists n, b).
  destruct r1 as [|r1|].
  - injection Hx as <- <- <-. eexists. split; [apply (Hran 0%nat false)|]. cbn. rewrite app_nil_r.
    eapply alive_mono, H1. lia.
  - destruct (awaitPump_settled _ _ _ _ _ _ _ _ _ _ _ H1 Hp ltac:(lia) Hx) as (_ & _ & H2).
    eexists. split; [apply (Hran 0%nat true)|]. cbn [take copy_events fmap list_fmap concat app].
    rewrite moves_app, Z.add_assoc. eapply settled_mono, H2. lia.
  - destruct (writeResponse range w1 id (x_copy x)) as [[w2 r2] ph2] eqn:E2.
    destruct (writeResponse_alive _ _ _ _ _ _ _ _ _ _ H1 Hc ltac:(lia) E2) as (n & Hph & H2).
    destruct Hph as [-> |[-> | ->]].
    + injection Hx as <- <- <-. eexists. split; [apply (Hran n false)|].
      rewrite app_nil_r, moves_app, Z.add_assoc. eapply alive_mono, H2. lia.
    + destruct (awaitPump_settled _ _ _ _ _ _ _ _ _ _ _ H2 Hp ltac:(lia) Hx) as (_ & _ & H3).
      eexists. split; [apply (Hran n true)|]. rewrite !moves_app, !Z.add_assoc. eapply settled_mono, H3. lia.
    + injection Hx as <- <- <-. eexists. split; [apply (Hran n false)|].
      rewrite app_nil_r, moves_app, Z.add_assoc. eapply settled_mono; [|apply finishForward_settled; [exact H2|auto]]. lia.
Qed.

(** All the ids asked for while the handler runs. *)
Definition script_opens (id : Z) (x : Script) : nat := (opening_opens x + 1 + exchange_opens id x)%nat.

(** The handler up to its open stream, or up to its refusal. *)
Lemma forward_opening range req k w x w1 r :
  proxy_inv k w -> Forall tunnel_ev_ok (x_before x ++ x_racing x) -> Z.of_nat (k + opening_opens x + 1) <= 2 ^ 30 ->
  openForward range req (tunnel_evs (addInFlight w 1) (x_before x)) x = (w1, r) ->
  proxy_inv (k + opening_opens x + 1) w1 /\ counts w w1 (1 + moves (x_before x ++ x_racing x)) /\
  match r with
  | inl id => id = streamOf w x /\ c_streams (w_conn w1) !! id = Some (Acquire newStream id 0
      (InitialStreamWindow (c_Send (w_conn (tunnel_evs (addInFlight w 1) (x_before x))))))
  | inr e => no_stream w1 (streamOf w x)
  end.
Proof.
  unfold opening_opens. intros H [Hok1 Hok2]%Forall_app Hb Ho.
  assert (H1 : proxy_inv (k + sum_list_with ev_opens (x_before x)) (tunnel_evs (addInFlight w 1) (x_before x))).
  { apply tunnel_evs_inv; [by intros _; apply addInFlight_inv|done|lia]. }
  destruct (openForward_result range req _ _ x w1 r H1 Hok2 ltac:(lia) Ho) as (H2 & Hc & Hr).
  split_and!; [by eapply proxy_inv_mono, H2; lia| |done].
  rewrite moves_app, Z.add_assoc. eapply counts_trans; [|exact Hc].
  eapply counts_trans; [apply counts_add|apply tunnel_evs_counts].
Qed.

(** C22. A forwarded request leaves no trace: however it ends (refused,
    answered, cancelled, detached, or by the panic of WriteHeader), whatever
    the frame reader, the other forwarders, the teardown, the body pump and
    the caller do meanwhile, once the handler is gone its stream is in neither
    registry, the in-flight counter has moved only by what others added to it,
    and the tunnel's invariant holds; until then its stream is registered. *)
Theorem forward_leaves_no_trace range req k w x w' reply ph :
  proxy_inv k w -> script_ok (streamOf w x) x -> Z.of_nat (k + script_opens (streamOf w x) x) <= 2 ^ 30 ->
  forward range req (Some w) x = (Some w', reply, ph) ->
  proxy_inv (k + script_opens (streamOf w x) x) w' /\
  if decide (ph = Returned \/ ph = Panicked) then
    no_stream w' (streamOf w x) /\
    exists h, (h = [] \/ ran (streamOf w x) x h) /\
      w_inFlight w' = i64 (w_inFlight w + moves (x_before x ++ x_racing x ++ h))
  else is_Some (c_streams (w_conn w') !! streamOf w x) /\ is_Some (w_streams w' !! streamOf w x).
Proof.
  intros H (Hok & Hw & Hc & Hp) Hb Hf. unfold script_opens in *. unfold forward in Hf.
  destruct (openForward range req _ x) as [w1 [id|e]] eqn:Eo;
    destruct (forward_opening _ _ _ _ _ _ _ H Hok ltac:(lia) Eo) as (H1 & Hc1 & Hr).
  - destruct Hr as [-> Hs]. set (id := streamOf w x) in *. clearbody id.
    assert (Ha : alive (k + opening_opens x + 1) id w w1 (1 + moves (x_before x ++ x_racing x))).
    { split; [done| |done]. unfold open_body, wbodies, abs. cbn. rewrite lookup_fmap, Hs. by eexists. }
    destruct (exchange range req w1 id x) as [[w2 r2] ph2] eqn:Ex. injection Hf as <- <- <-.
    destruct (exchange_settled _ _ _ _ _ _ _ _ _ _ _ Ha Hw Hc Hp ltac:(lia) Ex) as (h & Hran & Hset).
    rewrite <- !Nat.add_assoc in *. destruct (decide _) as [Hd|Hd].
    + assert (Hset' : settled (k + (opening_opens x + (1 + exchange_opens id x))) id w w2 Returned
        (1 + moves (x_before x ++ x_racing x) + moves h)) by (by destruct Hd as [-> | ->]).
      destruct Hset' as (Hi & Hn & Hin). split; [done|]. split; [done|]. exists h. split; [by right|].
      rewrite Hin. f_equal. rewrite !moves_app. lia.
    + assert (Hal : alive (k + (opening_opens x + (1 + exchange_opens id x))) id w w2
        (1 + moves (x_before x ++ x_racing x) + moves h)) by (destruct ph2; try done; exfalso; auto).
      split; [apply Hal|]. destruct (al_body _ _ _ _ _ Hal) as [f Hfb].
      assert (Hreg : is_Some (c_streams (w_conn w2) !! id)).
      { destruct Hfb as [Hfb _]. unfold wbodies, abs in Hfb. cbn in Hfb. rewrite lookup_fmap in Hfb. by destruct (c_streams (w_conn w2) !! id). }
      split; [done|]. by apply (pi_regs _ _ (al_inv _ _ _ _ _ Hal)).
  - injection Hf as <- <- <-. rewrite decide_True by auto. split.
    + apply addInFlight_inv. eapply proxy_inv_mono, H1. lia.
    + split; [exact Hr|]. exists []. split; [by left|]. rewrite app_nil_r.
      rewrite (counts_last _ _ _ _ Hc1). f_equal. lia.
Qed.

(** *** What the caller gets *)

(** The state in which [writeResponse] starts copying. *)
Definition copyingAt (wa : Worker) (id : Z) : Worker :=
  match getStream wa id with
  | Some cs => set_streams wa (<[id := clearHeader cs]> (w_streams wa))
  | None => wa
  end.

(** An answer of the worker's was sent. *)
Lemma exchange_proxied range req id w x w' st h out ph :
  exchange range req w id x = (w', Proxied st h out, ph) ->
  exists cs w2 e, let wa := tunnel_evs w (x_wait x) in
    x_outcome x = WaitAnswered /\ getStream wa id = Some cs /\ cs_closed cs = true /\ cs_respErr cs = None /\
    st = replyStatus cs /\ validStatus st = true /\ h = copyHeader range (cs_respHeader cs) /\
    copyBody id (copyingAt wa id) (x_copy x) = (w2, out, e) /\ (ph = Copying <-> e = None).
Proof.
  unfold exchange, waitForResponseHeaders, awaitPump. intros H. destruct (x_outcome x); [|by destruct (_ || _)|destruct (w_done _); [by destruct (_ || _)|done]].
  destruct (getStream _ id) as [cs|] eqn:Hg; [|done]. destruct (cs_closed cs) eqn:Hcl; [|done].
  destruct (cs_respErr cs) eqn:He; [by destruct (_ || _)|]. unfold writeResponse in H. rewrite Hg in H.
  destruct (validStatus _) eqn:Hv; [|done]. cbn [negb] in H.
  destruct (copyBody id _ (x_copy x)) as [[w2 out2] e] eqn:Hc. exists cs, w2, e. unfold copyingAt. rewrite Hg.
  destruct e as [e|]; [destruct (_ || _)|]; injection H as <- <- <- <- <-; split_and!; done.
Qed.

(** When its copy loop has ended and the body pump too, it returns. *)
Lemma exchange_returns range req id w x w' st h out ph :
  exchange range req w id x = (w', Proxied st h out, ph) -> ph <> Copying -> bodyEmpty req || x_pumped x = true -> ph = Returned.
Proof.
  unfold exchange, awaitPump. destruct (waitForResponseHeaders w id x) as [w1 [|r|]]; try done.
  - intros H _ Hp. rewrite Hp in H. by injection H.
  - unfold writeResponse. destruct (getStream w1 id); [|done]. destruct (negb _); [done|].
    destruct (copyBody id _ _) as [[w2 out2] [e|]]; intros H Hc Hp; [rewrite Hp in H|]; injection H; congruence.
Qed.

Lemma forward_proxied range req w x w' st h out ph :
  forward range req (Some w) x = (w', Proxied st h out, ph) ->
  exists wo id w2, openForward range req (tunnel_evs (addInFlight w 1) (x_before x)) x = (wo, inl id) /\
    exchange range req wo id x = (w2, Proxied st h out, ph).
Proof.
  unfold forward. destruct (openForward _ _ _ x) as [wo [id|e]]; [|done].
  destruct (exchange range req wo id x) as [[w2 r] ph2] eqn:E. intros [= <- -> ->]. by exists wo, id, w2.
Qed.

Lemma response_body_relayed' range req k w x w' st h out ph :
  proxy_inv k w -> script_ok (streamOf w x) x -> Z.of_nat (k + script_opens (streamOf w x) x) <= 2 ^ 30 ->
  forward range req (Some w) x = (w', Proxied st h out, ph) ->
  exists wo n, openForward range req (tunnel_evs (addInFlight w 1) (x_before x)) x = (wo, inl (streamOf w x)) /\
    let id := streamOf w x in
    let wc := copyingAt (tunnel_evs wo (x_wait x)) id in
    let history := copy_events id (take n (x_copy x)) in
    let got := received id wo (x_wait x) ++ received id wc history in
    out `prefix_of` got /\
    (ph <> Copying -> Forall (fun st => cp_accepts st = true) (x_copy x) ->
     out = got /\ exists err, abs (wbodies (tunnel_evs wc history)) !! id = Some (mkFifo [] true err)) /\
    ((copyBody id wc (x_copy x)).2 = Some CopyEOF ->
     out = got /\ abs (wbodies (tunnel_evs wc history)) !! id = Some (mkFifo [] true None)).
Proof.
  intros H (Hok & Hw & Hc & Hp) Hb Hf. unfold script_opens, exchange_opens in Hb.
  destruct (forward_proxied _ _ _ _ _ _ _ _ _ Hf) as (wo & id & w2 & Ho & Hx).
  destruct (forward_opening _ _ _ _ _ _ _ H Hok ltac:(lia) Ho) as (H1 & _ & -> & Hs).
  set (id := streamOf w x) in *. clearbody id. exists wo.
  destruct (exchange_proxied _ _ _ _ _ _ _ _ _ _ Hx) as (cs & w3 & e & _ & Hg & _ & _ & _ & _ & _ & Hcopy & Hph).
  assert (Hfresh : open_body id wo (mkFifo [] false None)).
  { split; [|done]. unfold wbodies, abs. cbn. by rewrite lookup_fmap, Hs. }
  destruct (copied_env id _ wo _ (x_wait x) H1 Hfresh Hw ltac:(lia)) as (f1 & C1).
  assert (Ha : alive (k + opening_opens x + 1 + sum_list_with ev_opens (x_wait x)) id wo (tunnel_evs wo (x_wait x)) (moves (x_wait x))).
  { split; [apply C1|exists f1; apply C1|apply tunnel_evs_counts]. }
  pose proof (alive_clear _ _ _ _ _ _ Ha Hg) as Ha2.
  unfold copyingAt in *. rewrite Hg in *. set (wc := set_streams _ _) in *.
  destruct (copyBody_run id (x_copy x) _ wc f1 _ _ _ (al_inv _ _ _ _ _ Ha2) (cp_now _ _ _ _ _ _ _ C1) Hc ltac:(lia) Hcopy)
    as (n & lost & f' & _ & C2 & Hr).
  exists n. split; [done|]. cbv zeta.
  assert (Hgot : received id wo (x_wait x) ++ received id wc (copy_events id (take n (x_copy x))) = out ++ lost ++ pending f').
  { pose proof (cp_bytes _ _ _ _ _ _ _ C1) as E1. cbn in E1. rewrite E1.
    pose proof (cp_bytes _ _ _ _ _ _ _ C2) as E2. by rewrite <- app_assoc in E2. }
  rewrite Hgot, Hcopy. pose proof (proj1 (cp_now _ _ _ _ _ _ _ C2)) as Hnow. split_and!; [by eexists| |].
  - intros Hne Hall. destruct e as [[|e|]|]; cbn in Hr; [| | |by destruct Hph; exfalso; auto].
    + destruct Hr as (-> & _ & ->). rewrite app_nil_r. split; [done|by exists None].
    + destruct Hr as (-> & _ & ->). rewrite app_nil_r. split; [done|by exists (Some e)].
    + destruct Hr as (_ & _ & Hex). exfalso. apply Exists_exists in Hex as (s1 & Hin & Hs1).
      rewrite Forall_forall in Hall. specialize (Hall _ Hin). congruence.
  - intros [= ->]. destruct Hr as (-> & _ & ->). by rewrite app_nil_r.
Qed.

(** C23. The caller gets the response body the tunnel received: what has been
    written to it is, in order and without loss or duplication, a prefix of
    the DATA received on the stream since it was opened; when the copy loop
    has ended and the caller has taken every write, it is all of it, the queue
    is empty and the stream was ended or failed. *)
Theorem response_body_relayed range req k w x w' st h out ph :
  proxy_inv k w -> script_ok (streamOf w x) x -> Z.of_nat (k + script_opens (streamOf w x) x) <= 2 ^ 30 ->
  forward range req (Some w) x = (w', Proxied st h out, ph) ->
  exists wo n, openForward range req (tunnel_evs (addInFlight w 1) (x_before x)) x = (wo, inl (streamOf w x)) /\
    let id := streamOf w x in
    let wc := copyingAt (tunnel_evs wo (x_wait x)) id in
    let history := copy_events id (take n (x_copy x)) in
    let got := received id wo (x_wait x) ++ received id wc history in
    out `prefix_of` got /\
    (ph <> Copying -> Forall (fun st => cp_accepts st = true) (x_copy x) ->
     out = got /\ exists err, abs (wbodies (tunnel_evs wc history)) !! id = Some (mkFifo [] true err)).
Proof.
  intros H Hok Hb Hf. destruct (response_body_relayed' range req k w x w' st h out ph H Hok Hb Hf) as (wo & n & Ho & H1 & H2 & _).
  by exists wo, n.
Qed.

(** *** The reply *)

Lemma openForward_cases range req w0 x w1 r :
  openForward range req w0 x = (w1, r) ->
  let wo := tunnel_evs w0 (x_racing x) in
  match r with
  | inl _ => Draining (w_conn wo) = false /\ saturated wo = false /\ x_sendErr x = None
  | inr e => Draining (w_conn wo) = true /\ e = ErrTunnelDraining \/
      Draining (w_conn wo) = false /\ saturated wo = true /\ e = ErrTunnelSaturated \/
      Draining (w_conn wo) = false /\ saturated wo = false /\ x_sendErr x = Some e
  end.
Proof.
  unfold openForward. rewrite openStream_eq. cbv zeta. set (wo := tunnel_evs w0 (x_racing x)). unfold saturated. intros H.
  destruct (Draining (w_conn wo)); [injection H as _ <-; by left|].
  destruct (_ <=? _); [injection H as _ <-; right; by left|].
  destruct (x_sendErr x) as [e|]; injection H as _ <-; [|done]. right; right. done.
Qed.

Lemma exchange_error range req id w x w' st ph :
  exchange range req w id x = (w', ErrorPage st, ph) ->
  st = 502 /\ let wa := tunnel_evs w (x_wait x) in
    (x_outcome x = WaitDetached /\ w_done wa = true \/
     x_outcome x = WaitAnswered /\ exists cs, getStream wa id = Some cs /\ cs_closed cs = true /\ is_Some (cs_respErr cs)).
Proof.
  unfold exchange, waitForResponseHeaders, writeResponse, awaitPump. intros H. destruct (x_outcome x).
  - destruct (getStream _ id) as [cs|] eqn:Hg; [|done]. destruct (cs_closed cs) eqn:Hcl; [|done].
    destruct (cs_respErr cs) as [e|] eqn:He.
    + destruct (_ || _); injection H as <- <- <-; (split; [done|right]; split; [done|]; exists cs; by rewrite He).
    + rewrite Hg in H. destruct (negb _); [done|]. destruct (copyBody id _ _) as [[w2 out] [e|]]; [by destruct (_ || _)|done].
  - by destruct (_ || _).
  - destruct (w_done _) eqn:Hd; [|done]. destruct (_ || _); injection H as <- <- <-; auto.
Qed.

Lemma exchange_silent range req id w x w' ph :
  exchange range req w id x = (w', NoReply, ph) -> x_outcome x = WaitCancelled \/ ph = Waiting \/ ph = Copying \/ ph = Panicked.
Proof.
  unfold exchange, waitForResponseHeaders, writeResponse, awaitPump. intros H. destruct (x_outcome x); [right|by left|right].
  - destruct (getStream _ id) as [cs|] eqn:Hg; [|injection H as _ <-; auto]. destruct (cs_closed cs); [|injection H as _ <-; auto].
    destruct (cs_respErr cs); [by destruct (_ || _)|]. rewrite Hg in H. destruct (negb _); [injection H as _ <-; auto|].
    destruct (copyBody id _ _) as [[w2 out] [e|]]; [by destruct (_ || _)|done].
  - destruct (w_done _); [by destruct (_ || _)|injection H as _ <-; auto].
Qed.

Lemma copyHeader_values range h :
  range h ≡ₚ map_to_list h -> map_Forall (fun k _ => CanonicalMIMEHeaderKey k = k) h ->
  copyHeader range h = filter (kept (fun _ => false)) h.
Proof. exact (addAll_filter (fun _ => false) range h). Qed.

(** 503 is backpressure. *)
Lemma forward_refused range req w x w' reply ph :
  x_sendErr x <> Some ErrTunnelSaturated -> x_sendErr x <> Some ErrTunnelDraining ->
  forward range req (Some w) x = (w', reply, ph) ->
  reply = ErrorPage 503 <-> Draining (w_conn (openingAt w x)) = true \/ saturated (openingAt w x) = true.
Proof.
  intros Hs1 Hs2 H. unfold forward in H.
  destruct (openForward range req _ x) as [w1 [id|e]] eqn:Eo;
    pose proof (openForward_cases _ _ _ _ _ _ Eo) as Hc; cbv zeta in Hc; fold (openingAt w x) in Hc.
  - destruct (exchange range req w1 id x) as [[w2 r] ph2] eqn:Ex. injection H as <- <- <-.
    destruct Hc as (-> & -> & _). split; [|by intros [?|?]]. intros ->. by destruct (exchange_error _ _ _ _ _ _ _ _ Ex).
  - injection H as <- <- <-. destruct Hc as [(-> & ->)|[(-> & -> & ->)|(-> & -> & He)]]; [split; auto..|].
    assert (Hst : openStatus e = 502) by (destruct e; try done; congruence). rewrite Hst. split; [done|by intros [?|?]].
Qed.

(** C24. What the public caller sees: 503 exactly for backpressure, a draining
    or a saturated tunnel at the moment the stream is to be opened; every other
    failure before the answer (HEADERS not sent, the tunnel gone, the stream
    failed) is 502; an answer is the worker's own: its status (502 in place of
    one that did not parse), within what WriteHeader accepts, and every header
    that has a value. *)
Theorem public_reply range req w x w' reply ph :
  x_sendErr x <> Some ErrTunnelSaturated -> x_sendErr x <> Some ErrTunnelDraining ->
  forward range req (Some w) x = (w', reply, ph) ->
  (reply = ErrorPage 503 <-> Draining (w_conn (openingAt w x)) = true \/ saturated (openingAt w x) = true) /\
  let wo := openForward range req (tunnel_evs (addInFlight w 1) (x_before x)) x in
  let wa := tunnel_evs wo.1 (x_wait x) in
  match reply with
  | ErrorPage st =>
      st = 503 \/ st = 502 /\ (is_Some (x_sendErr x) \/ exists id, wo.2 = inl id /\
        (x_outcome x = WaitDetached /\ w_done wa = true \/
         x_outcome x = WaitAnswered /\ exists cs, getStream wa id = Some cs /\ cs_closed cs = true /\ is_Some (cs_respErr cs)))
  | Proxied st h _ =>
      exists id cs, wo.2 = inl id /\ getStream wa id = Some cs /\ cs_closed cs = true /\ cs_respErr cs = None /\
        st = (if cs_respStatus cs =? 0 then 502 else cs_respStatus cs) /\ 100 <= st <= 999 /\
        (range (cs_respHeader cs) ≡ₚ map_to_list (cs_respHeader cs) ->
         map_Forall (fun k _ => CanonicalMIMEHeaderKey k = k) (cs_respHeader cs) ->
         h = filter (kept (fun _ => false)) (cs_respHeader cs))
  | NoReply => x_outcome x = WaitCancelled \/ ph = Waiting \/ ph = Copying \/ ph = Panicked
  end.
Proof.
  intros Hs1 Hs2 H. split; [by eapply forward_refused|]. unfold forward in H.
  destruct (openForward range req _ x) as [w1 [id|e]] eqn:Eo;
    pose proof (openForward_cases _ _ _ _ _ _ Eo) as Hc; cbv zeta in Hc; cbn [fst snd].
  - destruct (exchange range req w1 id x) as [[w2 r] ph2] eqn:Ex. injection H as <- <- <-.
    destruct r as [st|st h out|]; [| |by eapply exchange_silent].
    + destruct (exchange_error _ _ _ _ _ _ _ _ Ex) as [-> Hx]. right. split; [done|right]. exists id. done.
    + destruct (exchange_proxied _ _ _ _ _ _ _ _ _ _ Ex) as (cs & w3 & e & _ & Hg & Hcl & He & -> & Hv & -> & _).
      exists id, cs. unfold validStatus in Hv. bool_prop. split_and!; [done..|lia|lia|]. apply copyHeader_values.
  - injection H as <- <- <-. destruct Hc as [(_ & ->)|[(_ & _ & ->)|(_ & _ & He)]]; cbn [openStatus]; [by left..|right].
    split; [destruct e; try done; congruence|left]. by rewrite He.
Qed.

End Handler.

(** ** What the handler gets wrong *)

Section Deviations.

Context {HD : HpackDecoder}.

(** A status outside 100..999 from the worker ends the handler by the panic
    of WriteHeader: the deferred calls release the stream without waiting for
    the body pump, whether or not it is still using it. *)
Theorem bad_status_panics range req id w x cs :
  x_outcome x = WaitAnswered -> getStream (tunnel_evs w (x_wait x)) id = Some cs -> cs_closed cs = true ->
  cs_respErr cs = None -> cs_respStatus cs <> 0 -> ~ 100 <= cs_respStatus cs <= 999 ->
  exists w', exchange range req w id x = (w', NoReply, Panicked) /\
    w' = finishForward (copyingAt (tunnel_evs w (x_wait x)) id) id x.
Proof.
  intros Ho Hg Hc He Hz Hr. unfold exchange, waitForResponseHeaders. rewrite Ho, Hg, Hc, He. unfold writeResponse. rewrite Hg.
  assert (Hv : validStatus (replyStatus cs) = false).
  { unfold replyStatus, validStatus. rewrite (proj2 (Z.eqb_neq _ _) Hz). apply andb_false_iff. rewrite !Z.leb_gt. lia. }
  rewrite Hv. eexists. split; [done|]. unfold copyingAt. by rewrite Hg.
Qed.

(** The window of a new stream is the one in force before [openStream]: a
    SETTINGS frame handled between reading it and registering the stream
    changes the windows of the registered streams only. *)
Theorem initial_window_read_early range req k w x w1 id :
  proxy_inv k w -> Forall tunnel_ev_ok (x_racing x) -> Z.of_nat (k + sum_list_with ev_opens (x_racing x)) < 2 ^ 30 ->
  openForward range req w x = (w1, inl id) ->
  exists s, c_streams (w_conn w1) !! id = Some s /\ s_SendWindow s = InitialStreamWindow (c_Send (w_conn w)).
Proof.
  intros H Hok Hb Ho. destruct (openForward_result _ _ _ _ _ _ _ H Hok Hb Ho) as (_ & _ & _ & Hs).
  eexists. split; [exact Hs|done].
Qed.

(** A caller that goes away can leave the forwarder parked: the watcher
    only queues RST_STREAM(CANCEL), it does not end the local body, so a
    forwarder blocked in Read is still blocked afterwards, its stream still
    registered; a peer that honours the reset sends nothing more on it. *)
Theorem cancel_does_not_end_body w id n w1 :
  readBody w id n = Some (w1, RBlocked) -> c_writeDead (w_conn w) = false ->
  (exists w2, readBody (sendCancel w id) id n = Some (w2, RBlocked)) /\
  w_streams (sendCancel w id) = w_streams w /\
  c_out (w_conn (sendCancel w id)) = c_out (w_conn w) ++ [SendRSTStream id ErrCodeCancel].
Proof.
  unfold readBody, sendCancel, GetStream. cbn [w_conn w_mem w_streams set_conn]. intros Hr Hd.
  rewrite (proj1 (submitAsync_frame _ _)), submitAsync_alive by done. split_and!; [|done..].
  destruct (c_streams (w_conn w) !! id) as [s|]; [|done].
  destruct (Read (w_mem w) s n) as [[m s'] r]. injection Hr as _ ->. by eexists.
Qed.

End Deviations.

(** ** Witnesses *)

Module ExchangeDemo.

Import TunnelDemo.

Definition req : Request := ForwardDemo.demo_request.

Definition frame (f : Frame) : TunnelEv := TFrame None 0 f.

(** The worker lowers the initial window while the stream is being opened. *)
Definition shrink : TunnelEv := frame (FSettings false [(SettingInitialWindowSize, 0)]).

Definition headers : TunnelEv := frame (FHeaders (mkHeadersFrame 1 answer_block false true)).

Definition script (wait : list TunnelEv) (copy : list CopyStep) : Script :=
  mkScript [TInFlight 1] [shrink] None wait WaitAnswered copy [TForward (FwReserve 1 3)] true 5.

(** HEADERS and a byte before the copy loop, another one in it; the stream is
    then ended, or reset. *)
Definition answered : Script :=
  script [headers; frame (FData 1 [x61] 1 false)]
    [mkCopyStep [] true; mkCopyStep [frame (FData 1 [x62] 1 true)] true; mkCopyStep [] true].

Definition broken : Script :=
  script [headers; frame (FData 1 [x61] 1 false)]
    [mkCopyStep [] true; mkCopyStep [frame (FData 1 [x62] 1 false)] true; mkCopyStep [frame (FRSTStream 1 2)] true].

Definition run (x : Script) : option Worker * PublicReply * Phase := forward map_to_list req (Some start) x.

Definition after : Worker := default start (run answered).1.1.

Definition page : PublicReply := Proxied 200 {[ "X-Test"%string := ["1"]%string ]} [x61; x62].

Lemma run_answered : forward map_to_list req (Some start) answered = (Some after, page, Returned).
Proof. unfold after, run. apply triple_fst; vm_compute; reflexivity. Qed.

Lemma stream_one x : x_before x = [TInFlight 1] -> x_racing x = [shrink] -> streamOf start x = 1.
Proof. intros E1 E2. unfold streamOf, openingAt. rewrite E1, E2. vm_compute. reflexivity. Qed.

Lemma answered_ok : script_ok 1 answered.
Proof.
  split_and!; cbn; repeat constructor; cbn; try (by vm_compute); try lia.
  all: vm_compute; discriminate.
Qed.

Lemma forward_leaves_no_trace_witness :
  no_stream after 1 /\ w_inFlight after = 1.
Proof.
  pose proof (forward_leaves_no_trace map_to_list req 0 start answered after page Returned start_inv) as H.
  rewrite (stream_one answered) in H by reflexivity.
  destruct (H answered_ok ltac:(vm_compute; discriminate) run_answered) as (_ & Hn & _).
  split; [exact Hn|vm_compute; reflexivity].
Defined.

Lemma response_body_relayed_witness :
  exists wo n, [x61; x62] `prefix_of`
    received 1 wo (x_wait answered) ++
    received 1 (copyingAt (tunnel_evs wo (x_wait answered)) 1) (copy_events 1 (take n (x_copy answered))).
Proof.
  pose proof (response_body_relayed map_to_list req 0 start answered (Some after) 200 {[ "X-Test"%string := ["1"]%string ]}
    [x61; x62] Returned start_inv) as H.
  rewrite (stream_one answered) in H by reflexivity.
  destruct (H answered_ok ltac:(vm_compute; discriminate) run_answered) as (wo & n & _ & Hp & _).
  exists wo, n. exact Hp.
Defined.

Lemma public_reply_witness :
  let wo := openForward map_to_list req (tunnel_evs (addInFlight start 1) (x_before answered)) answered in
  exists id cs, wo.2 = inl id /\ getStream (tunnel_evs wo.1 (x_wait answered)) id = Some cs /\ cs_respErr cs = None.
Proof.
  destruct (public_reply map_to_list req start answered (Some after) page Returned ltac:(discriminate) ltac:(discriminate)
    run_answered) as (_ & id & cs & Ho & Hg & _ & He & _).
  exists id, cs. exact (conj Ho (conj Hg He)).
Defined.

(** A truncated response is indistinguishable from a complete one: the caller
    is sent the same status, headers and bytes, and the handler returns
    normally, whether the worker ended the stream or reset it halfway. *)
Theorem truncated_body_is_not_signalled :
  (run answered).1.2 = (run broken).1.2 /\ (run answered).2 = (run broken).2 /\ (run broken).2 = Returned.
Proof. vm_compute. split_and!; reflexivity. Qed.

(** The stream opened while the window was lowered to 0 keeps 65535. *)
Definition opening : Worker * (Z + gerror) := openForward map_to_list req start answered.

Lemma initial_window_read_early_witness :
  (exists s, c_streams (w_conn opening.1) !! 1 = Some s /\ s_SendWindow s = InitialStreamWindow (c_Send (w_conn start))) /\
  InitialStreamWindow (c_Send (w_conn start)) = 65535 /\ InitialStreamWindow (c_Send (w_conn opening.1)) = 0.
Proof.
  split; [|split; vm_compute; reflexivity].
  assert (E : openForward map_to_list req start answered = (opening.1, inl 1))
    by (unfold opening; apply pair_fst; vm_compute; reflexivity).
  refine (initial_window_read_early map_to_list req 0 start answered opening.1 1 start_inv _ _ E).
  - repeat constructor; vm_compute; discriminate.
  - vm_compute. reflexivity.
Defined.

(** A HEADERS with status 42. *)
Definition odd_status : DecodedHeaders := mkDecoded ∅ "" "" "" "42" 1 false.

Definition odd : Worker := deliverResponse opened1.1 odd_status.

Lemma bad_status_panics_witness :
  exists w', exchange map_to_list req odd 1 (mkScript [] [] None [] WaitAnswered [] [] false 0) = (w', NoReply, Panicked).
Proof.
  destruct (bad_status_panics map_to_list req 1 odd (mkScript [] [] None [] WaitAnswered [] [] false 0)
    (mkCS None ∅ 42 true)) as (w' & H & _).
  - reflexivity.
  - vm_compute. reflexivity.
  - reflexivity.
  - reflexivity.
  - discriminate.
  - cbn. lia.
  - exists w'. exact H.
Defined.

(** The copy loop of [broken], entered with the first byte queued. *)
Definition copying : Worker := copyingAt (tunnel_evs opening.1 (x_wait broken)) 1.

Lemma opening_inv : proxy_inv 1 opening.1.
Proof.
  assert (E : openForward map_to_list req start answered = (opening.1, inl 1))
    by (unfold opening; apply pair_fst; vm_compute; reflexivity).
  refine (proj1 (openForward_result map_to_list req 0 start answered opening.1 (inl 1) start_inv _ _ E)).
  - repeat constructor; vm_compute; discriminate.
  - vm_compute. reflexivity.
Qed.

Lemma waiting_inv : proxy_inv 1 (tunnel_evs opening.1 (x_wait broken)).
Proof.
  apply (tunnel_evs_inv 1 opening.1 (x_wait broken)).
  - intros _. apply opening_inv.
  - repeat constructor; vm_compute; discriminate.
  - vm_compute. discriminate.
Qed.

Definition idle_reads : list CopyStep := repeat (mkCopyStep [] true) 4.

Lemma copy_loop_ends_witness :
  exists e, (copyBody 1 (tunnel_evs opening.1 (x_wait broken)) (x_copy broken ++ idle_reads)).2 = Some e.
Proof.
  refine (copy_loop_ends 1 1 _ (mkFifo [x61] false None) (x_copy broken) idle_reads waiting_inv _ _ _ _ _).
  - vm_compute. split; vm_compute; reflexivity.
  - repeat constructor; vm_compute; try discriminate; exact I.
  - vm_compute. discriminate.
  - right. vm_compute. reflexivity.
  - apply Nat.ltb_lt. vm_compute. reflexivity.
Defined.

(** Nothing has come yet when the caller goes away. *)
Lemma cancel_does_not_end_body_witness :
  exists w2, readBody (sendCancel opening.1 1) 1 copyBuf = Some (w2, RBlocked).
Proof.
  refine (proj1 (cancel_does_not_end_body opening.1 1 copyBuf (default (start, REOF) (readBody opening.1 1 copyBuf)).1 _ _)).
  - vm_compute. reflexivity.
  - vm_compute. reflexivity.
Defined.

End ExchangeDemo.
