(* ===== verification/Answer.v ===== *)
(** * A response from the handler to the public caller

    The other direction of the tunnel: what the worker's writer makes of the
    intents of its stream goroutines is what the proxy's frame reader handles
    while [forward] runs ([emits] ties the two).  The theorem composes the
    writer, the transport, the header decoder, [deliverResponse], the body
    queue and the copy loop: the caller is sent the status, the headers and
    the bytes the handler wrote on that stream. *)

From Stdlib Require Import Strings.Byte Strings.String.
From S2P Require Import Prelude Errors Flow Names H2Stream Writer HeaderBlock Conn ConnInv FrameLoop Tunnel TunnelEvents Forward Intents Wire Exchange.

Open Scope Z_scope.

Section Answer.

Context {FR : Framer} {HE : HpackEncoder} {HD : HpackDecoder} {HC : HpackCodec} {WI : Wire}.

Variable range : header -> list (string * list string).
Hypothesis range_perm : forall h, range h ≡ₚ map_to_list h.

(** What the proxy decodes of a response intent. *)
Definition answered (i : writeIntent) : DecodedHeaders :=
  mkDecoded (filter forwardable (wi_header i)) "" "" "" (StatusString (wi_status i)) (wi_streamID i) (wi_endStream i).

Definition is_resp (i : writeIntent) : bool := match wi_kind i with wkRespHeaders => true | _ => false end.

Definition resp_for (id : Z) (i : writeIntent) : Prop := is_resp i = true /\ wi_streamID i = id.

#[local] Instance resp_for_dec id i : Decision (resp_for id i).
Proof. unfold resp_for. apply _. Defined.

(** The first response HEADERS on a stream, and the DATA on it. *)
Definition first_response (id : Z) (l : list writeIntent) : option writeIntent := head (filter (resp_for id) l).

Definition sent_data (id : Z) (i : writeIntent) : list byte :=
  match wi_kind i with wkData => if decide (wi_streamID i = id) then wi_data i else [] | _ => [] end.

(** Intents of the worker before its teardown; a handler that sets headers
    through [http.Header]'s methods has canonical names. *)
Definition response_ok (i : writeIntent) : Prop :=
  worker_intent i /\ (is_resp i = true -> request_typed i /\ 0 <= wi_status i <= 999).

(** The events whose frames are those of the worker's intents, in order; the
    other events are the proxy's own. *)
Inductive emits : Writer -> list writeIntent -> list TunnelEv -> Writer -> Prop :=
| emits_nil wr : emits wr [] [] wr
| emits_other wr l e es wr' :
    (forall ch now f, e <> TFrame ch now f) -> emits wr l es wr' -> emits wr l (e :: es) wr'
| emits_silent wr i l es wr' :
    intentFrame range wr i = None -> emits (processIntent range wr i).1 l es wr' -> emits wr (i :: l) es wr'
| emits_frame wr i l fr f ch now es wr' :
    intentFrame range wr i = Some fr -> (processIntent range wr i).2 = None -> received fr = RFrame f ->
    emits (processIntent range wr i).1 l es wr' -> emits wr (i :: l) (TFrame ch now f :: es) wr'.

Lemma emits_app_inv wr l es1 es2 wr' :
  emits wr l (es1 ++ es2) wr' ->
  exists l1 l2 wr1, l = l1 ++ l2 /\ emits wr l1 es1 wr1 /\ emits wr1 l2 es2 wr'.
Proof.
  intros H. remember (es1 ++ es2) as es eqn:E. revert es1 E.
  induction H as [wr|wr l e es wr' Hne H IH|wr i l es wr' Hi H IH|wr i l fr f ch now es wr' Hi Hp Hr H IH]; intros es1 E.
  - symmetry in E. apply app_eq_nil in E as [-> ->]. exists [], [], wr. repeat constructor.
  - destruct es1 as [|e1 es1]; simplify_eq/=.
    + exists [], l, wr. split_and!; [done|constructor|by constructor].
    + destruct (IH _ eq_refl) as (l1 & l2 & wr1 & -> & H1 & H2). exists l1, l2, wr1. split_and!; [done|by constructor|done].
  - destruct (IH _ E) as (l1 & l2 & wr1 & -> & H1 & H2). exists (i :: l1), l2, wr1. split_and!; [done|by constructor|done].
  - destruct es1 as [|e1 es1]; simplify_eq/=.
    + exists [], (i :: l), wr. split_and!; [done|constructor|by econstructor].
    + destruct (IH _ eq_refl) as (l1 & l2 & wr1 & -> & H1 & H2). exists (i :: l1), l2, wr1.
      split_and!; [done|by econstructor|done].
Qed.

(** ** One event *)

Lemma submitAsync_hdr c i : c_hdr (submitAsync c i) = c_hdr c.
Proof. unfold submitAsync. by destruct (c_writeDead c). Qed.

Lemma opened_hdr w p iw req : c_hdr (w_conn (opened w p iw req)) = c_hdr (w_conn w).
Proof.
  unfold opened. destruct (NextStreamID (w_conn w)) as [c id] eqn:E. cbn [w_conn set_conn set_streams].
  rewrite submitAsync_hdr. unfold NextStreamID in E. by injection E as <- _.
Qed.

Lemma forward_ev_hdr w e : c_hdr (w_conn (forward_ev w e)) = c_hdr (w_conn w).
Proof.
  destruct e as [req err now|id now|id want|id plen|i]; cbn [forward_ev].
  - rewrite openStream_eq. cbv zeta. destruct (Draining _); [done|]. destruct (_ <=? _); [done|].
    destruct err; cbn [fst w_conn set_mem_conn set_conn]; [|apply opened_hdr].
    by rewrite (proj1 (RemoveStream_spec _ _ _)), opened_hdr.
  - unfold closeStream. destruct (GetStream _ _); [|done]. cbn [w_conn set_mem_conn set_conn deregisterStream set_streams].
    apply RemoveStream_spec.
  - destruct (GetStream _ _); [|done]. by destruct (Reserve _ _ _) as [[? ?] ?].
  - destruct (GetStream _ _); [|done]. by destruct (Read _ _ _) as [[? ?] ?].
  - apply submitAsync_hdr.
Qed.

Lemma tunnel_ev_hdr w e : (forall ch now f, e <> TFrame ch now f) -> c_hdr (w_conn (tunnel_ev w e)) = c_hdr (w_conn w).
Proof.
  intros Hne. destruct e as [ch now f|e|d|]; [by destruct (Hne ch now f)|apply forward_ev_hdr|done|].
  exact (submitAsync_hdr _ (SendGoAway 0 ErrCodeNo)).
Qed.

Lemma ev_data_other id w e : (forall ch now f, e <> TFrame ch now f) -> ev_data id w e = [].
Proof. intros Hne. destruct e as [ch now f| | |]; [by destruct (Hne ch now f)|done..]. Qed.

(** Frames other than HEADERS leave the header state alone. *)
Definition plain_in (f : Frame) : bool :=
  match f with
  | FSettings ack _ => ack
  | FWindowUpdate _ _ | FData _ _ _ _ | FPing _ _ | FRSTStream _ _ => true
  | _ => false
  end.

Lemma handleProxyFrame_hdr w ch now f :
  plain_in f = true -> c_hdr (w_conn (handleProxyFrame w ch now f).1) = c_hdr (w_conn w).
Proof.
  intros Hf. destruct f as [[] ss|id inc| | |id data len es|[] data| |id code|]; try done; simpl.
  - apply HandleWindowUpdate_regs.
  - pose proof (sr_hdr _ _ (HandleInboundData_regs (w_mem w) (w_conn w) ch id data len es)) as H.
    by destruct (HandleInboundData _ _ _ _ _ _ _) as [m c].
  - apply HandlePingAck_regs.
  - apply submitAsync_hdr.
  - rewrite (sr_hdr _ _ (HandleRSTStream_regs _ _)). by destruct (getStream w id).
Qed.

(** What the proxy's framer makes of a worker's frame. *)
Lemma received_worker wr i fr f :
  response_ok i -> intentFrame range wr i = Some fr -> received fr = RFrame f ->
  if is_resp i then f = FHeaders (mkHeadersFrame (wi_streamID i) (responseBlock range wr i) (wi_endStream i) true)
  else plain_in f = true /\ forall id w ch now, InContinuation (c_hdr (w_conn w)) = false ->
         ev_data id w (TFrame ch now f) = sent_data id i.
Proof.
  unfold response_ok, worker_intent, intent_ok, intentFrame, is_resp, sent_data. intros [(Hok & Hk1 & Hk2) _] Hi Hr.
  destruct (wi_kind i); simplify_eq; try done.
  - rewrite received_settings_ack in Hr. by simplify_eq.
  - rewrite received_window_update in Hr by apply Hok. by simplify_eq.
  - rewrite received_ping in Hr by apply Hok. by simplify_eq.
  - rewrite received_rst in Hr by apply Hok. by simplify_eq.
  - destruct (decide (fits (responseBlock range wr i))) as [Hf|Hf].
    + rewrite received_headers in Hr by done. by simplify_eq.
    + destruct (received_large_headers (wi_streamID i) _ (wi_endStream i) true Hf). congruence.
  - destruct (decide (fits (wi_data i))) as [Hf|Hf].
    + rewrite received_data in Hr by done. simplify_eq. split; [done|]. intros id w ch now Hc. cbn. by rewrite Hc.
    + destruct (received_large_data (wi_streamID i) (wi_endStream i) _ Hf). congruence.
Qed.

(** The sender's side of a hop. *)
Lemma next_sync wr h i h' :
  codec_sync wr h -> in_sync (intentEncoder range wr i) (h_dec h') ->
  cache_ok CanonicalMIMEHeaderKey (h_canon h') -> InContinuation h' = false ->
  codec_sync (processIntent range wr i).1 h'.
Proof.
  intros [S1 S2 S3 S4] Hs Hc Hin. destruct (processIntent_frame range wr i S2) as (lower & Hlow & ->).
  by destruct (intentFrame range wr i); split.
Qed.

Lemma intentEncoder_plain wr i fr :
  response_ok i -> is_resp i = false -> intentFrame range wr i = Some fr -> intentEncoder range wr i = wr_enc wr.
Proof.
  unfold response_ok, worker_intent, is_resp, intentFrame, intentEncoder. intros [(_ & Hk & _) _] Hr Hf. by destruct (wi_kind i).
Qed.

(** A frame of the worker's reaches the proxy. *)
Lemma frame_event w wr i fr ch now f :
  codec_sync wr (c_hdr (w_conn w)) -> response_ok i -> intentFrame range wr i = Some fr -> received fr = RFrame f ->
  codec_sync (processIntent range wr i).1 (c_hdr (w_conn (tunnel_ev w (TFrame ch now f)))) /\
  (forall id, ev_data id w (TFrame ch now f) = sent_data id i) /\
  if is_resp i then exists h, tunnel_ev w (TFrame ch now f) = deliverResponse (set_conn w (set_c_hdr (w_conn w) h)) (answered i)
  else tunnel_ev w (TFrame ch now f) = (handleProxyFrame w ch now f).1 /\ plain_in f = true.
Proof.
  intros Hs Hok Hi Hr. pose proof Hs as [S1 S2 S3 S4]. pose proof (received_worker wr i fr f Hok Hi Hr) as Hf.
  cbn [tunnel_ev]. rewrite S4. destruct (is_resp i) eqn:Er.
  - subst f. destruct Hok as [_ Hresp]. destruct (Hresp Er) as [Hcan Hst].
    assert (Hk : wi_kind i = wkRespHeaders) by (unfold is_resp in Er; by destruct (wi_kind i)).
    cbn [handleProxyFrame]. unfold StartHeaders. cbn [hf_StreamID hf_endHeaders hf_fragment hf_endStream].
    set (h0 := if _ <? _ then _ else _).
    assert (H0 : h_dec h0 = h_dec (c_hdr (w_conn w)) /\ h_canon h0 = h_canon (c_hdr (w_conn w)) /\ InContinuation h0 = false).
    { unfold h0. by destruct (_ <? _). }
    destruct H0 as (E1 & E2 & E3). rewrite <- E1 in S1. rewrite <- E2 in S3.
    destruct (decode_response range wr i h0 (wi_streamID i) (range_perm _) Hcan S3 S1) as (h1 & Hd & Hs1 & Hok1 & Eh).
    rewrite Hd. cbn [lift_decoded fst]. split_and!.
    + assert (E4 : forall w0 d, c_hdr (w_conn (deliverResponse w0 d)) = c_hdr (w_conn w0)).
      { intros w0 d. unfold deliverResponse. destruct (getStream _ _); [by destruct (dh_EndStream d)|]. cbn. apply submitAsync_hdr. }
      rewrite E4. cbn. apply (next_sync wr _ i h1 Hs); [unfold intentEncoder; by rewrite Hk|done|by rewrite Eh].
    + intros id. unfold sent_data, ev_data. by rewrite Hk.
    + by exists h1.
  - destruct Hf as [Hpl Hdata]. split_and!; [|intros id; by apply Hdata|done..].
    rewrite handleProxyFrame_hdr by done. eapply next_sync; [exact Hs| |done..].
    by rewrite (intentEncoder_plain wr i fr).
Qed.

Lemma silent_event wr i h :
  codec_sync wr h -> intentFrame range wr i = None ->
  codec_sync (processIntent range wr i).1 h /\ is_resp i = false /\ forall id, sent_data id i = [].
Proof.
  intros Hs Hi. assert (Hk : wi_kind i = wkSetMaxDynTab) by (unfold intentFrame in Hi; by destruct (wi_kind i)).
  unfold is_resp, sent_data. rewrite Hk. split_and!; [|done..]. pose proof Hs as [S1 S2 S3 S4].
  eapply next_sync; [exact Hs| |done..]. unfold intentEncoder. rewrite Hk. by apply hpack_set_max.
Qed.

(** ** Runs *)

(** The decoder stays in sync, and the DATA received is the DATA sent. *)
Lemma emits_received id wr l es wr' w :
  emits wr l es wr' -> Forall response_ok l -> codec_sync wr (c_hdr (w_conn w)) ->
  codec_sync wr' (c_hdr (w_conn (tunnel_evs w es))) /\ TunnelEvents.received id w es = concat (sent_data id <$> l).
Proof.
  intros H. revert w. induction H as [wr|wr l e es wr' Hne H IH|wr i l es wr' Hi H IH|wr i l fr f ch now es wr' Hi Hp Hr H IH];
    intros w Hok Hs; cbn [tunnel_evs foldl TunnelEvents.received].
  - done.
  - rewrite (ev_data_other id w e Hne). apply IH; [done|]. by rewrite tunnel_ev_hdr.
  - inv Hok. destruct (silent_event wr i _ Hs Hi) as (Hs' & _ & Hd). destruct (IH w ltac:(done) Hs') as [? E].
    split; [done|]. rewrite fmap_cons. cbn [concat]. by rewrite Hd.
  - inv Hok. destruct (frame_event w wr i fr ch now f Hs ltac:(done) Hi Hr) as (Hs' & Hd & _).
    destruct (IH _ ltac:(done) Hs') as [? E]. split; [done|]. rewrite fmap_cons. cbn [concat]. rewrite Hd. f_equal. exact E.
Qed.

(** ** The waiting forwarder *)

(** What [cs] is after the intents [l]: unanswered, or failed, or holding the
    first response of its stream. *)
Definition tracks (id : Z) (cs : clientStream) (l : list writeIntent) : Prop :=
  if cs_closed cs then
    cs_respErr cs = None ->
    exists i, first_response id l = Some i /\ cs = mkCS None (filter forwardable (wi_header i)) (wi_status i) true
  else cs = newClientStream /\ first_response id l = None.

Lemma first_response_app id l1 l2 i : first_response id l1 = Some i -> first_response id (l1 ++ l2) = Some i.
Proof. unfold first_response. rewrite filter_app. by destruct (filter (resp_for id) l1). Qed.

Lemma tracks_other id cs l i : ~ resp_for id i -> tracks id cs l -> tracks id cs (l ++ [i]).
Proof.
  unfold tracks, first_response. intros Hi H. by rewrite filter_app, (filter_cons_False _ i), app_nil_r.
Qed.

Lemma tracks_answer id cs l i :
  resp_for id i -> 0 <= wi_status i <= 999 -> tracks id cs l ->
  tracks id (deliverHeaders cs (Atoi (StatusString (wi_status i))) (filter forwardable (wi_header i))) (l ++ [i]).
Proof.
  intros Hi Hst H. rewrite Atoi_StatusString by done. unfold tracks, deliverHeaders in *.
  destruct (cs_closed cs) eqn:Hc.
  - rewrite Hc. intros He. destruct (H He) as (i0 & Hf & ->). exists i0. split; [by apply first_response_app|done].
  - destruct H as [-> Hn]. cbn [cs_closed]. intros _. exists i. split; [|done].
    unfold first_response in *. rewrite filter_app, (filter_cons_True _ i) by done. by destruct (filter (resp_for id) l).
Qed.

Lemma tracks_fail id cs l err : tracks id cs l -> tracks id (failOnce cs err) l.
Proof. unfold tracks, failOnce. intros H. by destruct (cs_closed cs) eqn:Hc; [rewrite Hc|]. Qed.

(** The stream survives what its own forwarder does not do. *)
Lemma other_event id k w e cs l :
  (forall ch now f, e <> TFrame ch now f) -> proxy_inv k w -> Z.of_nat (k + ev_opens e) <= 2 ^ 30 -> foreign id e ->
  getStream w id = Some cs -> tracks id cs l ->
  exists cs', getStream (tunnel_ev w e) id = Some cs' /\ tracks id cs' l.
Proof.
  intros Hne H Hb Hf Hg Ht. unfold getStream in *. destruct e as [ch now f|e|d|]; [by destruct (Hne ch now f)| |by exists cs|].
  - destruct e as [req err now|j now|j want|j plen|i]; cbn [tunnel_ev forward_ev ev_opens opens] in *.
    + exists cs. split; [|done]. rewrite openStream_eq. cbv zeta. destruct (Draining _); [done|]. destruct (_ <=? _); [done|].
      destruct (next_id k (w_conn w) ltac:(lia) (pi_next _ _ H)) as (j & _ & Eid & _ & Hlt & _).
      assert (Hne' : (NextStreamID (w_conn w)).2 <> id).
      { pose proof (pi_ids _ _ H _ _ Hg) as Hid. cbn beta in Hid. lia. }
      assert (Ho : w_streams (opened w 0 (InitialStreamWindow (c_Send (w_conn w))) req) !! id = Some cs).
      { unfold opened. destruct (NextStreamID (w_conn w)) as [c i]. cbn in *. by rewrite lookup_insert_ne. }
      destruct err; cbn [fst]; [|done]. cbn [w_streams set_mem_conn set_conn deregisterStream set_streams].
      by rewrite lookup_delete_ne.
    + exists cs. split; [|done]. unfold closeStream. destruct (GetStream _ _); cbn; by rewrite lookup_delete_ne.
    + exists cs. split; [|done]. destruct (GetStream _ _); [|done]. by destruct (Reserve _ _ _) as [[? ?] ?].
    + exists cs. split; [|done]. destruct (GetStream _ _); [|done]. by destruct (Read _ _ _) as [[? ?] ?].
    + by exists cs.
  - exists (failOnce cs ErrConnClosed). split; [|by apply tracks_fail]. cbn [tunnel_ev].
    by rewrite tunnelTeardown_streams, Hg.
Qed.

Lemma plain_event id w ch now f cs l :
  plain_in f = true -> getStream w id = Some cs -> tracks id cs l ->
  exists cs', getStream (handleProxyFrame w ch now f).1 id = Some cs' /\ tracks id cs' l.
Proof.
  unfold getStream. intros Hf Hg Ht. destruct f as [[] ss|j inc| | |j data len es|[] data| |j code|]; try done; simpl; try by exists cs.
  - exists cs. by destruct (HandleInboundData _ _ _ _ _ _ _) as [m c].
  - unfold getStream. destruct (w_streams w !! j) as [cs0|] eqn:Ej; [|by exists cs]. cbn. rewrite lookup_alter.
    case_decide as Hj; [|by exists cs]. subst j. rewrite Hg. eexists. split; [done|by apply tracks_fail].
Qed.

Lemma answer_event id w i cs l :
  is_resp i = true -> 0 <= wi_status i <= 999 -> getStream w id = Some cs -> tracks id cs l ->
  exists cs', getStream (deliverResponse w (answered i)) id = Some cs' /\ tracks id cs' (l ++ [i]).
Proof.
  intros Hr Hst Hg Ht. unfold deliverResponse. cbn [dh_StreamID dh_Status dh_Header dh_EndStream answered].
  destruct (decide (wi_streamID i = id)) as [E|Hne].
  - rewrite E, Hg. eexists. split; [|by apply tracks_answer; [split|..]].
    destruct (wi_endStream i); apply lookup_insert_eq.
  - assert (Hn : ~ resp_for id i) by (by intros [_ ?]). exists cs. split; [|by apply tracks_other].
    destruct (getStream w (wi_streamID i)); [|done]. destruct (wi_endStream i); unfold getStream; cbn; by rewrite lookup_insert_ne.
Qed.

Lemma emits_tracks id k wr l es wr' w cs l0 :
  emits wr l es wr' -> Forall response_ok l -> codec_sync wr (c_hdr (w_conn w)) ->
  proxy_inv k w -> env_ok id es -> Z.of_nat (k + sum_list_with ev_opens es) <= 2 ^ 30 ->
  getStream w id = Some cs -> tracks id cs l0 ->
  exists cs', getStream (tunnel_evs w es) id = Some cs' /\ tracks id cs' (l0 ++ l).
Proof.
  intros H. revert k w cs l0. induction H as [wr|wr l e es wr' Hne H IH|wr i l es wr' Hi H IH|wr i l fr f ch now es wr' Hi Hp Hr H IH];
    intros k w cs l0 Hok Hs Hw He Hb Hg Ht; cbn [tunnel_evs foldl sum_list_with] in *.
  - exists cs. by rewrite app_nil_r.
  - apply Forall_cons in He as [[Hoke Hfor] He].
    assert (Hw1 : proxy_inv (k + ev_opens e) (tunnel_ev w e)) by (apply tunnel_ev_inv; [by intros _|done|lia]).
    destruct (other_event id k w e cs l0 Hne Hw ltac:(lia) Hfor Hg Ht) as (cs1 & Hg1 & Ht1).
    apply (IH _ _ _ _ Hok ltac:(by rewrite tunnel_ev_hdr) Hw1 He ltac:(lia) Hg1 Ht1).
  - inv Hok. destruct (silent_event wr i _ Hs Hi) as (Hs' & Hr & _).
    destruct (IH k w cs (l0 ++ [i]) ltac:(done) Hs' Hw He Hb Hg) as (cs1 & Hg1 & Ht1).
    { apply tracks_other; [|done]. intros [? _]. congruence. }
    exists cs1. by rewrite <- app_assoc in Ht1.
  - inv Hok. apply Forall_cons in He as [[Hoke Hfor] He].
    cbn [ev_opens] in Hb.
    assert (Hw1 : proxy_inv (k + 0) (tunnel_ev w (TFrame ch now f)))
      by (apply (tunnel_ev_inv k w (TFrame ch now f)); [by intros _|done|cbn [ev_opens]; lia]).
    destruct (frame_event w wr i fr ch now f Hs ltac:(done) Hi Hr) as (Hs' & _ & Hcase).
    assert (Hcs : exists cs1, getStream (tunnel_ev w (TFrame ch now f)) id = Some cs1 /\ tracks id cs1 (l0 ++ [i])).
    { destruct (is_resp i) eqn:Er.
      - destruct Hcase as [h ->]. apply (answer_event id _ i cs l0); [done| |done..]. by apply H2.
      - destruct Hcase as [-> Hpl]. destruct (plain_event id w ch now f cs l0 Hpl Hg Ht) as (cs1 & ? & ?).
        exists cs1. split; [done|]. apply tracks_other; [|done]. intros [? _]. congruence. }
    destruct Hcs as (cs1 & Hg1 & Ht1).
    destruct (IH _ _ _ _ ltac:(done) Hs' Hw1 He ltac:(lia) Hg1 Ht1) as (cs2 & Hg2 & Ht2).
    exists cs2. by rewrite <- app_assoc in Ht2.
Qed.

(** ** The property *)

Lemma openStream_client w p iw req err now w' id :
  openStream w p iw req err now = (w', inl id) -> getStream w' id = Some newClientStream.
Proof.
  rewrite openStream_eq. cbv zeta. destruct (Draining _); [done|]. destruct (_ <=? _); [done|]. destruct err; [done|].
  intros H. injection H as <- E. unfold getStream, opened. rewrite (surjective_pairing (NextStreamID (w_conn w))), <- E.
  apply lookup_insert_eq.
Qed.

Lemma first_response_elem id l i : first_response id l = Some i -> i ∈ l /\ resp_for id i.
Proof.
  unfold first_response. destruct (filter (resp_for id) l) as [|i' l'] eqn:E; [done|]. intros [= <-].
  assert (Hin : i' ∈ filter (resp_for id) l) by (rewrite E; by left). apply list_elem_of_filter in Hin. tauto.
Qed.

Lemma copy_events_take id n steps :
  copy_events id steps = copy_events id (take n steps) ++ copy_events id (drop n steps).
Proof. unfold copy_events. by rewrite <- concat_app, <- fmap_app, take_drop. Qed.

Lemma kept_forwardable (h : header) : filter (kept (fun _ => false)) (filter forwardable h) = filter forwardable h.
Proof. apply map_filter_id. by intros k vv [_ [_ ?]]%map_lookup_filter_Some. Qed.

(** What the copy loop consumed: [l1] came in while [forward] waited for the
    headers, [l2] during the loop's first [n] iterations. *)
Lemma answers_relayed prange req k w x w' st h out ph wo wr l wr' :
  let id := streamOf w x in
  (forall h, prange h ≡ₚ map_to_list h) ->
  proxy_inv k w -> script_ok id x -> Z.of_nat (k + script_opens id x) <= 2 ^ 30 ->
  forward prange req (Some w) x = (w', Proxied st h out, ph) ->
  openForward prange req (tunnel_evs (addInFlight w 1) (x_before x)) x = (wo, inl id) ->
  codec_sync wr (c_hdr (w_conn wo)) -> Forall response_ok l ->
  emits wr l (x_wait x ++ copy_events id (x_copy x)) wr' ->
  let wc := copyingAt (tunnel_evs wo (x_wait x)) id in
  exists l1 l2 l3 wr1 wr2 n i, l = (l1 ++ l2) ++ l3 /\ emits wr l1 (x_wait x) wr1 /\
    emits wr1 l2 (copy_events id (take n (x_copy x))) wr2 /\
    codec_sync wr1 (c_hdr (w_conn wc)) /\
    first_response id (l1 ++ l2) = Some i /\ st = (if wi_status i =? 0 then 502 else wi_status i) /\
    h = filter forwardable (wi_header i) /\ out `prefix_of` concat (sent_data id <$> l1 ++ l2) /\
    ((copyBody id wc (x_copy x)).2 = Some CopyEOF ->
     out = concat (sent_data id <$> l1 ++ l2) /\
     abs (wbodies (tunnel_evs wc (copy_events id (take n (x_copy x))))) !! id = Some (mkFifo [] true None)).
Proof.
  intros id Hpr H Hok Hb Hf Ho Hs Hl He wc.
  destruct (response_body_relayed' prange req k w x w' st h out ph H Hok Hb Hf) as (wo' & n & Ho' & Hrel). fold id in Ho', Hrel.
  rewrite Ho in Ho'. injection Ho' as <-. cbv zeta in Hrel. fold wc in Hrel. destruct Hrel as (Hpre & _ & Heof).
  destruct (forward_proxied _ _ _ _ _ _ _ _ _ Hf) as (wo' & id' & w2 & Ho' & Hx). rewrite Ho in Ho'. injection Ho' as <- <-.
  destruct (exchange_proxied _ _ _ _ _ _ _ _ _ _ Hx) as (cs & w3 & e & _ & Hg & Hcl & Herr & -> & _ & -> & _).
  unfold script_opens, exchange_opens in Hb. destruct Hok as (Hok1 & Hok2 & Hok3 & _).
  destruct (forward_opening _ _ _ _ _ _ _ H Hok1 ltac:(lia) Ho) as (H1 & _ & _ & _).
  destruct (emits_app_inv _ _ _ _ _ He) as (l1 & l2 & wr1 & -> & He1 & He2).
  apply Forall_app in Hl as [Hl1 Hl2].
  destruct (emits_received id _ _ _ _ wo He1 Hl1 Hs) as [Hs1 Hr1].
  destruct (emits_tracks id _ _ _ _ _ wo newClientStream [] He1 Hl1 Hs H1 Hok2 ltac:(lia)) as (cs' & Hg' & Ht); [|done|].
  { by eapply openStream_client. }
  rewrite Hg in Hg'. injection Hg' as <-. unfold tracks in Ht. rewrite Hcl in Ht. destruct (Ht Herr) as (i & Hi & Ecs).
  cbn [app] in Hi. rewrite (copy_events_take id n) in He2. destruct (emits_app_inv _ _ _ _ _ He2) as (l3 & l4 & wr2 & -> & He3 & _).
  apply Forall_app in Hl2 as [Hl3 _].
  assert (Hsc : codec_sync wr1 (c_hdr (w_conn wc))) by (unfold wc, copyingAt; by rewrite Hg).
  destruct (emits_received id _ _ _ _ wc He3 Hl3 Hsc) as [_ Hr2].
  rewrite Hr1, Hr2 in Hpre, Heof. rewrite <- concat_app, <- fmap_app in Hpre, Heof.
  exists l1, l3, l4, wr1, wr2, n, i. split_and!; [by rewrite app_assoc|done..|by apply first_response_app|by rewrite Ecs| |done|done].
  rewrite Ecs. cbn [cs_respHeader]. destruct (first_response_elem _ _ _ Hi) as [Hin [Hr _]].
  rewrite Forall_forall in Hl1. destruct (Hl1 _ Hin) as [_ Hcan]. rewrite copyHeader_values; [apply kept_forwardable|done|].
  intros h0 vv [Hh0 _]%map_lookup_filter_Some. exact (proj2 (proj1 (Hcan Hr) _ _ Hh0)).
Qed.

(** C6. Handlers' answers reach their callers: let [forward] run while the
    proxy's frame reader gets, interleaved with anything the other forwarders
    do, exactly the frames a worker's writer makes of the intents [l], from a
    point where codec and decoder agree.  If the caller is answered, the
    answer is the first response on this stream among [l]: its status, its
    headers without the connection-specific ones, and body bytes that are a
    prefix of the DATA of this stream in the order the worker sent it;
    responses and DATA of other streams have no part in it. *)
Theorem answers_reach_their_callers prange req k w x w' st h out ph wo wr l wr' :
  let id := streamOf w x in
  (forall h, prange h ≡ₚ map_to_list h) ->
  proxy_inv k w -> script_ok id x -> Z.of_nat (k + script_opens id x) <= 2 ^ 30 ->
  forward prange req (Some w) x = (w', Proxied st h out, ph) ->
  openForward prange req (tunnel_evs (addInFlight w 1) (x_before x)) x = (wo, inl id) ->
  codec_sync wr (c_hdr (w_conn wo)) -> Forall response_ok l ->
  emits wr l (x_wait x ++ copy_events id (x_copy x)) wr' ->
  exists i, first_response id l = Some i /\ st = (if wi_status i =? 0 then 502 else wi_status i) /\
    h = filter forwardable (wi_header i) /\ out `prefix_of` concat (sent_data id <$> l).
Proof.
  intros id Hpr H Hok Hb Hf Ho Hs Hl He.
  destruct (answers_relayed prange req k w x w' st h out ph wo wr l wr' Hpr H Hok Hb Hf Ho Hs Hl He)
    as (l1 & l2 & l3 & _ & _ & _ & i & -> & _ & _ & _ & Hi & Hst & Hh & Hp & _).
  exists i. split_and!; [by apply first_response_app|done|done|].
  rewrite (fmap_app _ (l1 ++ l2)), concat_app. by apply prefix_app_r.
Qed.

End Answer.

(** ** Witnesses *)

Module AnswerDemo.

Import PlainWire ExchangeDemo.

(** The worker answers stream 1 in three intents, with a window update for
    the request body in between. *)
Definition answers : list writeIntent :=
  [TunnelDemo.answer; SendData 1 [x61] false; SendWindowUpdate 0 3; SendData 1 [x62] true].

Definition exchange_run : Script :=
  script [headers; frame (FData 1 [x61] 1 false)]
    [mkCopyStep [] true; mkCopyStep [frame (FWindowUpdate 0 3); frame (FData 1 [x62] 1 true)] true; mkCopyStep [] true].

Definition done_worker : Worker := default TunnelDemo.start (run exchange_run).1.1.

Lemma exchange_runs : forward map_to_list req (Some TunnelDemo.start) exchange_run = (Some done_worker, page, Returned).
Proof. unfold done_worker, run. apply triple_fst; vm_compute; reflexivity. Qed.

Lemma exchange_stream : streamOf TunnelDemo.start exchange_run = 1.
Proof. apply stream_one; reflexivity. Qed.

Lemma exchange_ok : script_ok (streamOf TunnelDemo.start exchange_run) exchange_run.
Proof.
  rewrite exchange_stream. split_and!; cbn; repeat constructor; cbn; try (by vm_compute); try lia.
  all: vm_compute; discriminate.
Qed.

Definition opened_worker : Worker :=
  (openForward map_to_list req (tunnel_evs (addInFlight TunnelDemo.start 1) (x_before exchange_run)) exchange_run).1.

Lemma exchange_opens_one :
  openForward map_to_list req (tunnel_evs (addInFlight TunnelDemo.start 1) (x_before exchange_run)) exchange_run =
    (opened_worker, inl (streamOf TunnelDemo.start exchange_run)).
Proof. unfold opened_worker. apply pair_fst. rewrite exchange_stream. vm_compute. reflexivity. Qed.

Lemma answers_ok : Forall response_ok answers.
Proof.
  assert (Hc : request_typed TunnelDemo.answer) by (apply (bool_decide_unpack _); vm_compute; exact I).
  unfold answers, response_ok. rewrite !Forall_cons. split_and!; try done.
  by apply (ci_window_update 0 3); [left|].
Qed.

Definition answering : Writer :=
  foldl (fun w i => (processIntent (FR := Plain.plain_framer) (HE := Plain.plain_encoder) map_to_list w i).1) Plain.demo_writer answers.

Lemma answers_emitted :
  emits map_to_list Plain.demo_writer answers
    (x_wait exchange_run ++ copy_events (streamOf TunnelDemo.start exchange_run) (x_copy exchange_run)) answering.
Proof.
  rewrite exchange_stream. unfold exchange_run, answers, copy_events, answering. cbn [x_wait x_copy script app fmap list_fmap concat cp_env foldl].
  unfold headers, frame.
  repeat first [eapply emits_nil | eapply emits_frame; [reflexivity|reflexivity|vm_compute; reflexivity|]
    | eapply emits_other; [by intros|]].
Qed.

Lemma answers_reach_their_callers_witness :
  exists i, first_response 1 answers = Some i /\ 200 = wi_status i /\ [x61; x62] `prefix_of` concat (sent_data 1 <$> answers).
Proof.
  destruct (answers_reach_their_callers map_to_list (fun h => reflexivity _) map_to_list req 0 TunnelDemo.start exchange_run
    (Some done_worker) 200 {[ "X-Test"%string := ["1"]%string ]} [x61; x62] Returned opened_worker Plain.demo_writer answers answering
    (fun h => reflexivity _) TunnelDemo.start_inv exchange_ok ltac:(rewrite exchange_stream; vm_compute; discriminate)
    exchange_runs exchange_opens_one ltac:(split; [exact I|exact CommonLowerNames_ok|exact CommonCanonNames_ok|reflexivity])
    answers_ok answers_emitted) as (i & Hi & Hst & _ & Hp).
  rewrite exchange_stream in Hi, Hp. exists i. split; [exact Hi|]. split; [|exact Hp].
  assert (E : first_response 1 answers = Some TunnelDemo.answer) by (vm_compute; reflexivity).
  rewrite E in Hi. injection Hi as <-. reflexivity.
Defined.

End AnswerDemo.
