(* ===== verification/Ended.v ===== *)
(** * How a response body ends at the proxy

    The body of a forwarder's stream ends cleanly only by END_STREAM on that
    stream: no other event of the tunnel leaves it ended without an error.
    With [emits] of Answer.v: an [io.EOF] seen by the copy loop means that the
    worker has sent END_STREAM on it. *)

From Stdlib Require Import Strings.Byte.
From S2P Require Import Prelude Errors Flow Names H2Stream Writer HeaderBlock Conn ConnInv FrameLoop Tunnel TunnelEvents Forward Intents Wire Exchange Answer.

Open Scope Z_scope.

(** Stream [id]'s body has not ended, unless by an error. *)
Definition undone (y : BodySys) (id : Z) : Prop :=
  forall f, abs y !! id = Some f -> ended f = true -> is_Some (failure f).

Lemma undone_same y y' id : abs y' = abs y -> undone y id -> undone y' id.
Proof. unfold undone. by intros ->. Qed.

Lemma undone_insert (fs : gmap Z Fifo) i (f : Fifo) id g :
  <[i := f]> fs !! id = Some g -> (i = id -> g = f -> ended g = true -> is_Some (failure g)) ->
  (fs !! id = Some g -> ended g = true -> is_Some (failure g)) -> ended g = true -> is_Some (failure g).
Proof.
  intros Hg H1 H2. destruct (decide (i = id)) as [->|Hne].
  - rewrite lookup_insert_eq in Hg. simplify_eq. by apply H1.
  - rewrite lookup_insert_ne in Hg by done. by apply H2.
Qed.

(** Only [CloseData] on the stream itself ends it cleanly. *)
Lemma undone_step y o r y' id :
  sys_wf y -> body_step y (o, r) y' -> o <> BCloseData id -> undone y id -> undone y' id.
Proof.
  intros Hy Hs Ho Hu g Hg. pose proof (proj2 (body_step_refines _ _ _ Hy Hs)) as Hop. unfold undone in Hu.
  inv Hop as [? i ? ? Hn|? i ? ? f0 Hi|? i f0 Hi|? i e f0 Hi|? i ? f0 ? f' Hi Hr|? i f0 ? Hi|? i];
    repeat match goal with H : _ = abs y' |- _ => rewrite <- H in Hg; clear H end;
    try (apply (undone_insert _ _ _ _ _ Hg); [|by apply Hu]); cbn.
  - by intros _ ->.
  - intros -> ->. cbn. exact (Hu _ Hi).
  - intros -> _. by destruct Ho.
  - intros _ -> _. cbn. by destruct (failure f0).
  - intros -> ->. destruct (fifo_read_flags _ _ _ _ Hr) as [-> ->]. exact (Hu _ Hi).
  - intros -> ->. cbn. exact (Hu _ Hi).
  - apply lookup_delete_Some in Hg as [_ Hg]. exact (Hu _ Hg).
Qed.

Section Events.

Context {HD : HpackDecoder}.

(** What keeps the body of stream [id] from ending. *)
Definition keeps_open (id : Z) (w w' : Worker) : Prop := undone (wbodies w) id -> undone (wbodies w') id.

Lemma inv_wf k w : proxy_inv k w -> sys_wf (wbodies w).
Proof. intros H. apply (pi_conn _ _ H). Qed.

#[local] Hint Resolve inv_wf : core.

Lemma keeps_step id w w' o r :
  sys_wf (wbodies w) -> body_step (wbodies w) (o, r) (wbodies w') -> o <> BCloseData id -> keeps_open id w w'.
Proof. intros H Hs Ho Hu. by eapply undone_step. Qed.

Lemma keeps_same id w w' : abs (wbodies w') = abs (wbodies w) -> keeps_open id w w'.
Proof. intros E Hu. by eapply undone_same. Qed.

Lemma forward_ev_keeps_open k id w e :
  proxy_inv k w -> forward_ok e -> Z.of_nat (k + opens e) <= 2 ^ 30 -> keeps_open id w (forward_ev w e).
Proof.
  intros H He Hb. destruct e as [req err now|i now|i want|i plen|i]; cbn [forward_ev opens] in *.
  - set (iw := InitialStreamWindow _). assert (Hiw : is_i32 iw) by (eapply PeerInit_i32, H).
    assert (G1 : keeps_open id w (opened w 0 iw req)).
    { eapply keeps_step; [eauto|apply (opened_step k); [lia|done]|done]. }
    destruct (Draining (w_conn w)) eqn:Ed; [rewrite openStream_eq; cbv zeta; rewrite Ed; by apply keeps_same|].
    destruct (PeerMaxStreams (w_conn w) <=? u32 (Z.of_nat (size (w_streams w)))) eqn:Em;
      [rewrite openStream_eq; cbv zeta; rewrite Ed, Em; by apply keeps_same|].
    destruct err as [e|]; [|rewrite openStream_eq; cbv zeta; rewrite Ed, Em; exact G1].
    intros Hu. apply G1 in Hu. revert Hu.
    refine (keeps_step id _ _ _ _ (inv_wf (S k) _ _) (open_failed_step w 0 iw req e now Ed Em) _); [|done]. apply opened_inv; [lia|done..].
  - destruct (c_streams (w_conn w) !! i) as [s|] eqn:E; [eapply keeps_step; [eauto|by eapply closeStream_step|done]|].
    unfold closeStream, GetStream. rewrite E. by apply keeps_same.
  - unfold GetStream. destruct (c_streams (w_conn w) !! i) as [s|] eqn:E; [|by apply keeps_same].
    destruct (Reserve _ _ _) as [[r sc] sw]. apply keeps_same. unfold wbodies, bodies. cbn. by apply abs_set_window.
  - unfold GetStream. destruct (c_streams (w_conn w) !! i) as [s|] eqn:E; [|by apply keeps_same].
    destruct (Read _ _ _) as [[m s'] r] eqn:Er. eapply (keeps_step _ _ _ (BRead i plen) (Some r)); [eauto| |done].
    unfold body_step. cbn. rewrite E. cbn. by rewrite Er.
  - apply keeps_same. unfold wbodies. cbn [w_mem w_conn set_conn]. by rewrite submitAsync_bodies.
Qed.

Lemma teardown_keeps_open k id w : proxy_inv k w -> keeps_open id w (tunnelTeardown w).
Proof.
  intros H _ f Hf _. pose proof (tunnelTeardown_grows id k w H) as G.
  destruct (abs (wbodies w) !! id) as [f0|] eqn:E.
  - destruct (G f0 E) as (f' & Hf' & _ & _ & He & _). rewrite Hf in Hf'. simplify_eq. apply He. by right.
  - exfalso. destruct (c_streams (w_conn (tunnelTeardown w)) !! id) as [s|] eqn:Es.
    + assert (Hs : is_Some (c_streams (w_conn w) !! id)).
      { apply (pi_regs _ _ H). pose proof (tunnelTeardown_inv k w H) as H'.
        assert (Hw : is_Some (w_streams (tunnelTeardown w) !! id)) by (apply (pi_regs _ _ H'); by rewrite Es).
        rewrite tunnelTeardown_streams in Hw. by rewrite fmap_is_Some in Hw. }
      destruct Hs as [s0 Hs0]. unfold wbodies, abs in E. cbn in E. by rewrite lookup_fmap, Hs0 in E.
    + unfold wbodies, abs in Hf. cbn [bs_mem bs_streams bodies] in Hf. by rewrite lookup_fmap, Es in Hf.
Qed.

Lemma on_h2_keeps_open id w i g (o : BOp) :
  sys_wf (wbodies w) -> o <> BCloseData id ->
  (forall m ss s, ss !! i = Some s -> body_step (mkBodySys m ss) (o, None) (mkBodySys m (<[i := g s]> ss))) ->
  keeps_open id w (on_h2 w i g).
Proof.
  intros Hi Ho Hst. destruct (c_streams (w_conn w) !! i) as [s|] eqn:E.
  - eapply (keeps_step _ _ _ o None); [done| |done]. unfold wbodies, bodies, on_h2. cbn. rewrite (alter_Some _ _ _ _ E). by apply Hst.
  - apply keeps_same. unfold wbodies, bodies, on_h2. cbn. by rewrite alter_None.
Qed.

Lemma deliverResponse_keeps_open id w d :
  sys_wf (wbodies w) -> (dh_EndStream d = true -> dh_StreamID d <> id) -> keeps_open id w (deliverResponse w d).
Proof.
  intros H Hd. unfold deliverResponse. destruct (getStream w (dh_StreamID d)) as [cs|].
  - destruct (dh_EndStream d); [|by apply keeps_same].
    apply (on_h2_keeps_open id (set_streams w _) _ _ (BCloseData (dh_StreamID d)) H); [intros [=]; by apply Hd|].
    intros m ss s Hs. unfold body_step. cbn. by rewrite Hs.
  - apply keeps_same. unfold wbodies. cbn [w_mem w_conn set_conn]. by rewrite submitAsync_bodies.
Qed.

Lemma reset_keeps_open k id w i now ch code : proxy_inv k w -> keeps_open id w (handleProxyFrame w ch now (FRSTStream i code)).1.
Proof.
  intros H. cbn [handleProxyFrame fst].
  assert (Hr : forall k w, proxy_inv k w -> keeps_open id w (set_conn w (HandleRSTStream (w_conn w) i))).
  { clear k w H. intros k w H. unfold HandleRSTStream, GetStream. destruct (c_streams (w_conn w) !! i) as [s|] eqn:E; [|by apply keeps_same].
    eapply (keeps_step _ _ _ (BFail i ErrStreamReset) None); [eauto| |done]. unfold body_step. cbn. by rewrite E. }
  destruct (getStream w i) eqn:E; [|by apply (Hr k)].
  assert (Hf : keeps_open id w (fail w i ErrStreamReset)).
  { apply (on_h2_keeps_open id (set_streams w _) i _ (BFail i ErrStreamReset)); [exact (inv_wf _ _ H)|done|].
    intros m ss s Hs. unfold body_step. cbn. by rewrite Hs. }
  intros Hu. apply (Hr k); [by apply fail_inv|]. by apply Hf.
Qed.

(** Every frame but one with END_STREAM on the stream. *)
Lemma plain_keeps_open k id w ch now f :
  proxy_inv k w -> plain_in f = true -> (forall data len, f <> FData id data len true) ->
  keeps_open id w (handleProxyFrame w ch now f).1.
Proof.
  intros H Hp Hne. destruct f as [[] ss|i inc| | |i data len es|ack data| |i code|]; try done; cbn [handleProxyFrame];
    try by apply keeps_same.
  - apply keeps_same. unfold wbodies, bodies, HandleWindowUpdate, GetStream. cbn.
    destruct (i =? 0); [done|]. destruct (c_streams (w_conn w) !! i) as [s|] eqn:E; [|done]. by apply abs_set_window.
  - destruct (HandleInboundData _ _ _ _ _ _ _) as [m c] eqn:E. intros Hu f Hf. destruct (pi_conn _ _ H) as (_ & _ & Hwf & _).
    destruct (HandleInboundData_fifo _ _ (mkData ch i data len es) _ _ Hwf E) as [_ Ha].
    unfold wbodies in *. cbn [w_mem w_conn set_mem_conn fst] in *. cbn [df_id df_data df_choice df_len df_end] in Ha.
    rewrite Ha in Hf. destruct (abs (bodies (w_mem w) (w_conn w)) !! i) as [f0|] eqn:E0; [|by apply Hu].
    apply (undone_insert _ _ _ _ _ Hf); [|by apply Hu]. intros -> ->. cbn. destruct es; [by destruct (Hne data len)|].
    rewrite ?orb_false_r. exact (Hu _ E0).
  - destruct ack; apply keeps_same; unfold wbodies; cbn [w_mem w_conn set_conn fst].
    + unfold HandlePingAck. by destruct (_ && _).
    + by rewrite submitAsync_bodies.
  - exact (reset_keeps_open k id w i now ch code H).
Qed.

End Events.

(** ** What the worker sent *)

Section Sent.

Context {FR : Framer} {HE : HpackEncoder} {HD : HpackDecoder} {HC : HpackCodec} {WI : Wire}.

Variable range : header -> list (string * list string).
Hypothesis range_perm : forall h, range h ≡ₚ map_to_list h.

(** Frames of a response, and the one that ends it. *)
Definition is_answer (i : writeIntent) : bool := match wi_kind i with wkRespHeaders | wkData => true | _ => false end.

Definition ends_on (id : Z) (i : writeIntent) : bool := is_answer i && wi_endStream i && bool_decide (wi_streamID i = id).

Lemma ends_on_head id i : is_resp i = true -> ends_on id i = false -> wi_endStream i = true -> wi_streamID i <> id.
Proof.
  unfold ends_on, is_answer, is_resp. intros Hr He Hs. destruct (wi_kind i); try done. rewrite Hs in He.
  by apply bool_decide_eq_false in He.
Qed.

Lemma frame_keeps_open id k wr w i fr ch now f :
  proxy_inv k w -> codec_sync wr (c_hdr (w_conn w)) -> response_ok i -> intentFrame range wr i = Some fr ->
  received fr = RFrame f -> ends_on id i = false -> keeps_open id w (tunnel_ev w (TFrame ch now f)).
Proof.
  intros H Hs Hok Hi Hr He. destruct (frame_event range range_perm w wr i fr ch now f Hs Hok Hi Hr) as (_ & _ & Hcase).
  pose proof (received_worker range wr i fr f Hok Hi Hr) as Hf. destruct (is_resp i) eqn:Er.
  - destruct Hcase as [h ->]. set (w1 := set_conn w (set_c_hdr (w_conn w) h)). change (keeps_open id w1 (deliverResponse w1 (answered i))).
    apply deliverResponse_keeps_open; [exact (inv_wf _ _ H)|]. cbn. by apply ends_on_head.
  - destruct Hcase as [-> Hpl]. apply (plain_keeps_open k); [done|done|]. intros data len ->.
    clear Hf. unfold intentFrame in Hi. destruct (wi_kind i) eqn:Hk; simplify_eq; unfold is_resp in Er; rewrite ?Hk in Er; try done.
    all: try (destruct Hok as [(Hok & Hk1 & Hk2) _]; unfold intent_ok in Hok; rewrite Hk in Hok; try done).
    + by rewrite received_settings_ack in Hr.
    + rewrite received_window_update in Hr by apply Hok. done.
    + by rewrite received_ping in Hr by apply Hok.
    + by rewrite received_rst in Hr by apply Hok.
    + destruct (decide (fits (wi_data i))) as [Hfit|Hfit].
      * rewrite received_data in Hr by done. simplify_eq. unfold ends_on, is_answer in He. rewrite Hk in He.
        match goal with Hx : wi_endStream i = true |- _ => rewrite Hx in He end. cbn in He. by rewrite bool_decide_eq_true_2 in He.
      * destruct (received_large_data (wi_streamID i) (wi_endStream i) _ Hfit). congruence.
Qed.

(** Without END_STREAM on it among the worker's intents, the body of a stream
    does not end. *)
Lemma emits_keeps_open id k wr l es wr' w :
  emits range wr l es wr' -> Forall response_ok l -> codec_sync wr (c_hdr (w_conn w)) ->
  proxy_inv k w -> Forall tunnel_ev_ok es -> Z.of_nat (k + sum_list_with ev_opens es) <= 2 ^ 30 ->
  Forall (fun i => ends_on id i = false) l -> keeps_open id w (tunnel_evs w es).
Proof.
  intros H. revert k w. induction H as [wr|wr l e es wr' Hne H IH|wr i l es wr' Hi H IH|wr i l fr f ch now es wr' Hi Hp Hr H IH];
    intros k w Hok Hs Hw Hev Hb Hl Hu; cbn [tunnel_evs foldl sum_list_with] in *; [done|..].
  - apply Forall_cons in Hev as [He Hev].
    assert (Hw1 : proxy_inv (k + ev_opens e) (tunnel_ev w e)) by (apply tunnel_ev_inv; [by intros _|done|lia]).
    apply (IH _ _ Hok ltac:(by rewrite tunnel_ev_hdr) Hw1 Hev ltac:(lia) Hl).
    destruct e as [ch now f|e|d|]; [by destruct (Hne ch now f)| |done|].
    + apply (forward_ev_keeps_open k); [done..| |done]. cbn in *. lia.
    + by apply (teardown_keeps_open k).
  - apply Forall_cons in Hok as [Hok1 Hok]. apply Forall_cons in Hl as [Hl1 Hl].
    destruct (silent_event range wr i _ Hs Hi) as (Hs' & _). by apply (IH k w).
  - apply Forall_cons in Hok as [Hok1 Hok]. apply Forall_cons in Hl as [Hl1 Hl]. apply Forall_cons in Hev as [He Hev].
    cbn [ev_opens] in Hb.
    assert (Hw1 : proxy_inv (k + 0) (tunnel_ev w (TFrame ch now f)))
      by (apply (tunnel_ev_inv k w (TFrame ch now f)); [by intros _|done|cbn [ev_opens]; lia]).
    destruct (frame_event range range_perm w wr i fr ch now f Hs Hok1 Hi Hr) as (Hs' & _).
    apply (IH _ _ Hok Hs' Hw1 Hev ltac:(lia) Hl). by apply (frame_keeps_open id k wr w i fr).
Qed.

End Sent.
