(* ===== verification/RoundTrip.v ===== *)
(** * From the public caller to the handler and back

    The two directions of the tunnel in one theorem.  A forwarder opens its
    stream on a tunnel with any history; what the tunnel has submitted so far
    reaches the worker's loop (Wire.v, EndToEnd.v), which starts the stream's
    goroutine; the handler makes its calls (ResponseWriter.v, Respond.v); what
    the worker's writer makes of that goroutine's intents, among all the
    others, is what the proxy's frame reader gets (Answer.v, Ended.v).  The
    public caller is sent the response the handler's calls describe. *)

From Stdlib Require Import Strings.Byte Strings.String.
From S2P Require Import Prelude Errors Flow Names H2Stream Writer HeaderBlock Conn ConnInv SendPath ResponseWriter Respond Uri FrameLoop Serve Tunnel TunnelEvents Forward Intents Wire EndToEnd Exchange Answer Ended.

Open Scope Z_scope.

(** ** The stream's goroutine *)

(** [serveStream] on the decoded request. *)
Definition goroutine (d : DecodedHeaders) (calls : list HCall) (dataDone : bool) (w : World) : RState * HOutcome :=
  serveStream (dh_StreamID d) (dh_Method d) (match servedRequest d with Some _ => true | None => false end) calls dataDone w.

Definition answers (l : list writeIntent) : list writeIntent := filter (fun i => is_answer i = true) l.

(** Those on one stream. *)
Definition answers_on (id : Z) (l : list writeIntent) : list writeIntent :=
  filter (fun i => is_answer i = true /\ wi_streamID i = id) l.

Lemma heads_answers l : heads (answers l) = heads l.
Proof.
  unfold answers, heads. induction l as [|i l IH]; [done|]. rewrite filter_cons, (bind_cons _ i), <- IH.
  destruct (decide (is_answer i = true)) as [Hi|Hi]; [done|]. unfold is_answer, head_of in *. by destruct (wi_kind i).
Qed.

Lemma datas_answers l : datas (answers l) = datas l.
Proof.
  unfold answers, datas. induction l as [|i l IH]; [done|]. rewrite filter_cons, (bind_cons _ i), <- IH.
  destruct (decide (is_answer i = true)) as [Hi|Hi]; [done|]. unfold is_answer, data_of in *. by destruct (wi_kind i).
Qed.

Lemma datas_answers_on id l : datas (answers_on id l) = concat (sent_data id <$> l).
Proof.
  unfold answers_on, datas. induction l as [|i l IH]; [done|]. rewrite filter_cons, fmap_cons. cbn [concat]. rewrite <- IH.
  unfold is_answer, sent_data. destruct (wi_kind i) eqn:Hk; try (rewrite decide_False by (by intros [? _]); done).
  - destruct (decide (wi_streamID i = id)) as [E|Hne].
    + rewrite decide_True by done. rewrite bind_cons. unfold data_of. by rewrite Hk.
    + by rewrite decide_False by (by intros [_ ?]).
  - destruct (decide (wi_streamID i = id)) as [E|Hne].
    + rewrite decide_True by done. rewrite bind_cons. unfold data_of. by rewrite Hk.
    + by rewrite decide_False by (by intros [_ ?]).
Qed.

Lemma first_answer id l i :
  first_response id l = Some i -> head (heads (answers_on id l)) = Some (wi_status i, wi_header i).
Proof.
  unfold first_response, answers_on, heads. induction l as [|j l IH]; [done|]. rewrite !filter_cons.
  destruct (decide (resp_for id j)) as [[Hr Hid]|Hr].
  - intros [= ->]. unfold is_resp in Hr. rewrite decide_True by (unfold is_answer; by destruct (wi_kind i)).
    rewrite bind_cons. unfold head_of. by destruct (wi_kind i).
  - intros H. destruct (decide _) as [[Ha Hid]|Ha]; [|by apply IH]. rewrite bind_cons. unfold resp_for, is_resp in Hr.
    unfold head_of at 1. unfold is_answer in Ha. destruct (wi_kind j); try done; [by destruct Hr|by apply IH].
Qed.

Lemma answers_prefix {A} (f : writeIntent -> list A) (l1 l2 : list writeIntent) :
  l1 `prefix_of` l2 -> (l1 ≫= f) `prefix_of` (l2 ≫= f).
Proof. intros [k ->]. rewrite bind_app. by eexists. Qed.

(** *** Nothing follows END_STREAM *)

Lemma closed_no_answers isHead l ph : wire_run isHead Closed l = Some ph -> answers l = [].
Proof.
  induction l as [|i l IH]; [done|]. cbn [wire_run]. destruct (wire_step isHead Closed i) as [ph1|] eqn:E; [|done].
  intros H. unfold answers. rewrite filter_cons. unfold wire_step in E.
  destruct (decide (is_answer i = true)) as [Hi|Hi]; [unfold is_answer in Hi|];
    destruct (wi_kind i); try destruct (wi_endStream i); simplify_eq; by apply IH.
Qed.

Lemma wire_step_end isHead ph i ph' :
  wire_step isHead ph i = Some ph' -> is_answer i = true -> wi_endStream i = true -> ph' = Closed.
Proof.
  unfold wire_step, is_answer. destruct (wi_kind i), ph; try done; intros H _ He; rewrite He in H; cbn in H.
  - rewrite andb_false_r in H. cbn in H. destruct (is_1xx _); [done|]. destruct (_ || _); by simplify_eq.
  - destruct (exactly _ _); by simplify_eq.
Qed.

Lemma end_is_last isHead l ph ph' a b :
  wire_run isHead ph l = Some ph' -> answers l = a ++ b -> Exists (fun i => wi_endStream i = true) a -> b = [].
Proof.
  revert ph a. induction l as [|i l IH]; intros ph a H E He; cbn [wire_run] in H.
  { symmetry in E. by apply app_eq_nil in E as [-> ->]. }
  destruct (wire_step isHead ph i) as [ph1|] eqn:Es; [|done]. unfold answers in E. rewrite filter_cons in E.
  destruct (decide (is_answer i = true)) as [Hi|Hi]; [|by eapply IH].
  destruct a as [|j a]; [by inv He|]. injection E as <- E. apply Exists_cons in He as [He|He]; [|by eapply IH].
  rewrite (wire_step_end _ _ _ _ Es Hi He) in H. apply closed_no_answers in H. unfold answers in H. rewrite H in E.
  symmetry in E. by apply app_eq_nil in E as [_ ->].
Qed.

Lemma wire_run_prefix isHead ph l1 l2 ph' : wire_run isHead ph (l1 ++ l2) = Some ph' -> is_Some (wire_run isHead ph l1).
Proof.
  revert ph. induction l1 as [|i l1 IH]; intros ph H; [by eexists|]. cbn in *. destruct (wire_step _ _ _); [by eapply IH|done].
Qed.

(** ** What the goroutine's answers are *)

Section Goroutine.

Variables (d : DecodedHeaders) (calls : list HCall) (dataDone : bool) (world : World) (rst : RState) (o : HOutcome).
Hypothesis (Hw : world_ok world) (Hl : w_log world = []).
Hypothesis (Hok : Forall call_ok calls) (Hb : zsum call_len calls < 2 ^ 63).
Hypothesis Hrun : goroutine d calls dataDone world = (rst, o).

Let r := respond (String.eqb (dh_Method d) "HEAD") calls.

(** A malformed request gets a reset and nothing else. *)
Lemma malformed_unanswered : servedRequest d = None -> answers (taken rst) = [].
Proof.
  intros Hd. pose proof Hrun as Hr. unfold goroutine, serveStream in Hr. rewrite Hd in Hr. cbn [negb] in Hr. injection Hr as <- _.
  unfold taken, log, Reset. cbn. by rewrite Hl.
Qed.

Lemma taken_in_order a b :
  answers (taken rst) = a ++ b -> Exists (fun i => wi_endStream i = true) a -> b = [].
Proof.
  destruct (serveStream_wire _ _ _ calls dataDone world rst o Hw Hl Hok Hb Hrun) as (ph & Hph & _).
  unfold taken, untilRefused, log. rewrite <- (until_since refused (w_log (r_world rst))), fmap_app in Hph.
  destruct (wire_run_prefix _ _ _ _ _ Hph) as [ph' Hp]. by eapply end_is_last.
Qed.

Lemma goroutine_follows (l : list writeIntent) :
  is_Some (servedRequest d) -> l `prefix_of` answers (taken rst) ->
  heads l `prefix_of` rs_heads r /\ datas l `prefix_of` rs_body r /\
  (Exists (fun i => wi_endStream i = true) l -> datas l = rs_body r /\ rs_complete r = true).
Proof.
  intros [sv Hd] [l' E]. pose proof Hrun as Hr. unfold goroutine in Hr. rewrite Hd in Hr.
  destruct (handler_follows _ _ _ _ _ _ _ Hw Hl Hok Hb Hr) as [[Hp1 Hp2] Hall]. fold r in Hp1, Hp2, Hall.
  rewrite <- heads_answers, E, heads_app in Hp1. rewrite <- datas_answers, E, datas_app in Hp2. split_and!.
  - etrans; [|exact Hp1]. by apply prefix_app_r.
  - etrans; [|exact Hp2]. by apply prefix_app_r.
  - intros He. rewrite (taken_in_order _ _ E He), app_nil_r in E.
    assert (Hends : ends (taken rst) = true).
    { unfold ends. apply existsb_exists. apply Exists_exists in He as (i & Hin & Hi). exists i. split; [|done].
      apply list_elem_of_In. rewrite <- E in Hin. by apply list_elem_of_filter in Hin as [_ ?]. }
    destruct Hall as (_ & H2 & H3); [by left|]. rewrite Hends in H3. split; [|done]. by rewrite <- H2, <- (datas_answers (taken rst)), E.
Qed.

End Goroutine.

(** ** The request's way to the worker *)

Section RoundTrip.

Context {FR : Framer} {HE : HpackEncoder} {HD : HpackDecoder} {HC : HpackCodec} {WI : Wire}.

Variable range : header -> list (string * list string).
Hypothesis range_perm : forall h, range h ≡ₚ map_to_list h.

(** Events of a tunnel that is up: frames as the framer returns them, streams
    opened for public requests only. *)
Definition public_tev (e : TunnelEv) : Prop :=
  match e with
  | TFrame _ _ f => frame_typed f /\ frame_bounded f
  | TForward e => public_ev range e
  | TInFlight _ => True
  | TTeardown => False
  end.

Lemma public_tev_ok e : public_tev e -> tunnel_ev_ok e.
Proof. destruct e as [ch now f|e|d|]; cbn; [by intros [? _]|intros H; by destruct (public_ev_ok range e H)|done..]. Qed.

Lemma tunnel_ev_forwarded k w e :
  typed (proxy_intent (forwarded range)) k (w_conn w) -> public_tev e -> Z.of_nat (k + ev_opens e) <= 2 ^ 30 ->
  typed (proxy_intent (forwarded range)) (k + ev_opens e) (w_conn (tunnel_ev w e)).
Proof.
  intros H He Hb. destruct e as [ch now f|e|d|]; cbn [tunnel_ev ev_opens] in *; rewrite ?Nat.add_0_r; [| |done|done].
  - destruct He as [_ He]. destruct (InContinuation (c_hdr (w_conn w))) eqn:Hc.
    + by apply (continueBlock_typed (R := proxyRole) (P := proxy_intent (forwarded range)) k w f H Hc).
    + by apply (typed_frame (R := proxyRole) (P := proxy_intent (forwarded range)) k w ch now f Hc H He).
  - apply forward_ev_keeps; [done|by apply public_ev_ok|done].
Qed.

Lemma tunnel_evs_forwarded k w es :
  typed (proxy_intent (forwarded range)) k (w_conn w) -> Forall public_tev es ->
  Z.of_nat (k + sum_list_with ev_opens es) <= 2 ^ 30 ->
  typed (proxy_intent (forwarded range)) (k + sum_list_with ev_opens es) (w_conn (tunnel_evs w es)).
Proof.
  intros H Hes. revert k w H. induction Hes as [|e es He Hes IH]; intros k w H Hb; cbn in *; [by rewrite Nat.add_0_r|].
  rewrite Nat.add_assoc. apply IH; [|lia]. apply tunnel_ev_forwarded; [done|done|lia].
Qed.

(** A tunnel whose handshake has ended. *)
Definition handshaken (w0 : Worker) : Prop :=
  exists d rs, Forall public_read rs /\ awaitSettings (R := proxyRole) (newWorker d) rs = (w0, Some None).

Lemma handshaken_inv w0 : handshaken w0 -> proxy_inv 0 w0 /\ typed (proxy_intent (forwarded range)) 0 (w_conn w0).
Proof.
  intros (d & rs & Hrs & H0).
  assert (Hr1 : Forall (fun x => match x with RFrame f => frame_typed f | _ => True end) rs)
    by (eapply Forall_impl; [exact Hrs|]; by intros [f| |]; [intros []|..]).
  assert (Hr2 : Forall read_bounded rs) by (eapply Forall_impl; [exact Hrs|]; by intros [f| |]; [intros []|..]).
  split; [exact (awaitSettings_proxy 0 _ rs w0 _ (newWorker_inv d) Hr1 H0)|].
  exact (awaitSettings_typed (R := proxyRole) (P := proxy_intent (forwarded range)) 0 (newWorker d) rs w0 _
    (newConn_typed _ d) Hr2 H0).
Qed.

(** The worker's loop has read every frame the tunnel had submitted when the
    stream was opened; [d] is the request it dispatched last. *)
Definition reaches (wo : Worker) (d : DecodedHeaders) : Prop :=
  exists rd we fr rs hs st0 wr st1, in_sync we rd /\ Forall read_ok rs /\
    awaitSettings (R := workerRole) (serve_init rd) rs = (st0, Some None) /\
    intents hs = c_out (w_conn wo) /\
    link (R := workerRole) range (newWriter we fr) st0 hs = (wr, st1, LinkUp) /\ last (ws_spawned st1) = Some d.

(** The stream's request is the last intent of the tunnel when it is open. *)
Lemma openForward_out req w x wo id :
  openForward range req w x = (wo, inl id) -> c_writeDead (w_conn wo) = false ->
  c_out (w_conn wo) = c_out (w_conn (tunnel_evs w (x_racing x))) ++ [forwardIntent range req id].
Proof.
  unfold openForward. rewrite openStream_eq. cbv zeta. set (w1 := tunnel_evs w (x_racing x)).
  destruct (Draining _); [done|]. destruct (_ <=? _); [done|]. destruct (x_sendErr x); [done|].
  intros [= <- <-]. unfold opened. destruct (NextStreamID (w_conn w1)) as [c i] eqn:En. cbn [w_conn set_conn set_streams snd].
  unfold NextStreamID in En. injection En as <- <-. unfold submitAsync.
  destruct (c_writeDead (Conn.AddStream _ _)) eqn:Ed; [congruence|done].
Qed.

Lemma reached_request w0 req x wo id d :
  handshaken w0 -> public_ok req -> Forall public_tev (x_before x ++ x_racing x) ->
  Z.of_nat (sum_list_with ev_opens (x_before x ++ x_racing x) + 1) <= 2 ^ 30 ->
  openForward range req (tunnel_evs (addInFlight w0 1) (x_before x)) x = (wo, inl id) ->
  c_writeDead (w_conn wo) = false -> reaches wo d -> d = arrived (forwardIntent range req id).
Proof.
  intros Hg Hreq Hev Hb Ho Hd (rd & we & fr & rs & hs & st0 & wr & st1 & Hsync & Hrs & Hrdy & Hint & Hlink & Hlast).
  destruct (handshaken_inv w0 Hg) as [Hi Ht]. pose proof (openForward_out _ _ _ _ _ Ho Hd) as Hout.
  rewrite <- tunnel_evs_app in Hout. set (w1 := tunnel_evs _ (x_before x ++ x_racing x)) in *.
  set (n := sum_list_with ev_opens (x_before x ++ x_racing x)) in *.
  assert (Ht1 : typed (proxy_intent (forwarded range)) (0 + n) (w_conn w1)) by (apply tunnel_evs_forwarded; [done|done|lia]).
  destruct (forward_opening range req 0 w0 x wo (inl id) Hi) as (Hio & _ & _ & _).
  { eapply Forall_impl; [exact Hev|]. apply public_tev_ok. }
  { unfold opening_opens. unfold n in Hb. rewrite sum_list_with_app in Hb. lia. }
  { exact Ho. }
  destruct (pi_order _ _ Hio) as [Hso Hpos].
  destruct (worker_ready rd we fr rs st0 Hsync Hrs Hrdy) as (Hw & Hs & HL & Hsp).
  assert (Hfwd : Forall (proxy_intent (forwarded range)) (c_out (w_conn wo))).
  { unfold openForward in Ho. rewrite <- tunnel_evs_app in Ho. fold w1 in Ho.
    pose proof (openStream_typed (forwarded range) (0 + n) w1 0 (InitialStreamWindow (c_Send (w_conn (tunnel_evs (addInFlight w0 1) (x_before x)))))
      (forwardIntent range req) (x_sendErr x) (x_now x) ltac:(lia) Ht1) as Hty. rewrite Ho in Hty.
    apply Hty; [by intros j|]. intros j. by exists req. }
  destruct (link_worker range range_perm hs (newWriter we fr) st0 wr st1 LinkUp Hw Hs) as (hs1 & hs2 & -> & Hsp2 & Hres);
    [rewrite Hint; eapply Forall_impl; [exact Hfwd|]; by apply forwarded_typed|by rewrite Hint|rewrite Hint, HL; eapply Forall_impl; [exact Hpos|]; cbn; intros; lia|done|].
  cbn in Hres. subst hs2. rewrite app_nil_r in Hint. rewrite Hint, Hout in Hsp2. unfold requests in Hsp2.
  rewrite filter_app, filter_cons_True, fmap_app, Hsp in Hsp2 by done. cbn [app filter] in Hsp2.
  rewrite fmap_cons, filter_nil in Hsp2. cbn [fmap list_fmap] in Hsp2. rewrite Hsp2, last_snoc in Hlast. by injection Hlast as <-.
Qed.

(** ** One exchange from end to end *)

Lemma Exists_ends id l : ~ Forall (fun i => ends_on id i = false) l -> Exists (fun i => wi_endStream i = true) (answers_on id l).
Proof.
  intros H. apply not_Forall_Exists in H; [|intros i; apply _]. apply Exists_exists in H as (i & Hin & Hi).
  apply not_false_iff_true, andb_true_iff in Hi as [[Ha He]%andb_true_iff Hid%bool_decide_eq_true].
  apply Exists_exists. exists i. unfold answers_on. by rewrite list_elem_of_filter.
Qed.

Lemma copy_events_ok id steps : steps_ok id steps -> Forall tunnel_ev_ok (copy_events id steps).
Proof.
  intros H. unfold copy_events. apply Forall_concat, Forall_fmap. eapply Forall_impl; [exact H|]. intros st Hst. cbn.
  apply Forall_app. split; [|by constructor]. eapply Forall_impl; [exact Hst|]. by intros e [? _].
Qed.

(** [writeResponse] clears the header map and nothing else. *)
Lemma copyingAt_same k w id :
  proxy_inv k w ->
  proxy_inv k (copyingAt w id) /\ wbodies (copyingAt w id) = wbodies w /\ w_conn (copyingAt w id) = w_conn w.
Proof.
  intros H. unfold copyingAt. destruct (getStream _ id) eqn:Eg; [|done]. split; [|done].
  apply proxy_streams_step; [done|]. intros j. unfold getStream in Eg. rewrite lookup_insert_is_Some'.
  split; [intros [<- |?]; [by rewrite Eg|done]|by right].
Qed.

(** The stream's body is still open if nothing that came in ended it. *)
Lemma body_still_open k w0 req x wo wr l1 l2 wr1 wr2 n :
  let id := streamOf w0 x in
  let wc := copyingAt (tunnel_evs wo (x_wait x)) id in
  proxy_inv k w0 -> script_ok id x -> Z.of_nat (k + script_opens id x) <= 2 ^ 30 ->
  openForward range req (tunnel_evs (addInFlight w0 1) (x_before x)) x = (wo, inl id) ->
  codec_sync wr (c_hdr (w_conn wo)) -> codec_sync wr1 (c_hdr (w_conn wc)) -> Forall response_ok l1 -> Forall response_ok l2 ->
  emits range wr l1 (x_wait x) wr1 -> emits range wr1 l2 (copy_events id (take n (x_copy x))) wr2 ->
  Forall (fun i => ends_on id i = false) l1 -> Forall (fun i => ends_on id i = false) l2 ->
  undone (wbodies (tunnel_evs wc (copy_events id (take n (x_copy x))))) id.
Proof.
  intros id wc Hi (Hok1 & Hok2 & Hok3 & _) Hb Ho Hs Hsc Hl1 Hl2 He1 He2 Hn1 Hn2. unfold script_opens, exchange_opens in Hb.
  destruct (forward_opening range req k w0 x wo (inl id) Hi Hok1 ltac:(lia) Ho) as (Hio & _ & _ & Hst).
  set (k1 := (k + opening_opens x + 1)%nat) in *.
  assert (Hu0 : undone (wbodies wo) id).
  { intros f Hf. unfold wbodies, abs in Hf. cbn [bs_mem bs_streams bodies] in Hf. rewrite lookup_fmap, Hst in Hf. cbn in Hf. by simplify_eq. }
  assert (Hev : Forall tunnel_ev_ok (x_wait x)) by (eapply Forall_impl; [exact Hok2|]; by intros e [? _]).
  pose proof (emits_keeps_open range range_perm id k1 wr l1 _ wr1 wo He1 Hl1 Hs Hio Hev ltac:(lia) Hn1 Hu0) as Hu1.
  pose proof (tunnel_evs_inv k1 wo (x_wait x) ltac:(by intros _) Hev ltac:(lia)) as Hi1.
  destruct (copyingAt_same _ _ id Hi1) as (Hi2 & Ew & _). fold wc in Hi2, Ew. rewrite <- Ew in Hu1.
  eapply (emits_keeps_open range range_perm id _ wr1 l2 _ wr2 wc He2 Hl2 Hsc Hi2); [|..|exact Hn2|exact Hu1].
  - apply copy_events_ok. by apply Forall_take.
  - rewrite (copy_events_take id n), sum_list_with_app in Hb. lia.
Qed.

(** Everything that takes part in it: the tunnel at its end of the handshake,
    the public request and the surroundings of its forwarder, the tunnel when
    the stream is open and what [forward] returned; the request the worker
    dispatched, its handler's calls and its goroutine; the worker's writer
    and the intents it processes. *)
Record Trip := mkTrip {
  tr_tunnel : Worker;
  tr_request : Request;
  tr_script : Script;
  tr_opened : Worker;
  tr_after : option Worker;
  tr_status : Z;
  tr_header : header;
  tr_body : list byte;
  tr_phase : Phase;
  tr_dispatched : DecodedHeaders;
  tr_calls : list HCall;
  tr_dataDone : bool;
  tr_world : World;
  tr_goroutine : RState;
  tr_outcome : HOutcome;
  tr_writer : Writer;
  tr_intents : list writeIntent;
  tr_writer' : Writer
}.

Definition tr_id (t : Trip) : Z := streamOf (tr_tunnel t) (tr_script t).

(** The copy loop of the trip, from where it starts. *)
Definition tr_copy (t : Trip) : Worker * list byte * option CopyEnd :=
  copyBody (tr_id t) (copyingAt (tunnel_evs (tr_opened t) (x_wait (tr_script t))) (tr_id t)) (x_copy (tr_script t)).

(** How the parts fit together; [handles]: the calls the handler may make on
    a request. *)
Record trip_ok (handles : ServedRequest -> list HCall -> Prop) (t : Trip) : Prop := {
  (* the proxy: a tunnel with any history, and the request on it *)
  to_tunnel : handshaken (tr_tunnel t);
  to_public : public_ok (tr_request t);
  to_history : Forall public_tev (x_before (tr_script t) ++ x_racing (tr_script t));
  to_script : script_ok (tr_id t) (tr_script t);
  to_ids : Z.of_nat (script_opens (tr_id t) (tr_script t)) <= 2 ^ 30;
  to_forward : forward range (tr_request t) (Some (tr_tunnel t)) (tr_script t) =
    (tr_after t, Proxied (tr_status t) (tr_header t) (tr_body t), tr_phase t);
  to_opened : openForward range (tr_request t) (tunnel_evs (addInFlight (tr_tunnel t) 1) (x_before (tr_script t))) (tr_script t) =
    (tr_opened t, inl (tr_id t));
  to_alive : c_writeDead (w_conn (tr_opened t)) = false;
  (* the worker: the request dispatched, its goroutine and its handler *)
  to_dispatched : reaches (tr_opened t) (tr_dispatched t);
  to_handler sv : servedRequest (tr_dispatched t) = Some sv -> handles sv (tr_calls t);
  to_world : world_ok (tr_world t) /\ w_log (tr_world t) = [];
  to_calls : Forall call_ok (tr_calls t) /\ zsum call_len (tr_calls t) < 2 ^ 63;
  to_goroutine : goroutine (tr_dispatched t) (tr_calls t) (tr_dataDone t) (tr_world t) = (tr_goroutine t, tr_outcome t);
  (* the way back: the goroutine's answers among the writer's intents *)
  to_sync : codec_sync (tr_writer t) (c_hdr (w_conn (tr_opened t)));
  to_intents : Forall response_ok (tr_intents t);
  to_answers : answers_on (tr_id t) (tr_intents t) `prefix_of` answers (taken (tr_goroutine t));
  to_emitted : emits range (tr_writer t) (tr_intents t)
    (x_wait (tr_script t) ++ copy_events (tr_id t) (x_copy (tr_script t))) (tr_writer' t)
}.

Lemma trip_dispatched handles t :
  trip_ok handles t -> tr_dispatched t = arrived (forwardIntent range (tr_request t) (tr_id t)).
Proof.
  intros T. eapply (reached_request (tr_tunnel t)); try apply T.
  pose proof (to_ids _ _ T) as Hb. unfold script_opens, exchange_opens, opening_opens in Hb. rewrite sum_list_with_app. lia.
Qed.

Lemma trip_answer handles t :
  trip_ok handles t ->
  exists sv, publicView (tr_request t) = Some sv /\ handles sv (tr_calls t) /\
    let r := respond (String.eqb (sv_Method sv) "HEAD") (tr_calls t) in
    (exists s h, head (rs_heads r) = Some (s, h) /\ tr_status t = (if s =? 0 then 502 else s) /\ tr_header t = filter forwardable h) /\
    tr_body t `prefix_of` rs_body r /\
    ((tr_copy t).2 = Some CopyEOF -> tr_body t = rs_body r /\ rs_complete r = true).
Proof.
  intros T. destruct (handshaken_inv _ (to_tunnel _ _ T)) as [Hi _]. pose proof (trip_dispatched _ _ T) as Ed.
  destruct (arrived_forwardIntent range (tr_request t) (tr_id t) (range_perm _) (to_public _ _ T)) as [_ Hsv]. rewrite <- Ed in Hsv.
  destruct (answers_relayed range range_perm range _ 0 _ _ _ _ _ _ _ _ _ _ _ range_perm Hi (to_script _ _ T) (to_ids _ _ T)
    (to_forward _ _ T) (to_opened _ _ T) (to_sync _ _ T) (to_intents _ _ T) (to_emitted _ _ T))
    as (l1 & l2 & l3 & wr1 & wr2 & n & i & El & He1 & He2 & Hsc & Hfst & Est & Eh & Hout & Heof).
  fold (tr_id t) in Hsc, Heof, Hfst, Hout, He2. fold (tr_copy t) in Heof. set (l := l1 ++ l2) in *.
  pose proof (to_answers _ _ T) as Hans. pose proof (to_intents _ _ T) as Hl. rewrite El in Hans, Hl.
  assert (Hpre : answers_on (tr_id t) l `prefix_of` answers (taken (tr_goroutine t))).
  { etrans; [|exact Hans]. unfold answers_on. rewrite filter_app. by apply prefix_app_r. }
  pose proof (first_answer _ l i Hfst) as Hhead. destruct (to_world _ _ T) as [Hw Hlog]. destruct (to_calls _ _ T) as [Hc Hz].
  destruct (servedRequest (tr_dispatched t)) as [sv|] eqn:Esv.
  2: { rewrite (malformed_unanswered _ _ _ _ _ _ Hlog (to_goroutine _ _ T) Esv) in Hpre. apply prefix_nil_inv in Hpre. by rewrite Hpre in Hhead. }
  exists sv. split_and!; [done|by apply (to_handler _ _ T)|]. cbv zeta.
  assert (Hm : dh_Method (tr_dispatched t) = sv_Method sv) by (unfold servedRequest in Esv; by destruct (parseRequestURI _); simplify_eq).
  destruct (goroutine_follows _ _ _ _ _ _ Hw Hlog Hc Hz (to_goroutine _ _ T) (answers_on (tr_id t) l) ltac:(by rewrite Esv) Hpre)
    as (Hheads & Hbody & Hend). rewrite Hm in Hheads, Hbody, Hend. rewrite datas_answers_on in Hbody, Hend. split_and!.
  - exists (wi_status i), (wi_header i). split_and!; [|done..]. destruct Hheads as [k ->]. by destruct (heads (answers_on (tr_id t) l)).
  - by etrans.
  - intros E. destruct (Heof E) as [-> Habs]. apply Hend. apply Exists_ends. intros Hno. unfold l in Hno.
    apply Forall_app in Hno as [Hno1 Hno2]. apply Forall_app in Hl as [Hl _]. apply Forall_app in Hl as [Hl1 Hl2].
    pose proof (body_still_open 0 _ _ _ _ _ l1 l2 wr1 wr2 n Hi (to_script _ _ T) (to_ids _ _ T) (to_opened _ _ T)
      (to_sync _ _ T) Hsc Hl1 Hl2 He1 He2 Hno1 Hno2) as Hu. by destruct (Hu _ Habs eq_refl).
Qed.

(** The handler may be described differently. *)
Lemma trip_ok_handler handles (handles' : ServedRequest -> list HCall -> Prop) t :
  trip_ok handles t -> (forall sv, servedRequest (tr_dispatched t) = Some sv -> handles' sv (tr_calls t)) -> trip_ok handles' t.
Proof. intros [] H. by split. Qed.

(** C1. The tunnel is transparent: when a public request that a forwarder has
    put on a tunnel with any history is answered, the handler was given that
    very request (method, path, host, exactly its end-to-end headers), and the
    caller was sent the response the handler's calls describe: its first
    status and headers without the connection-specific ones, and a prefix of
    its body; if the copy loop saw the end of the body, all of it, and the
    response was complete.  What else the forwarders, the frame reader, the
    other streams, the windows and the worker's goroutines do in between, and
    where the writes are cut into frames, makes no difference. *)
Theorem round_trip handles t :
  trip_ok handles t ->
  exists sv, publicView (tr_request t) = Some sv /\ handles sv (tr_calls t) /\
    let r := respond (String.eqb (sv_Method sv) "HEAD") (tr_calls t) in
    (exists s h, head (rs_heads r) = Some (s, h) /\ tr_status t = (if s =? 0 then 502 else s) /\ tr_header t = filter forwardable h) /\
    tr_body t `prefix_of` rs_body r /\
    ((tr_copy t).2 = Some CopyEOF -> tr_body t = rs_body r /\ rs_complete r = true).
Proof. apply trip_answer. Qed.

End RoundTrip.

(** ** A run *)

Module RoundTripDemo.

Import PlainWire ExchangeDemo EndToEndDemo.

Definition hello_request : Request :=
  mkRequest "GET" "example.com" "" "/hello" false
    {[ "X-Trace"%string := ["1"]%string; "Connection"%string := ["close"]%string ]} true 0.

Lemma hello_request_ok : public_ok hello_request.
Proof. unfold public_ok. apply (bool_decide_unpack _). vm_compute. exact I. Qed.

Definition greeting : list byte := list_byte_of_string ("hello from behind the proxy" ++ String (Ascii.ascii_of_nat 10) EmptyString).

Definition answer_block : list byte := Eval vm_compute in responseBlock map_to_list Plain.demo_writer (SendResponseHeaders 3 200 ∅ false).

(** Another request is open on the tunnel; ours gets stream 3. *)
Definition history : list TunnelEv := [frame (FWindowUpdate 0 5); TForward (open ForwardDemo.demo_request)].

Definition copies : list CopyStep :=
  [mkCopyStep [] true; mkCopyStep [frame (FData 3 (drop 10 greeting) 18 false)] true; mkCopyStep [frame (FData 3 [] 0 true)] true].

Definition trip : Script :=
  mkScript history [] None
    [frame (FHeaders (mkHeadersFrame 3 answer_block false true)); frame (FData 3 (take 10 greeting) 10 false)] WaitAnswered
    (copies ++ repeat (mkCopyStep [] true) 30) [] true 5.

Definition opening : Worker :=
  (openForward map_to_list hello_request (tunnel_evs (addInFlight EndToEndDemo.greeted 1) (x_before trip)) trip).1.

Definition back : Worker := default EndToEndDemo.greeted (forward map_to_list hello_request (Some EndToEndDemo.greeted) trip).1.1.

Definition dispatched : DecodedHeaders := arrived (forwardIntent map_to_list hello_request 3).

Lemma triple_last {A B C} (p : A * B * C) c : p.2 = c -> p = (p.1.1, p.1.2, c).
Proof. intros <-. by destruct p as [[a b] c]. Qed.

(** The handler answers every request alike; its one write needs two grants. *)
Definition calls : list HCall := [CWrite 16384 greeting].

Definition handles (sv : ServedRequest) (cs : list HCall) : Prop := cs = calls.

Definition written : RState := (goroutine dispatched calls true ResponseDemo.demo_world).1.

Definition sender : Writer :=
  foldl (fun w i => (processIntent (FR := Plain.plain_framer) (HE := Plain.plain_encoder) map_to_list w i).1) Plain.demo_writer (taken written).

Lemma trip_stream : streamOf EndToEndDemo.greeted trip = 3.
Proof. vm_compute. reflexivity. Qed.

Lemma is_greeted : handshaken EndToEndDemo.greeted.
Proof. exists tt, EndToEndDemo.hello. split; [exact hello_public|exact e2e_greeting]. Qed.

Lemma history_public : Forall (public_tev map_to_list) (x_before trip ++ x_racing trip).
Proof.
  constructor; [split; [vm_compute; split; discriminate|done]|]. constructor; [|constructor].
  exists ForwardDemo.demo_request. split; [exact post_ok|done].
Qed.

Lemma script_fits : script_ok 3 trip.
Proof. split_and!; cbn; repeat constructor; cbn; try (by vm_compute); try lia; vm_compute; discriminate. Qed.

Lemma trip_runs :
  forward map_to_list hello_request (Some EndToEndDemo.greeted) trip =
    (Some back, Proxied 200 ∅ greeting, Returned).
Proof. unfold back. apply triple_fst; vm_compute; reflexivity. Qed.

Lemma trip_opens :
  openForward map_to_list hello_request (tunnel_evs (addInFlight EndToEndDemo.greeted 1) (x_before trip)) trip = (opening, inl 3).
Proof. unfold opening. apply pair_fst. vm_compute. reflexivity. Qed.

Definition hops : list (Hop (R := workerRole)) :=
  (fun i => mkHop (R := workerRole) i 0 [] None 1) <$> c_out (w_conn opening).

Definition plain_writer : Writer := newWriter (HE := Plain.plain_encoder) tt ([] : framer).

Lemma trip_delivered : reaches map_to_list opening dispatched.
Proof.
  exists tt, (tt : @encoder Plain.plain_encoder), ([] : @framer Plain.plain_framer), ServeDemo.hello, hops, ready.
  exists (link (R := workerRole) map_to_list plain_writer ready hops).1.1, (link (R := workerRole) map_to_list plain_writer ready hops).1.2.
  split_and!; [done|exact ServeDemo.hello_ok|exact readying| | |].
  - unfold intents, hops. rewrite <- list_fmap_compose. apply list_fmap_id.
  - fold plain_writer. apply triple_last. vm_compute. reflexivity.
  - vm_compute. reflexivity.
Qed.

Lemma handler_ran : goroutine dispatched calls true ResponseDemo.demo_world = (written, HReturned).
Proof. unfold written. apply pair_fst. vm_compute. reflexivity. Qed.

Lemma taken_written :
  taken written = [SendResponseHeaders 3 200 ∅ false; SendData 3 (take 10 greeting) false; SendData 3 (drop 10 greeting) false; SendData 3 [] true].
Proof. vm_compute. reflexivity. Qed.

Lemma sent_ok : Forall response_ok (taken written).
Proof.
  assert (Hc : request_typed (SendResponseHeaders 3 200 ∅ false)) by (apply (bool_decide_unpack _); vm_compute; exact I).
  rewrite taken_written. constructor; [split; [done|intros _; split; [exact Hc|done]]|]. do 3 (constructor; [by split|]). constructor.
Qed.

(** Runs a concrete [emits]. *)
Ltac emitting :=
  unfold copies, copy_events; cbn [repeat x_wait x_copy app fmap list_fmap concat cp_env foldl]; unfold frame;
  repeat first [eapply emits_nil | eapply emits_frame; [reflexivity|reflexivity|vm_compute; reflexivity|]
    | eapply emits_other; [by intros|]].

Lemma trip_emitted :
  emits map_to_list Plain.demo_writer (taken written) (x_wait trip ++ copy_events 3 (x_copy trip)) sender.
Proof. unfold sender. rewrite taken_written. unfold trip. emitting. Qed.

Definition the_trip : Trip :=
  mkTrip EndToEndDemo.greeted hello_request trip opening (Some back) 200 ∅ greeting Returned
    dispatched calls true ResponseDemo.demo_world written HReturned Plain.demo_writer (taken written) sender.

Lemma the_trip_ok : trip_ok map_to_list handles the_trip.
Proof.
  split; change (tr_id the_trip) with (streamOf EndToEndDemo.greeted trip); rewrite ?trip_stream.
  - exact is_greeted.
  - exact hello_request_ok.
  - exact history_public.
  - exact script_fits.
  - vm_compute. discriminate.
  - exact trip_runs.
  - exact trip_opens.
  - vm_compute. reflexivity.
  - exact trip_delivered.
  - reflexivity.
  - split; [exact ResponseDemo.demo_world_ok|reflexivity].
  - split; [repeat constructor; simpl; range32|vm_compute; reflexivity].
  - exact handler_ran.
  - split; [exact I|exact CommonLowerNames_ok|exact CommonCanonNames_ok|vm_compute; reflexivity].
  - exact sent_ok.
  - exists []. vm_compute. reflexivity.
  - exact trip_emitted.
Qed.

Lemma round_trip_witness :
  exists sv, publicView hello_request = Some sv /\ greeting = rs_body (respond (String.eqb (sv_Method sv) "HEAD") calls).
Proof.
  destruct (round_trip map_to_list (fun h => reflexivity _) handles the_trip the_trip_ok) as (sv & Hsv & _ & _ & _ & He).
  exists sv. split; [exact Hsv|]. apply He. vm_compute. reflexivity.
Defined.

End RoundTripDemo.
