(* ===== verification/Completes.v ===== *)
(** * A round trip that completes

    The other half of RoundTrip.v: when the worker's goroutine has finished
    without trouble and what it sent has arrived, nothing but the caller and
    the stream's reset can keep the rest of the response from the caller. *)

From Stdlib Require Import Strings.Byte Strings.String.
From S2P Require Import Prelude Errors Flow Names H2Stream Writer HeaderBlock Conn ConnInv SendPath ResponseWriter Respond Uri FrameLoop Serve Tunnel TunnelEvents Forward Intents Wire EndToEnd Exchange Answer Ended RoundTrip.

Open Scope Z_scope.

(** ** A body that has ended stays ended *)

Section Keeps.

Context {HD : HpackDecoder}.

(** Everything but its owner's [Close]. *)
Definition not_closed (id : Z) (e : TunnelEv) : Prop := forall now, e <> TForward (FwClose id now).

#[local] Instance foreign_dec id e : Decision (foreign id e).
Proof. destruct e as [| [] | |]; cbn; apply _. Defined.

Lemma tunnel_ev_keeps id k w e f :
  proxy_inv k w -> tunnel_ev_ok e -> not_closed id e -> Z.of_nat (k + ev_opens e) <= 2 ^ 30 ->
  open_body id w f ->
  exists f', open_body id (tunnel_ev w e) f' /\ (ended f = true -> ended f' = true).
Proof.
  intros H He Hc Hb Hf. destruct (decide (foreign id e)) as [Hfo|Hfo].
  - destruct (tunnel_ev_grows id k w e H He Hb Hfo f (proj1 Hf)) as (f' & Hf' & Hg & _ & _ & Hd). exists f'.
    split; [|auto]. split; [done|]. rewrite Hg. apply Hf.
  - assert (Hx : exists n, e = TForward (FwRead id n)).
    { destruct e as [|[|i now|i want|i n|i]| |]; cbn in Hfo; try by destruct Hfo.
      - destruct (decide (i = id)) as [->|]; [by destruct (Hc now)|done].
      - destruct (decide (i = id)) as [->|]; [by eexists|done]. }
    destruct Hx as [n ->]. destruct (readBody_some id w n f Hf) as [[w' r] Hr].
    destruct (readBody_spec id k w n w' r f H Hf Hr) as (_ & f' & Hf' & Hread). rewrite (readBody_event id w n w' r Hr).
    destruct (fifo_read_taken _ _ _ _ Hread (proj2 Hf)) as (_ & _ & Hd). exists f'. split; [done|by rewrite Hd].
Qed.

End Keeps.

(** ** END_STREAM ends it *)

Section Ends.

Context {FR : Framer} {HE : HpackEncoder} {HD : HpackDecoder} {HC : HpackCodec} {WI : Wire}.

Variable range : header -> list (string * list string).
Hypothesis range_perm : forall h, range h ≡ₚ map_to_list h.

Lemma deliverResponse_ends w d f :
  (forall i, is_Some (c_streams (w_conn w) !! i) -> is_Some (w_streams w !! i)) -> dh_EndStream d = true -> abs (wbodies w) !! dh_StreamID d = Some f ->
  exists f', abs (wbodies (deliverResponse w d)) !! dh_StreamID d = Some f' /\ ended f' = true.
Proof.
  intros H He Hf. assert (Hs : is_Some (c_streams (w_conn w) !! dh_StreamID d)).
  { unfold wbodies, abs in Hf. cbn in Hf. rewrite lookup_fmap in Hf. by destruct (c_streams (w_conn w) !! dh_StreamID d). }
  pose proof (H _ Hs) as Hr. unfold deliverResponse, getStream. destruct Hr as [cs ->], Hs as [s Hs].
  rewrite He. unfold on_h2, wbodies, abs, bodies. cbn. rewrite lookup_fmap, lookup_alter_eq, Hs. cbn. by eexists.
Qed.

Lemma ending_frame id k w wr i fr ch now f f0 :
  proxy_inv k w -> codec_sync wr (c_hdr (w_conn w)) -> response_ok i -> intentFrame range wr i = Some fr -> received fr = RFrame f ->
  ends_on id i = true -> abs (wbodies w) !! id = Some f0 ->
  exists f1, abs (wbodies (tunnel_ev w (TFrame ch now f))) !! id = Some f1 /\ ended f1 = true.
Proof.
  intros H Hs Hok Hi Hr He Hf. apply andb_true_iff in He as [[Ha He]%andb_true_iff Hid%bool_decide_eq_true].
  destruct (frame_event range range_perm w wr i fr ch now f Hs Hok Hi Hr) as (_ & _ & Hcase). destruct (is_resp i) eqn:Er.
  - destruct Hcase as [h ->]. set (w1 := set_conn w (set_c_hdr (w_conn w) h)). subst id.
    apply (deliverResponse_ends w1 (answered i) f0); [|done|done]. intros j. apply (pi_regs _ _ H).
  - destruct Hcase as [-> _]. destruct (wi_kind i) eqn:Hk; unfold is_answer in Ha; unfold is_resp in Er; rewrite Hk in Ha, Er; try done.
    assert (Hfr : f = FData id (wi_data i) (Z.of_nat (length (wi_data i))) true).
    { destruct Hok as [(Hok & _ & _) _]. unfold intent_ok in Hok. rewrite Hk in Hok.
      unfold intentFrame in Hi. rewrite Hk in Hi. injection Hi as <-. destruct (decide (fits (wi_data i))) as [Hfit|Hfit].
      - rewrite received_data in Hr by done. rewrite He, Hid in Hr. by simplify_eq.
      - destruct (received_large_data (wi_streamID i) (wi_endStream i) _ Hfit). congruence. }
    subst f. cbn [handleProxyFrame]. destruct (HandleInboundData _ _ _ _ _ _ _) as [m c] eqn:E. destruct (pi_conn _ _ H) as (_ & _ & Hwf & _).
    destruct (HandleInboundData_fifo _ _ (mkData ch id (wi_data i) _ true) _ _ Hwf E) as [_ Hb].
    unfold wbodies in *. cbn [w_mem w_conn set_mem_conn fst] in *. rewrite Hb. cbn [df_id]. rewrite Hf, lookup_insert_eq.
    eexists. split; [done|]. cbn. by rewrite orb_true_r.
Qed.

(** With END_STREAM on it among the worker's intents, a body that is there has
    ended when their frames have come. *)
Lemma emits_ends id k wr l es wr' w f :
  emits range wr l es wr' -> Forall response_ok l -> codec_sync wr (c_hdr (w_conn w)) ->
  proxy_inv k w -> Forall tunnel_ev_ok es -> Forall (not_closed id) es -> Z.of_nat (k + sum_list_with ev_opens es) <= 2 ^ 30 ->
  open_body id w f ->
  exists f', open_body id (tunnel_evs w es) f' /\
    (ended f = true \/ Exists (fun i => ends_on id i = true) l -> ended f' = true).
Proof.
  intros H. revert k w f. induction H as [wr|wr l e es wr' Hne H IH|wr i l es wr' Hi H IH|wr i l fr g ch now es wr' Hi Hp Hr H IH];
    intros k w f Hok Hs Hw Hev Hnc Hb Hf; cbn [tunnel_evs foldl sum_list_with] in *.
  - exists f. split; [done|]. intros [?|Hx]; [done|by inv Hx].
  - apply Forall_cons in Hev as [He Hev]. apply Forall_cons in Hnc as [Hc Hnc].
    assert (Hw1 : proxy_inv (k + ev_opens e) (tunnel_ev w e)) by (apply tunnel_ev_inv; [by intros _|done|lia]).
    destruct (tunnel_ev_keeps id k w e f Hw He Hc ltac:(lia) Hf) as (f1 & Hf1 & Hd1).
    destruct (IH _ _ f1 Hok ltac:(by rewrite tunnel_ev_hdr) Hw1 Hev Hnc ltac:(lia) Hf1) as (f2 & Hf2 & Hd2).
    exists f2. split; [done|tauto].
  - apply Forall_cons in Hok as [Hok1 Hok]. destruct (silent_event range wr i _ Hs Hi) as (Hs' & Hnr & _).
    destruct (IH _ _ f Hok Hs' Hw Hev Hnc Hb Hf) as (f2 & Hf2 & Hd2). exists f2. split; [done|].
    intros [?|Hx]; [by apply Hd2; left|apply Hd2; right]. apply Exists_cons in Hx as [Hx|?]; [|done]. exfalso.
    unfold intentFrame in Hi. unfold ends_on, is_answer in Hx. by destruct (wi_kind i).
  - apply Forall_cons in Hok as [Hok1 Hok]. apply Forall_cons in Hev as [He Hev]. apply Forall_cons in Hnc as [Hc Hnc].
    cbn [ev_opens] in Hb.
    assert (Hw1 : proxy_inv (k + 0) (tunnel_ev w (TFrame ch now g)))
      by (apply (tunnel_ev_inv k w (TFrame ch now g)); [by intros _|done|cbn [ev_opens]; lia]).
    destruct (frame_event range range_perm w wr i fr ch now g Hs Hok1 Hi Hr) as (Hs' & _).
    destruct (tunnel_ev_keeps id k w _ f Hw He Hc ltac:(cbn [ev_opens]; lia) Hf) as (f1 & Hf1 & Hd1).
    destruct (IH _ _ f1 Hok Hs' Hw1 Hev Hnc ltac:(lia) Hf1) as (f2 & Hf2 & Hd2). exists f2. split; [done|].
    intros [?|Hx]; [by apply Hd2; left; auto|]. apply Exists_cons in Hx as [Hx|?]; [|by apply Hd2; right].
    apply Hd2. left. destruct (ending_frame id k w wr i fr ch now g f Hw Hs Hok1 Hi Hr Hx (proj1 Hf)) as (f3 & Hf3 & ?).
    destruct Hf1 as [Hf1 _]. congruence.
Qed.

End Ends.

(** ** What the goroutine sent *)

Lemma wire_ends isHead ph l ph' : wire_run isHead ph l = Some ph' -> Forall (fun i => wi_endStream i = true -> is_answer i = true) l.
Proof.
  revert ph. induction l as [|i l IH]; intros ph H; [constructor|]. cbn in H. destruct (wire_step isHead ph i) as [ph1|] eqn:E; [|done].
  constructor; [|by eapply IH]. unfold wire_step in E. unfold is_answer. intros He. destruct (wi_kind i); try done. by rewrite He in E.
Qed.

(** A response that was complete ended in END_STREAM. *)
Lemma goroutine_ends d calls dataDone w rst o id l :
  world_ok w -> w_log w = [] -> Forall call_ok calls -> zsum call_len calls < 2 ^ 63 ->
  goroutine d calls dataDone w = (rst, o) -> is_Some (servedRequest d) -> o <> HParked -> rw_err (r_rw rst) = None ->
  let r := respond (String.eqb (dh_Method d) "HEAD") calls in
  rs_complete r = true -> answers (taken rst) = answers_on id l ->
  datas (answers_on id l) = rs_body r /\ Exists (fun i => ends_on id i = true) l.
Proof.
  intros Hw Hl Hok Hb Hrun [sv Hsv] Ho Herr r Hc Ha.
  destruct (serveStream_wire _ _ _ calls dataDone w rst o Hw Hl Hok Hb Hrun) as (ph & Hph & _).
  pose proof Hrun as Hr. unfold goroutine in Hr. rewrite Hsv in Hr.
  destruct (handler_follows _ _ _ _ _ _ _ Hw Hl Hok Hb Hr) as [_ Hall]. fold r in Hall.
  destruct Hall as (_ & Hd & He); [by right; split; [|left]|]. rewrite Hc in He. split; [by rewrite <- Ha, datas_answers|].
  unfold taken, untilRefused, log in *. rewrite <- (until_since refused (w_log (r_world rst))), fmap_app in Hph.
  destruct (wire_run_prefix _ _ _ _ _ Hph) as [ph' Hp]. apply wire_ends in Hp. rewrite Forall_forall in Hp.
  unfold ends in He. apply existsb_exists in He as (i & Hin%list_elem_of_In & Hi). pose proof (Hp _ Hin Hi) as Hans.
  assert (Hin' : i ∈ answers_on id l) by (rewrite <- Ha; unfold answers; by rewrite list_elem_of_filter).
  unfold answers_on in Hin'. apply list_elem_of_filter in Hin' as [[_ Hid] Hil]. apply Exists_exists. exists i. split; [done|].
  unfold ends_on. rewrite Hans, Hi. cbn. by apply bool_decide_eq_true.
Qed.

(** ** The whole response *)

Section Completes.

Context {FR : Framer} {HE : HpackEncoder} {HD : HpackDecoder} {HC : HpackCodec} {WI : Wire}.

Variable range : header -> list (string * list string).
Hypothesis range_perm : forall h, range h ≡ₚ map_to_list h.

Variables (handles : ServedRequest -> list HCall -> Prop) (t : Trip).
Hypothesis T : trip_ok range handles t.

Let id := tr_id t.
Let x := tr_script t.
Let wo := tr_opened t.
Let wa := tunnel_evs wo (x_wait x).
Let wc := copyingAt wa id.
Let r := respond (String.eqb (rq_method (tr_request t)) "HEAD") (tr_calls t).

(** What is known where the copy loop starts. *)
Lemma copy_start :
  exists k f, proxy_inv k wo /\ open_body id wo (mkFifo [] false None) /\
    copied id k wo (mkFifo [] false None) (x_wait x) [] f /\
    proxy_inv (k + sum_list_with ev_opens (x_wait x)) wc /\ open_body id wc f /\ w_conn wc = w_conn wa /\
    Z.of_nat (k + sum_list_with ev_opens (x_wait x) + sum_list_with ev_opens (copy_events id (x_copy x))) <= 2 ^ 30.
Proof.
  destruct (handshaken_inv range _ (to_tunnel _ _ _ T)) as [Hi _]. pose proof (to_script _ _ _ T) as (Hok1 & Hok2 & _).
  pose proof (to_ids _ _ _ T) as Hb. unfold script_opens, exchange_opens in Hb. fold id x in Hb, Hok2.
  destruct (forward_opening range (tr_request t) 0 _ _ _ _ Hi Hok1 ltac:(fold x in Hb |- *; lia) (to_opened _ _ _ T)) as (Hio & _ & _ & Hst).
  fold wo id in Hio, Hst. set (k := (0 + opening_opens x + 1)%nat). fold x k in Hio. exists k.
  assert (Hf : open_body id wo (mkFifo [] false None)).
  { split; [|done]. unfold wbodies, abs. cbn [bs_mem bs_streams bodies]. by rewrite lookup_fmap, Hst. }
  destruct (copied_env id k wo _ (x_wait x) Hio Hf Hok2 ltac:(unfold k; lia)) as (f & C). exists f.
  destruct (copyingAt_same _ _ id (cp_inv _ _ _ _ _ _ _ C)) as (Hc & Ew & Ec). split_and!; [done..| |exact Ec|unfold k; lia].
  unfold open_body, wc, wa. rewrite Ew. apply C.
Qed.

(** All that arrives on the stream is of the response. *)
Lemma arrives_of_response sv :
  servedRequest (tr_dispatched t) = Some sv -> (length (TunnelEvents.received id wo (x_wait x) ++ TunnelEvents.received id wc (copy_events id (x_copy x))) <= length (rs_body r))%nat.
Proof.
  intros Hsv. destruct (emits_app_inv _ _ _ _ _ _ (to_emitted _ _ _ T)) as (l1 & l2 & wr1 & El & He1 & He2).
  pose proof (to_intents _ _ _ T) as Hl. rewrite El in Hl. apply Forall_app in Hl as [Hl1 Hl2].
  destruct (emits_received range range_perm id _ _ _ _ wo He1 Hl1 (to_sync _ _ _ T)) as [Hs1 Hr1].
  destruct copy_start as (k & f & _ & _ & _ & _ & _ & Ec & _). change (tunnel_evs wo (x_wait (tr_script t))) with wa in Hs1. rewrite <- Ec in Hs1.
  destruct (emits_received range range_perm id _ _ _ _ wc He2 Hl2 Hs1) as [_ Hr2]. fold x in Hr1. fold x id in Hr2.
  rewrite Hr1, Hr2, <- concat_app, <- fmap_app, <- El, <- datas_answers_on. apply prefix_length.
  destruct (to_world _ _ _ T) as [Hw Hlog]. destruct (to_calls _ _ _ T) as [Hc Hz].
  destruct (goroutine_follows _ _ _ _ _ _ Hw Hlog Hc Hz (to_goroutine _ _ _ T) (answers_on id (tr_intents t)) ltac:(by rewrite Hsv) (to_answers _ _ _ T))
    as (_ & Hbody & _). by rewrite (trip_dispatched range range_perm handles t T) in Hbody.
Qed.

Variables (l : list writeIntent) (wr : Writer) (pre post : list CopyStep).

(** The answers the goroutine got accepted come in before the iterations
    [post], of which there are more than the response has bytes. *)
Record delivered : Prop := {
  dl_steps : x_copy x = pre ++ post;
  dl_intents : Forall response_ok l;
  dl_emits : emits range (tr_writer t) l (x_wait x ++ copy_events id pre) wr;
  dl_answers : answers (taken (tr_goroutine t)) = answers_on id l;
  dl_enough : (length (rs_body r) < length post)%nat
}.

(** Nothing goes wrong: the worker's writer does not fail, the stream is not
    reset before, nor does the tunnel end, and the caller takes every write. *)
Record undisturbed : Prop := {
  ud_outcome : tr_outcome t <> HParked;
  ud_writer : rw_err (r_rw (tr_goroutine t)) = None;
  ud_waiting : failed id wo (x_wait x) = false;
  ud_copying : failed id wc (copy_events id pre) = false;
  ud_caller : Forall (fun st => cp_accepts st = true) (x_copy x)
}.

Lemma not_closed_events es : Forall (foreign id) es -> Forall (not_closed id) es.
Proof. intros H. eapply Forall_impl; [exact H|]. intros e He now ->. by destruct He. Qed.

Lemma not_closed_copy steps : steps_ok id steps -> Forall (not_closed id) (copy_events id steps).
Proof.
  intros H. unfold copy_events. apply Forall_concat, Forall_fmap. eapply Forall_impl; [exact H|]. intros st Hst. cbn.
  apply Forall_app. split; [|by constructor]. apply not_closed_events. eapply Forall_impl; [exact Hst|]. by intros e [_ ?].
Qed.

(** All of it has come when the iterations [post] begin, and the body has
    ended by then. *)
Lemma arrived_whole :
  servedRequest (tr_dispatched t) = publicView (tr_request t) -> is_Some (publicView (tr_request t)) ->
  delivered -> undisturbed -> rs_complete r = true ->
  exists k f, proxy_inv k wc /\ open_body id wc f /\ failure f = None /\
    Z.of_nat (k + sum_list_with ev_opens (copy_events id (pre ++ post))) <= 2 ^ 30 /\
    pending f = TunnelEvents.received id wo (x_wait x) /\ pending f ++ TunnelEvents.received id wc (copy_events id pre) = rs_body r /\
    forall g, open_body id (tunnel_evs wc (copy_events id pre)) g -> ended g = true.
Proof.
  intros Hsd Hsv D U Hrc. destruct copy_start as (k & f & Hio & Hfo & C & Hic & Hfc & Ec & Hb).
  pose proof (to_script _ _ _ T) as (_ & Hok2 & Hok3 & _). fold x id in Hok2, Hok3. rewrite (dl_steps D) in Hok3.
  apply Forall_app in Hok3 as [Hokp _]. apply Forall_and in Hok2 as [Hev Hfor].
  destruct (to_world _ _ _ T) as [Hw Hlog]. destruct (to_calls _ _ _ T) as [Hcalls Hz].
  destruct (goroutine_ends _ _ _ _ _ _ id l Hw Hlog Hcalls Hz (to_goroutine _ _ _ T) ltac:(by rewrite Hsd) (ud_outcome U) (ud_writer U)) as [Hdata Hend];
    [by rewrite (trip_dispatched range range_perm handles t T)|exact (dl_answers D)|].
  rewrite (trip_dispatched range range_perm handles t T) in Hdata. cbn [arrived dh_Method forwardIntent SendRequestHeaders wi_method] in Hdata. fold r in Hdata.
  destruct (emits_app_inv _ _ _ _ _ _ (dl_emits D)) as (l1 & l2 & wr1 & El & He1 & He2).
  pose proof (dl_intents D) as Hl. rewrite El in Hl, Hend. apply Forall_app in Hl as [Hl1 Hl2]. apply Exists_app in Hend.
  destruct (emits_received range range_perm id _ _ _ _ wo He1 Hl1 (to_sync _ _ _ T)) as [Hs1 Hr1]. fold wa in Hs1. rewrite <- Ec in Hs1.
  destruct (emits_received range range_perm id _ _ _ _ wc He2 Hl2 Hs1) as [_ Hr2].
  destruct (emits_ends range range_perm id k _ l1 _ wr1 wo _ He1 Hl1 (to_sync _ _ _ T) Hio Hev (not_closed_events _ Hfor)
    ltac:(lia) Hfo) as (f' & Hf' & Hend1).
  destruct Hf' as [Hf' _]. rewrite (proj1 (cp_now _ _ _ _ _ _ _ C)) in Hf'. injection Hf' as <-. rewrite (dl_steps D) in Hb.
  destruct (emits_ends range range_perm id _ wr1 l2 _ wr wc f He2 Hl2 Hs1 Hic (copy_events_ok _ _ Hokp) (not_closed_copy _ Hokp)
    ltac:(rewrite copy_events_app, total_opens_app in Hb; lia) Hfc) as (f2 & Hf2 & Hend2).
  pose proof (cp_bytes _ _ _ _ _ _ _ C) as Hby. cbn [pending app] in Hby.
  exists (k + sum_list_with ev_opens (x_wait x))%nat, f. split_and!; [done..| |done|done| |].
  - destruct (failure f) eqn:E; [|done]. destruct (proj1 (cp_failed _ _ _ _ _ _ _ C)) as [[? ?]|Hx]; [by rewrite E|done|].
    by rewrite (ud_waiting U) in Hx.
  - by rewrite <- Hby, Hr1, Hr2, <- concat_app, <- fmap_app, <- El, <- datas_answers_on.
  - intros g [Hg _]. rewrite (proj1 Hf2) in Hg. injection Hg as <-. apply Hend2. tauto.
Qed.

Lemma completes :
  delivered -> undisturbed -> rs_complete r = true ->
  tr_body t = rs_body r /\ (bodyEmpty (tr_request t) || x_pumped x = true -> tr_phase t = Returned).
Proof.
  intros D U Hrc. destruct (trip_answer range range_perm handles t T) as (sv & Hsv & _ & _ & Hpre & Heof).
  destruct (arrived_forwardIntent range (tr_request t) (tr_id t) (range_perm _) (to_public _ _ _ T)) as [_ Hsd].
  rewrite <- (trip_dispatched range range_perm handles t T) in Hsd.
  assert (Em : sv_Method sv = rq_method (tr_request t)) by (unfold publicView in Hsv; destruct (parseRequestURI _); by simplify_eq).
  rewrite Em in Hpre, Heof. fold r in Hpre, Heof.
  destruct (arrived_whole Hsd ltac:(by rewrite Hsv) D U Hrc) as (k & f & Hic & Hfc & Hnof & Hb & Hpend & Hall & Hends).
  pose proof (to_script _ _ _ T) as (_ & _ & Hok & _). pose proof (ud_caller U) as Hacc. pose proof (arrives_of_response sv ltac:(congruence)) as Hlen.
  fold x id in Hok. rewrite (dl_steps D) in Hok, Hacc, Hlen. rewrite <- Hpend in Hlen. pose proof (dl_enough D).
  pose proof (copy_completes id _ wc f pre post Hic Hfc Hok Hb Hends Hnof (ud_copying U) Hacc ltac:(lia)) as Hcc.
  destruct (forward_proxied _ _ _ _ _ _ _ _ _ (to_forward _ _ _ T)) as (wo' & id' & w2 & Ho' & Hx).
  rewrite (to_opened _ _ _ T) in Ho'. injection Ho' as <- <-.
  destruct (exchange_proxied _ _ _ _ _ _ _ _ _ _ Hx) as (cs & w3 & e & _ & _ & _ & _ & _ & _ & _ & Hcopy & Hph).
  unfold tr_copy in Heof. fold x id wo wa wc in Hcopy, Heof. rewrite (dl_steps D) in Hcopy, Heof. rewrite Hcopy in Hcc, Heof. cbn [snd] in Heof.
  assert (He : e <> None) by (by destruct Hcc as [->|(? & -> & _)]).
  split; [|intros Hp; eapply exchange_returns; [exact Hx|by rewrite Hph|done]].
  destruct Hcc as [->|(e' & -> & Hout)]; [by apply Heof|]. rewrite Hall in Hout. by apply (anti_symm (prefix (A := byte))).
Qed.

(** C2. And the tunnel loses nothing: when the goroutine of such a trip has
    finished without its writer failing, what it got accepted has come in
    before the copy loop's last iterations (more of them than the response
    has bytes), the stream is not reset nor the tunnel torn down before, and
    the caller takes what it is given, then the caller has the whole body of
    a complete response, and [forward] returns if the request has no body or
    its body pump has ended ([forward] waits for the pump, forward.go). *)
Theorem round_trip_completes :
  delivered -> undisturbed -> rs_complete r = true ->
  tr_body t = rs_body r /\ (bodyEmpty (tr_request t) || x_pumped x = true -> tr_phase t = Returned).
Proof. apply completes. Qed.

End Completes.

(** ** A run *)

Module CompletesDemo.

Import PlainWire ExchangeDemo RoundTripDemo.

Definition idle : list CopyStep := repeat (mkCopyStep [] true) 30.

Lemma came_in : delivered map_to_list the_trip (taken written) sender copies idle.
Proof.
  split; [reflexivity|exact sent_ok| |vm_compute; reflexivity|vm_compute; lia].
  unfold sender. change (tr_id the_trip) with (streamOf EndToEndDemo.greeted trip). rewrite trip_stream.
  change (tr_writer the_trip) with Plain.demo_writer. change (tr_script the_trip) with trip. rewrite taken_written. unfold trip. emitting.
Qed.

Lemma no_trouble : undisturbed the_trip copies.
Proof.
  split; [discriminate|vm_compute; reflexivity..|]. by repeat constructor.
Qed.

Lemma round_trip_completes_witness : tr_body the_trip = greeting /\ tr_phase the_trip = Returned.
Proof.
  destruct (round_trip_completes map_to_list (fun h => reflexivity _) handles the_trip the_trip_ok (taken written) sender copies idle came_in no_trouble)
    as [H1 H2]; [vm_compute; reflexivity|]. split; [exact H1|]. apply H2. vm_compute. reflexivity.
Defined.

End CompletesDemo.
