(* ===== verification/Recycle.v ===== *)
(** * Recycled objects: headers and intents (pools.go, conn.go, writer.go)

    Elsewhere a decoded header or a write intent is a value.  In the code both
    are objects taken from a process-wide [sync.Pool], filled in, handed from
    goroutine to goroutine and put back.  Here the objects have addresses, the
    pool may hand out any free one, and the theorems say that what readers see
    is what the value-level definitions say: no object is ever filled while
    somebody else still reads it, and nothing of its previous life shows. *)

From Stdlib Require Import Strings.Byte Strings.String.
From S2P Require Import Prelude Errors Names Writer HeaderBlock Forward Exchange.

Open Scope Z_scope.

(** ** A pool of objects *)

Section Store.

Context {A : Type}.

Record Store := mkStore { so_heap : gmap nat A; so_free : list nat; so_next : nat }.

(** [pool.Get()]: any free object, or what the pool's [New] makes. *)
Definition getObject (new : A) (p : Store) (choice : option nat) : Store * nat :=
  let fresh := (mkStore (<[so_next p := new]> (so_heap p)) (so_free p) (S (so_next p)), so_next p) in
  match choice with
  | Some l =>
      if decide (l ∈ so_free p) then (mkStore (so_heap p) (filter (fun x => x <> l) (so_free p)) (so_next p), l) else fresh
  | None => fresh
  end.

(** [pool.Put(x)] *)
Definition putObject (p : Store) (l : nat) : Store := mkStore (so_heap p) (l :: so_free p) (so_next p).

(** A garbage collection may empty the pool. *)
Definition dropFree (p : Store) (l : nat) : Store :=
  mkStore (so_heap p) (filter (fun x => x <> l) (so_free p)) (so_next p).

Definition readObject (p : Store) (l : nat) : option A := so_heap p !! l.

Definition writeObject (p : Store) (l : nat) (f : A -> A) : Store :=
  mkStore (alter f l (so_heap p)) (so_free p) (so_next p).

(** The objects' holders: no two hold the same object, and none holds a free
    one. *)
Record separate (p : Store) (held : gmap nat nat) : Prop := {
  sep_free : NoDup (so_free p);
  sep_live : Forall (fun l => (l < so_next p)%nat) (so_free p);
  sep_held : map_Forall (fun _ l => (l < so_next p)%nat /\ (l ∉ so_free p) /\ is_Some (readObject p l)) held;
  sep_apart : forall t1 t2 l, held !! t1 = Some l -> held !! t2 = Some l -> t1 = t2;
  sep_known : Forall (fun l => is_Some (readObject p l)) (so_free p)
}.

Lemma separate_empty : separate (mkStore ∅ [] 0) ∅.
Proof. by split; cbn; try constructor. Qed.

Lemma separate_sub p held held' : held' ⊆ held -> separate p held -> separate p held'.
Proof.
  intros Hs H. destruct H. split; try done.
  - intros t l Ht. eapply sep_held0, lookup_weaken; eauto.
  - intros t1 t2 l H1 H2. eapply sep_apart0; eapply lookup_weaken; eauto.
Qed.

(** A new object and whoever gets it. *)
Lemma get_fresh_separate p held t new :
  separate p held -> held !! t = None ->
  separate (mkStore (<[so_next p := new]> (so_heap p)) (so_free p) (S (so_next p))) (<[t := so_next p]> held).
Proof.
  intros [Hf Hl Hh Ha Hk] Ht.
  assert (Hr : forall l, is_Some (so_heap p !! l) -> is_Some (<[so_next p := new]> (so_heap p) !! l))
    by (intros l Hl'; apply lookup_insert_is_Some'; by right).
  assert (Hnew : forall t' l, held !! t' = Some l -> l <> so_next p) by (intros t' l Hl'; destruct (Hh _ _ Hl'); lia).
  split; unfold readObject in *; cbn.
  - done.
  - eapply Forall_impl; [exact Hl|]. cbn. lia.
  - apply map_Forall_insert_2; [|intros t' l Hl'; destruct (Hh _ _ Hl') as (? & ? & ?); split_and!; [lia|done|auto]].
    split_and!; [lia| |rewrite lookup_insert_eq; by eexists].
    intros Hin. rewrite Forall_forall in Hl. specialize (Hl _ Hin). cbn in Hl. lia.
  - intros t1 t2 l. rewrite !lookup_insert. repeat case_decide; intros; simplify_eq; try done.
    + by destruct (Hnew _ _ H2).
    + by destruct (Hnew _ _ H1).
    + by eapply Ha.
  - eapply Forall_impl; [exact Hk|]. cbn. auto.
Qed.

Lemma get_separate p held t new choice p' l :
  separate p held -> held !! t = None -> getObject new p choice = (p', l) ->
  separate p' (<[t := l]> held) /\
  (forall t' l', held !! t' = Some l' -> readObject p' l' = readObject p l') /\
  (readObject p' l = Some new \/ l ∈ so_free p /\ readObject p' l = readObject p l /\ is_Some (readObject p l)).
Proof.
  intros H Ht.
  assert (Hfresh : separate (mkStore (<[so_next p := new]> (so_heap p)) (so_free p) (S (so_next p))) (<[t := so_next p]> held) /\
    (forall t' l', held !! t' = Some l' -> <[so_next p := new]> (so_heap p) !! l' = so_heap p !! l') /\
    <[so_next p := new]> (so_heap p) !! so_next p = Some new).
  { split_and!; [by apply get_fresh_separate| |by rewrite lookup_insert_eq].
    intros t' l' Hl'. apply lookup_insert_ne. destruct (sep_held _ _ H _ _ Hl'). lia. }
  destruct Hfresh as (F1 & F2 & F3).
  unfold getObject. destruct choice as [l0|]; [|intros; simplify_eq; split_and!; auto].
  case_decide as Hin; intros E; simplify_eq; [|split_and!; auto]. destruct H as [Hf Hl Hh Ha Hk]. split_and!; [|done|right].
  - split; cbn.
    + by apply NoDup_filter.
    + apply Forall_forall. intros x [_ Hx]%list_elem_of_filter. rewrite Forall_forall in Hl. by apply Hl.
    + rewrite Forall_forall in Hl, Hk. apply map_Forall_insert_2.
      * split_and!; [by apply Hl| |by apply Hk]. by intros [? _]%list_elem_of_filter.
      * intros t' l' Hl'. destruct (Hh _ _ Hl') as (? & Hn & ?). split_and!; [done| |done]. by intros [_ ?]%list_elem_of_filter.
    + intros t1 t2 l'. rewrite !lookup_insert. repeat case_decide; intros; simplify_eq; try done.
      * by destruct (Hh _ _ H2) as (_ & ? & _).
      * by destruct (Hh _ _ H1) as (_ & ? & _).
      * by eapply Ha.
    + apply Forall_forall. intros x [_ Hx]%list_elem_of_filter. rewrite Forall_forall in Hk. by apply Hk.
  - rewrite Forall_forall in Hk. split_and!; [done|done|by apply Hk].
Qed.

Lemma put_separate p held t l : separate p held -> held !! t = Some l -> separate (putObject p l) (delete t held).
Proof.
  intros [Hf Hl Hh Ha Hk] Ht. destruct (Hh _ _ Ht) as (Hn & Hfr & Hr). split; cbn.
  - by constructor.
  - by constructor.
  - intros t' l' Hl'. apply lookup_delete_Some in Hl' as [Hne Hl']. destruct (Hh _ _ Hl') as (? & ? & ?).
    split_and!; [done| |done]. rewrite elem_of_cons. intros [->|?]; [|done]. by apply Hne, (Ha _ _ l).
  - intros t1 t2 l'. rewrite !lookup_delete_Some. intros [_ ?] [_ ?]. by eapply Ha.
  - by constructor.
Qed.

Lemma drop_separate p held l : separate p held -> separate (dropFree p l) held.
Proof.
  intros [Hf Hl Hh Ha Hk]. split; cbn; [by apply NoDup_filter| | |done|].
  - apply Forall_forall. intros x [_ Hx]%list_elem_of_filter. rewrite Forall_forall in Hl. by apply Hl.
  - intros t l' Hl'. destruct (Hh _ _ Hl') as (? & ? & ?). split_and!; [done| |done]. by intros [_ ?]%list_elem_of_filter.
  - apply Forall_forall. intros x [_ Hx]%list_elem_of_filter. rewrite Forall_forall in Hk. by apply Hk.
Qed.

Lemma read_write p l f l' : readObject (writeObject p l f) l' = if decide (l = l') then f <$> readObject p l else readObject p l'.
Proof. unfold readObject, writeObject. cbn. apply lookup_alter. Qed.

Lemma write_separate p held l f : separate p held -> separate (writeObject p l f) held.
Proof.
  intros [Hf Hl Hh Ha Hk].
  assert (Hr : forall x, is_Some (readObject p x) -> is_Some (readObject (writeObject p l f) x))
    by (intros x Hx; rewrite read_write; case_decide; [subst; by apply fmap_is_Some|done]).
  split; try done.
  - intros t x Hx. destruct (Hh _ _ Hx) as (? & ? & ?). split_and!; [done|done|auto].
  - eapply Forall_impl; [exact Hk|]. auto.
Qed.

(** What the holders' objects contain. *)
Definition held_values (p : Store) (held : gmap nat nat) : gmap nat A := omap (readObject p) held.

Lemma held_lookup p held t : held_values p held !! t = held !! t ≫= readObject p.
Proof. unfold held_values. apply lookup_omap. Qed.

Lemma held_delete p held t : held_values p (delete t held) = delete t (held_values p held).
Proof. apply omap_delete. Qed.

(** A holder writes to its own object only. *)
Lemma held_write p held t l f :
  separate p held -> held !! t = Some l -> held_values (writeObject p l f) held = alter f t (held_values p held).
Proof.
  intros H Ht. apply map_eq. intros k. rewrite lookup_alter, !held_lookup. case_decide as E.
  - subst k. rewrite Ht. cbn. rewrite read_write, decide_True by done. done.
  - destruct (held !! k) as [l'|] eqn:Ek; [|done]. cbn. rewrite read_write, decide_False; [done|].
    intros ->. apply E. by eapply (sep_apart _ _ H).
Qed.

(** Getting an object and making it [v]. *)
Lemma held_get p held t new choice p' l v f :
  separate p held -> held !! t = None -> getObject new p choice = (p', l) ->
  (forall a, readObject p' l = Some a -> f a = v) ->
  held_values (writeObject p' l f) (<[t := l]> held) = <[t := v]> (held_values p held) /\
  separate (writeObject p' l f) (<[t := l]> held).
Proof.
  intros H Ht Hg Hv. destruct (get_separate _ _ _ _ _ _ _ H Ht Hg) as (Hs & Ho & Hl). split; [|by apply write_separate].
  apply map_eq. intros k. rewrite held_lookup, !lookup_insert. case_decide as E.
  - cbn. rewrite read_write, decide_True by done. destruct (readObject p' l) as [a|] eqn:Er; [cbn; by rewrite Hv|].
    exfalso. destruct Hl as [?|(_ & E' & [? ?])]; congruence.
  - rewrite held_lookup. destruct (held !! k) as [l'|] eqn:Ek; [|done]. cbn. rewrite read_write, decide_False.
    + by eapply Ho.
    + intros ->. apply E. eapply (sep_apart _ _ Hs); [apply lookup_insert_eq|by rewrite lookup_insert_ne].
Qed.

(** Getting an object, filling it and putting it back at once. *)
Lemma held_put p held l : held_values (putObject p l) held = held_values p held.
Proof. done. Qed.

Lemma get_put_separate p held t new choice p' l v f :
  separate p held -> held !! t = None -> getObject new p choice = (p', l) ->
  (forall a, readObject p' l = Some a -> f a = v) ->
  held_values (putObject (writeObject p' l f) l) held = held_values p held /\
  separate (putObject (writeObject p' l f) l) held.
Proof.
  intros H Ht Hg Hv. destruct (held_get _ _ _ _ _ _ _ _ _ H Ht Hg Hv) as [E Hs].
  pose proof (put_separate _ _ _ _ Hs (lookup_insert_eq _ _ _)) as Hp. rewrite delete_insert_id in Hp by done.
  split; [|done]. rewrite held_put. apply (f_equal (delete t)) in E. rewrite <- held_delete in E.
  rewrite !delete_insert_id in E; [done| |done]. rewrite held_lookup, Ht. done.
Qed.

Lemma write_write p l f g : writeObject (writeObject p l f) l g = writeObject p l (fun a => g (f a)).
Proof. unfold writeObject. cbn. f_equal. apply (alter_alter_eq g f). Qed.

Lemma foldl_write {B} (g : A -> B -> A) p l a (bs : list B) :
  foldl (fun p b => writeObject p l (fun m => g m b)) (writeObject p l (fun _ => a)) bs =
  writeObject p l (fun _ => foldl g a bs).
Proof. revert a. induction bs as [|b bs IH]; intros a; [done|]. cbn. rewrite write_write. apply IH. Qed.

Lemma got_known p held t new choice p' l :
  separate p held -> held !! t = None -> getObject new p choice = (p', l) -> is_Some (readObject p' l).
Proof.
  intros H Ht Hg. destruct (get_separate _ _ _ _ _ _ _ H Ht Hg) as (_ & _ & [E|(_ & -> & ?)]); [by eexists|done].
Qed.

End Store.

Arguments Store : clear implicits.

(** ** Headers *)

Section Headers.

Context {HD : HpackDecoder}.

(** A [DecodedHeaders], its Header being the address of the map. *)
Record PooledHeaders := mkPooled {
  ph_Header : nat;
  ph_Method : string;
  ph_Path : string;
  ph_Authority : string;
  ph_Status : string;
  ph_StreamID : Z;
  ph_EndStream : bool
}.

Definition headerAt (p : Store header) (l : nat) : header := default ∅ (readObject p l).

Definition view (p : Store header) (d : PooledHeaders) : DecodedHeaders :=
  mkDecoded (headerAt p (ph_Header d)) (ph_Method d) (ph_Path d) (ph_Authority d) (ph_Status d)
    (ph_StreamID d) (ph_EndStream d).

(** The decoder's callback, [c.scratchHeader] being the map at [l]. *)
Definition emitInto (l : nat) (st : Store header * Scratch) (hf : string * string) : Store header * Scratch :=
  let '(p, s) := st in
  let s := emitHeader (mkScratch (headerAt p l) (scratchMethod s) (scratchPath s) (scratchAuthority s)
                         (scratchStatus s) (canonNames s)) hf in
  (writeObject p l (fun _ => scratchHeader s), s).

(** [HeaderPool.Get] and [clear]. *)
Definition getHeader (p : Store header) (choice : option nat) : Store header * nat :=
  let '(p, l) := getObject ∅ p choice in (writeObject p l (fun _ => ∅), l).

Definition decodeBlock (p : Store header) (choice : option nat) (c : HdrState) (streamID : Z) (block : list byte)
    (streamEnded : bool) : Store header * HdrState * (PooledHeaders + gerror) :=
  let '(p, header) := getHeader p choice in
  let '(d, fields, err) := dec_write (h_dec c) block in
  let '(p, s) := foldl (emitInto header) (p, mkScratch ∅ "" "" "" "" (h_canon c)) fields in
  match err with
  | Some _ => (putObject p header, set_dec c d (canonNames s), inr ErrHpackDecode)
  | None =>
      let '(d, err) := dec_close d in
      match err with
      | Some _ => (putObject p header, set_dec c d (canonNames s), inr ErrHpackDecode)
      | None =>
          (p, set_dec c d (canonNames s),
           inl (mkPooled header (scratchMethod s) (scratchPath s) (scratchAuthority s) (scratchStatus s)
                  streamID streamEnded))
      end
  end.

Definition buildForwardedHeader (p : Store header) (choice : option nat)
    (range : header -> list (string * list string)) (req : Request) : Store header * nat :=
  let '(p, h) := getHeader p choice in
  (foldl (fun p '(k, vv) => if isHopByHop k then p else foldl (fun p v => writeObject p h (fun m => headerAdd m k v)) p vv)
     p (range (rq_header req)), h).

(** *** Holders

    [hw_held]: the map each live exchange holds, by a ticket drawn when the map
    was taken: a [serveStream] goroutine its request's Header, a client stream
    its [respHeader], a forward the header it sends.  [hw_kept]: the references
    there are, among them those of handlers that still have their
    [req.Header] when [serveStream] has put the map back (stream.go). *)
Record HeaderWorld := mkHW {
  hw_mem : Store header;
  hw_conns : gmap nat HdrState;
  hw_held : gmap nat nat;
  hw_kept : gmap nat nat;
  hw_tick : nat
}.

Inductive HAction :=
| HDecode (choice : option nat) (conn : nat) (streamID : Z) (block : list byte) (ended : bool)
| HForward (choice : option nat) (range : header -> list (string * list string)) (req : Request)
| HRead (t : nat)
| HEdit (t : nat) (f : header -> header)     (* the handler changes its request's headers *)
| HFinish (t : nat)                          (* HeaderPool.Put: serveStream's defer, an orphan's response *)
| HReply (t : nat) (range : header -> list (string * list string))  (* writeResponse: copy, Put, set to nil *)
| HDrop (t : nat)                            (* the last reference goes away *)
| HCollect (l : nat).                        (* the garbage collector empties the pool *)

(** [OLate]: read from a map that has gone back to the pool. *)
Inductive HObs := ODecoded (r : DecodedHeaders + gerror) | OHeader (h : header) | OLate (h : header) | ONone.

Definition header_step (w : HeaderWorld) (a : HAction) : HeaderWorld * HObs :=
  let 'mkHW p conns held kept tick := w in
  match a with
  | HDecode choice conn streamID block ended =>
      match conns !! conn with
      | None => (w, ONone)
      | Some c =>
          let '(p, c, r) := decodeBlock p choice c streamID block ended in
          let conns := <[conn := c]> conns in
          match r with
          | inl d => (mkHW p conns (<[tick := ph_Header d]> held) (<[tick := ph_Header d]> kept) (S tick), ODecoded (inl (view p d)))
          | inr e => (mkHW p conns held kept tick, ODecoded (inr e))
          end
      end
  | HForward choice range req =>
      let '(p, l) := buildForwardedHeader p choice range req in
      (mkHW p conns (<[tick := l]> held) (<[tick := l]> kept) (S tick), OHeader (headerAt p l))
  | HRead t =>
      (w, match kept !! t with
          | Some l => if decide (is_Some (held !! t)) then OHeader (headerAt p l) else OLate (headerAt p l)
          | None => ONone
          end)
  | HEdit t f =>
      match kept !! t with
      | Some l => (mkHW (writeObject p l f) conns held kept tick, ONone)
      | None => (w, ONone)
      end
  | HFinish t =>
      match held !! t with
      | Some l => (mkHW (putObject p l) conns (delete t held) kept tick, ONone)
      | None => (w, ONone)
      end
  | HReply t range =>
      match held !! t with
      | Some l => (mkHW (putObject p l) conns (delete t held) (delete t kept) tick, OHeader (copyHeader range (headerAt p l)))
      | None => (w, ONone)
      end
  | HDrop t => (mkHW p conns (delete t held) (delete t kept) tick, ONone)
  | HCollect l => (mkHW (dropFree p l) conns held kept tick, ONone)
  end.

(** A handler changes the headers of a request whose map has gone back. *)
Definition late_edit (w : HeaderWorld) (a : HAction) : bool :=
  match a with HEdit t _ => bool_decide (is_Some (hw_kept w !! t)) && bool_decide (hw_held w !! t = None) | _ => false end.

Fixpoint no_late_edit (w : HeaderWorld) (acts : list HAction) : bool :=
  match acts with [] => true | a :: acts => negb (late_edit w a) && no_late_edit (header_step w a).1 acts end.

(** *** The same with values *)

Record ValueWorld := mkVW { vw_conns : gmap nat HdrState; vw_held : gmap nat header; vw_tick : nat }.

Definition value_step (w : ValueWorld) (a : HAction) : ValueWorld * HObs :=
  let 'mkVW conns held tick := w in
  match a with
  | HDecode _ conn streamID block ended =>
      match conns !! conn with
      | None => (w, ONone)
      | Some c =>
          let '(c, r) := HeaderBlock.decodeBlock c streamID block ended in
          let conns := <[conn := c]> conns in
          match r with
          | inl d => (mkVW conns (<[tick := dh_Header d]> held) (S tick), ODecoded (inl d))
          | inr e => (mkVW conns held tick, ODecoded (inr e))
          end
      end
  | HForward _ range req =>
      let h := Forward.buildForwardedHeader range req in
      (mkVW conns (<[tick := h]> held) (S tick), OHeader h)
  | HRead t => (w, match held !! t with Some h => OHeader h | None => ONone end)
  | HEdit t f => (mkVW conns (alter f t held) tick, ONone)
  | HFinish t | HDrop t => (mkVW conns (delete t held) tick, ONone)
  | HReply t range =>
      (mkVW conns (delete t held) tick, match held !! t with Some h => OHeader (copyHeader range h) | None => ONone end)
  | HCollect _ => (w, ONone)
  end.

(** Late reads apart, the observations are the same. *)
Definition agrees (o ov : HObs) : Prop := match o with OLate _ => True | _ => o = ov end.

(** What a run shows. *)
Fixpoint observe {S L O : Type} (step : S -> L -> S * O) (s : S) (ls : list L) : list O :=
  match ls with
  | [] => []
  | l :: ls => let '(s, o) := step s l in o :: observe step s ls
  end.

Record header_rel (w : HeaderWorld) (v : ValueWorld) : Prop := {
  hr_sep : separate (hw_mem w) (hw_held w);
  hr_held : vw_held v = held_values (hw_mem w) (hw_held w);
  hr_conns : vw_conns v = hw_conns w;
  hr_tick : vw_tick v = hw_tick w;
  hr_new : forall t, (hw_tick w <= t)%nat -> hw_held w !! t = None;
  hr_kept : hw_held w ⊆ hw_kept w
}.

Lemma headerAt_write p l h : is_Some (readObject p l) -> headerAt (writeObject p l (fun _ => h)) l = h.
Proof. intros [a E]. unfold headerAt. rewrite read_write, decide_True, E by done. done. Qed.

(** The callback's writes, as if the header were a value. *)
Lemma emitInto_fold p l fields : forall s,
  is_Some (readObject p l) ->
  foldl (emitInto l) (writeObject p l (fun _ => scratchHeader s), s) fields =
  (writeObject p l (fun _ => scratchHeader (foldl emitHeader s fields)), foldl emitHeader s fields).
Proof.
  induction fields as [|hf fields IH]; intros s Hp; [done|]. cbn [foldl]. unfold emitInto at 2.
  rewrite headerAt_write, write_write by done.
  replace (mkScratch _ _ _ _ _ _) with s by (by destruct s). by apply IH.
Qed.

Lemma decodeBlock_value p held t choice c streamID block ended p' c' r :
  separate p held -> held !! t = None -> decodeBlock p choice c streamID block ended = (p', c', r) ->
  match HeaderBlock.decodeBlock c streamID block ended with
  | (cv, inl d) =>
      c' = cv /\ exists pd, r = inl pd /\ view p' pd = d /\
      held_values p' (<[t := ph_Header pd]> held) = <[t := dh_Header d]> (held_values p held) /\
      separate p' (<[t := ph_Header pd]> held)
  | (cv, inr e) => c' = cv /\ r = inr e /\ held_values p' held = held_values p held /\ separate p' held
  end.
Proof.
  intros H Ht E. unfold decodeBlock, getHeader in E. destruct (getObject ∅ p choice) as [p1 l] eqn:Hg.
  pose proof (got_known _ _ _ _ _ _ _ H Ht Hg) as Hl.
  unfold HeaderBlock.decodeBlock. destruct (dec_write _ block) as [[d fields] err].
  pose proof (emitInto_fold p1 l fields (mkScratch ∅ "" "" "" "" (h_canon c)) Hl) as Ef. cbn [scratchHeader] in Ef.
  rewrite Ef in E. clear Ef.
  set (s := foldl emitHeader _ fields) in *.
  destruct (held_get p held t ∅ choice p1 l (scratchHeader s) _ H Ht Hg (fun _ _ => eq_refl)) as [Eh Hs].
  destruct (get_put_separate p held t ∅ choice p1 l (scratchHeader s) _ H Ht Hg (fun _ _ => eq_refl)) as [Ep Hp].
  destruct err; [by simplify_eq|]. destruct (dec_close d) as [d' [e|]]; [by simplify_eq|]. simplify_eq. split; [done|].
  eexists. split_and!; [done| |done|done]. unfold view. cbn [ph_Header ph_Method ph_Path ph_Authority ph_Status ph_StreamID ph_EndStream].
  by rewrite headerAt_write.
Qed.

Lemma buildForwardedHeader_value p held t choice range req p' l :
  separate p held -> held !! t = None -> buildForwardedHeader p choice range req = (p', l) ->
  let h := Forward.buildForwardedHeader range req in
  headerAt p' l = h /\ held_values p' (<[t := l]> held) = <[t := h]> (held_values p held) /\
  separate p' (<[t := l]> held).
Proof.
  intros H Ht E h. unfold buildForwardedHeader, getHeader in E. destruct (getObject ∅ p choice) as [p1 l1] eqn:Hg.
  pose proof (got_known _ _ _ _ _ _ _ H Ht Hg) as Hl.
  assert (Ef : forall m kvs, foldl (fun p '(k, vv) => if isHopByHop k then p
      else foldl (fun p v => writeObject p l1 (fun m => headerAdd m k v)) p vv) (writeObject p1 l1 (fun _ => m)) kvs =
    writeObject p1 l1 (fun _ => foldl (fun h '(k, vv) => if isHopByHop k then h
      else foldl (fun h v => headerAdd h k v) h vv) m kvs)).
  { intros m kvs. revert m. induction kvs as [|[k vv] kvs IH]; intros m; [done|]. cbn [foldl]. destruct (isHopByHop k); [apply IH|].
    rewrite foldl_write. apply IH. }
  rewrite Ef in E. simplify_eq. split; [by apply headerAt_write|].
  by apply (held_get p held t ∅ choice p1 l h _ H Ht Hg).
Qed.

Lemma held_view p held t l h : held !! t = Some l -> held_values p held !! t = h -> default ∅ h = headerAt p l.
Proof. intros Ht <-. rewrite held_lookup, Ht. done. Qed.

Lemma held_read w v t : header_rel w v ->
  vw_held v !! t = (headerAt (hw_mem w)) <$> hw_held w !! t.
Proof.
  intros H. rewrite (hr_held _ _ H), held_lookup. destruct (hw_held w !! t) as [l|] eqn:E; [|done]. cbn. unfold headerAt.
  destruct (sep_held _ _ (hr_sep _ _ H) _ _ E) as (_ & _ & [a ->]). done.
Qed.

Ltac in_worlds := split; cbn [hw_mem hw_held hw_kept hw_conns hw_tick vw_held vw_conns vw_tick fst snd].

Lemma header_step_rel w v a :
  header_rel w v -> late_edit w a = false ->
  agrees (header_step w a).2 (value_step v a).2 /\ header_rel (header_step w a).1 (value_step v a).1.
Proof.
  intros H Hlate. pose proof (held_read w v) as Hr. destruct w as [p conns held kept tick], v as [vconns vheld vtick].
  destruct H as [Hs Hh Hc Ht Hn Hk]. cbn [hw_mem hw_held hw_conns hw_kept hw_tick vw_held vw_conns vw_tick] in Hs, Hh, Hc, Ht, Hn, Hk, Hr. subst vconns vtick.
  assert (Hrel : header_rel (mkHW p conns held kept tick) (mkVW conns vheld tick)) by done.
  assert (Hlook : forall t, vheld !! t = headerAt p <$> held !! t) by (intros t; by apply Hr).
  assert (Hkeep : forall t l, (S tick <= t)%nat -> <[tick := l]> held !! t = None)
    by (intros t l Hle; rewrite lookup_insert_ne by lia; apply Hn; lia).
  assert (Hdel : forall t t', (tick <= t)%nat -> delete t' held !! t = None)
    by (intros t t' Hle; apply lookup_delete_None; right; by apply Hn).
  assert (Hknown : forall t l, held !! t = Some l -> kept !! t = Some l) by (intros t l Hl; by eapply lookup_weaken).
  destruct a as [choice conn id block ended|choice range req|t|t f|t|t range|t|l]; cbn [header_step value_step].
  - destruct (conns !! conn) as [c|]; [|done]. destruct (decodeBlock _ _ _ _ _ _) as [[p' c'] r] eqn:E.
    pose proof (decodeBlock_value _ _ _ _ _ _ _ _ _ _ _ Hs (Hn tick (le_n _)) E) as Hd.
    destruct (HeaderBlock.decodeBlock c id block ended) as [cv [d|e]].
    + destruct Hd as (-> & pd & -> & Hv & Hhe & Hse). cbn [fst snd]. rewrite Hv. split; [done|]. in_worlds; auto; [by rewrite Hhe, Hh|by apply insert_mono].
    + destruct Hd as (-> & -> & Hhe & Hse). split; [done|]. in_worlds; auto. by rewrite Hhe.
  - destruct (buildForwardedHeader _ _ _ _) as [p' l] eqn:E.
    destruct (buildForwardedHeader_value _ _ _ _ _ _ _ _ Hs (Hn tick (le_n _)) E) as (Hv & Hhe & Hse).
    cbn [fst snd]. rewrite Hv. split; [done|]. in_worlds; auto; [by rewrite Hhe, Hh|by apply insert_mono].
  - rewrite Hlook. split; [|done]. cbn [snd]. destruct (held !! t) as [l|] eqn:E.
    + by rewrite (Hknown _ _ E), decide_True by by eexists.
    + destruct (kept !! t); [|done]. by rewrite decide_False by (by intros [? ?]).
  - destruct (held !! t) as [l|] eqn:E; cbn [fst snd].
    + rewrite (Hknown _ _ E). split; [done|]. in_worlds; auto; [by apply write_separate|]. by rewrite (held_write _ _ _ _ _ Hs E), Hh.
    + assert (Ek : kept !! t = None).
      { cbn in Hlate. rewrite E in Hlate. destruct (kept !! t); [|done]. by cbn in Hlate. }
      rewrite Ek. split; [done|]. in_worlds; auto. rewrite <- Hh. apply map_eq. intros k. rewrite lookup_alter. case_decide; [|done].
      subst k. by rewrite Hlook, E.
  - destruct (held !! t) as [l|] eqn:E; cbn [fst snd].
    + split; [done|]. in_worlds; auto; [by apply put_separate|by rewrite held_put, held_delete, Hh|].
      etrans; [apply delete_subseteq|done].
    + split; [done|]. in_worlds; auto. rewrite delete_id; [done|]. by rewrite Hlook, E.
  - rewrite Hlook. destruct (held !! t) as [l|] eqn:E; cbn [fst snd].
    + split; [done|]. in_worlds; auto; [by apply put_separate|by rewrite held_put, held_delete, Hh|by apply delete_mono].
    + split; [done|]. in_worlds; auto. rewrite delete_id; [done|]. by rewrite Hlook, E.
  - cbn [fst snd]. split; [done|]. in_worlds; auto; [eapply separate_sub; [apply delete_subseteq|done]|by rewrite held_delete, Hh|by apply delete_mono].
  - cbn [fst snd]. split; [done|]. in_worlds; auto. by apply drop_separate.
Qed.

(** C27. Pooled headers behave like values until their exchange puts them back:
    whatever maps [HeaderPool] hands out, and however decodes on any number of
    connections, forwards, handlers that edit their request's headers, replies
    and puts interleave, every reader whose map has not been put back sees
    exactly the header its own block decoded to (or its own request was
    forwarded with, or its handler made of it), as if headers were values.
    Handlers that keep [req.Header] may read it later without disturbing
    anybody, but what they then read is not promised
    ([retained_header_is_reused]); they must not change it later
    ([late_edit_reaches_another_request]). *)
Theorem pooled_headers_are_values conns acts :
  let w := mkHW (mkStore ∅ [] 0) conns ∅ ∅ 0 in
  no_late_edit w acts = true -> Forall2 agrees (observe header_step w acts) (observe value_step (mkVW conns ∅ 0) acts).
Proof.
  intros w. assert (H : header_rel w (mkVW conns ∅ 0)) by (split; try done; apply separate_empty). clearbody w.
  revert w H. generalize (mkVW conns ∅ 0).
  induction acts as [|a acts IH]; intros v w H Hl; [constructor|]. cbn in *. apply andb_true_iff in Hl as [Hl1 Hl].
  apply negb_true_iff in Hl1. destruct (header_step_rel w v a H Hl1) as [Eo Hrel].
  destruct (header_step w a) as [w' o], (value_step v a) as [v' o']. constructor; [done|]. by apply IH.
Qed.

(** A handler that keeps [req.Header] after it has returned reads another
    request's headers: the map goes back to the pool with [serveStream], and
    the next block decoded into it, on any connection, overwrites it. *)
Theorem retained_header_is_reused w t l conn c id block ended cv d :
  separate (hw_mem w) (hw_held w) -> (forall t', (hw_tick w <= t')%nat -> hw_kept w !! t' = None) -> hw_held w ⊆ hw_kept w ->
  hw_held w !! t = Some l -> hw_conns w !! conn = Some c ->
  HeaderBlock.decodeBlock c id block ended = (cv, inl d) ->
  let w' := (header_step (header_step w (HFinish t)).1 (HDecode (Some l) conn id block ended)).1 in
  (header_step w' (HRead t)).2 = OLate (dh_Header d).
Proof.
  intros Hs Hn Hk Hl Hc Hd. destruct w as [p conns held kept tick]. cbn [hw_mem hw_held hw_kept hw_conns hw_tick] in *.
  pose proof (lookup_weaken _ _ _ _ Hl Hk) as Hkt.
  assert (Htn : t <> tick) by (intros ->; rewrite Hn in Hkt; [done|lia]).
  cbn [header_step]. rewrite Hl. cbn [fst header_step]. rewrite Hc.
  destruct (decodeBlock _ _ _ _ _ _) as [[p' c'] r] eqn:E.
  assert (Hn' : delete t held !! tick = None).
  { apply lookup_delete_None. right. destruct (held !! tick) eqn:Eh; [|done]. eapply lookup_weaken in Eh; [|exact Hk].
    rewrite Hn in Eh; [done|lia]. }
  pose proof (decodeBlock_value _ _ _ _ _ _ _ _ _ _ _ (put_separate _ _ _ _ Hs Hl) Hn' E) as Hv.
  rewrite Hd in Hv. destruct Hv as (_ & pd & -> & Hv & _). cbn [fst snd header_step].
  assert (Hpd : ph_Header pd = l).
  { unfold decodeBlock, getHeader, getObject in E. cbn [so_free putObject] in E. rewrite decide_True in E by (apply elem_of_cons; by left).
    destruct (dec_write _ _) as [[d0 fields] [err|]]; destruct (foldl _ _ _) as [p1 s1]; [by simplify_eq|].
    destruct (dec_close d0) as [d1 [err|]]; by simplify_eq. }
  rewrite !lookup_insert_ne, Hkt, lookup_delete_eq by done. rewrite decide_False by (by intros [? ?]). by rewrite <- Hv, <- Hpd.
Qed.

(** And one that changes it changes the other request's headers. *)
Theorem late_edit_reaches_another_request w t t' l f :
  hw_kept w !! t = Some l -> hw_held w !! t = None -> hw_held w !! t' = Some l -> separate (hw_mem w) (hw_held w) ->
  let w' := (header_step w (HEdit t f)).1 in
  headerAt (hw_mem w') l = f (headerAt (hw_mem w) l) /\ hw_held w' !! t' = Some l.
Proof.
  intros Hk Hn Ht Hs. destruct w as [p conns held kept tick]. cbn [hw_mem hw_held hw_kept] in *. cbn [header_step].
  rewrite Hk. split; [|done]. cbn [fst hw_mem]. unfold headerAt. rewrite read_write, decide_True by done.
  destruct (sep_held _ _ Hs _ _ Ht) as (_ & _ & [a ->]). done.
Qed.

End Headers.

(** ** Write intents *)

Section WriteIntents.

(** The statement of a Send function that assigns one field. *)
Inductive Assign :=
| SetKind (k : writeKind) | SetStreamID (id : Z) | SetHeader (h : header)
| SetMethod (m : string) | SetPath (p : string) | SetAuthority (a : string) | SetScheme (s : string)
| SetData (d : list byte) | SetStatus (s : Z) | SetIncrement (n : Z) | SetVal (v : Z) | SetCode (c : Z)
| SetPingData (d : list byte) | SetIsAck (b : bool) | SetEndStream (b : bool).

Definition assign (i : writeIntent) (a : Assign) : writeIntent :=
  let 'mkIntent k id h m p au sc d st inc v c pd ack es := i in
  match a with
  | SetKind k => mkIntent k id h m p au sc d st inc v c pd ack es
  | SetStreamID id => mkIntent k id h m p au sc d st inc v c pd ack es
  | SetHeader h => mkIntent k id h m p au sc d st inc v c pd ack es
  | SetMethod m => mkIntent k id h m p au sc d st inc v c pd ack es
  | SetPath p => mkIntent k id h m p au sc d st inc v c pd ack es
  | SetAuthority au => mkIntent k id h m p au sc d st inc v c pd ack es
  | SetScheme sc => mkIntent k id h m p au sc d st inc v c pd ack es
  | SetData d => mkIntent k id h m p au sc d st inc v c pd ack es
  | SetStatus st => mkIntent k id h m p au sc d st inc v c pd ack es
  | SetIncrement inc => mkIntent k id h m p au sc d st inc v c pd ack es
  | SetVal v => mkIntent k id h m p au sc d st inc v c pd ack es
  | SetCode c => mkIntent k id h m p au sc d st inc v c pd ack es
  | SetPingData pd => mkIntent k id h m p au sc d st inc v c pd ack es
  | SetIsAck ack => mkIntent k id h m p au sc d st inc v c pd ack es
  | SetEndStream es => mkIntent k id h m p au sc d st inc v c pd ack es
  end.

(** The Send functions, as calls. *)
Inductive SendCall :=
| CallSettingsAck
| CallWindowUpdate (streamID inc : Z)
| CallPing (ack : bool) (data : list byte)
| CallRSTStream (streamID code : Z)
| CallSetMaxDynamicTableSize (v : Z)
| CallData (streamID : Z) (data : list byte) (endStream : bool)
| CallResponseHeaders (streamID status : Z) (h : header) (endStream : bool)
| CallRequestHeaders (streamID : Z) (method scheme authority path : string) (h : header) (endStream : bool)
| CallGoAway (lastStreamID code : Z).

(** Their assignments, in the order of the code. *)
Definition assignments (c : SendCall) : list Assign :=
  match c with
  | CallSettingsAck => [SetKind wkSettingsAck]
  | CallWindowUpdate id inc => [SetKind wkWindowUpdate; SetStreamID id; SetIncrement inc]
  | CallPing ack data => [SetKind wkPing; SetIsAck ack; SetPingData data]
  | CallRSTStream id code => [SetKind wkRSTStream; SetStreamID id; SetCode code]
  | CallSetMaxDynamicTableSize v => [SetKind wkSetMaxDynTab; SetVal v]
  | CallData id data es => [SetKind wkData; SetStreamID id; SetData data; SetEndStream es]
  | CallResponseHeaders id status h es => [SetKind wkRespHeaders; SetStreamID id; SetStatus status; SetHeader h; SetEndStream es]
  | CallRequestHeaders id m sc a p h es =>
      [SetKind wkReqHeaders; SetStreamID id; SetMethod m; SetScheme sc; SetAuthority a; SetPath p; SetHeader h; SetEndStream es]
  | CallGoAway id code => [SetKind wkGoAway; SetStreamID id; SetCode code]
  end.

(** The intent Writer.v takes the call to submit. *)
Definition callIntent (c : SendCall) : writeIntent :=
  match c with
  | CallSettingsAck => SendSettingsAck
  | CallWindowUpdate id inc => SendWindowUpdate id inc
  | CallPing ack data => SendPing ack data
  | CallRSTStream id code => SendRSTStream id code
  | CallSetMaxDynamicTableSize v => SendSetMaxDynamicTableSize v
  | CallData id data es => SendData id data es
  | CallResponseHeaders id status h es => SendResponseHeaders id status h es
  | CallRequestHeaders id m sc a p h es => SendRequestHeaders id m sc a p h es
  | CallGoAway id code => SendGoAway id code
  end.

(** [&writeIntent{}]; [wkSettingsAck] is the kind numbered 0. *)
Definition zeroIntent : writeIntent := intent0 wkSettingsAck 0.

Lemma assignments_build c : foldl assign zeroIntent (assignments c) = callIntent c.
Proof. by destruct c. Qed.

Definition acquireIntent (p : Store writeIntent) (choice : option nat) : Store writeIntent * nat :=
  getObject zeroIntent p choice.

Definition releaseIntent (p : Store writeIntent) (l : nat) : Store writeIntent :=
  putObject (writeObject p l (fun _ => zeroIntent)) l.

(** [iw_todo]: the assignments a Send function has still to make; [iw_queues]:
    each connection's [writeQ]. *)
Record IntentWorld := mkIW {
  iw_mem : Store writeIntent;
  iw_held : gmap nat nat;
  iw_todo : gmap nat (list Assign);
  iw_queues : gmap nat (list nat);
  iw_tick : nat
}.

Inductive IAction :=
| IAcquire (choice : option nat) (call : SendCall)
| IAssign (t : nat)                (* the next assignment *)
| IEnqueue (conn t : nat)          (* case c.writeQ <- intent *)
| IRelease (t : nat)               (* case <-c.writeDeadCh: releaseIntent *)
| IProcess (conn : nat)            (* the writer: processIntent, releaseIntent *)
| IDrain (conn : nat)              (* the writer's defer: releaseIntent *)
| ICollect (l : nat).

(** Release of the intent [t] holds. *)
Definition release_held (w : IntentWorld) (t : nat) (queues : gmap nat (list nat)) : IntentWorld :=
  let 'mkIW p held todo _ tick := w in
  match held !! t with
  | Some l => mkIW (releaseIntent p l) (delete t held) (delete t todo) queues tick
  | None => mkIW p held todo queues tick
  end.

(** The observation is the intent the writer processes. *)
Definition intent_step (w : IntentWorld) (a : IAction) : IntentWorld * option writeIntent :=
  let 'mkIW p held todo queues tick := w in
  match a with
  | IAcquire choice call =>
      let '(p, l) := acquireIntent p choice in
      (mkIW p (<[tick := l]> held) (<[tick := assignments call]> todo) queues (S tick), None)
  | IAssign t =>
      match held !! t, todo !! t with
      | Some l, Some (x :: rest) => (mkIW (writeObject p l (fun i => assign i x)) held (<[t := rest]> todo) queues tick, None)
      | _, _ => (w, None)
      end
  | IEnqueue conn t =>
      match todo !! t with
      | Some [] => (mkIW p held (delete t todo) (<[conn := default [] (queues !! conn) ++ [t]]> queues) tick, None)
      | _ => (w, None)
      end
  | IRelease t => match todo !! t with Some [] => (release_held w t queues, None) | _ => (w, None) end
  | IProcess conn =>
      match queues !! conn with
      | Some (t :: rest) =>
          (release_held w t (<[conn := rest]> queues), held !! t ≫= readObject p)
      | _ => (w, None)
      end
  | IDrain conn =>
      match queues !! conn with
      | Some (t :: rest) => (release_held w t (<[conn := rest]> queues), None)
      | _ => (w, None)
      end
  | ICollect l => (mkIW (dropFree p l) held todo queues tick, None)
  end.

(** *** The same with values: a queue of calls *)

Record CallWorld := mkCW {
  cw_building : gmap nat (SendCall * nat);   (* with the number of assignments to come *)
  cw_queues : gmap nat (list SendCall);
  cw_tick : nat
}.

Definition call_step (w : CallWorld) (a : IAction) : CallWorld * option writeIntent :=
  let 'mkCW building queues tick := w in
  match a with
  | IAcquire _ call => (mkCW (<[tick := (call, length (assignments call))]> building) queues (S tick), None)
  | IAssign t =>
      match building !! t with
      | Some (call, S n) => (mkCW (<[t := (call, n)]> building) queues tick, None)
      | _ => (w, None)
      end
  | IEnqueue conn t =>
      match building !! t with
      | Some (call, O) => (mkCW (delete t building) (<[conn := default [] (queues !! conn) ++ [call]]> queues) tick, None)
      | _ => (w, None)
      end
  | IRelease t =>
      match building !! t with Some (_, O) => (mkCW (delete t building) queues tick, None) | _ => (w, None) end
  | IProcess conn =>
      match queues !! conn with
      | Some (call :: rest) => (mkCW building (<[conn := rest]> queues) tick, Some (callIntent call))
      | _ => (w, None)
      end
  | IDrain conn =>
      match queues !! conn with
      | Some (call :: rest) => (mkCW building (<[conn := rest]> queues) tick, None)
      | _ => (w, None)
      end
  | ICollect l => (w, None)
  end.

(** *** The relation *)

Definition being_built (todo : option (list Assign)) (b : option (SendCall * nat)) (i : option writeIntent) : Prop :=
  match todo, b with
  | None, None => True
  | Some rest, Some (c, n) => length rest = n /\ exists v, i = Some v /\ foldl assign v rest = callIntent c
  | _, _ => False
  end.

(** The [j]-th entry of a connection's queue. *)
Definition queue_at {X} (queues : gmap nat (list X)) (conn j : nat) : option X := queues !! conn ≫= (fun q => q !! j).

Definition queued (V : gmap nat writeIntent) (todo : gmap nat (list Assign)) (t : nat) (c : SendCall) : Prop :=
  V !! t = Some (callIntent c) /\ todo !! t = None.

(** [V]: what the held objects contain. *)
Record build_rel (V : gmap nat writeIntent) (todo : gmap nat (list Assign)) (queues : gmap nat (list nat)) (tick : nat)
    (v : CallWorld) : Prop := {
  br_tick : cw_tick v = tick;
  br_new : forall t, (tick <= t)%nat -> V !! t = None /\ todo !! t = None;
  br_built : forall t, being_built (todo !! t) (cw_building v !! t) (V !! t);
  br_queues : forall conn, option_Forall2 (Forall2 (queued V todo)) (queues !! conn) (cw_queues v !! conn);
  br_once : forall c1 j1 c2 j2 t, queue_at queues c1 j1 = Some t -> queue_at queues c2 j2 = Some t -> c1 = c2 /\ j1 = j2
}.

Record intent_rel (w : IntentWorld) (v : CallWorld) : Prop := {
  ir_sep : separate (iw_mem w) (iw_held w);
  ir_zero : Forall (fun l => readObject (iw_mem w) l = Some zeroIntent) (so_free (iw_mem w));
  ir_rel : build_rel (held_values (iw_mem w) (iw_held w)) (iw_todo w) (iw_queues w) (iw_tick w) v
}.

Lemma queued_ticket V todo queues tick v conn j t :
  build_rel V todo queues tick v -> queue_at queues conn j = Some t -> is_Some (V !! t) /\ todo !! t = None.
Proof.
  intros H Hq. unfold queue_at in Hq. pose proof (br_queues _ _ _ _ _ H conn) as Hf.
  destruct (queues !! conn) as [q|]; [|done]. cbn in Hq. inv Hf.
  destruct (Forall2_lookup_l _ _ _ _ _ H2 Hq) as (c & _ & Hv & Ht). split; [by eexists|done].
Qed.

(** A change at a ticket that no queue holds. *)
Lemma queues_frame (V V' : gmap nat writeIntent) (todo todo' : gmap nat (list Assign)) (queues : gmap nat (list nat))
    (cqueues : gmap nat (list SendCall)) t :
  (forall k, k <> t -> V' !! k = V !! k /\ todo' !! k = todo !! k) ->
  (forall conn j, queue_at queues conn j <> Some t) ->
  (forall conn, option_Forall2 (Forall2 (queued V todo)) (queues !! conn) (cqueues !! conn)) ->
  forall conn, option_Forall2 (Forall2 (queued V' todo')) (queues !! conn) (cqueues !! conn).
Proof.
  intros Hk Hn H conn. specialize (H conn). specialize (Hn conn). unfold queue_at in Hn.
  destruct H as [q cq H|]; [|constructor]. constructor. cbn in Hn.
  apply Forall2_same_length_lookup. split; [by eapply Forall2_length|]. intros j x c Hx Hc.
  pose proof (Forall2_lookup_lr _ _ _ _ _ _ H Hx Hc) as [Hv Ht].
  assert (Hne : x <> t) by (intros ->; by apply (Hn j)).
  unfold queued. destruct (Hk x Hne) as [-> ->]. by split.
Qed.

Lemma not_queued V todo queues tick v t :
  build_rel V todo queues tick v -> (V !! t = None \/ todo !! t <> None) -> forall conn j, queue_at queues conn j <> Some t.
Proof.
  intros H Ht conn j Hq. destruct (queued_ticket _ _ _ _ _ _ _ _ H Hq) as [[? ?] ?]. destruct Ht; congruence.
Qed.

Lemma acquire_rel V todo queues tick v choice call :
  build_rel V todo queues tick v ->
  build_rel (<[tick := zeroIntent]> V) (<[tick := assignments call]> todo) queues (S tick) (call_step v (IAcquire choice call)).1.
Proof.
  intros H. destruct v as [b cq vt]. destruct (br_new _ _ _ _ _ H tick (le_n _)) as [Hv Ht].
  pose proof (br_tick _ _ _ _ _ H) as Et. cbn in Et. subst vt. split; cbn.
  - done.
  - intros t Hle. rewrite !lookup_insert_ne by lia. apply (br_new _ _ _ _ _ H). lia.
  - intros t. destruct (decide (tick = t)) as [<-|Hne].
    + rewrite !lookup_insert_eq. cbn. split; [done|]. eexists. split; [done|]. apply assignments_build.
    + rewrite !lookup_insert_ne by done. apply (br_built _ _ _ _ _ H).
  - eapply queues_frame; [|by eapply not_queued; [|left]|apply (br_queues _ _ _ _ _ H)].
    intros k Hk. by rewrite !lookup_insert_ne.
  - apply (br_once _ _ _ _ _ H).
Qed.

Lemma assign_rel V todo queues tick v t x rest :
  build_rel V todo queues tick v -> todo !! t = Some (x :: rest) ->
  build_rel (alter (fun i => assign i x) t V) (<[t := rest]> todo) queues tick (call_step v (IAssign t)).1.
Proof.
  intros H Ht. destruct v as [b cq vt]. pose proof (br_built _ _ _ _ _ H t) as Hb. rewrite Ht in Hb. cbn [cw_building] in Hb.
  cbn [call_step]. destruct (b !! t) as [[c n]|] eqn:Eb; [|done]. destruct Hb as (<- & i & Ei & Ef). cbn [length]. split; cbn.
  - apply (br_tick _ _ _ _ _ H).
  - intros k Hle. destruct (br_new _ _ _ _ _ H k Hle) as [? ?]. destruct (decide (t = k)) as [->|]; [congruence|].
    by rewrite lookup_alter_ne, lookup_insert_ne.
  - intros k. destruct (decide (t = k)) as [<-|Hne].
    + rewrite !lookup_insert_eq, lookup_alter_eq, Ei. cbn. split; [done|]. by eexists.
    + rewrite !lookup_insert_ne, lookup_alter_ne by done. apply (br_built _ _ _ _ _ H).
  - eapply queues_frame; [|by eapply not_queued; [|right; rewrite Ht]|apply (br_queues _ _ _ _ _ H)].
    intros k Hk. by rewrite lookup_alter_ne, lookup_insert_ne by done.
  - apply (br_once _ _ _ _ _ H).
Qed.

Lemma queue_at_snoc {X} (queues : gmap nat (list X)) conn (x : X) c j :
  queue_at (<[conn := default [] (queues !! conn) ++ [x]]> queues) c j =
  if decide (c = conn) then
    if decide (j = length (default [] (queues !! conn))) then Some x else queue_at queues c j
  else queue_at queues c j.
Proof.
  unfold queue_at. rewrite lookup_insert. destruct (decide (conn = c)) as [E|E].
  2: { by rewrite decide_False by congruence. }
  subst c. rewrite decide_True by done. cbn. set (q := default [] (queues !! conn)).
  assert (Eq : queues !! conn ≫= (fun q => q !! j) = q !! j) by (unfold q; destruct (queues !! conn); [done|by destruct j]).
  rewrite Eq. case_decide as Ej; [subst j; by rewrite lookup_app_r, Nat.sub_diag by lia|].
  destruct (decide (j < length q)%nat) as [Hl|Hg]; [by apply lookup_app_l|].
  rewrite (lookup_ge_None_2 q) by lia. apply lookup_ge_None. rewrite length_app. cbn. lia.
Qed.

Lemma enqueue_rel V todo queues tick v conn t :
  build_rel V todo queues tick v -> todo !! t = Some [] ->
  build_rel V (delete t todo) (<[conn := default [] (queues !! conn) ++ [t]]> queues) tick (call_step v (IEnqueue conn t)).1.
Proof.
  intros H Ht. destruct v as [b cq vt]. pose proof (br_built _ _ _ _ _ H t) as Hb. rewrite Ht in Hb. cbn [cw_building] in Hb.
  assert (Hnq : forall k j, queue_at queues k j <> Some t) by (eapply not_queued; [exact H|right; by rewrite Ht]).
  cbn [call_step]. destruct (b !! t) as [[c n]|] eqn:Eb; [|done]. destruct Hb as (<- & i & Ei & Ef). cbn [length]. cbn in Ef. subst i.
  split; cbn.
  - apply (br_tick _ _ _ _ _ H).
  - intros k Hle. destruct (br_new _ _ _ _ _ H k Hle) as [? ?]. split; [done|]. apply lookup_delete_None. by right.
  - intros k. destruct (decide (t = k)) as [<-|Hne]; [by rewrite !lookup_delete_eq|].
    rewrite !lookup_delete_ne by done. apply (br_built _ _ _ _ _ H).
  - assert (Hf : forall k, option_Forall2 (Forall2 (queued V (delete t todo))) (queues !! k) (cq !! k)).
    { eapply (queues_frame V V todo _ _ _ t); [|exact Hnq|apply (br_queues _ _ _ _ _ H)]. intros k Hk. by rewrite lookup_delete_ne. }
    intros k. rewrite !lookup_insert. case_decide as E; [|apply Hf]. constructor. subst k. apply Forall2_app.
    + specialize (Hf conn). inv Hf; cbn; [done|constructor].
    + repeat constructor; [done|]. by rewrite lookup_delete_eq.
  - intros c1 j1 c2 j2 k. rewrite !queue_at_snoc. pose proof (br_once _ _ _ _ _ H c1 j1 c2 j2) as Ho.
    repeat case_decide; subst; intros E1 E2; simplify_eq; try (by apply Ho with (1 := E1)); try done;
      by destruct (Hnq _ _ ltac:(eassumption)).
Qed.

(** Dropping a ticket that no queue holds (any more). *)
Lemma delete_rel V todo queues tick b cq t :
  build_rel V todo queues tick (mkCW b cq tick) -> (forall conn j, queue_at queues conn j <> Some t) ->
  build_rel (delete t V) (delete t todo) queues tick (mkCW (delete t b) cq tick).
Proof.
  intros H Hn. split; cbn.
  - done.
  - intros k Hle. destruct (br_new _ _ _ _ _ H k Hle). by rewrite !lookup_delete_None; auto.
  - intros k. destruct (decide (t = k)) as [<-|Hne]; [by rewrite !lookup_delete_eq|].
    rewrite !lookup_delete_ne by done. apply (br_built _ _ _ _ _ H).
  - eapply (queues_frame V); [|exact Hn|apply (br_queues _ _ _ _ _ H)]. intros k Hk. by rewrite !lookup_delete_ne.
  - apply (br_once _ _ _ _ _ H).
Qed.

Lemma queue_at_pop (queues : gmap nat (list nat)) conn t rest k j :
  queues !! conn = Some (t :: rest) ->
  queue_at (<[conn := rest]> queues) k j = queue_at queues k (if decide (k = conn) then S j else j).
Proof.
  intros Hq. unfold queue_at. case_decide as E; [subst; by rewrite lookup_insert_eq, Hq|by rewrite lookup_insert_ne].
Qed.

Lemma pop_rel V todo queues tick b cq conn t rest :
  build_rel V todo queues tick (mkCW b cq tick) -> queues !! conn = Some (t :: rest) ->
  exists c crest, cq !! conn = Some (c :: crest) /\ V !! t = Some (callIntent c) /\
    build_rel (delete t V) (delete t todo) (<[conn := rest]> queues) tick (mkCW b (<[conn := crest]> cq) tick).
Proof.
  intros H Hq. pose proof (br_queues _ _ _ _ _ H conn) as Hf. rewrite Hq in Hf. cbn [cw_queues] in Hf.
  inversion Hf as [? cl Hf2 E1 E2|]; subst. inversion Hf2 as [|? c ? crest [Hv Ht] Hf3]; subst.
  exists c, crest. split_and!; [done|done|].
  assert (Hb : b !! t = None).
  { pose proof (br_built _ _ _ _ _ H t) as Hb. rewrite Ht in Hb. cbn in Hb. by destruct (b !! t). }
  replace b with (delete t b) by (by apply delete_id). apply delete_rel.
  - split; cbn.
    + done.
    + apply (br_new _ _ _ _ _ H).
    + apply (br_built _ _ _ _ _ H).
    + intros k. rewrite !lookup_insert. case_decide; [by constructor|apply (br_queues _ _ _ _ _ H)].
    + intros c1 j1 c2 j2 k. rewrite !(queue_at_pop _ _ _ _ _ _ Hq). intros A1 A2.
      destruct (br_once _ _ _ _ _ H _ _ _ _ _ A1 A2) as [-> Ej]. split; [done|]. destruct (decide _); congruence.
  - intros k j. rewrite (queue_at_pop _ _ _ _ _ _ Hq). intros A.
    assert (A0 : queue_at queues conn 0 = Some t) by (unfold queue_at; by rewrite Hq).
    destruct (br_once _ _ _ _ _ H _ _ _ _ _ A A0) as [-> Ej]. by rewrite decide_True in Ej.
Qed.

Lemma write_id (p : Store writeIntent) l : writeObject p l id = p.
Proof. destruct p as [h f n]. unfold writeObject. cbn. f_equal. by apply alter_id. Qed.

Lemma release_ok p held t l :
  separate p held -> held !! t = Some l ->
  Forall (fun l => readObject p l = Some zeroIntent) (so_free p) ->
  separate (releaseIntent p l) (delete t held) /\
  held_values (releaseIntent p l) (delete t held) = delete t (held_values p held) /\
  Forall (fun x => readObject (releaseIntent p l) x = Some zeroIntent) (so_free (releaseIntent p l)).
Proof.
  intros H Hl Hz. destruct (sep_held _ _ H _ _ Hl) as (_ & Hn & [a Ha]).
  unfold releaseIntent. split_and!.
  - apply put_separate; [by apply write_separate|done].
  - rewrite held_put, held_delete, (held_write _ _ _ _ _ H Hl). apply map_eq. intros k.
    rewrite !lookup_delete. case_decide; [done|]. by rewrite lookup_alter_ne.
  - cbn. apply Forall_cons. split.
    + change (readObject (writeObject p l (fun _ => zeroIntent)) l = Some zeroIntent). by rewrite read_write, decide_True, Ha.
    + apply Forall_forall. intros x Hx. rewrite Forall_forall in Hz.
      change (readObject (writeObject p l (fun _ => zeroIntent)) x = Some zeroIntent).
      rewrite read_write, decide_False; [by apply Hz|]. by intros ->.
Qed.

Lemma acquire_ok p held t choice p' l :
  separate p held -> held !! t = None ->
  Forall (fun l => readObject p l = Some zeroIntent) (so_free p) ->
  acquireIntent p choice = (p', l) ->
  separate p' (<[t := l]> held) /\ held_values p' (<[t := l]> held) = <[t := zeroIntent]> (held_values p held) /\
  Forall (fun l => readObject p' l = Some zeroIntent) (so_free p').
Proof.
  intros H Ht Hz E. unfold acquireIntent in E.
  destruct (get_separate _ _ _ _ _ _ _ H Ht E) as (_ & _ & Hl).
  assert (Hv : forall a, readObject p' l = Some a -> id a = zeroIntent).
  { intros a Ha. destruct Hl as [?|(Hin & E' & _)]; [cbn; congruence|]. rewrite Forall_forall in Hz. specialize (Hz _ Hin). cbn. congruence. }
  destruct (held_get _ _ _ _ _ _ _ _ _ H Ht E Hv) as [Eh Hs]. rewrite write_id in Eh, Hs. split_and!; [done|done|].
  pose proof (sep_live _ _ H) as Hlive. rewrite Forall_forall in Hz, Hlive.
  unfold getObject in E. destruct choice as [l0|]; [case_decide as Hin|]; simplify_eq; cbn; apply Forall_forall; unfold readObject in *; cbn.
  - intros x [_ Hx]%list_elem_of_filter. by apply Hz.
  - intros x Hx. specialize (Hlive _ Hx). cbn in Hlive. rewrite lookup_insert_ne by lia. by apply Hz.
  - intros x Hx. specialize (Hlive _ Hx). cbn in Hlive. rewrite lookup_insert_ne by lia. by apply Hz.
Qed.

Lemma held_is_some {A} (p : Store A) held t : separate p held -> is_Some (held_values p held !! t) -> is_Some (held !! t).
Proof. intros H [i E]. rewrite held_lookup in E. destruct (held !! t); [by eexists|done]. Qed.

Lemma release_held_rel p held todo queues tick v t q' :
  separate p held -> Forall (fun l => readObject p l = Some zeroIntent) (so_free p) ->
  is_Some (held_values p held !! t) ->
  build_rel (delete t (held_values p held)) (delete t todo) q' tick v ->
  intent_rel (release_held (mkIW p held todo queues tick) t q') v.
Proof.
  intros Hs Hz Hv H. cbn. destruct (held_is_some _ _ _ Hs Hv) as [l Hl]. rewrite Hl.
  destruct (release_ok _ _ _ _ Hs Hl Hz) as (? & E & ?). split; cbn [iw_mem iw_held iw_todo iw_queues iw_tick]; [done|done|].
  by rewrite E.
Qed.

Lemma writer_step_rel p held todo queues tick b cq conn t rest :
  intent_rel (mkIW p held todo queues tick) (mkCW b cq tick) -> queues !! conn = Some (t :: rest) ->
  exists c crest, cq !! conn = Some (c :: crest) /\ held !! t ≫= readObject p = Some (callIntent c) /\
    intent_rel (release_held (mkIW p held todo queues tick) t (<[conn := rest]> queues))
      (mkCW b (<[conn := crest]> cq) tick).
Proof.
  intros [Hs Hz Hr] Hq. cbn [iw_mem iw_held iw_todo iw_queues iw_tick] in *.
  destruct (pop_rel _ _ _ _ _ _ _ _ _ Hr Hq) as (c & crest & Hc & Hv & Hr'). exists c, crest.
  split_and!; [done|by rewrite <- held_lookup|]. apply release_held_rel; auto.
Qed.

Lemma acquire_step_rel p held todo queues tick b cq choice call :
  intent_rel (mkIW p held todo queues tick) (mkCW b cq tick) ->
  (intent_step (mkIW p held todo queues tick) (IAcquire choice call)).2 = None /\
  intent_rel (intent_step (mkIW p held todo queues tick) (IAcquire choice call)).1 (call_step (mkCW b cq tick) (IAcquire choice call)).1.
Proof.
  intros [Hs Hz Hr]. cbn [iw_mem iw_held iw_todo iw_queues iw_tick] in Hs, Hz, Hr. cbn [intent_step].
  destruct (acquireIntent p choice) as [p' l] eqn:E.
  assert (Hnew : held !! tick = None).
  { destruct (held !! tick) eqn:Eh; [|done]. destruct (sep_held _ _ Hs _ _ Eh) as (_ & _ & [i Ei]).
    destruct (br_new _ _ _ _ _ Hr tick (le_n _)) as [Hv _]. rewrite held_lookup, Eh in Hv. cbn in Hv. congruence. }
  destruct (acquire_ok _ _ _ _ _ _ Hs Hnew Hz E) as (Hs' & Ev & Hz'). split; [done|].
  split; [done|done|]. cbn [iw_mem iw_held iw_todo iw_queues iw_tick fst]. rewrite Ev.
  exact (acquire_rel _ _ _ _ _ choice call Hr).
Qed.

Lemma assign_step_rel p held todo queues tick b cq t :
  intent_rel (mkIW p held todo queues tick) (mkCW b cq tick) ->
  (intent_step (mkIW p held todo queues tick) (IAssign t)).2 = (call_step (mkCW b cq tick) (IAssign t)).2 /\
  intent_rel (intent_step (mkIW p held todo queues tick) (IAssign t)).1 (call_step (mkCW b cq tick) (IAssign t)).1.
Proof.
  intros H. pose proof H as [Hs Hz Hr]. cbn [iw_mem iw_held iw_todo iw_queues iw_tick] in Hs, Hz, Hr.
  pose proof (br_built _ _ _ _ _ Hr t) as Hb. cbn [cw_building] in Hb. cbn [intent_step].
  destruct (todo !! t) as [[|x rest]|] eqn:Ed.
  - cbn [call_step]. destruct (b !! t) as [[c n]|]; [|done]. destruct Hb as [<- _]. by destruct (held !! t).
  - pose proof (assign_rel _ _ _ _ _ _ _ _ Hr Ed) as Ha.
    destruct (b !! t) as [[c n]|] eqn:Eb; [|done]. destruct Hb as (En & i & Ei & _).
    destruct (held_is_some p held t Hs ltac:(by eexists)) as [l Hl]. rewrite Hl.
    cbn [call_step] in *. rewrite Eb in *. cbn in En. subst n. split; [done|]. split; cbn [iw_mem iw_held iw_todo iw_queues iw_tick fst].
    + by apply write_separate.
    + cbn [so_free writeObject]. destruct (sep_held _ _ Hs _ _ Hl) as (_ & Hn & _).
      apply Forall_forall. intros y Hy. rewrite read_write, decide_False by (by intros ->). rewrite Forall_forall in Hz. by apply Hz.
    + by rewrite (held_write _ _ _ _ _ Hs Hl).
  - cbn [call_step]. destruct (b !! t); [done|]. by destruct (held !! t).
Qed.

Lemma intent_step_rel w v a :
  intent_rel w v -> (intent_step w a).2 = (call_step v a).2 /\ intent_rel (intent_step w a).1 (call_step v a).1.
Proof.
  intros H. destruct w as [p held todo queues tick], v as [b cq vt].
  assert (Et : vt = tick) by exact (br_tick _ _ _ _ _ (ir_rel _ _ H)). subst vt.
  pose proof H as [Hs Hz Hr]. cbn [iw_mem iw_held iw_todo iw_queues iw_tick] in Hs, Hz, Hr.
  pose proof (br_built _ _ _ _ _ Hr) as Hb. cbn [cw_building] in Hb.
  assert (Hnone : forall conn, (forall t rest, queues !! conn <> Some (t :: rest)) -> forall c rest, cq !! conn <> Some (c :: rest)).
  { intros conn Hn c rest Ec. pose proof (br_queues _ _ _ _ _ Hr conn) as Hf. cbn [cw_queues] in Hf. rewrite Ec in Hf.
    inversion Hf as [q ? Hf2 E1 E2|]; subst. inversion Hf2; subst. by eapply Hn. }
  destruct a as [choice call|t|conn t|t|conn|conn|l]; cbn [intent_step].
  - by apply acquire_step_rel.
  - by apply assign_step_rel.
  - specialize (Hb t). destruct (todo !! t) as [[|x rest]|] eqn:Ed.
    + pose proof (enqueue_rel _ _ _ _ _ conn t Hr Ed) as Ha. cbn [call_step] in *.
      destruct (b !! t) as [[c n]|]; [|done]. destruct Hb as [<- _]. cbn in *. split; [done|]. by split.
    + cbn [call_step]. destruct (b !! t) as [[c n]|]; [|done]. destruct Hb as [<- _]. done.
    + cbn [call_step]. by destruct (b !! t).
  - specialize (Hb t). destruct (todo !! t) as [[|x rest]|] eqn:Ed.
    + cbn [call_step]. destruct (b !! t) as [[c n]|]; [|done]. destruct Hb as (<- & i & Ei & _). cbn [fst snd length].
      split; [done|]. apply release_held_rel; [done..|by rewrite Ei|]. apply delete_rel; [done|].
      eapply not_queued; [exact Hr|right; by rewrite Ed].
    + cbn [call_step]. destruct (b !! t) as [[c n]|]; [|done]. destruct Hb as [<- _]. done.
    + cbn [call_step]. by destruct (b !! t).
  - destruct (queues !! conn) as [[|t rest]|] eqn:Eq.
    2: { destruct (writer_step_rel _ _ _ _ _ _ _ _ _ _ H Eq) as (c & crest & Ec & Ev & Hrel). cbn [call_step]. by rewrite Ec. }
    all: cbn [call_step]; destruct (cq !! conn) as [[|c crest]|] eqn:Ec; [done| |done]; exfalso;
      refine (Hnone conn _ c crest Ec); intros; congruence.
  - destruct (queues !! conn) as [[|t rest]|] eqn:Eq.
    2: { destruct (writer_step_rel _ _ _ _ _ _ _ _ _ _ H Eq) as (c & crest & Ec & Ev & Hrel). cbn [call_step]. by rewrite Ec. }
    all: cbn [call_step]; destruct (cq !! conn) as [[|c crest]|] eqn:Ec; [done| |done]; exfalso;
      refine (Hnone conn _ c crest Ec); intros; congruence.
  - split; [done|]. split; cbn [iw_mem iw_held iw_todo iw_queues iw_tick fst]; [by apply drop_separate| |done].
    cbn [dropFree so_free]. apply Forall_forall. intros x [_ Hx]%list_elem_of_filter. rewrite Forall_forall in Hz. by apply Hz.
Qed.

(** C28. Pooled intents behave like values: however the Send functions' gets,
    field assignments and enqueues on any number of connections interleave
    with each other, with the writers that process and release intents and
    with the drains of dead ones, each writer processes exactly the intents of
    the calls queued to it, in order, each with its own call's fields and the
    zero value in the others; no field survives from an intent's previous use. *)
Theorem pooled_intents_are_values acts :
  observe intent_step (mkIW (mkStore ∅ [] 0) ∅ ∅ ∅ 0) acts = observe call_step (mkCW ∅ ∅ 0) acts.
Proof.
  assert (H : intent_rel (mkIW (mkStore ∅ [] 0) ∅ ∅ ∅ 0) (mkCW ∅ ∅ 0)).
  { split; [apply separate_empty|by constructor|]. split; try done. constructor. }
  revert H. generalize (mkIW (mkStore ∅ [] 0) ∅ ∅ ∅ 0) (mkCW ∅ ∅ 0).
  induction acts as [|a acts IH]; intros w v H; [done|]. cbn [observe]. destruct (intent_step_rel w v a H) as [Eo Hrel].
  destruct (intent_step w a) as [w' o], (call_step v a) as [v' o']. cbn in *. subst o'. f_equal. by apply IH.
Qed.

End WriteIntents.

Module RecycleDemo.

Import Plain.

Definition block (who : string) : list byte :=
  requestBlock map_to_list demo_writer
    (SendRequestHeaders 1 "GET" "http" "example.com" "/a" {[ "Authorization" := [who] ]} true).

Definition world : HeaderWorld (HD := plain_decoder) :=
  mkHW (mkStore ∅ [] 0) {[ 0%nat := demo_hdr; 1%nat := demo_hdr ]} ∅ ∅ 0.

Definition alice : HAction := HDecode None 0 1 (block "alice") true.
Definition bob : HAction := HDecode (Some 0%nat) 1 1 (block "bob") true.

(** [auth o]: the credentials an observation shows. *)
Definition auth (o : HObs) : option (list string) :=
  match o with
  | ODecoded (inl d) => dh_Header d !! "Authorization"%string
  | OHeader h | OLate h => h !! "Authorization"%string
  | _ => None
  end.

(** While Alice's handler runs, Bob's request gets another map, although the
    pool was asked for hers; after she is done, her map is used for his, and
    her handler, if it still has it, reads his credentials. *)
Example separate_maps :
  (auth <$> observe (header_step (HD := plain_decoder)) world [alice; bob; HRead 0; HFinish 0; bob; HRead 2; HRead 0]) =
  [Some ["alice"]; Some ["bob"]; Some ["alice"]; None; Some ["bob"]; Some ["bob"]; Some ["bob"]]%string.
Proof. by vm_compute. Qed.

Definition serving : HeaderWorld (HD := plain_decoder) := (header_step world alice).1.

Definition decoded_bob : HdrState (HD := plain_decoder) * (DecodedHeaders + gerror) :=
  HeaderBlock.decodeBlock (HD := plain_decoder) demo_hdr 1 (block "bob") true.

Lemma serving_rel : header_rel serving (value_step (mkVW {[ 0%nat := demo_hdr; 1%nat := demo_hdr ]} ∅ 0) alice).1.
Proof. apply (header_step_rel world); [|done]. split; try done; apply separate_empty. Qed.

(** Alice's handler keeps its headers and reads them when Bob's are in. *)
Definition exchanges : list HAction := [alice; bob; HRead 0; HFinish 0; bob; HRead 2; HRead 0].

Lemma pooled_headers_are_values_witness :
  Forall2 agrees (observe (header_step (HD := plain_decoder)) world exchanges)
    (observe (value_step (HD := plain_decoder)) (mkVW {[ 0%nat := demo_hdr; 1%nat := demo_hdr ]} ∅ 0) exchanges).
Proof. apply (pooled_headers_are_values (HD := plain_decoder)). vm_compute. reflexivity. Defined.

Lemma retained_header_is_reused_witness :
  headerAt (hw_mem serving) 0 !! "Authorization"%string = Some ["alice"%string] /\
  auth (header_step (header_step (header_step serving (HFinish 0)).1 bob).1 (HRead 0)).2 = Some ["bob"%string].
Proof.
  split; [by vm_compute|]. destruct decoded_bob as [cv [d|e]] eqn:E; [|by vm_compute in E].
  assert (Hd : dh_Header d !! "Authorization"%string = Some ["bob"%string]).
  { replace d with (default d (match decoded_bob.2 with inl d => Some d | _ => None end)) by (by rewrite E). by vm_compute. }
  pose proof (retained_header_is_reused serving 0 0 1 demo_hdr 1 (block "bob") true cv d (hr_sep _ _ serving_rel)) as H.
  cbv zeta in H. unfold bob. rewrite H; [exact Hd| |exact (hr_kept _ _ serving_rel)|by vm_compute|by vm_compute|exact E].
  intros t' Ht. assert (Ek : hw_kept serving = {[ 0%nat := 0%nat ]}) by by vm_compute. rewrite Ek.
  apply lookup_singleton_ne. assert (Et : hw_tick serving = 1%nat) by by vm_compute. lia.
Defined.

(** Two connections' calls under way at once, the second's object once used
    for the first: each intent has its own fields only. *)
Definition calls : list IAction :=
  [IAcquire None (CallData 1 [x61] true); IAssign 0; IAssign 0; IAssign 0; IAssign 0; IEnqueue 0 0; IProcess 0;
   IAcquire (Some 0%nat) (CallWindowUpdate 3 7); IAcquire (Some 0%nat) (CallPing true [x70]);
   IAssign 1; IAssign 2; IAssign 1; IAssign 2; IAssign 1; IAssign 2; IEnqueue 0 2; IEnqueue 1 1; IProcess 1; IProcess 0].

Example own_fields :
  omap id (observe intent_step (mkIW (mkStore ∅ [] 0) ∅ ∅ ∅ 0) calls) =
  [SendData 1 [x61] true; SendWindowUpdate 3 7; SendPing true [x70]].
Proof. by vm_compute. Qed.

End RecycleDemo.
