(* ===== verification/Proxy.v ===== *)
(** * Worker selection and the attached set (internal/proxy/selector.go, proxy.go; proxy.go)

    The two built-in selectors, the proxy's list of attached workers, and the
    adapters between the public and the internal selector interfaces.  A
    [*Worker] is a number; what a selector reads of it is a [WorkerView]. *)

From Stdlib Require Import Sorting.Permutation.
From S2P Require Import Prelude Errors.

(** ** LeastInFlight *)

(** What [leastInFlightPick] loads: [w.saturated()] and [w.inFlight]. *)
Record WorkerView := mkView { v_ptr : nat; v_saturated : bool; v_inFlight : Z }.

(** The first loop; [best] with [bestN]. *)
Fixpoint pickUnsaturated (best : option WorkerView) (ws : list WorkerView) : option WorkerView :=
  match ws with
  | [] => best
  | w :: ws =>
      if v_saturated w then pickUnsaturated best ws
      else
        match best with
        | None => pickUnsaturated (Some w) ws
        | Some b => pickUnsaturated (if v_inFlight w <? v_inFlight b then Some w else best) ws
        end
  end.

(** The second loop. *)
Fixpoint pickLeast (best : option WorkerView) (ws : list WorkerView) : option WorkerView :=
  match ws with
  | [] => best
  | w :: ws =>
      match best with
      | None => pickLeast (Some w) ws
      | Some b => pickLeast (if v_inFlight w <? v_inFlight b then Some w else best) ws
      end
  end.

Definition leastInFlightPick (ws : list WorkerView) : option WorkerView :=
  match ws with
  | [] => None
  | _ =>
      match pickUnsaturated None ws with
      | Some b => Some b
      | None => pickLeast None ws
      end
  end.

(** [b] is the first of the least loaded elements of [ws]. *)
Definition first_least (ws : list WorkerView) (b : WorkerView) : Prop :=
  exists pre post, ws = pre ++ b :: post /\
    Forall (fun w => v_inFlight b < v_inFlight w) pre /\ Forall (fun w => v_inFlight b <= v_inFlight w) post.

Lemma pickLeast_spec ws pre b post :
  Forall (fun w => v_inFlight b < v_inFlight w) pre -> Forall (fun w => v_inFlight b <= v_inFlight w) post ->
  exists r, pickLeast (Some b) ws = Some r /\ first_least (pre ++ b :: post ++ ws) r.
Proof.
  revert pre b post. induction ws as [|w ws IH]; intros pre b post H1 H2; simpl.
  { exists b. split; [done|]. rewrite app_nil_r. by exists pre, post. }
  destruct (v_inFlight w <? v_inFlight b) eqn:E; bool_prop.
  - destruct (IH (pre ++ b :: post) w []) as (r & Hr & Hf); [|constructor|].
    + apply Forall_app. split; [eapply Forall_impl; [exact H1|]; simpl; lia|].
      constructor; [lia|]. eapply Forall_impl; [exact H2|]. simpl. lia.
    + exists r. split; [done|]. by rewrite <- app_assoc in Hf.
  - destruct (IH pre b (post ++ [w])) as (r & Hr & Hf); [done| |].
    + apply Forall_app. split; [done|]. by constructor.
    + exists r. split; [done|]. by rewrite <- app_assoc in Hf.
Qed.

Lemma pickLeast_first ws : ws <> [] -> exists r, pickLeast None ws = Some r /\ first_least ws r.
Proof. destruct ws as [|w ws]; [done|]. intros _. apply (pickLeast_spec ws [] w []); constructor. Qed.

(** The first loop is the second one over the unsaturated workers. *)
Lemma pickUnsaturated_filter best ws :
  pickUnsaturated best ws = pickLeast best (filter (fun w => v_saturated w = false) ws).
Proof.
  revert best. induction ws as [|w ws IH]; intros best; [done|]. rewrite filter_cons. simpl.
  destruct (v_saturated w); [by rewrite decide_False|]. rewrite decide_True by done. simpl.
  by destruct best.
Qed.

Lemma leastInFlightPick_spec ws :
  match leastInFlightPick ws with
  | None => ws = []
  | Some b =>
      let open := filter (fun w => v_saturated w = false) ws in
      if decide (open = []) then first_least ws b else first_least open b
  end.
Proof.
  unfold leastInFlightPick. destruct ws as [|w ws]; [done|]. rewrite pickUnsaturated_filter. cbv zeta.
  generalize (filter (fun w => v_saturated w = false) (w :: ws)). intros open.
  destruct (decide (open = [])) as [->|Ho].
  - destruct (pickLeast_first (w :: ws)) as (r & Hr & Hf); [done|]. simpl in Hr |- *. by rewrite Hr.
  - by destruct (pickLeast_first open Ho) as (r & -> & Hr).
Qed.

Lemma first_least_in ws b : first_least ws b -> b ∈ ws.
Proof. intros (pre & post & -> & _). apply elem_of_app. right. by left. Qed.

(** LeastInFlight returns the least loaded worker that has room, the
    first of them in attach order; if none has room it returns the least
    loaded of all (so that the caller reports saturation and not absence),
    and nothing only for an empty list. *)
Theorem least_in_flight_pick ws :
  match leastInFlightPick ws with
  | None => ws = []
  | Some b =>
      let open := filter (fun w => v_saturated w = false) ws in
      if decide (open = []) then first_least ws b else first_least open b
  end.
Proof. apply leastInFlightPick_spec. Qed.

(** ** RoundRobin *)

(** [seq.Add(1) - 1] on a uint64, and [workers[int(i % len)]]. *)
Definition roundRobinPick {A} (ctr : Z) (ws : list A) : Z * option A :=
  match ws with
  | [] => (ctr, None)
  | _ =>
      let ctr := u64 (ctr + 1) in
      let i := u64 (ctr - 1) in
      (ctr, ws !! Z.to_nat (i mod Z.of_nat (length ws)))
  end.

Fixpoint rr_calls {A} (n : nat) (ctr : Z) (ws : list A) : list (option A) :=
  match n with
  | O => []
  | S n => let '(ctr, r) := roundRobinPick ctr ws in r :: rr_calls n ctr ws
  end.

Lemma roundRobinPick_step {A} ctr (ws : list A) :
  ws <> [] -> 0 <= ctr < 2 ^ 64 - 1 ->
  roundRobinPick ctr ws = (ctr + 1, ws !! Z.to_nat (ctr mod Z.of_nat (length ws))).
Proof.
  intros Hne Hs. unfold roundRobinPick. destruct ws as [|x ws]; [done|]. unfold u64.
  rewrite (Z.mod_small (ctr + 1)) by lia. rewrite Z.add_simpl_r, (Z.mod_small ctr) by lia. done.
Qed.

Lemma rr_calls_spec {A} n ctr (ws : list A) :
  ws <> [] -> 0 <= ctr -> ctr + Z.of_nat n < 2 ^ 64 ->
  rr_calls n ctr ws = (fun j => ws !! Z.to_nat ((ctr + Z.of_nat j) mod Z.of_nat (length ws))) <$> seq 0 n.
Proof.
  intros Hne. revert ctr. induction n as [|n IH]; intros ctr Hc Hn; [done|]. cbn [rr_calls].
  rewrite roundRobinPick_step by (done || lia). rewrite IH by lia. cbn [seq]. rewrite fmap_cons. f_equal.
  - do 3 f_equal. lia.
  - rewrite <- fmap_S_seq, <- list_fmap_compose. apply list_fmap_ext. intros i x _. cbn. do 3 f_equal. lia.
Qed.

(** One round is a rotation of the list. *)
Lemma rr_round {A} ctr (ws : list A) :
  ws <> [] -> 0 <= ctr -> ctr + Z.of_nat (length ws) < 2 ^ 64 ->
  let r := Z.to_nat (ctr mod Z.of_nat (length ws)) in
  rr_calls (length ws) ctr ws = Some <$> (drop r ws ++ take r ws).
Proof.
  intros Hne Hc Hn r. rewrite rr_calls_spec by done.
  assert (Hk : (0 < length ws)%nat) by (destruct ws; [done|simpl; lia]).
  pose proof (Z.mod_pos_bound ctr (Z.of_nat (length ws)) ltac:(lia)) as Hr.
  apply list_eq. intros i. rewrite !list_lookup_fmap. destruct (decide (i < length ws)%nat) as [Hi|Hi].
  - rewrite lookup_seq_lt by done. simpl.
    replace ((ctr + Z.of_nat i) mod Z.of_nat (length ws)) with ((Z.of_nat r + Z.of_nat i) mod Z.of_nat (length ws)).
    2: { unfold r. rewrite Z2Nat.id by lia. by rewrite Zplus_mod_idemp_l. }
    destruct (decide (r + i < length ws)%nat) as [Hlt|Hge].
    + rewrite Z.mod_small by lia. rewrite lookup_app_l by (rewrite length_drop; lia). rewrite lookup_drop.
      replace (Z.to_nat (Z.of_nat r + Z.of_nat i)) with (r + i)%nat by lia.
      destruct (lookup_lt_is_Some_2 ws (r + i) Hlt) as [x ->]. done.
    + rewrite lookup_app_r by (rewrite length_drop; lia). rewrite length_drop, lookup_take_lt by lia.
      replace ((Z.of_nat r + Z.of_nat i) mod Z.of_nat (length ws)) with (Z.of_nat (r + i - length ws)).
      2: { replace (Z.of_nat r + Z.of_nat i) with (Z.of_nat (r + i - length ws) + 1 * Z.of_nat (length ws)) by lia.
           rewrite Z_mod_plus_full, Z.mod_small; lia. }
      rewrite Nat2Z.id. replace (i - (length ws - r))%nat with (r + i - length ws)%nat by lia.
      destruct (lookup_lt_is_Some_2 ws (r + i - length ws)) as [x ->]; [lia|done].
  - rewrite lookup_seq_ge by lia. simpl. rewrite (proj2 (lookup_ge_None _ _)); [done|].
    rewrite length_app, length_drop, length_take. lia.
Qed.

(** RoundRobin is fair: while the attached set does not change, any
    [len(workers)] consecutive picks hit every worker exactly once, from
    whatever count the selector starts (short of the uint64 wrap-around), and
    no pick falls outside the list. *)
Theorem round_robin_fair {A} ctr (ws : list A) :
  ws <> [] -> 0 <= ctr -> ctr + Z.of_nat (length ws) < 2 ^ 64 ->
  rr_calls (length ws) ctr ws ≡ₚ Some <$> ws.
Proof.
  intros Hne Hc Hn. rewrite rr_round by done. rewrite fmap_app, Permutation_app_comm, <- fmap_app.
  by rewrite take_drop.
Qed.

(** ** The attached set *)

(** [p.workers], [shutdownCh] closed, and the hooks' calls in order. *)
Inductive HookEv := HAttach (w : nat) | HDetach (w : nat).

#[global] Instance HookEv_eq_dec : EqDecision HookEv.
Proof. solve_decision. Defined.

Record ProxyState := mkProxy { p_workers : list nat; p_shutdown : bool; p_hooks : list HookEv }.

(** The error is "shutting down". *)
Definition attach (p : ProxyState) (w : nat) : ProxyState * option gerror :=
  if p_shutdown p then (p, Some ErrShuttingDown)
  else (mkProxy (p_workers p ++ [w]) (p_shutdown p) (p_hooks p ++ [HAttach w]), None).

(** The scan that removes the first match. *)
Fixpoint remove_first (w : nat) (ws : list nat) : list nat * bool :=
  match ws with
  | [] => ([], false)
  | x :: ws => if Nat.eqb x w then (ws, true) else let '(ws, b) := remove_first w ws in (x :: ws, b)
  end.

Definition detach (p : ProxyState) (w : nat) : ProxyState :=
  let '(ws, present) := remove_first w (p_workers p) in
  mkProxy ws (p_shutdown p) (if present then p_hooks p ++ [HDetach w] else p_hooks p).

(** [draining w]: what [w.conn.Draining()] reports. *)
Definition availableWorkers (p : ProxyState) (draining : nat -> bool) : list nat :=
  filter (fun w => draining w = false) (p_workers p).

Definition shutdown (p : ProxyState) : ProxyState := mkProxy (p_workers p) true (p_hooks p).

(** The life of a tunnel as [acceptTunnel] drives it, and Shutdown. *)
Inductive SetOp := OAttach (w : nat) | ODetach (w : nat) | OShutdown.

Definition set_op (p : ProxyState) (o : SetOp) : ProxyState :=
  match o with
  | OAttach w => (attach p w).1
  | ODetach w => detach p w
  | OShutdown => shutdown p
  end.

Definition proxy_init : ProxyState := mkProxy [] false [].

(** Every Worker value is attached at most once in its life. *)
Definition attached_once (ops : list SetOp) : Prop :=
  NoDup (omap (fun o => match o with OAttach w => Some w | _ => None end) ops).

Lemma remove_first_spec w ws :
  NoDup ws -> (remove_first w ws).1 = filter (fun x => x <> w) ws /\
    (remove_first w ws).2 = bool_decide (w ∈ ws).
Proof.
  induction 1 as [|x ws Hx Hnd IH]; [done|]. simpl. rewrite filter_cons.
  destruct (Nat.eqb x w) eqn:E; bool_prop.
  - subst x. rewrite decide_False by (by intros []). split.
    + symmetry. apply filter_all. intros y Hy ->. done.
    + symmetry. apply bool_decide_eq_true, elem_of_cons. by left.
  - destruct IH as [IH1 IH2]. rewrite decide_True by done.
    destruct (remove_first w ws) as [ws' b]. simpl in *. subst. split; [done|].
    apply bool_decide_ext. rewrite elem_of_cons. split; [by right|]. by intros [?|?].
Qed.

(** The hooks called so far for one worker. *)
Definition hooks_of (w : nat) (l : list HookEv) : list HookEv :=
  filter (fun h => h = HAttach w \/ h = HDetach w) l.

(** Where worker [w] is in its life. *)
Definition life_ok (p : ProxyState) (w : nat) : Prop :=
  (w ∈ p_workers p) /\ hooks_of w (p_hooks p) = [HAttach w] \/
  (w ∉ p_workers p) /\ (hooks_of w (p_hooks p) = [] \/ hooks_of w (p_hooks p) = [HAttach w; HDetach w]).

Definition attaches (ops : list SetOp) : list nat :=
  omap (fun o => match o with OAttach w => Some w | _ => None end) ops.

(** [ops] is still to come. *)
Definition set_inv (p : ProxyState) (ops : list SetOp) : Prop :=
  NoDup (p_workers p) /\ (forall w, life_ok p w) /\
  (forall w, w ∈ attaches ops -> hooks_of w (p_hooks p) = []).

Lemma hooks_of_app w l1 l2 : hooks_of w (l1 ++ l2) = hooks_of w l1 ++ hooks_of w l2.
Proof. apply filter_app. Qed.

Lemma hooks_of_one w h : hooks_of w [h] = if decide (h = HAttach w \/ h = HDetach w) then [h] else [].
Proof. unfold hooks_of. by rewrite filter_cons, filter_nil. Qed.

Lemma attach_inv p w ops :
  set_inv p (OAttach w :: ops) -> w ∉ attaches ops -> set_inv (attach p w).1 ops.
Proof.
  intros (Hnd & Hl & Hf) Hw. unfold attach.
  assert (Hfw : hooks_of w (p_hooks p) = []) by (apply Hf; cbn; apply elem_of_cons; by left).
  assert (Hf' : forall x, x ∈ attaches ops -> hooks_of x (p_hooks p) = []).
  { intros x Hx. apply Hf. cbn. apply elem_of_cons. by right. }
  destruct (p_shutdown p); [done|]. unfold set_inv, life_ok. cbn [p_workers p_hooks p_shutdown fst].
  assert (Hnot : w ∉ p_workers p).
  { destruct (Hl w) as [[_ E]|[? _]]; [congruence|done]. }
  split_and!.
  - apply NoDup_app. split_and!; [done| |apply NoDup_singleton]. intros x Hx ->%list_elem_of_singleton. done.
  - intros x. rewrite hooks_of_app, hooks_of_one, elem_of_app, list_elem_of_singleton.
    destruct (decide (x = w)) as [->|Hne].
    + left. split; [by right|]. rewrite Hfw, decide_True by by left. done.
    + rewrite decide_False by (intros [[=]|[=]]; congruence). rewrite app_nil_r.
      destruct (Hl x) as [[? ?]|[? ?]]; [left; auto|right]. split; [|done]. by intros [?|?].
  - intros x Hx. rewrite hooks_of_app, hooks_of_one, Hf', decide_False by
      (done || (intros [[=]|[=]]; subst; done)). done.
Qed.

Lemma detach_inv p w ops : set_inv p ops -> (forall x, x ∈ attaches ops -> x <> w \/ w ∉ p_workers p) -> set_inv (detach p w) ops.
Proof.
  intros (Hnd & Hl & Hf) Hw. unfold detach. destruct (remove_first_spec w (p_workers p) Hnd) as [E1 E2].
  destruct (remove_first w (p_workers p)) as [ws b]. cbn [fst snd] in *. subst.
  unfold set_inv, life_ok. cbn [p_workers p_hooks p_shutdown fst]. split_and!.
  - by apply NoDup_filter.
  - intros x. rewrite list_elem_of_filter. case_bool_decide as Hin.
    + rewrite hooks_of_app, hooks_of_one. destruct (decide (x = w)) as [->|Hne].
      * right. split; [by intros [? _]|right]. rewrite decide_True by by right.
        destruct (Hl w) as [[_ ->]|[? _]]; done.
      * rewrite decide_False by (intros [[=]|[=]]; congruence). rewrite app_nil_r.
        destruct (Hl x) as [[? ?]|[? ?]]; [left; auto|right]. split; [|done]. by intros [_ ?].
    + destruct (Hl x) as [[? ?]|[? ?]]; [left|right; split; [by intros [_ ?]|done]].
      split_and!; [congruence|done|done].
  - intros x Hx. case_bool_decide as Hin; [|by apply Hf].
    rewrite hooks_of_app, hooks_of_one, Hf, decide_False; [done| |done].
    destruct (Hw x Hx); [|done]. intros [[=]|[=]]; congruence.
Qed.

Lemma set_inv_run ops p : set_inv p ops -> NoDup (attaches ops) -> set_inv (foldl set_op p ops) [].
Proof.
  revert p. induction ops as [|o ops IH]; intros p H Hnd; [done|]. cbn [foldl]. destruct o as [w|w|]; cbn in Hnd.
  - apply NoDup_cons in Hnd as [Hw Hnd]. apply IH; [by apply attach_inv|done].
  - apply IH; [|done]. apply detach_inv; [done|]. intros x Hx. destruct H as (_ & Hl & Hf).
    destruct (decide (x = w)) as [->|]; [right|by left]. intros Hin.
    specialize (Hf w Hx). destruct (Hl w) as [[_ E]|[? _]]; [congruence|done].
  - apply IH; [|done]. destruct H as (? & ? & ?). by split_and!.
Qed.

(** The attached set is exact and the hooks are paired: for any history
    of attaches, detaches (repeated ones included) and a shutdown, every
    Worker is listed at most once, is listed exactly from its OnWorkerAttach to
    its OnWorkerDetach, each hook runs at most once per Worker and never the
    second without the first; after Shutdown nothing is attached; and the
    selectors see the attached workers in attach order without the draining
    ones. *)
Theorem attached_set_exact ops draining :
  attached_once ops ->
  let p := foldl set_op proxy_init ops in
  NoDup (p_workers p) /\ (forall w, life_ok p w) /\
  (p_shutdown p = true -> forall w, attach p w = (p, Some ErrShuttingDown)) /\
  (forall w, w ∈ availableWorkers p draining <-> w ∈ p_workers p /\ draining w = false) /\
  availableWorkers p draining `sublist_of` p_workers p.
Proof.
  intros Ho. cbv zeta. assert (Hi : set_inv (foldl set_op proxy_init ops) []).
  { apply set_inv_run; [|done]. split_and!; [constructor| |done].
    intros w. right. split; [by intros ?%elem_of_nil|by left]. }
  destruct Hi as (Hnd & Hl & _). split_and!; [done|done| | |].
  - intros Hs w. unfold attach. by rewrite Hs.
  - intros w. unfold availableWorkers. rewrite list_elem_of_filter. tauto.
  - apply sublist_filter.
Qed.

(** ** The public adapters (proxy.go) *)

(** A [ProxyWorker] holds the internal pointer; two of them may hold the same. *)
Record ProxyWorker := mkPW { pw_id : nat; pw_w : nat }.

(** A public selector, and an internal one, on a given request. *)
Definition PublicPick := list ProxyWorker -> option ProxyWorker.
Definition InnerPick := list nat -> option nat.

(** [selectorAdapter.Pick] *)
Definition wrapPick (inner : InnerPick) : PublicPick := fun workers =>
  match inner (pw_w <$> workers) with
  | None => None
  | Some picked => head (filter (fun w => pw_w w = picked) workers)
  end.

(** The function [unwrapSelector] builds for a selector of the user's; [fresh]
    numbers the [ProxyWorker]s it allocates. *)
Definition unwrapPick (s : PublicPick) (fresh : nat) : InnerPick := fun inner =>
  match s ((fun '(i, w) => mkPW (fresh + i) w) <$> zip (seq 0 (length inner)) inner) with
  | None => None
  | Some picked => Some (pw_w picked)
  end.

(** A selector of the public interface: the adapter around an internal one, or
    one of the user's. *)
Inductive ProxySelector := SelAdapter (inner : InnerPick) | SelUser (pick : PublicPick).

Definition Pick (s : ProxySelector) : PublicPick :=
  match s with SelAdapter inner => wrapPick inner | SelUser pick => pick end.

Definition wrapSelector (inner : InnerPick) : ProxySelector := SelAdapter inner.

Definition unwrapSelector (s : ProxySelector) (fresh : nat) : InnerPick :=
  match s with SelAdapter inner => inner | SelUser pick => unwrapPick pick fresh end.

Lemma unwrapped_ws fresh n inner :
  pw_w <$> ((fun '(i, w) => mkPW (fresh + i) w) <$> zip (seq n (length inner)) inner) = inner.
Proof. revert n. induction inner as [|w inner IH]; intros n; [done|]. simpl. f_equal. apply IH. Qed.

(** What [wrapPick] returns is the inner pick's entry. *)
Lemma wrapPick_spec (inner : InnerPick) workers :
  (forall l w, inner l = Some w -> w ∈ l) ->
  match wrapPick inner workers with
  | Some pw => (pw ∈ workers) /\ inner (pw_w <$> workers) = Some (pw_w pw)
  | None => inner (pw_w <$> workers) = None
  end.
Proof.
  intros Hin. unfold wrapPick. destruct (inner (pw_w <$> workers)) as [picked|] eqn:E; [|done].
  pose proof (Hin _ _ E) as Hp. apply list_elem_of_fmap in Hp as (pw & -> & Hpw).
  assert (Hx : pw ∈ filter (fun w => pw_w w = pw_w pw) workers) by by apply list_elem_of_filter.
  destruct (filter _ workers) as [|x l] eqn:Ef; [by apply elem_of_nil in Hx|]. simpl.
  assert (Hxf : x ∈ filter (fun w => pw_w w = pw_w pw) workers) by (rewrite Ef; apply elem_of_cons; by left).
  by apply list_elem_of_filter in Hxf as [-> ?].
Qed.

(** The adapters are faithful: a built-in selector seen through the public
    interface picks, from the caller's own slice, an entry for exactly the
    worker the internal selector picks (nil for nil); wrapping and unwrapping
    it gives it back, by the shortcut and by the general path alike; and a
    user's selector that picks an entry of its slice is used as an internal
    one that picks an attached worker. *)
Theorem adapters_faithful (inner : InnerPick) (pick : PublicPick) workers fresh ws :
  (forall l w, inner l = Some w -> w ∈ l) -> (forall l pw, pick l = Some pw -> pw ∈ l) ->
  match Pick (wrapSelector inner) workers with
  | Some pw => (pw ∈ workers) /\ inner (pw_w <$> workers) = Some (pw_w pw)
  | None => inner (pw_w <$> workers) = None
  end /\
  unwrapSelector (wrapSelector inner) fresh ws = inner ws /\
  unwrapSelector (SelUser (Pick (wrapSelector inner))) fresh ws = inner ws /\
  (forall w, unwrapSelector (SelUser pick) fresh ws = Some w -> w ∈ ws).
Proof.
  intros Hin Hpick. cbn [Pick wrapSelector unwrapSelector].
  set (l := (fun '(i, w) => mkPW (fresh + i) w) <$> zip (seq 0 (length ws)) ws).
  assert (Hl : pw_w <$> l = ws) by apply unwrapped_ws.
  split_and!; [by apply wrapPick_spec|done| |].
  - pose proof (wrapPick_spec inner l Hin) as Hw. rewrite Hl in Hw. unfold unwrapPick. fold l.
    destruct (wrapPick inner l) as [pw|]; [|by rewrite Hw]. by destruct Hw as [_ ->].
  - intros w. unfold unwrapPick. fold l. destruct (pick l) as [pw|] eqn:E; [|done]. intros [= <-].
    rewrite <- Hl. apply list_elem_of_fmap. exists pw. split; [done|by apply Hpick].
Qed.

(** ** Witnesses *)

Module ProxyDemo.

Lemma round_robin_fair_witness : rr_calls 3 7 [10; 20; 30]%nat ≡ₚ Some <$> [10; 20; 30]%nat.
Proof. refine (round_robin_fair 7 [10; 20; 30]%nat _ _ _); [done|lia|simpl; lia]. Defined.

Definition demo_ops : list SetOp := [OAttach 1; OAttach 2; ODetach 1; ODetach 1; OShutdown; OAttach 3].

Lemma attached_set_exact_witness :
  NoDup (p_workers (foldl set_op proxy_init demo_ops)) /\ p_workers (foldl set_op proxy_init demo_ops) = [2%nat].
Proof.
  split; [|reflexivity]. refine (proj1 (attached_set_exact demo_ops (fun _ => false) _)).
  apply (bool_decide_unpack _). vm_compute. exact I.
Defined.

Lemma adapters_faithful_witness :
  unwrapSelector (SelUser (Pick (wrapSelector head))) 0 [4; 5]%nat = Some 4%nat.
Proof.
  refine (proj1 (proj2 (proj2 (adapters_faithful head head [] 0 [4; 5]%nat _ _)))).
  - intros [|x l] w [= ->]. apply elem_of_cons. by left.
  - intros [|x l] w [= ->]. apply elem_of_cons. by left.
Defined.

End ProxyDemo.
