(* ===== verification/AttachedSet.v ===== *)
(** * The attached set as Go slices (internal/proxy/proxy.go)

    Proxy.v keeps [p.workers] as a list.  In the code it is a slice that
    [attach] appends to and [detach] shifts in its backing array, while
    [Workers] and [availableWorkers] hand out slices to callers that may keep
    or overwrite them.  Here the arrays are explicit: the operations act on a
    heap of backing arrays, and the theorem is that they refine the list
    operations, with every slice handed out unaffected by what happens to
    [p.workers] afterwards, and the other way round. *)

From S2P Require Import Prelude Errors Proxy.

(** ** Slices of worker pointers *)

(** A slice header over the heap of backing arrays; all slices here start at their array's first element.
    [0] is the nil pointer. *)
Record Slice := mkSlice { sl_arr : nat; sl_len : nat }.

Definition array (h : gmap nat (list nat)) (a : nat) : list nat := default [] (h !! a).

Definition contents (h : gmap nat (list nat)) (s : Slice) : list nat := take (sl_len s) (array h (sl_arr s)).

(** Write [xs] into [l] from index [i] on. *)
Definition overwrite (l : list nat) (i : nat) (xs : list nat) : list nat :=
  take i l ++ xs ++ drop (i + length xs) l.

(** [append(s, xs...)]: in place when the capacity allows, else in a new array
    with [spare] elements more than needed (the runtime's choice). *)
Definition goAppend (h : gmap nat (list nat)) (next spare : nat) (s : Slice) (xs : list nat) : gmap nat (list nat) * nat * Slice :=
  let l := array h (sl_arr s) in
  let n := (sl_len s + length xs)%nat in
  if (n <=? length l)%nat then (<[sl_arr s := overwrite l (sl_len s) xs]> h, next, mkSlice (sl_arr s) n)
  else (<[next := contents h s ++ xs ++ repeat 0%nat spare]> h, S next, mkSlice next n).

(** ** The operations *)

Record SetState := mkSet {
  st_heap : gmap nat (list nat);
  st_next : nat;
  st_workers : Slice;        (* p.workers *)
  st_shutdown : bool;
  st_hooks : list HookEv;
  st_out : list Slice        (* the slices handed out, in order *)
}.

Definition set_slices (p : SetState) (h : gmap nat (list nat)) (next : nat) (ws : Slice) : SetState :=
  mkSet h next ws (st_shutdown p) (st_hooks p) (st_out p).

Definition attach (p : SetState) (spare w : nat) : SetState * option gerror :=
  if st_shutdown p then (p, Some ErrShuttingDown)
  else
    let '(h, next, ws) := goAppend (st_heap p) (st_next p) spare (st_workers p) [w] in
    let p := set_slices p h next ws in
    (mkSet (st_heap p) (st_next p) (st_workers p) (st_shutdown p) (st_hooks p ++ [HAttach w]) (st_out p), None).

(** [for i, x := range p.workers { if x == w ... }] *)
Fixpoint indexOf (w : nat) (ws : list nat) : option nat :=
  match ws with
  | [] => None
  | x :: ws => if Nat.eqb x w then Some 0%nat else S <$> indexOf w ws
  end.

Definition detach (p : SetState) (w : nat) : SetState :=
  let cur := contents (st_heap p) (st_workers p) in
  match indexOf w cur with
  | None => p
  | Some i =>
      (* append(p.workers[:i], p.workers[i+1:]...) *)
      let '(h, next, ws) := goAppend (st_heap p) (st_next p) 0 (mkSlice (sl_arr (st_workers p)) i) (drop (S i) cur) in
      let p := set_slices p h next ws in
      mkSet (st_heap p) (st_next p) (st_workers p) (st_shutdown p) (st_hooks p ++ [HDetach w]) (st_out p)
  end.

(** [make] of the length of [p.workers], then [copy]. *)
Definition snapshotWorkers (p : SetState) : SetState * Slice :=
  let cur := contents (st_heap p) (st_workers p) in
  (set_slices p (<[st_next p := cur]> (st_heap p)) (S (st_next p)) (st_workers p),
   mkSlice (st_next p) (length cur)).

(** The loop over [ws] that appends to [out]; [out] shares [ws]'s array, and
    element [i] is read from it in the [i]-th turn. *)
Fixpoint filterLoop (draining : nat -> bool) (h : gmap nat (list nat)) (next : nat) (a : nat) (n i : nat) (out : Slice)
  : gmap nat (list nat) * nat * Slice :=
  match n with
  | O => (h, next, out)
  | S n =>
      let w := nth i (array h a) 0%nat in
      let '(h, next, out) := if draining w then (h, next, out) else goAppend h next 0 out [w] in
      filterLoop draining h next a n (S i) out
  end.

Definition availableWorkers (p : SetState) (draining : nat -> bool) : SetState * Slice :=
  let '(p, ws) := snapshotWorkers p in
  let '(h, next, out) := filterLoop draining (st_heap p) (st_next p) (sl_arr ws) (sl_len ws) 0 (mkSlice (sl_arr ws) 0) in
  (set_slices p h next (st_workers p), out).

Definition handOut (r : SetState * Slice) : SetState :=
  let '(p, s) := r in
  mkSet (st_heap p) (st_next p) (st_workers p) (st_shutdown p) (st_hooks p) (st_out p ++ [s]).

(** [New]: a nil slice. *)
Definition set_init : SetState := mkSet ∅ 1 (mkSlice 0 0) false [] [].

Inductive SliceOp :=
| SAttach (spare w : nat)
| SDetach (w : nat)
| SShutdown
| SWorkers
| SAvailable (draining : nat -> bool)
| SWrite (k i x : nat).            (* the holder of the k-th slice assigns its element i *)

Definition slice_op (p : SetState) (o : SliceOp) : SetState :=
  match o with
  | SAttach spare w => (attach p spare w).1
  | SDetach w => detach p w
  | SShutdown => mkSet (st_heap p) (st_next p) (st_workers p) true (st_hooks p) (st_out p)
  | SWorkers => handOut (snapshotWorkers p)
  | SAvailable draining => handOut (availableWorkers p draining)
  | SWrite k i x =>
      match st_out p !! k with
      | Some s =>
          if (i <? sl_len s)%nat
          then set_slices p (<[sl_arr s := <[i := x]> (array (st_heap p) (sl_arr s))]> (st_heap p)) (st_next p) (st_workers p)
          else p
      | None => p
      end
  end.

(** ** The abstract set: Proxy.v's state and the lists handed out *)

Record AbsSet := mkAbs { ab_proxy : ProxyState; ab_out : list (list nat) }.

Definition abs_op (a : AbsSet) (o : SliceOp) : AbsSet :=
  match o with
  | SAttach _ w => mkAbs (Proxy.attach (ab_proxy a) w).1 (ab_out a)
  | SDetach w => mkAbs (Proxy.detach (ab_proxy a) w) (ab_out a)
  | SShutdown => mkAbs (Proxy.shutdown (ab_proxy a)) (ab_out a)
  | SWorkers => mkAbs (ab_proxy a) (ab_out a ++ [p_workers (ab_proxy a)])
  | SAvailable draining => mkAbs (ab_proxy a) (ab_out a ++ [Proxy.availableWorkers (ab_proxy a) draining])
  | SWrite k i x => mkAbs (ab_proxy a) (alter (fun l => <[i := x]> l) k (ab_out a))
  end.

(** What a state stands for. *)
Definition abstraction (p : SetState) : AbsSet :=
  mkAbs (mkProxy (contents (st_heap p) (st_workers p)) (st_shutdown p) (st_hooks p)) (contents (st_heap p) <$> st_out p).

(** Every slice fits its array, and no two of them share one. *)
Definition fits (h : gmap nat (list nat)) (next : nat) (s : Slice) : Prop :=
  (sl_len s <= length (array h (sl_arr s)))%nat /\ (sl_arr s < next)%nat.

Record slices_ok (p : SetState) : Prop := {
  so_fits : Forall (fits (st_heap p) (st_next p)) (st_workers p :: st_out p);
  so_apart : NoDup (sl_arr <$> (st_workers p :: st_out p))
}.

(** ** Lemmas on slices *)

Lemma array_insert h a l b : array (<[a := l]> h) b = if decide (a = b) then l else array h b.
Proof. unfold array. case_decide as E; [subst; by rewrite lookup_insert_eq|by rewrite lookup_insert_ne]. Qed.

Lemma contents_other h a l s : sl_arr s <> a -> contents (<[a := l]> h) s = contents h s.
Proof. intros H. unfold contents. rewrite array_insert, decide_False; [done|congruence]. Qed.

Lemma fits_other h next next' a l s :
  (next <= next')%nat -> sl_arr s <> a -> fits h next s -> fits (<[a := l]> h) next' s.
Proof. intros Hn H [Hl Ha]. split; [|lia]. rewrite array_insert, decide_False; [done|congruence]. Qed.

Lemma length_overwrite l i xs : (i + length xs <= length l)%nat -> length (overwrite l i xs) = length l.
Proof. intros H. unfold overwrite. rewrite !length_app, length_take, length_drop. lia. Qed.

Lemma take_overwrite l i xs : (i + length xs <= length l)%nat -> take (i + length xs) (overwrite l i xs) = take i l ++ xs.
Proof.
  intros H. unfold overwrite. rewrite app_assoc, take_app_le by (rewrite length_app, length_take; lia).
  rewrite take_ge; [done|]. rewrite length_app, length_take. lia.
Qed.

(** [append] extends the slice; the array it writes is its own or a new one. *)
Lemma goAppend_spec h next spare s xs h' next' s' :
  fits h next s -> goAppend h next spare s xs = (h', next', s') ->
  contents h' s' = contents h s ++ xs /\ fits h' next' s' /\ (next <= next')%nat /\
  (sl_arr s' = sl_arr s \/ sl_arr s' = next) /\ (exists l, h' = <[sl_arr s' := l]> h).
Proof.
  intros [Hl Ha]. unfold goAppend. destruct (_ <=? _)%nat eqn:E; intros H; simplify_eq; bool_prop.
  - unfold contents, fits. cbn. rewrite array_insert, decide_True by done.
    rewrite take_overwrite, length_overwrite by done. split_and!; [done|done|done|done|by left|by eexists].
  - unfold contents, fits. cbn. rewrite array_insert, decide_True by done. split_and!.
    + rewrite app_assoc, take_app_le by (rewrite length_app, length_take; lia).
      rewrite take_ge; [done|]. rewrite length_app, length_take. lia.
    + rewrite !length_app, length_take, repeat_length. lia.
    + lia.
    + lia.
    + by right.
    + by eexists.
Qed.

(** What a change of one array, owned by the new [p.workers] or new, leaves
    alone. *)
Lemma out_kept h next next' a l (out : list Slice) :
  (next <= next')%nat -> Forall (fits h next) out -> a ∉ sl_arr <$> out ->
  contents (<[a := l]> h) <$> out = contents h <$> out /\ Forall (fits (<[a := l]> h) next') out.
Proof.
  intros Hn Hf Ha. assert (Hne : forall s, s ∈ out -> sl_arr s <> a).
  { intros s Hs <-. apply Ha. by apply list_elem_of_fmap_2. }
  rewrite Forall_forall in Hf. split.
  - apply list_fmap_ext. intros i s Hs. apply contents_other. apply Hne. by eapply list_elem_of_lookup_2.
  - apply Forall_forall. intros s Hs. eapply fits_other; eauto.
Qed.

Lemma fresh_arr h next (out : list Slice) : Forall (fits h next) out -> next ∉ sl_arr <$> out.
Proof.
  intros Hf Hin. apply list_elem_of_fmap in Hin as (s & E & Hs). rewrite Forall_forall in Hf.
  destruct (Hf s Hs). lia.
Qed.

(** ** Refinement *)

(** [p.workers] re-sliced to [i] elements and appended to. *)
Lemma append_workers p spare i xs h next ws shut hooks :
  slices_ok p -> (i <= sl_len (st_workers p))%nat ->
  goAppend (st_heap p) (st_next p) spare (mkSlice (sl_arr (st_workers p)) i) xs = (h, next, ws) ->
  contents h ws = take i (contents (st_heap p) (st_workers p)) ++ xs /\
  contents h <$> st_out p = contents (st_heap p) <$> st_out p /\
  slices_ok (mkSet h next ws shut hooks (st_out p)).
Proof.
  intros [Hf Hn] Hi E. apply Forall_cons in Hf as [Hw Hf]. cbn in Hn. apply NoDup_cons in Hn as [Hw' Hn].
  assert (Hfi : fits (st_heap p) (st_next p) (mkSlice (sl_arr (st_workers p)) i)).
  { destruct Hw. split; [cbn; lia|done]. }
  destruct (goAppend_spec _ _ _ _ _ _ _ _ Hfi E) as (Ec & Hfit & Hle & Ha & l & El).
  assert (Hnot : sl_arr ws ∉ sl_arr <$> st_out p) by (destruct Ha as [->| ->]; [done|by apply (fresh_arr (st_heap p))]).
  destruct (out_kept (st_heap p) (st_next p) next (sl_arr ws) l (st_out p) Hle Hf Hnot) as [Eo Hfo].
  rewrite El. split_and!; [|done|].
  - rewrite <- El, Ec. unfold contents. cbn. by rewrite take_take, Nat.min_l.
  - split; cbn.
    + apply Forall_cons. rewrite <- El at 1. done.
    + apply NoDup_cons. done.
Qed.

Lemma indexOf_spec w ws :
  match indexOf w ws with
  | Some i => remove_first w ws = (take i ws ++ drop (S i) ws, true) /\ (i < length ws)%nat
  | None => remove_first w ws = (ws, false)
  end.
Proof.
  induction ws as [|x ws IH]; [done|]. cbn. destruct (Nat.eqb x w); [cbn; split; [done|lia]|].
  destruct (indexOf w ws) as [i|]; cbn; [destruct IH as [-> Hi]; split; [done|lia]|by rewrite IH].
Qed.

Lemma contents_length p : slices_ok p -> length (contents (st_heap p) (st_workers p)) = sl_len (st_workers p).
Proof. intros [Hf _]. apply Forall_cons in Hf as [[Hl _] _]. unfold contents. rewrite length_take. lia. Qed.

(** One turn of the loop writes at or behind the element it has just read. *)
Lemma filterLoop_spec draining next a cur n : forall h i out dn,
  (i + n = length cur)%nat -> out = mkSlice a (length dn) -> (length dn <= i)%nat ->
  length (array h a) = length cur -> take (length dn) (array h a) = dn ->
  drop i (array h a) = drop i cur -> h !! a <> None ->
  exists l, let F := dn ++ filter (fun w => draining w = false) (drop i cur) in
    filterLoop draining h next a n i out = (<[a := l]> h, next, mkSlice a (length F)) /\
    length l = length cur /\ take (length F) l = F.
Proof.
  induction n as [|n IH]; intros h i out dn Hi -> Hk Hlen Htake Hdrop Hin.
  - exists (array h a). cbn. rewrite drop_ge by lia. rewrite filter_nil, app_nil_r. split_and!; [|done|done].
    f_equal. f_equal. unfold array. destruct (h !! a) eqn:E; [|done]. cbn. by rewrite insert_id.
  - cbn [filterLoop]. destruct (lookup_lt_is_Some_2 cur i) as [w Hw]; [lia|].
    assert (Hw' : array h a !! i = Some w).
    { rewrite <- (Nat.add_0_r i), <- lookup_drop, Hdrop, lookup_drop, Nat.add_0_r. done. }
    rewrite (nth_lookup_Some _ _ _ _ Hw'). rewrite (drop_S _ _ _ Hw).
    assert (Hnext : forall l, drop i l = drop i cur -> drop (S i) l = drop (S i) cur).
    { intros l E. rewrite <- !(Nat.add_1_r i), <- !drop_drop, E. done. }
    destruct (draining w) eqn:Ed.
    + rewrite filter_cons_False by congruence. apply IH; auto; lia.
    + rewrite filter_cons_True by done. unfold goAppend. cbn [sl_arr sl_len].
      rewrite (proj2 (Nat.leb_le _ _)) by (cbn; lia).
      set (l1 := overwrite (array h a) (length dn) [w]).
      assert (Hl1 : length l1 = length cur) by (unfold l1; rewrite length_overwrite; [done|cbn; lia]).
      assert (Hd1 : drop (S i) l1 = drop (S i) cur).
      { unfold l1, overwrite. rewrite app_assoc, drop_app_ge by (rewrite length_app, length_take; cbn; lia).
        rewrite drop_drop, length_app, length_take. cbn. rewrite <- (Hnext _ Hdrop). f_equal. lia. }
      destruct (IH (<[a := l1]> h) (S i) (mkSlice a (length dn + length [w])) (dn ++ [w])) as (l & E & HF);
        rewrite ?array_insert, ?decide_True, ?length_app, ?lookup_insert_eq by done; try done; try (cbn; lia).
      * unfold l1. rewrite take_overwrite, Htake by (cbn; lia). done.
      * exists l. rewrite <- app_assoc in E, HF. rewrite insert_insert_eq in E.
        rewrite length_app in E, HF. exact (conj E HF).
Qed.

(** A slice in a new array joins those handed out. *)
Lemma handOut_ok p l n h' :
  slices_ok p -> (n <= length l)%nat -> h' = <[st_next p := l]> (st_heap p) ->
  let p' := handOut (set_slices p h' (S (st_next p)) (st_workers p), mkSlice (st_next p) n) in
  slices_ok p' /\ abstraction p' = mkAbs (ab_proxy (abstraction p)) (ab_out (abstraction p) ++ [take n l]).
Proof.
  intros [Hf Hn] Hl ->. pose proof (fresh_arr _ _ _ Hf) as Hfr.
  destruct (out_kept _ _ (S (st_next p)) _ l _ (Nat.le_succ_diag_r _) Hf Hfr) as [Ec Hf'].
  cbn in Ec. injection Ec as Ew Eo. cbn. split.
  - split; cbn.
    + apply (Forall_app _ (st_workers p :: st_out p) [_]). split; [done|]. apply Forall_singleton. split; cbn.
      * rewrite array_insert, decide_True by done. done.
      * lia.
    + rewrite fmap_app. apply (NoDup_app (sl_arr (st_workers p) :: (sl_arr <$> st_out p)) [_]). split_and!; [done| |apply NoDup_singleton].
      intros x Hx ->%list_elem_of_singleton. done.
  - unfold abstraction. cbn. rewrite Ew, fmap_app. rewrite Eo. cbn.
    by rewrite array_insert, decide_True.
Qed.

Lemma alter_same {A} (f : A -> A) (l : list A) k : (forall x, l !! k = Some x -> f x = x) -> alter f k l = l.
Proof.
  intros H. apply list_eq. intros j. rewrite list_lookup_alter. case_decide as E; [subst j|done].
  destruct (l !! k) eqn:El; [|done]. cbn. by rewrite H.
Qed.

(** The holder of a slice writes to it. *)
Lemma write_refines p k i x :
  slices_ok p ->
  slices_ok (slice_op p (SWrite k i x)) /\
  abstraction (slice_op p (SWrite k i x)) = abs_op (abstraction p) (SWrite k i x).
Proof.
  intros H. cbn [slice_op abs_op]. destruct (st_out p !! k) as [s|] eqn:Ek.
  2: { split; [done|]. unfold abstraction. cbn. f_equal. symmetry. apply alter_same. intros l. by rewrite list_lookup_fmap, Ek. }
  destruct (i <? sl_len s)%nat eqn:Ei; bool_prop.
  2: { split; [done|]. unfold abstraction. cbn. f_equal. symmetry. apply alter_same. intros l. rewrite list_lookup_fmap, Ek.
       intros [= <-]. apply list_insert_ge. unfold contents. rewrite length_take. lia. }
  destruct H as [Hf Hn]. pose proof Hn as Hn'. rewrite fmap_cons in Hn. apply NoDup_cons in Hn as [Hw Hn].
  set (l := <[i := x]> (array (st_heap p) (sl_arr s))).
  assert (Hfit : forall t, fits (st_heap p) (st_next p) t -> fits (<[sl_arr s := l]> (st_heap p)) (st_next p) t).
  { intros t [Hl Ha]. split; [|done]. rewrite array_insert. case_decide as E; [|done]. unfold l. rewrite length_insert, E. done. }
  split; [split; [by eapply Forall_impl|done]|].
  assert (Hne : sl_arr (st_workers p) <> sl_arr s).
  { intros E. apply Hw. rewrite E. apply list_elem_of_fmap_2. by eapply list_elem_of_lookup_2. }
  unfold abstraction. cbn. rewrite contents_other by done. f_equal. apply list_eq. intros j.
  rewrite list_lookup_alter, !list_lookup_fmap. case_decide as E.
  - subst j. rewrite Ek. cbn. f_equal. unfold contents. rewrite array_insert, decide_True by done.
    unfold l. by rewrite take_insert_lt.
  - destruct (st_out p !! j) as [t|] eqn:Ej; [|done]. cbn. f_equal. apply contents_other. intros Et.
    apply E. eapply NoDup_lookup; [exact Hn| |]; rewrite list_lookup_fmap; [rewrite Ek|rewrite Ej]; cbn; by rewrite ?Et.
Qed.

Lemma slice_op_refines p o :
  slices_ok p -> slices_ok (slice_op p o) /\ abstraction (slice_op p o) = abs_op (abstraction p) o.
Proof.
  intros H. destruct o as [spare w|w| | |draining|k i x]; cbn [slice_op].
  - unfold attach, abs_op, Proxy.attach, abstraction. cbn. destruct (st_shutdown p) eqn:Es; [cbn; by rewrite Es|].
    destruct (goAppend _ _ _ _ _) as [[h next] ws] eqn:E. destruct (st_workers p) as [a n] eqn:Ew.
    replace (mkSlice a n) with (mkSlice (sl_arr (st_workers p)) n) in E by (by rewrite Ew).
    destruct (append_workers p spare n [w] h next ws false (st_hooks p ++ [HAttach w]) H ltac:(by rewrite Ew) E) as (Ec & Eo & Hok).
    cbn. split; [done|]. rewrite Ec, Eo, take_ge.
    + unfold contents. by rewrite Ew.
    + by rewrite contents_length, Ew.
  - unfold detach, abs_op, Proxy.detach, abstraction. cbn. pose proof (indexOf_spec w (contents (st_heap p) (st_workers p))) as Hi.
    destruct (indexOf _ _) as [i|]; [|rewrite Hi; by destruct p]. destruct Hi as [-> Hi]. rewrite contents_length in Hi by done.
    destruct (goAppend _ _ _ _ _) as [[h next] ws] eqn:E.
    destruct (append_workers p 0 i _ h next ws (st_shutdown p) (st_hooks p ++ [HDetach w]) H ltac:(lia) E) as (Ec & Eo & Hok).
    cbn. split; [done|]. by rewrite Ec, Eo.
  - split; [|done]. destruct H. by split.
  - destruct (handOut_ok p (contents (st_heap p) (st_workers p)) (length (contents (st_heap p) (st_workers p))) _ H
      (le_n _) eq_refl) as [Hok Ea]. split; [done|]. rewrite take_ge in Ea by done. exact Ea.
  - unfold availableWorkers, snapshotWorkers. cbn [sl_arr sl_len set_slices st_heap st_next].
    set (cur := contents (st_heap p) (st_workers p)).
    destruct (filterLoop_spec draining (S (st_next p)) (st_next p) cur (length cur) (<[st_next p := cur]> (st_heap p)) 0
      (mkSlice (st_next p) 0) []) as (l & E & Hl & Ht);
      rewrite ?array_insert, ?decide_True, ?lookup_insert_eq by done; try done.
    cbn [sl_arr sl_len set_slices st_heap st_next] in *. rewrite E, insert_insert_eq.
    set (F := [] ++ _) in *.
    assert (HF : (length F <= length l)%nat) by (rewrite <- Ht, length_take; lia).
    destruct (handOut_ok p l (length F) _ H HF eq_refl) as [Hok Ea]. split; [done|]. rewrite Ht in Ea. exact Ea.
  - by apply write_refines.
Qed.

(** C29. The slice code refines the set: for any sequence of attaches, detaches, a
    Shutdown, [Workers], [availableWorkers] and writes by whoever holds a
    returned slice, whatever spare capacity [append] allocates, the slices'
    contents are what the list operations of Proxy.v give, and each slice
    handed out changes by its own holder's writes only (so a detach never
    shifts the workers a selector is looking at, and a selector that reorders
    its argument never changes the attached set). *)
Theorem slices_refine_set ops :
  abstraction (foldl slice_op set_init ops) = foldl abs_op (mkAbs proxy_init []) ops.
Proof.
  assert (H0 : slices_ok set_init).
  { split; cbn; [|apply NoDup_singleton]. apply Forall_singleton. split; cbn; lia. }
  change (mkAbs proxy_init []) with (abstraction set_init). revert H0. generalize set_init.
  induction ops as [|o ops IH]; intros p H; [done|]. cbn. destruct (slice_op_refines p o H) as [H' E]. by rewrite <- E, IH.
Qed.

Module AttachedSetDemo.

(** A snapshot taken before a detach keeps the detached worker, although the
    detach shifts the array in place; the caller's write stays its own. *)
Definition ops : list SliceOp :=
  [SAttach 3 1; SAttach 0 2; SAttach 0 3; SWorkers; SDetach 1; SAvailable (Nat.eqb 3); SWrite 0 0 9].

Example ops_result :
  abstraction (foldl slice_op set_init ops) =
  mkAbs (mkProxy [2; 3]%nat false [HAttach 1; HAttach 2; HAttach 3; HDetach 1]) [[9; 2; 3]; [2]]%nat /\
  array (st_heap (foldl slice_op set_init ops)) 1 = [2; 3; 3; 0]%nat.
Proof. by vm_compute. Qed.

End AttachedSetDemo.
