(* ===== verification/Gateway.v ===== *)
(** * The public handler over several tunnels (internal/proxy/forward.go, selector.go)

    [forward] from its first line: the selector sees the attached workers that
    are not draining, each through its load and its saturation, and the
    handler of Exchange.v runs on the one it picks.  The theorems put the
    selector of Proxy.v and the handler together. *)

From Stdlib Require Import Strings.Byte.
From S2P Require Import Prelude Errors Flow Names H2Stream Writer HeaderBlock Conn FrameLoop Tunnel TunnelEvents Forward Exchange Proxy.

Section Gateway.

Context {HD : HpackDecoder}.

(** The attached set and the tunnels' states. *)
Record Gateway := mkGateway { g_proxy : ProxyState; g_tunnels : gmap nat Worker }.

Definition draining (g : Gateway) (n : nat) : bool :=
  match g_tunnels g !! n with Some w => Draining (w_conn w) | None => false end.

(** What a selector reads of a [*Worker]. *)
Definition viewOf (g : Gateway) (n : nat) : option WorkerView :=
  (fun w => mkView n (saturated w) (w_inFlight w)) <$> g_tunnels g !! n.

Definition views (g : Gateway) : list WorkerView := omap (viewOf g) (availableWorkers (g_proxy g) (draining g)).

(** [forward] with [p.selector.Pick(req, p.availableWorkers())]. *)
Definition serveRequest (pick : list WorkerView -> option WorkerView) (range : header -> list (string * list string))
    (req : Request) (g : Gateway) (x : Script) : Gateway * PublicReply * Phase :=
  match pick (views g) with
  | None => let '(_, r, ph) := forward range req None x in (g, r, ph)
  | Some v =>
      let '(w, r, ph) := forward range req (g_tunnels g !! v_ptr v) x in
      (mkGateway (g_proxy g) (match w with Some w => <[v_ptr v := w]> (g_tunnels g) | None => g_tunnels g end), r, ph)
  end.

Lemma in_views g v :
  v ∈ views g <-> exists w, (v_ptr v ∈ p_workers (g_proxy g)) /\ g_tunnels g !! v_ptr v = Some w /\
    Draining (w_conn w) = false /\ v = mkView (v_ptr v) (saturated w) (w_inFlight w).
Proof.
  unfold views. rewrite list_elem_of_omap. unfold viewOf, availableWorkers. split.
  - intros (n & Hn & Hv). destruct (g_tunnels g !! n) as [w|] eqn:Hw; [|done]. injection Hv as <-. cbn.
    apply list_elem_of_filter in Hn as [Hd Hn]. unfold draining in Hd. rewrite Hw in Hd. exists w. by rewrite Hw.
  - intros (w & Hn & Hw & Hd & Hv). exists (v_ptr v). rewrite Hw, list_elem_of_filter. split; [split; [|done]|].
    + unfold draining. by rewrite Hw.
    + cbn. f_equal. by symmetry.
Qed.

(** An attached worker that can take one more stream. *)
Definition has_room (g : Gateway) : Prop :=
  exists n w, (n ∈ p_workers (g_proxy g)) /\ g_tunnels g !! n = Some w /\ Draining (w_conn w) = false /\ saturated w = false.

Lemma has_room_views g : has_room g <-> exists v, v ∈ views g /\ v_saturated v = false.
Proof.
  split.
  - intros (n & w & Hn & Hw & Hd & Hs). exists (mkView n (saturated w) (w_inFlight w)). split; [|done].
    apply in_views. by exists w.
  - intros (v & Hv & Hs). apply in_views in Hv as (w & Hn & Hw & Hd & Ev). exists (v_ptr v), w.
    rewrite Ev in Hs. done.
Qed.

(** The least-in-flight selector picks a saturated worker only when it must. *)
Lemma pick_has_room g v :
  leastInFlightPick (views g) = Some v -> (v ∈ views g) /\ (v_saturated v = false <-> has_room g).
Proof.
  intros Hp. pose proof (leastInFlightPick_spec (views g)) as H. rewrite Hp in H. cbv zeta in H. rewrite has_room_views.
  destruct (decide _) as [Hno|Hsome]; apply first_least_in in H.
  - split; [done|]. split; [eauto|]. intros (v' & Hv' & Hs').
    assert (Hx : v' ∈ filter (fun w => v_saturated w = false) (views g)) by by apply list_elem_of_filter.
    rewrite Hno in Hx. by apply elem_of_nil in Hx.
  - apply list_elem_of_filter in H as [Hs Hv]. split; [done|]. split; [eauto|done].
Qed.

(** C39. 503 means no capacity where it was looked for: under the default
    selector, whatever happens to the picked tunnel between the pick and the
    opening of the stream, the public caller gets 503 exactly when no attached
    worker is left to pick or the picked one is draining or saturated as the
    stream is to be opened; and when nothing happens to it in between, exactly
    when no attached worker that is not draining has room for another stream,
    so that no busy tunnel turns a request away while another has room. *)
Theorem refused_iff_no_room range req g x :
  x_sendErr x <> Some ErrTunnelSaturated -> x_sendErr x <> Some ErrTunnelDraining ->
  let reply := (serveRequest leastInFlightPick range req g x).1.2 in
  (reply = ErrorPage 503 <->
    match leastInFlightPick (views g) with
    | None => views g = []
    | Some v => exists w, g_tunnels g !! v_ptr v = Some w /\
        (Draining (w_conn (openingAt w x)) = true \/ saturated (openingAt w x) = true)
    end) /\
  (x_before x = [] -> x_racing x = [] -> reply = ErrorPage 503 <-> ~ has_room g).
Proof.
  intros Hs1 Hs2. unfold serveRequest. pose proof (leastInFlightPick_spec (views g)) as Hspec.
  destruct (leastInFlightPick (views g)) as [v|] eqn:Hp.
  - destruct (pick_has_room g v Hp) as [Hv Hroom]. apply in_views in Hv as (w & Hn & Hw & Hd & Ev).
    rewrite Hw. destruct (forward range req (Some w) x) as [[w' r] ph] eqn:Hf. cbn [fst snd].
    pose proof (forward_refused _ _ _ _ _ _ _ Hs1 Hs2 Hf) as H. split.
    { rewrite H. split; [intros ?; by exists w|by intros (w0 & [= <-] & ?)]. }
    intros Hb Hr. assert (Ho : openingAt w x = addInFlight w 1) by (unfold openingAt; by rewrite Hb, Hr).
    rewrite H, Ho, <- Hroom, Ev. change (Draining (w_conn (addInFlight w 1))) with (Draining (w_conn w)).
    change (saturated (addInFlight w 1)) with (saturated w). rewrite Hd. cbn [v_saturated].
    destruct (saturated w); [by split; [intros _|right]|]. split; [by intros [?|?]|by intros []].
  - split; [done|]. intros _ _. split; [|done]. intros _ Hroom. apply has_room_views in Hroom as (v & Hv & _).
    rewrite Hspec in Hv. by apply elem_of_nil in Hv.
Qed.

End Gateway.

(** ** Witnesses *)

Module GatewayDemo.

Import TunnelDemo.

(** Two tunnels: the first has its one stream taken, the second has room. *)
Definition full : Worker := (openStream greeted 0 65535 request None 0).1.

Definition gateway : Gateway := mkGateway (mkProxy [0; 1]%nat false []) {[ 0%nat := full; 1%nat := greeted ]}.

Definition request_script : Script := mkScript [] [] None [] WaitCancelled [] [] true 0.

Lemma second_has_room : has_room gateway.
Proof.
  exists 1%nat, greeted. split; [right; by left|]. split; [reflexivity|]. split; vm_compute; reflexivity.
Qed.

Lemma refused_iff_no_room_witness :
  saturated full = true /\
  (serveRequest leastInFlightPick map_to_list ForwardDemo.demo_request gateway request_script).1.2 <> ErrorPage 503.
Proof.
  split; [vm_compute; reflexivity|].
  intros H. refine (proj1 (proj2 (refused_iff_no_room map_to_list ForwardDemo.demo_request gateway request_script _ _)
    eq_refl eq_refl) H second_has_room).
  - discriminate.
  - discriminate.
Defined.

(** Both workers have room and two requests are under way: this one's pick is
    the first worker, and the other takes its last stream before this one
    opens its own.  It is answered 503 with the second worker idle. *)
Definition both : Gateway := mkGateway (mkProxy [0; 1]%nat false []) {[ 0%nat := greeted; 1%nat := greeted ]}.

Definition outrun : Script := mkScript [] [TForward (FwOpen request None 0)] None [] WaitCancelled [] [] true 0.

Theorem racing_pick_is_refused :
  saturated greeted = false /\
  (serveRequest leastInFlightPick map_to_list ForwardDemo.demo_request both outrun).1.2 = ErrorPage 503 /\
  has_room (serveRequest leastInFlightPick map_to_list ForwardDemo.demo_request both outrun).1.1.
Proof.
  split; [by vm_compute|]. split; [by vm_compute|].
  exists 1%nat, greeted. split; [right; by left|]. split; [|split; vm_compute; reflexivity].
  unfold serveRequest. by vm_compute.
Qed.

End GatewayDemo.
