(* ===== verification/Accept.v ===== *)
(** * The proxy's accept loops and its Shutdown (internal/proxy/proxy.go, tunnel.go)

    [New], [cloneAndEnsureH2], and the goroutines of the proxy as a step
    relation in the manner of Pool.v: the accept loop of each listener
    ([runTunnelAccept]), one goroutine per accepted connection ([acceptTunnel]
    around [serveTunnel]), and the [Once] of [Shutdown].  [attach] is here in
    its three parts, the check of [shutdownCh], the append under [workersMu]
    and, after the unlock, the call of OnWorkerAttach; [detach] in its two, the
    removal under the lock and OnWorkerDetach; a Worker is the number of its
    connection's goroutine.  Which steps need nothing from the peer or from
    the caller's hooks ([local]) is read off the deadlines of the code. *)

From S2P Require Import Prelude Errors Proxy.

(** ** Construction *)

(** [op_selector]: the selector's pick, when given; [op_tls]: TunnelTLSConfig
    is not nil. *)
Record Options := mkOptions { op_tls : bool; op_selector : option (list WorkerView -> option WorkerView) }.

Definition New (o : Options) : (list WorkerView -> option WorkerView) * ProxyState + gerror :=
  if negb (op_tls o) then inr ErrTunnelTLSConfigRequired
  else inl (default leastInFlightPick (op_selector o), proxy_init).

(** [NextProtos] of the clone. *)
Definition cloneAndEnsureH2 (protos : list string) : list string :=
  if bool_decide ("h2"%string ∈ protos) then protos else protos ++ ["h2"%string].

(** ** State *)

(** An accept loop: in [Accept], with the connection it returned, in the pause
    after a temporary error, or returned (with an error or nil). *)
Inductive LoopPhase := LAccepting | LGot | LSleeping | LDone (failed : bool).

(** A connection's goroutine: TLS handshake and ALPN; preface and [h2.New];
    the check of [attach], which may refuse ([SendGoAway], [ShutdownWriter]);
    its append; OnWorkerAttach; then [serveTunnel], awaiting SETTINGS and in
    its loop, and returned from it; the removal, OnWorkerDetach; after the
    deferred [detach]; after [tunnelAccepts.Done]. *)
Inductive TunnelPhase :=
| THandshake | TPreface | TAttach | TRefused | TChecked | TListed | TSettings | TServing | TDetaching | TUnlisted | TLeaving | TGone.

#[global] Instance TunnelPhase_eq_dec : EqDecision TunnelPhase.
Proof. solve_decision. Defined.

(** Inside [shutdownOnce.Do]: before, [shutdownCh] closed, the listener closed
    too, over. *)
Inductive ShutPhase := ShIdle | ShClosing | ShPoking | ShDone.

(** [y_listener]: [p.tunnelListener]; [y_closed]: the listeners closed;
    [y_accepts]: the WaitGroup; [y_poked]: the Workers whose read deadline
    Shutdown has set; [y_blocked]: the connections whose writer is in a [Write]
    that the peer, not reading, holds up. *)
Record Sys := mkSys {
  y_proxy : ProxyState;
  y_listener : option nat;
  y_loops : list LoopPhase;
  y_closed : gset nat;
  y_accepts : Z;
  y_tunnels : list TunnelPhase;
  y_shut : ShutPhase;
  y_poked : list nat;
  y_blocked : gset nat
}.

Definition sys_init : Sys := mkSys proxy_init None [] ∅ 0 [] ShIdle [] ∅.

Definition set_loop (y : Sys) (i : nat) (l : LoopPhase) : Sys :=
  mkSys (y_proxy y) (y_listener y) (<[i := l]> (y_loops y)) (y_closed y) (y_accepts y) (y_tunnels y) (y_shut y) (y_poked y) (y_blocked y).

(** The deferred cleanup of [runTunnelAccept]. *)
Definition endLoop (y : Sys) (i : nat) (failed : bool) : Sys :=
  let y := set_loop y i (LDone failed) in
  mkSys (y_proxy y) (if bool_decide (y_listener y = Some i) then None else y_listener y)
    (y_loops y) (y_closed y) (y_accepts y) (y_tunnels y) (y_shut y) (y_poked y) (y_blocked y).

(** A connection's goroutine moves on; [p]: the proxy after it. *)
Definition set_tunnel (y : Sys) (p : ProxyState) (d : Z) (j : nat) (ph : TunnelPhase) : Sys :=
  mkSys p (y_listener y) (y_loops y) (y_closed y) (y_accepts y + d) (<[j := ph]> (y_tunnels y)) (y_shut y) (y_poked y) (y_blocked y).

Definition set_blocked (y : Sys) (b : gset nat) : Sys :=
  mkSys (y_proxy y) (y_listener y) (y_loops y) (y_closed y) (y_accepts y) (y_tunnels y) (y_shut y) (y_poked y) b.

(** The append of [attach] and the removal of [detach], under [workersMu]. *)
Definition enlist (p : ProxyState) (w : nat) : ProxyState := mkProxy (p_workers p ++ [w]) (p_shutdown p) (p_hooks p).

Definition unlist (p : ProxyState) (w : nat) : ProxyState * bool :=
  let '(ws, present) := remove_first w (p_workers p) in (mkProxy ws (p_shutdown p) (p_hooks p), present).

(** A call of a hook. *)
Definition hooked (p : ProxyState) (h : HookEv) : ProxyState := mkProxy (p_workers p) (p_shutdown p) (p_hooks p ++ [h]).

(** Between [h2.New] and [ShutdownWriter] a connection has a writer. *)
Definition has_writer (ph : TunnelPhase) : bool :=
  match ph with
  | TAttach | TRefused | TChecked | TListed | TSettings | TServing => true
  | _ => false
  end.

(** ** Steps *)

Inductive SysAction :=
| ServeListener                      (* [runTunnelAccept] on a new listener *)
| AcceptConn (i : nat)               (* [Accept] returns a connection *)
| AcceptError (i : nat) (temporary : bool)
| AcceptWake (i : nat)               (* the pause is over *)
| Spawn (i : nat)                    (* [tunnelAccepts.Add(1)], [go] *)
| TunnelFailed (j : nat)             (* handshake, ALPN, preface or [h2.New] *)
| Handshaken (j : nat)
| PrefaceRead (j : nat)              (* and [h2.New] *)
| AttachCheck (j : nat)
| Refused (j : nat)                  (* [SendGoAway], [ShutdownWriter] *)
| AttachAdd (j : nat)
| AttachHook (j : nat)               (* OnWorkerAttach, if any, returns *)
| SettingsRead (j : nat)             (* the peer's first SETTINGS *)
| ServeEnds (j : nat)                (* [serveTunnel] returns: not before
                                        [ShutdownWriter], which waits for the writer *)
| DetachRemove (j : nat)
| DetachHook (j : nat)               (* OnWorkerDetach, if any, returns *)
| TunnelDone (j : nat)               (* [tunnelAccepts.Done()] *)
| ShutClose                          (* [close(p.shutdownCh)], the first time *)
| ShutListener                       (* [p.tunnelListener], its [Close] *)
| ShutPoke                           (* the snapshot, its read deadlines *)
| ConnBlocked (j : nat)              (* the peer stops reading, a [Write] blocks *)
| ConnUnblocked (j : nat).           (* it reads again, or the connection breaks *)

(** The accept loop of [runTunnelAccept]. *)
Definition loop_step (y : Sys) (a : SysAction) : option Sys :=
  match a with
  | ServeListener =>
      Some (mkSys (y_proxy y) (Some (length (y_loops y))) (y_loops y ++ [LAccepting]) (y_closed y) (y_accepts y)
              (y_tunnels y) (y_shut y) (y_poked y) (y_blocked y))
  | AcceptConn i =>
      match y_loops y !! i with
      | Some LAccepting => if bool_decide (i ∈ y_closed y) then None else Some (set_loop y i LGot)
      | _ => None
      end
  | AcceptError i temporary =>
      match y_loops y !! i with
      | Some LAccepting =>
          if p_shutdown (y_proxy y) then Some (endLoop y i false)
          else if temporary then Some (set_loop y i LSleeping) else Some (endLoop y i true)
      | _ => None
      end
  | AcceptWake i => match y_loops y !! i with Some LSleeping => Some (set_loop y i LAccepting) | _ => None end
  | Spawn i =>
      match y_loops y !! i with
      | Some LGot =>
          let y := set_loop y i LAccepting in
          Some (mkSys (y_proxy y) (y_listener y) (y_loops y) (y_closed y) (y_accepts y + 1)
                  (y_tunnels y ++ [THandshake]) (y_shut y) (y_poked y) (y_blocked y))
      | _ => None
      end
  | _ => None
  end.

(** [acceptTunnel] and the goroutine around it. *)
Definition tunnel_step (y : Sys) (a : SysAction) : option Sys :=
  match a with
  | TunnelFailed j =>
      match y_tunnels y !! j with
      | Some THandshake | Some TPreface => Some (set_tunnel y (y_proxy y) 0 j TLeaving)
      | _ => None
      end
  | Handshaken j =>
      match y_tunnels y !! j with Some THandshake => Some (set_tunnel y (y_proxy y) 0 j TPreface) | _ => None end
  | PrefaceRead j =>
      match y_tunnels y !! j with Some TPreface => Some (set_tunnel y (y_proxy y) 0 j TAttach) | _ => None end
  | AttachCheck j =>
      match y_tunnels y !! j with
      | Some TAttach => Some (set_tunnel y (y_proxy y) 0 j (if p_shutdown (y_proxy y) then TRefused else TChecked))
      | _ => None
      end
  | Refused j =>
      match y_tunnels y !! j with
      | Some TRefused => if bool_decide (j ∈ y_blocked y) then None else Some (set_tunnel y (y_proxy y) 0 j TLeaving)
      | _ => None
      end
  | AttachAdd j =>
      match y_tunnels y !! j with
      | Some TChecked => Some (set_tunnel y (enlist (y_proxy y) j) 0 j TListed)
      | _ => None
      end
  | AttachHook j =>
      match y_tunnels y !! j with
      | Some TListed => Some (set_tunnel y (hooked (y_proxy y) (HAttach j)) 0 j TSettings)
      | _ => None
      end
  | SettingsRead j =>
      match y_tunnels y !! j with Some TSettings => Some (set_tunnel y (y_proxy y) 0 j TServing) | _ => None end
  | ServeEnds j =>
      match y_tunnels y !! j with
      | Some TSettings | Some TServing =>
          if bool_decide (j ∈ y_blocked y) then None else Some (set_tunnel y (y_proxy y) 0 j TDetaching)
      | _ => None
      end
  | DetachRemove j =>
      match y_tunnels y !! j with
      | Some TDetaching =>
          let '(p, present) := unlist (y_proxy y) j in
          Some (set_tunnel y p 0 j (if present then TUnlisted else TLeaving))
      | _ => None
      end
  | DetachHook j =>
      match y_tunnels y !! j with
      | Some TUnlisted => Some (set_tunnel y (hooked (y_proxy y) (HDetach j)) 0 j TLeaving)
      | _ => None
      end
  | TunnelDone j =>
      match y_tunnels y !! j with
      | Some TLeaving => Some (set_tunnel y (y_proxy y) (-1) j TGone)
      | _ => None
      end
  | _ => None
  end.

(** [Shutdown]'s [Once]. *)
Definition shut_step (y : Sys) (a : SysAction) : option Sys :=
  match a with
  | ShutClose =>
      match y_shut y with
      | ShIdle => Some (mkSys (shutdown (y_proxy y)) (y_listener y) (y_loops y) (y_closed y) (y_accepts y) (y_tunnels y) ShClosing (y_poked y) (y_blocked y))
      | _ => None
      end
  | ShutListener =>
      match y_shut y with
      | ShClosing =>
          let closed := match y_listener y with Some i => y_closed y ∪ {[i]} | None => y_closed y end in
          Some (mkSys (y_proxy y) (y_listener y) (y_loops y) closed (y_accepts y) (y_tunnels y) ShPoking (y_poked y) (y_blocked y))
      | _ => None
      end
  | ShutPoke =>
      match y_shut y with
      | ShPoking => Some (mkSys (y_proxy y) (y_listener y) (y_loops y) (y_closed y) (y_accepts y) (y_tunnels y) ShDone (p_workers (y_proxy y)) (y_blocked y))
      | _ => None
      end
  | _ => None
  end.

(** The peer's part. *)
Definition peer_step (y : Sys) (a : SysAction) : option Sys :=
  match a with
  | ConnBlocked j =>
      match y_tunnels y !! j with
      | Some ph => if has_writer ph then Some (set_blocked y (y_blocked y ∪ {[j]})) else None
      | None => None
      end
  | ConnUnblocked j => Some (set_blocked y (y_blocked y ∖ {[j]}))
  | _ => None
  end.

Definition sys_step (y : Sys) (a : SysAction) : option Sys :=
  match a with
  | ServeListener | AcceptConn _ | AcceptError _ _ | AcceptWake _ | Spawn _ => loop_step y a
  | ShutClose | ShutListener | ShutPoke => shut_step y a
  | ConnBlocked _ | ConnUnblocked _ => peer_step y a
  | _ => tunnel_step y a
  end.

Definition sys_rel (y : Sys) (a : SysAction) (y' : Sys) : Prop := sys_step y a = Some y'.

(** [Shutdown] returns nil. *)
Definition shutdownReturns (y : Sys) : bool :=
  match y_shut y with ShDone => y_accepts y =? 0 | _ => false end.

(** The steps that need nothing from the peer or the caller's hooks: [Accept]
    returns once its listener is closed; the TLS handshake has ten seconds;
    reading the preface has no deadline, the wait for SETTINGS none but the one
    Shutdown sets; the serve loop looks at [shutdownCh] before each read and
    arms a deadline for it. *)
Definition local (y : Sys) (a : SysAction) : bool :=
  match a with
  | AcceptError i _ => bool_decide (i ∈ y_closed y)
  | AcceptWake _ | Spawn _ | AttachCheck _ | Refused _ | AttachAdd _ | DetachRemove _ | TunnelDone _ => true
  | ShutClose | ShutListener | ShutPoke => true
  | TunnelFailed j => bool_decide (y_tunnels y !! j = Some THandshake)
  | ServeEnds j =>
      match y_tunnels y !! j with
      | Some TSettings => bool_decide (j ∈ y_poked y)
      | Some TServing => p_shutdown (y_proxy y)
      | _ => false
      end
  | ServeListener | AcceptConn _ | Handshaken _ | PrefaceRead _ | AttachHook _ | SettingsRead _ | DetachHook _
  | ConnBlocked _ | ConnUnblocked _ => false
  end.

(** The goroutines' own steps. *)
Definition progress (a : SysAction) : bool := match a with ConnBlocked _ | ConnUnblocked _ => false | _ => true end.

(** [attach] and [detach] are these parts with nothing between. *)
Lemma attach_parts p w :
  attach p w = if p_shutdown p then (p, Some ErrShuttingDown) else (hooked (enlist p w) (HAttach w), None).
Proof. done. Qed.

Lemma detach_parts p w :
  detach p w = let '(p', present) := unlist p w in if present then hooked p' (HDetach w) else p'.
Proof. unfold detach, unlist. destruct (remove_first w (p_workers p)) as [ws b]. by destruct b. Qed.

(** ** The invariant *)

Definition live (ph : TunnelPhase) : Z := match ph with TGone => 0 | _ => 1 end.

(** From the append to the removal. *)
Definition listed (ph : TunnelPhase) : bool :=
  match ph with TListed | TSettings | TServing | TDetaching => true | _ => false end.

(** The hooks called for a Worker whose goroutine is at [ph]. *)
Definition hooks_at (w : nat) (ph : option TunnelPhase) (l : list HookEv) : Prop :=
  match ph with
  | Some TSettings | Some TServing | Some TDetaching | Some TUnlisted => l = [HAttach w]
  | Some TLeaving | Some TGone => l = [] \/ l = [HAttach w; HDetach w]
  | _ => l = []
  end.

(** What is known of connection [w]'s Worker when its goroutine is at [ph]. *)
Definition worker_ok (p : ProxyState) (w : nat) (ph : option TunnelPhase) : Prop :=
  ((w ∈ p_workers p) <-> listed <$> ph = Some true) /\ hooks_at w ph (hooks_of w (p_hooks p)).

Record sys_inv (y : Sys) : Prop := {
  yi_accepts : y_accepts y = zsum live (y_tunnels y);
  yi_nodup : NoDup (p_workers (y_proxy y));
  yi_workers w : worker_ok (y_proxy y) w (y_tunnels y !! w);
  yi_shut : p_shutdown (y_proxy y) = true <-> y_shut y <> ShIdle
}.

Lemma sys_init_inv : sys_inv sys_init.
Proof.
  split; cbn; [done|constructor| |done]. intros w. split; [|done]. split; [by intros ?%elem_of_nil|done].
Qed.

(** [w]'s entry and hooks are as before. *)
Definition same_worker (p p' : ProxyState) (w : nat) : Prop :=
  (w ∈ p_workers p' <-> w ∈ p_workers p) /\ hooks_of w (p_hooks p') = hooks_of w (p_hooks p).

Lemma worker_ok_same p p' w ph : same_worker p p' w -> worker_ok p w ph -> worker_ok p' w ph.
Proof. unfold same_worker, worker_ok. intros [E1 E2]. rewrite E1, E2. done. Qed.

(** One goroutine moves. *)
Lemma set_tunnel_inv y p d j ph ph' :
  sys_inv y -> y_tunnels y !! j = Some ph -> d = live ph' - live ph -> NoDup (p_workers p) ->
  (forall w, w <> j -> same_worker (y_proxy y) p w) -> worker_ok p j (Some ph') ->
  p_shutdown p = p_shutdown (y_proxy y) -> sys_inv (set_tunnel y p d j ph').
Proof.
  intros [H1 H2 H3 H4] Hj -> Hnd Ho Hw Hs.
  split; cbn [set_tunnel y_accepts y_tunnels y_proxy y_shut]; [|done| |by rewrite Hs].
  - rewrite (zsum_insert _ _ _ _ _ Hj). lia.
  - intros w. destruct (decide (w = j)) as [->|Hne].
    + by rewrite list_lookup_insert_eq by (by eapply lookup_lt_Some).
    + rewrite list_lookup_insert_ne by done. eapply worker_ok_same; [by apply Ho|apply H3].
Qed.

Lemma same_worker_refl p w : same_worker p p w.
Proof. by split. Qed.

Lemma enlist_other p j w : w <> j -> same_worker p (enlist p j) w.
Proof.
  intros Hne. split; [|done]. cbn [enlist p_workers].
  rewrite elem_of_app, list_elem_of_singleton. split; [by intros [?|?]|by left].
Qed.

Lemma hooked_other p h w : h <> HAttach w -> h <> HDetach w -> same_worker p (hooked p h) w.
Proof.
  intros H1 H2. split; [done|]. cbn [hooked p_hooks]. rewrite hooks_of_app, hooks_of_one, decide_False by (by intros [?|?]).
  apply app_nil_r.
Qed.

Lemma unlist_spec p j : NoDup (p_workers p) ->
  unlist p j = (mkProxy (filter (fun x => x <> j) (p_workers p)) (p_shutdown p) (p_hooks p), bool_decide (j ∈ p_workers p)).
Proof.
  intros Hnd. unfold unlist. destruct (remove_first_spec j (p_workers p) Hnd) as [E1 E2].
  destruct (remove_first j (p_workers p)) as [ws b]. cbn in E1, E2. by subst.
Qed.

(** A Worker's goroutine moves on without changing the proxy. *)
Lemma worker_moves p j ph ph' :
  worker_ok p j (Some ph) -> listed ph' = listed ph ->
  (forall l, hooks_at j (Some ph) l -> hooks_at j (Some ph') l) -> worker_ok p j (Some ph').
Proof. intros [H1 H2] Hl Hh. split; [|by apply Hh]. rewrite H1. cbn. by rewrite Hl. Qed.

Lemma enlist_ok p j : worker_ok p j (Some TChecked) -> NoDup (p_workers p) ->
  worker_ok (enlist p j) j (Some TListed) /\ NoDup (p_workers (enlist p j)).
Proof.
  intros [Hin Hh] Hnd. assert (Hj : j ∉ p_workers p) by (by intros ?%Hin). split; [split; [|done]|].
  - cbn [enlist p_workers]. rewrite elem_of_app, list_elem_of_singleton. split; [done|by right].
  - cbn [enlist p_workers]. apply NoDup_app. split_and!; [done| |apply NoDup_singleton]. by intros x Hx ->%list_elem_of_singleton.
Qed.

(** A hook's call is recorded for its Worker. *)
Lemma hooked_ok p h j ph ph' :
  worker_ok p j (Some ph) -> h = HAttach j \/ h = HDetach j -> listed ph' = listed ph ->
  (forall l, hooks_at j (Some ph) l -> hooks_at j (Some ph') (l ++ [h])) -> worker_ok (hooked p h) j (Some ph').
Proof.
  intros [H1 H2] Hj Hl Hh. split; cbn [hooked p_workers p_hooks].
  - rewrite H1. cbn. by rewrite Hl.
  - rewrite hooks_of_app, hooks_of_one, decide_True by done. by apply Hh.
Qed.

Lemma unlist_ok p j p' b : unlist p j = (p', b) -> worker_ok p j (Some TDetaching) -> NoDup (p_workers p) ->
  b = true /\ worker_ok p' j (Some TUnlisted) /\ NoDup (p_workers p') /\ p_shutdown p' = p_shutdown p /\
  (forall w, w <> j -> same_worker p p' w).
Proof.
  intros Hu [Hin Hh] Hnd. rewrite unlist_spec in Hu by done. injection Hu as <- <-.
  rewrite bool_decide_eq_true_2 by by apply Hin. split_and!; [done| |by apply NoDup_filter|done|].
  - split; [|done]. cbn [p_workers]. rewrite list_elem_of_filter. split; [by intros [? _]|done].
  - intros w Hne. split; [|done]. cbn [p_workers]. rewrite list_elem_of_filter. tauto.
Qed.

(** The goroutines' steps. *)
Lemma tunnel_step_inv y a y' : sys_inv y -> tunnel_step y a = Some y' -> sys_inv y'.
Proof.
  intros H Hs. pose proof H as [H1 H2 H3 H4]. destruct a as [| | | | |j|j|j|j|j|j|j|j|j|j|j|j| | | | |]; try done; cbn in Hs;
    (destruct (y_tunnels y !! j) as [ph|] eqn:Hj; [|done]; pose proof (H3 j) as Hw; rewrite Hj in Hw; destruct ph; try done);
    try (destruct (bool_decide _); [done|]); try (injection Hs as <-).
  all: try (eapply set_tunnel_inv; [done..| |done]; eapply worker_moves; [exact Hw|done|by intros l; cbn; auto]).
  - eapply set_tunnel_inv; try done; [by destruct (p_shutdown _)|].
    destruct (p_shutdown _); (eapply worker_moves; [exact Hw|done|by cbn]).
  - destruct (enlist_ok _ _ Hw H2). eapply set_tunnel_inv; try done. intros w Hne. by apply enlist_other.
  - eapply set_tunnel_inv; try done; [intros w Hne; apply hooked_other; congruence|].
    eapply hooked_ok; [exact Hw|auto|done|by intros l; cbn; intros ->].
  - destruct (unlist (y_proxy y) j) as [p b] eqn:Hu. injection Hs as <-.
    destruct (unlist_ok _ _ _ _ Hu Hw H2) as (-> & ? & ? & ? & ?). by eapply set_tunnel_inv.
  - eapply set_tunnel_inv; try done; [intros w Hne; apply hooked_other; congruence|].
    eapply hooked_ok; [exact Hw|auto|done|by intros l; cbn; intros ->; right].
Qed.

Lemma loop_step_inv y a y' : sys_inv y -> loop_step y a = Some y' -> sys_inv y'.
Proof.
  intros H Hs. pose proof H as [H1 H2 H3 H4]. destruct a as [|i|i tmp|i|i| | | | | | | | | | | | | | | | |]; try done; cbn in Hs;
    try (destruct (y_loops y !! i) as [l|] eqn:Hi; [|done]; destruct l; try done).
  - injection Hs as <-. by split.
  - case_bool_decide; [done|]. injection Hs as <-. by split.
  - destruct (p_shutdown (y_proxy y)) eqn:Hsh; [|destruct tmp]; injection Hs as <-; split; cbn; by rewrite ?Hsh.
  - injection Hs as <-. by split.
  - injection Hs as <-. split; cbn [y_accepts y_tunnels y_proxy y_shut set_loop]; [|done| |done].
    + rewrite zsum_app, zsum_cons, zsum_nil. cbn [live]. lia.
    + intros w. specialize (H3 w). destruct (decide (w < length (y_tunnels y))%nat) as [Hlt|Hge].
      * by rewrite lookup_app_l.
      * rewrite lookup_ge_None_2 in H3 by lia. destruct (decide (w = length (y_tunnels y))) as [->|Hne].
        -- rewrite lookup_app_r, Nat.sub_diag by done. destruct H3 as [Hin Hh].
           split; [|exact Hh]. rewrite Hin. by split.
        -- by rewrite lookup_ge_None_2 by (rewrite length_app; simpl; lia).
Qed.

Lemma sys_step_inv y a y' : sys_inv y -> sys_rel y a y' -> sys_inv y'.
Proof.
  unfold sys_rel. intros H Hs.
  assert (Hc : loop_step y a = Some y' \/ tunnel_step y a = Some y' \/ shut_step y a = Some y' \/ peer_step y a = Some y')
    by (destruct a; auto). clear Hs. destruct Hc as [Hs|[Hs|[Hs|Hs]]]; [by eapply loop_step_inv|by eapply tunnel_step_inv|..];
    destruct H as [H1 H2 H3 H4]; destruct a as [| | | | | | | | | | | | | | | | | | | |j|j]; try done; cbn in Hs.
  - destruct (y_shut y) eqn:Hsh; [|done..]. injection Hs as <-. by split.
  - destruct (y_shut y) eqn:Hsh; try done. injection Hs as <-. split; cbn; try done. rewrite H4. by split.
  - destruct (y_shut y) eqn:Hsh; try done. injection Hs as <-. split; cbn; try done. rewrite H4. by split.
  - destruct (y_tunnels y !! j) as [ph|]; [|done]. destruct (has_writer ph); [|done]. injection Hs as <-. by split.
  - injection Hs as <-. by split.
Qed.

(** The states a run can reach. *)
Definition reachable (y : Sys) : Prop := exists acts, steps sys_rel sys_init acts y.

Lemma sys_reachable_inv y : reachable y -> sys_inv y.
Proof. intros (acts & H). exact (steps_inv sys_rel sys_inv sys_step_inv _ _ _ H sys_init_inv). Qed.

Lemma live_nonneg phs : 0 <= zsum live phs.
Proof. apply zsum_nonneg. intros ph _. by destruct ph. Qed.

(** What is left when the WaitGroup is at zero. *)
Lemma all_gone y : sys_inv y -> y_accepts y = 0 ->
  Forall (fun ph => ph = TGone) (y_tunnels y) /\ p_workers (y_proxy y) = [].
Proof.
  intros [H1 _ H3 _] Hz.
  assert (Hg : Forall (fun ph => ph = TGone) (y_tunnels y)).
  { eapply Forall_impl; [apply (zsum_zero live)|]; [|by rewrite <- H1|]; intros ph; by destruct ph. }
  split; [done|]. destruct (p_workers (y_proxy y)) as [|w ws] eqn:E; [done|]. exfalso.
  destruct (H3 w) as [Hin _]. rewrite E in Hin. pose proof (proj1 Hin (list_elem_of_here _ _)) as Hw.
  apply fmap_Some in Hw as (ph & Hw & Hl). rewrite Forall_lookup in Hg. rewrite (Hg _ _ Hw) in Hl. done.
Qed.

(** C35. The proxy's accounting is exact in every interleaving of accept loops,
    connections, hooks, peers and Shutdown: the tunnelAccepts WaitGroup counts
    the connection goroutines that have not finished (it never goes negative);
    a Worker is in the attached set, once, exactly from [attach]'s append to
    [detach]'s removal; its OnWorkerAttach runs exactly once, after the append
    and before [serveTunnel], its OnWorkerDetach exactly once, after the
    removal and before the goroutine finishes, and neither for a connection
    that was never appended; and when Shutdown returns nil every goroutine
    counted has finished and nothing is attached. *)
Theorem tunnels_accounted y :
  reachable y ->
  y_accepts y = zsum live (y_tunnels y) /\ 0 <= y_accepts y /\ NoDup (p_workers (y_proxy y)) /\
  (forall w, worker_ok (y_proxy y) w (y_tunnels y !! w)) /\
  (shutdownReturns y = true -> Forall (fun ph => ph = TGone) (y_tunnels y) /\ p_workers (y_proxy y) = []).
Proof.
  intros H%sys_reachable_inv. pose proof H as [H1 H2 H3 H4]. split_and!; [done| |done|done|].
  - rewrite H1. apply live_nonneg.
  - unfold shutdownReturns. intros Hs. apply all_gone; [done|]. destruct (y_shut y); try done. bool_prop. done.
Qed.

(** ** After Shutdown *)

(** The running accept loops are those whose listener Shutdown has closed. *)
Definition loops_closed (y : Sys) : Prop :=
  forall i l, y_loops y !! i = Some l -> (exists b, l = LDone b) \/ i ∈ y_closed y.

(** How many more steps a loop, with the goroutine it may start, and a
    connection's goroutine can take. *)
Definition loop_work (l : LoopPhase) : Z := match l with LDone _ => 0 | LAccepting => 1 | LSleeping => 2 | LGot => 13 end.

Definition tunnel_work (ph : TunnelPhase) : Z :=
  match ph with
  | THandshake => 11 | TPreface => 10 | TAttach => 9 | TChecked => 8 | TListed => 7 | TSettings => 6 | TServing => 5
  | TDetaching => 4 | TUnlisted => 3 | TRefused => 2 | TLeaving => 1 | TGone => 0
  end.

Definition shut_work (s : ShutPhase) : Z := match s with ShIdle => 3 | ShClosing => 2 | ShPoking => 1 | ShDone => 0 end.

Definition sys_work (y : Sys) : Z := zsum loop_work (y_loops y) + zsum tunnel_work (y_tunnels y) + shut_work (y_shut y).

Lemma sys_work_nonneg y : 0 <= sys_work y.
Proof.
  unfold sys_work.
  assert (0 <= zsum loop_work (y_loops y)) by (apply zsum_nonneg; intros l _; by destruct l).
  assert (0 <= zsum tunnel_work (y_tunnels y)) by (apply zsum_nonneg; intros ph _; by destruct ph).
  destruct (y_shut y); simpl; lia.
Qed.

Lemma sys_work_bound y :
  sys_work y <= 13 * Z.of_nat (length (y_loops y)) + 11 * Z.of_nat (length (y_tunnels y)) + shut_work (y_shut y).
Proof.
  unfold sys_work.
  assert (zsum loop_work (y_loops y) <= 13 * Z.of_nat (length (y_loops y))) by (apply zsum_le; intros l; by destruct l).
  assert (zsum tunnel_work (y_tunnels y) <= 11 * Z.of_nat (length (y_tunnels y))) by (apply zsum_le; intros ph; by destruct ph).
  lia.
Qed.

Lemma loops_closed_set y i l :
  loops_closed y -> i ∈ y_closed y \/ (exists b, l = LDone b) -> loops_closed (set_loop y i l).
Proof.
  intros H Hl j l'. cbn [set_loop y_loops y_closed]. intros Hj. destruct (decide (j = i)) as [->|Hne].
  - destruct (decide (i < length (y_loops y))%nat).
    + rewrite list_lookup_insert_eq in Hj by done. simplify_eq. tauto.
    + rewrite lookup_ge_None_2 in Hj by (rewrite length_insert; lia). done.
  - rewrite list_lookup_insert_ne in Hj by done. by apply (H j).
Qed.

Lemma loop_step_work y i l l' :
  y_loops y !! i = Some l -> sys_work (set_loop y i l') = sys_work y - loop_work l + loop_work l'.
Proof. intros Hi. unfold sys_work. cbn [set_loop y_loops y_tunnels y_shut]. rewrite (zsum_insert _ _ _ _ _ Hi). lia. Qed.

Lemma tunnel_step_work y p d j ph ph' :
  y_tunnels y !! j = Some ph -> sys_work (set_tunnel y p d j ph') = sys_work y - tunnel_work ph + tunnel_work ph'.
Proof. intros Hj. unfold sys_work. cbn [set_tunnel y_loops y_tunnels y_shut]. rewrite (zsum_insert _ _ _ _ _ Hj). lia. Qed.

(** The system once Shutdown has set its deadlines, with no new listener. *)
Record poked (snapshot : list nat) (y : Sys) : Prop := {
  pk_inv : sys_inv y;
  pk_shut : y_shut y = ShDone;
  pk_poked : y_poked y = snapshot;
  pk_loops : loops_closed y
}.

Lemma poked_shutdown snapshot y : poked snapshot y -> p_shutdown (y_proxy y) = true.
Proof. intros [H Hs _ _]. apply (yi_shut _ H). by rewrite Hs. Qed.

(** A connection's step takes work from it, and nothing else changes. *)
Lemma tunnel_step_frame y a y' : tunnel_step y a = Some y' ->
  sys_work y' < sys_work y /\ y_shut y' = y_shut y /\ y_poked y' = y_poked y /\ y_loops y' = y_loops y /\ y_closed y' = y_closed y.
Proof.
  intros Hs. destruct a as [| | | | |j|j|j|j|j|j|j|j|j|j|j|j| | | | |]; try done; cbn in Hs;
    (destruct (y_tunnels y !! j) as [ph|] eqn:Hj; [|done]; destruct ph; try done);
    try (destruct (bool_decide _); [done|]); try (destruct (unlist _ _) as [p b]); injection Hs as <-;
    (split; [rewrite (tunnel_step_work _ _ _ _ _ _ Hj)|done]); try (destruct (p_shutdown _)); try (destruct b); cbn; lia.
Qed.

Lemma poked_loop_step snapshot y a y' :
  poked snapshot y -> a <> ServeListener -> loop_step y a = Some y' ->
  sys_work y' < sys_work y /\ y_shut y' = y_shut y /\ y_poked y' = y_poked y /\ loops_closed y'.
Proof.
  intros H Ha Hs. pose proof (poked_shutdown _ _ H) as Hsh. pose proof (pk_loops _ _ H) as Hl.
  destruct a as [|i|i tmp|i|i| | | | | | | | | | | | | | | | |]; try done; cbn in Hs;
    (destruct (y_loops y !! i) as [l|] eqn:Hi; [|done]; destruct l; try done).
  - case_bool_decide as Hn; [done|]. destruct (Hl _ _ Hi) as [[b ?]|?]; done.
  - rewrite Hsh in Hs. injection Hs as <-. split_and!; [|done|done|apply (loops_closed_set y i (LDone false)); [done|right; by eexists]].
    pose proof (loop_step_work y i LAccepting (LDone false) Hi) as Hw. unfold endLoop, sys_work in *.
    cbn [y_loops y_tunnels y_shut set_loop] in *. cbn [loop_work] in Hw. lia.
  - injection Hs as <-. split_and!; [rewrite (loop_step_work _ _ _ _ Hi); cbn; lia|done|done|].
    apply loops_closed_set; [done|]. destruct (Hl _ _ Hi) as [[b ?]|?]; [done|by left].
  - injection Hs as <-. split_and!; [|done|done|].
    + pose proof (loop_step_work y i LGot LAccepting Hi) as Hw. unfold sys_work in *.
      cbn [y_loops y_tunnels y_shut set_loop] in *. rewrite zsum_app, zsum_cons, zsum_nil.
      cbn [loop_work] in Hw. cbn [tunnel_work]. lia.
    + apply (loops_closed_set y i LAccepting); [done|]. destruct (Hl _ _ Hi) as [[b ?]|?]; [done|by left].
Qed.

Lemma poked_step snapshot y a y' :
  poked snapshot y -> a <> ServeListener -> sys_rel y a y' ->
  sys_work y' + (if progress a then 1 else 0) <= sys_work y /\ poked snapshot y'.
Proof.
  intros H Ha Hs. pose proof (sys_step_inv _ _ _ (pk_inv _ _ H) Hs) as H'. pose proof H as [_ Hd Hp Hl]. unfold sys_rel in Hs.
  assert (Hc : loop_step y a = Some y' \/ tunnel_step y a = Some y' \/ progress a = false /\ peer_step y a = Some y')
    by (destruct a; auto; cbn in Hs; by rewrite Hd in Hs). clear Hs.
  destruct Hc as [Hs|[Hs|[-> Hs]]].
  - destruct (poked_loop_step _ _ _ _ H Ha Hs) as (? & ? & ? & ?). split; [destruct (progress a); lia|split; [done|congruence..|done]].
  - destruct (tunnel_step_frame _ _ _ Hs) as (? & ? & ? & E1 & E2). split; [destruct (progress a); lia|split; [done|congruence..|]].
    unfold loops_closed. by rewrite E1, E2.
  - destruct a as [| | | | | | | | | | | | | | | | | | | |j|j]; try done; cbn in Hs;
      [destruct (y_tunnels y !! j) as [ph|]; [|done]; destruct (has_writer ph); [|done]|]; injection Hs as <-;
      (split; [unfold sys_work; cbn -[zsum]; lia|by split]).
Qed.

Definition no_listener (acts : list SysAction) : Prop := Forall (fun a => a <> ServeListener) acts.

Lemma poked_run snapshot y acts y' :
  poked snapshot y -> no_listener acts -> steps sys_rel y acts y' ->
  Z.of_nat (length (filter (fun a => progress a = true) acts)) + sys_work y' <= sys_work y /\ poked snapshot y'.
Proof.
  intros H Hn Hr. revert H Hn. induction Hr as [y|y a y1 acts y2 Ha _ IH]; intros H Hn; [simpl; split; [lia|done]|].
  apply Forall_cons in Hn as [Hne Hn]. destruct (poked_step _ _ _ _ H Hne Ha) as [Hw H1].
  destruct (IH H1 Hn) as [Hb H2]. split; [|done].
  rewrite filter_cons. destruct (progress a); [rewrite decide_True by done|rewrite decide_False by done]; cbn [length]; lia.
Qed.

(** Something the goroutine of connection [j], or accept loop [i], can do by
    itself. *)
Definition tunnel_moves (y : Sys) (j : nat) : Prop :=
  exists a y', a ∈ [TunnelFailed j; AttachCheck j; Refused j; AttachAdd j; ServeEnds j; DetachRemove j; TunnelDone j] /\
    local y a = true /\ sys_rel y a y'.

Definition loop_moves (y : Sys) (i : nat) : Prop :=
  exists a y', a ∈ [AcceptError i false; AcceptWake i; Spawn i] /\ local y a = true /\ sys_rel y a y'.

(** What a connection's goroutine can be left waiting for after Shutdown: the
    peer's preface (or the write of [h2.New]), one of the caller's hooks, the
    peer's SETTINGS when its Worker is not in [snapshot], or the writer, when
    the peer does not read. *)
Definition tunnel_waits (snapshot : list nat) (y : Sys) (j : nat) (ph : TunnelPhase) : Prop :=
  match ph with
  | TPreface | TListed | TUnlisted => True
  | TSettings => j ∉ snapshot \/ j ∈ y_blocked y
  | TServing | TRefused => j ∈ y_blocked y
  | _ => False
  end.

Lemma tunnel_progress snapshot y j ph :
  poked snapshot y -> y_tunnels y !! j = Some ph -> ph <> TGone -> tunnel_moves y j \/ tunnel_waits snapshot y j ph.
Proof.
  intros H Hj Hne. pose proof (poked_shutdown _ _ H) as Hsh. unfold tunnel_moves.
  assert (Hmv : forall a y', a ∈ [TunnelFailed j; AttachCheck j; Refused j; AttachAdd j; ServeEnds j; DetachRemove j; TunnelDone j] ->
    local y a = true -> sys_rel y a y' -> tunnel_moves y j) by (intros a y' ? ? ?; by exists a, y').
  destruct ph; try done; try (by right).
  - left. eapply (Hmv (TunnelFailed j)); [set_solver|cbn; by apply bool_decide_eq_true|unfold sys_rel; cbn; by rewrite Hj].
  - left. eapply (Hmv (AttachCheck j)); [set_solver|done|unfold sys_rel; cbn; by rewrite Hj].
  - destruct (decide (j ∈ y_blocked y)); [by right|left].
    eapply (Hmv (Refused j)); [set_solver|done|unfold sys_rel; cbn; by rewrite Hj, bool_decide_eq_false_2].
  - left. eapply (Hmv (AttachAdd j)); [set_solver|done|unfold sys_rel; cbn; by rewrite Hj].
  - destruct (decide (j ∈ y_blocked y)); [by right; right|]. destruct (decide (j ∈ snapshot)); [left|by right; left].
    eapply (Hmv (ServeEnds j)); [set_solver| |unfold sys_rel; cbn; by rewrite Hj, bool_decide_eq_false_2].
    cbn. rewrite Hj, (pk_poked _ _ H). by apply bool_decide_eq_true.
  - destruct (decide (j ∈ y_blocked y)); [by right|left].
    eapply (Hmv (ServeEnds j)); [set_solver|cbn; by rewrite Hj|unfold sys_rel; cbn; by rewrite Hj, bool_decide_eq_false_2].
  - left. destruct (unlist (y_proxy y) j) as [p b] eqn:E.
    eapply (Hmv (DetachRemove j)); [set_solver|done|unfold sys_rel; cbn; by rewrite Hj, E].
  - left. eapply (Hmv (TunnelDone j)); [set_solver|done|unfold sys_rel; cbn; by rewrite Hj].
Qed.

Lemma loop_progress snapshot y i l :
  poked snapshot y -> y_loops y !! i = Some l -> (exists b, l = LDone b) \/ loop_moves y i.
Proof.
  intros H Hi. pose proof (poked_shutdown _ _ H) as Hsh. destruct (pk_loops _ _ H _ _ Hi) as [?|Hc]; [by left|].
  destruct l as [| | |b]; [right..|left; by exists b].
  - exists (AcceptError i false). eexists. split_and!; [set_solver|cbn; by apply bool_decide_eq_true|].
    unfold sys_rel. cbn. by rewrite Hi, Hsh.
  - exists (Spawn i). eexists. split_and!; [set_solver|done|]. unfold sys_rel. cbn. by rewrite Hi.
  - exists (AcceptWake i). eexists. split_and!; [set_solver|done|]. unfold sys_rel. cbn. by rewrite Hi.
Qed.

(** Shutdown waits only for the connections' goroutines. *)
Lemma tunnel_left snapshot y : poked snapshot y -> shutdownReturns y = false -> exists j ph, y_tunnels y !! j = Some ph /\ ph <> TGone.
Proof.
  intros [H Hd _ _] Hn. unfold shutdownReturns in Hn. rewrite Hd in Hn. apply Z.eqb_neq in Hn.
  destruct (decide (Forall (fun ph => ph = TGone) (y_tunnels y))) as [Hf|Hf].
  - exfalso. apply Hn. rewrite (yi_accepts _ H). clear -Hf. induction Hf as [|ph l -> _ IH]; [done|]. by rewrite zsum_cons, IH.
  - apply not_Forall_Exists, Exists_exists in Hf as (ph & Hin & Hx); [|apply _].
    apply list_elem_of_lookup in Hin as [j Hj]. by exists j, ph.
Qed.

(** What Shutdown's nil means. *)
Lemma returned_clean y : sys_inv y -> shutdownReturns y = true ->
  Forall (fun ph => ph = TGone) (y_tunnels y) /\ p_workers (y_proxy y) = [] /\
  forall w, hooks_of w (p_hooks (y_proxy y)) = [] \/ hooks_of w (p_hooks (y_proxy y)) = [HAttach w; HDetach w].
Proof.
  intros H Hr. destruct (all_gone y H) as [Hg Hw]; [unfold shutdownReturns in Hr; destruct (y_shut y); try done; by apply Z.eqb_eq|].
  split_and!; [done|done|]. intros w. destruct (yi_workers _ H w) as [_ Hh]. destruct (y_tunnels y !! w) as [ph|] eqn:E; [|by left].
  rewrite Forall_lookup in Hg. by rewrite (Hg _ _ E) in Hh.
Qed.

(** C36. Shutdown drains the proxy as far as its deadlines reach: from where it
    takes its snapshot of the Workers and sets their read deadlines, the
    running accept loops being those whose listener it has closed and none
    being added, at most thirteen steps per loop and eleven per connection are
    left (not counting the peers' pausing and resuming to read); every accept
    loop left has a step of its own; every connection's goroutine left has
    one, needing nothing from the peer or the caller, unless it is reading the
    preface, in one of the caller's hooks, awaiting SETTINGS on a Worker
    attached after the snapshot, or held by a peer that does not read; if no
    connection's goroutine is left Shutdown returns nil, and where it does
    every one has finished, nothing is attached, and every Worker that was
    ever attached has been detached. *)
Theorem proxy_shutdown_drains y y1 acts y' :
  reachable y -> sys_rel y ShutPoke y1 -> loops_closed y -> no_listener acts -> steps sys_rel y1 acts y' ->
  Z.of_nat (length (filter (fun a => progress a = true) acts)) <=
    13 * Z.of_nat (length (y_loops y)) + 11 * Z.of_nat (length (y_tunnels y)) /\
  (forall i l, y_loops y' !! i = Some l -> (exists b, l = LDone b) \/ loop_moves y' i) /\
  (forall j ph, y_tunnels y' !! j = Some ph -> ph <> TGone ->
    tunnel_moves y' j \/ tunnel_waits (p_workers (y_proxy y)) y' j ph) /\
  (shutdownReturns y' = false -> exists j ph, y_tunnels y' !! j = Some ph /\ ph <> TGone) /\
  (shutdownReturns y' = true -> Forall (fun ph => ph = TGone) (y_tunnels y') /\ p_workers (y_proxy y') = [] /\
    forall w, hooks_of w (p_hooks (y_proxy y')) = [] \/ hooks_of w (p_hooks (y_proxy y')) = [HAttach w; HDetach w]).
Proof.
  intros H%sys_reachable_inv Hpoke Hl Hn Hr. pose proof (sys_step_inv _ _ _ H Hpoke) as H1.
  unfold sys_rel in Hpoke. cbn in Hpoke. destruct (y_shut y); try done.
  assert (Hp1 : poked (p_workers (y_proxy y)) y1) by (injection Hpoke as <-; by split).
  destruct (poked_run _ _ _ _ Hp1 Hn Hr) as [Hb Hp]. split_and!.
  - pose proof (sys_work_nonneg y'). pose proof (sys_work_bound y1). injection Hpoke as <-. cbn in *. lia.
  - intros i l. by apply (loop_progress _ _ _ _ Hp).
  - intros j ph. by apply tunnel_progress.
  - by eapply tunnel_left.
  - apply returned_clean, (pk_inv _ _ Hp).
Qed.

(** A peer that completes TLS and sends less than the preface has its
    goroutine, whatever Shutdown has done, without a step of its own. *)
Theorem silent_worker_holds_goroutine y j : y_tunnels y !! j = Some TPreface -> ~ tunnel_moves y j.
Proof.
  intros Hj (a & y' & Ha & Hl & Hs). unfold sys_rel in Hs.
  repeat (apply elem_of_cons in Ha as [->|Ha]; [cbn in Hs, Hl; rewrite ?Hj in Hs; try done; by rewrite Hj in Hl|]).
  by apply elem_of_nil in Ha.
Qed.

(** ** Construction *)

(** The listener always offers h2, keeps what the caller configured in its
    order, and asking twice changes nothing. *)
Theorem clone_offers_h2 protos :
  ("h2"%string ∈ cloneAndEnsureH2 protos) /\ protos `prefix_of` cloneAndEnsureH2 protos /\
  cloneAndEnsureH2 (cloneAndEnsureH2 protos) = cloneAndEnsureH2 protos.
Proof.
  assert (Hin : "h2"%string ∈ cloneAndEnsureH2 protos).
  { unfold cloneAndEnsureH2. case_bool_decide; [done|]. apply elem_of_app. right. by left. }
  split_and!; [done| |].
  - unfold cloneAndEnsureH2. case_bool_decide; [done|]. by eexists.
  - unfold cloneAndEnsureH2 at 1. by rewrite bool_decide_eq_true_2.
Qed.

(** ** What Shutdown misses *)

(** [attach] checks [shutdownCh] before it takes the lock: a worker can enter
    the set after Shutdown's snapshot, and its tunnel is then not woken. *)
Definition late_attach : list SysAction :=
  [ServeListener; AcceptConn 0; Spawn 0; Handshaken 0; PrefaceRead 0; AttachCheck 0; ShutClose; ShutListener; ShutPoke;
   AttachAdd 0; AttachHook 0].

(** Only the last listener is remembered: the first one's loop still accepts
    when Shutdown is over. *)
Definition two_listeners : list SysAction := [ServeListener; ServeListener; ShutClose; ShutListener; ShutPoke].

(** A connection returned by Accept is counted only when its goroutine is
    started: Shutdown may have returned by then. *)
Definition late_spawn : list SysAction := [ServeListener; AcceptConn 0; ShutClose; ShutListener; ShutPoke].

Definition run_sys (y : Sys) (acts : list SysAction) : option Sys := foldl (fun y a => y ← y; sys_step y a) (Some y) acts.

Lemma run_sys_steps y acts y' : run_sys y acts = Some y' -> steps sys_rel y acts y'.
Proof.
  unfold run_sys. revert y. induction acts as [|a acts IH]; intros y; cbn [foldl]; [intros [= ->]; constructor|].
  cbn. destruct (sys_step y a) as [y1|] eqn:E; [intros H; eapply steps_cons; [exact E|by apply IH]|].
  assert (Hn : forall l, foldl (fun y a => y ← y; sys_step y a) None l = None) by (intros l; by induction l).
  by rewrite Hn.
Qed.

Lemma sys_run_reachable acts y : run_sys sys_init acts = Some y -> reachable y.
Proof. intros H. exists acts. by apply run_sys_steps. Qed.

(** Its goroutine then awaits SETTINGS with no step of its own. *)
Theorem late_attach_is_not_poked :
  exists y, reachable y /\ y_shut y = ShDone /\ p_workers (y_proxy y) = [0%nat] /\ y_poked y = [] /\ ~ tunnel_moves y 0.
Proof.
  exists (mkSys (mkProxy [0%nat] true [HAttach 0]) (Some 0%nat) [LAccepting] {[0%nat]} 1 [TSettings] ShDone [] ∅).
  split; [apply (sys_run_reachable late_attach); reflexivity|]. split_and!; [reflexivity..|].
  intros (a & y' & Ha & Hl & Hs). unfold sys_rel in Hs.
  repeat (apply elem_of_cons in Ha as [->|Ha]; [by cbn in Hs, Hl|]). by apply elem_of_nil in Ha.
Qed.

(** A Worker is listed, for any selector to pick, before its OnWorkerAttach,
    in which ProxyOptions suggests to gate workers, has run. *)
Theorem listed_before_its_hook :
  exists y, reachable y /\ p_workers (y_proxy y) = [0%nat] /\ p_hooks (y_proxy y) = [].
Proof.
  exists (mkSys (mkProxy [0%nat] false []) (Some 0%nat) [LAccepting] ∅ 1 [TListed] ShIdle [] ∅).
  split; [|split; reflexivity].
  apply (sys_run_reachable [ServeListener; AcceptConn 0; Spawn 0; Handshaken 0; PrefaceRead 0; AttachCheck 0; AttachAdd 0]).
  reflexivity.
Qed.

Definition after_two : Sys := mkSys (mkProxy [] true []) (Some 1%nat) [LAccepting; LAccepting] {[1%nat]} 0 [] ShDone [] ∅.

Theorem first_listener_survives_shutdown :
  reachable after_two /\ shutdownReturns after_two = true /\ is_Some (sys_step after_two (AcceptConn 0)).
Proof.
  split; [apply (sys_run_reachable two_listeners); reflexivity|]. split; [reflexivity|]. eexists. reflexivity.
Qed.

Definition before_spawn : Sys := mkSys (mkProxy [] true []) (Some 0%nat) [LGot] {[0%nat]} 0 [] ShDone [] ∅.

Theorem shutdown_returns_before_spawn :
  reachable before_spawn /\ shutdownReturns before_spawn = true /\
  y_accepts <$> sys_step before_spawn (Spawn 0) = Some 1.
Proof. split; [apply (sys_run_reachable late_spawn); reflexivity|]. split; reflexivity. Qed.

(** ** A run *)

Module AcceptDemo.

(** One worker is attached and awaits SETTINGS, another is still in its TLS
    handshake. *)
Definition setup : list SysAction :=
  [ServeListener; AcceptConn 0; Spawn 0; AcceptConn 0; Spawn 0; Handshaken 0; PrefaceRead 0; AttachCheck 0; AttachAdd 0;
   AttachHook 0; AcceptError 0 true; AcceptWake 0; ShutClose; ShutListener].

Definition at_shutdown : Sys :=
  mkSys (mkProxy [0%nat] true [HAttach 0]) (Some 0%nat) [LAccepting] {[0%nat]} 2 [TSettings; THandshake] ShPoking [] ∅.

Lemma at_shutdown_reachable : reachable at_shutdown.
Proof. exists setup. apply run_sys_steps. reflexivity. Defined.

Lemma tunnels_accounted_witness : y_accepts at_shutdown = zsum live [TSettings; THandshake].
Proof. exact (proj1 (tunnels_accounted at_shutdown at_shutdown_reachable)). Defined.

Definition after_poke : Sys :=
  mkSys (mkProxy [0%nat] true [HAttach 0]) (Some 0%nat) [LAccepting] {[0%nat]} 2 [TSettings; THandshake] ShDone [0%nat] ∅.

Definition ending : list SysAction :=
  [AcceptError 0 false; ServeEnds 0; DetachRemove 0; DetachHook 0; TunnelDone 0; Handshaken 1; PrefaceRead 1; AttachCheck 1;
   ConnBlocked 1; ConnUnblocked 1; Refused 1; TunnelDone 1].

Definition ended : Sys :=
  mkSys (mkProxy [] true [HAttach 0; HDetach 0]) None [LDone false] {[0%nat]} 0 [TGone; TGone] ShDone [0%nat] ∅.

Lemma poke_step : sys_rel at_shutdown ShutPoke after_poke.
Proof. reflexivity. Defined.

Lemma ending_run : steps sys_rel after_poke ending ended.
Proof. apply run_sys_steps. vm_compute. reflexivity. Defined.

(** The deadline gets the first one out of its wait; then all ends. *)
Lemma proxy_shutdown_drains_witness : tunnel_moves after_poke 0 /\ p_workers (y_proxy ended) = [].
Proof.
  assert (Hl : loops_closed at_shutdown).
  { intros [|i] l; cbn; [intros _; right; set_solver|done]. }
  assert (Hn : no_listener ending) by (repeat constructor; discriminate).
  split.
  - destruct (proxy_shutdown_drains at_shutdown after_poke [] after_poke at_shutdown_reachable poke_step Hl ltac:(constructor)
      ltac:(constructor)) as (_ & _ & H & _).
    destruct (H 0%nat TSettings eq_refl ltac:(discriminate)) as [Hm|Hw]; [exact Hm|].
    exfalso. cbn [tunnel_waits] in Hw. destruct Hw as [Hw|Hw]; [apply Hw; by left|by apply not_elem_of_empty in Hw].
  - destruct (proxy_shutdown_drains at_shutdown after_poke ending ended at_shutdown_reachable poke_step Hl Hn ending_run)
      as (_ & _ & _ & _ & H). destruct (H eq_refl) as (_ & Hw & _). exact Hw.
Defined.

End AcceptDemo.
