(* ===== verification/Listen.v ===== *)
(** * Listeners (internal/proxy/proxy.go, internal/h2/conn.go)

    What the program makes of the errors of package net, the accept loop as
    the sequential function it is ([runTunnelAccept]), which Accept.v's step
    relation is shown to follow in every interleaving, the methods that bind
    a listener, and the public HTTP server. *)

From S2P Require Import Prelude Errors HeaderBlock Conn FrameLoop Tunnel Forward Exchange Proxy Gateway Accept.

Open Scope Z_scope.

(** ** Errors of package net *)

(** An error value with the two optional methods the code asks for: [None]
    where its type does not have the method, otherwise what it returns. *)
Record NetError := mkNetError { ne_error : gerror; ne_timeout : option bool; ne_temporary : option bool }.

Definition isTemporary (err : NetError) : bool :=
  match ne_temporary err with Some b => b | None => false end.

(** A [net.Error] has both methods. *)
Definition IsNetTimeout (err : option NetError) : bool :=
  match err with
  | None => false
  | Some err =>
      match ne_timeout err, ne_temporary err with
      | Some timeout, Some _ => timeout
      | _, _ => false
      end
  end.

(** The branch [serve] and [serveTunnel] take on what [ReadFrame] returned. *)
Definition readOutcome (r : Frame + NetError) : ReadOutcome :=
  match r with
  | inl f => RFrame f
  | inr err => if IsNetTimeout (Some err) then RTimeout else RFail (ne_error err)
  end.

(** A timeout is told from a failure by the methods of the value itself: one
    wrapped in an error without them ends the loop like any other error. *)
Lemma wrapped_timeout_fails e tmp : readOutcome (inr (mkNetError e None tmp)) = RFail e.
Proof. done. Qed.

(** ** The accept loop *)

Section AcceptLoop.

Context {C : Type}.

(** One [ln.Accept()]: what it returns, and whether [shutdownCh] is closed by
    then. *)
Record AcceptTurn := mkAcceptTurn { at_shutdown : bool; at_result : C + NetError }.

(** The connections handed to goroutines, and what the function returns;
    [None]: it is still in [Accept]. *)
Fixpoint runTunnelAccept (ts : list AcceptTurn) : list C * option (option gerror) :=
  match ts with
  | [] => ([], None)
  | t :: ts =>
      match at_result t with
      | inr err =>
          if at_shutdown t then ([], Some None)
          else if isTemporary err then runTunnelAccept ts
          else ([], Some (Some (ne_error err)))
      | inl conn => let '(cs, r) := runTunnelAccept ts in (conn :: cs, r)
      end
  end.

Definition ServeTunnelListener (ln : list AcceptTurn) : list C * option (option gerror) := runTunnelAccept ln.

(** [listen]: [tls.Listen] with the [NextProtos] of its configuration, a
    listener being the results of its [Accept]. *)
Definition ListenAndServeTunnels (listen : list string -> list AcceptTurn + gerror) (protos : list string)
    : list C * option (option gerror) :=
  match listen (cloneAndEnsureH2 protos) with
  | inr err => ([], Some (Some err))
  | inl ln => runTunnelAccept ln
  end.

(** The loop goes on after this result. *)
Definition goes_on (t : AcceptTurn) : bool :=
  match at_result t with inl _ => true | inr err => negb (at_shutdown t) && isTemporary err end.

Definition conn_of (t : AcceptTurn) : list C := match at_result t with inl c => [c] | inr _ => [] end.

(** What it returns on the first other one. *)
Definition loopReturns (t : AcceptTurn) : option gerror :=
  match at_result t with inr err => if at_shutdown t then None else Some (ne_error err) | inl _ => None end.

Lemma runTunnelAccept_app pre ts :
  Forall (fun t => goes_on t = true) pre ->
  runTunnelAccept (pre ++ ts) = ((pre ≫= conn_of) ++ (runTunnelAccept ts).1, (runTunnelAccept ts).2).
Proof.
  induction 1 as [|t pre Ht _ IH]; [by cbn; destruct (runTunnelAccept ts)|]. cbn [app runTunnelAccept]. rewrite IH, bind_cons.
  unfold goes_on in Ht. change (conn_of t) with (match at_result t with inl c => [c] | inr _ => [] end). destruct (at_result t) as [c|err]; [done|].
  apply andb_true_iff in Ht as [->%negb_true_iff ->]. done.
Qed.

Lemma first_stop ts :
  Forall (fun t => goes_on t = true) ts \/
  exists pre t post, ts = pre ++ t :: post /\ Forall (fun t => goes_on t = true) pre /\ goes_on t = false.
Proof.
  induction ts as [|t ts [IH|(pre & t' & post & -> & Hp & Ht')]]; [by left|..]; destruct (goes_on t) eqn:E.
  - left. by constructor.
  - right. by exists [], t, ts.
  - right. exists (t :: pre), t', post. split_and!; [done|by constructor|done].
  - right. by exists [], t, (pre ++ t' :: post).
Qed.

(** There is only one. *)
Lemma first_stop_unique pre t post pre' t' post' :
  pre ++ t :: post = pre' ++ t' :: post' -> Forall (fun t => goes_on t = true) pre -> goes_on t = false ->
  Forall (fun t => goes_on t = true) pre' -> goes_on t' = false -> t = t'.
Proof.
  revert pre'. induction pre as [|x pre IH]; intros [|x' pre'] E Hp Ht Hp' Ht'; cbn in E; simplify_eq; try done.
  - apply Forall_cons in Hp' as [? _]. congruence.
  - apply Forall_cons in Hp as [? _]. congruence.
  - apply Forall_cons in Hp as [_ Hp]. apply Forall_cons in Hp' as [_ Hp']. by eapply IH.
Qed.

Lemma runTunnelAccept_stop t ts : goes_on t = false -> runTunnelAccept (t :: ts) = ([], Some (loopReturns t)).
Proof.
  unfold goes_on, loopReturns. cbn. destruct (at_result t) as [c|err]; [done|]. destruct (at_shutdown t); [done|].
  cbn. by intros ->.
Qed.

(** A listener still open goes on with the next result. *)
Lemma runTunnelAccept_snoc ts t :
  (runTunnelAccept ts).2 = None ->
  runTunnelAccept (ts ++ [t]) =
    ((runTunnelAccept ts).1 ++ conn_of t, if goes_on t then None else Some (loopReturns t)).
Proof.
  intros Hn. destruct (first_stop ts) as [H|(pre & t' & post & -> & Hp & Ht)].
  - pose proof (runTunnelAccept_app ts [] H) as E. cbn in E. rewrite !app_nil_r in E. rewrite E, runTunnelAccept_app by done.
    cbn [fst snd]. destruct (goes_on t) eqn:Ht.
    + pose proof (runTunnelAccept_app [t] [] ltac:(by constructor)) as E1. cbn in E1. cbn. by rewrite E1, !app_nil_r.
    + rewrite runTunnelAccept_stop by done. cbn. f_equal. unfold goes_on, conn_of in *. by destruct (at_result t).
  - rewrite runTunnelAccept_app, runTunnelAccept_stop in Hn by done. done.
Qed.

(** A tunnel listener works until [Shutdown] or a real failure: the accepted
    connections are handed over in the order [Accept] returned them, each
    once; temporary errors lose none of them; and the function returns nil
    only when [Accept] fails after [Shutdown], an error only when it fails
    for good before, and then that very error. *)
Theorem listener_returns ts :
  exists pre, pre `prefix_of` ts /\ Forall (fun t => goes_on t = true) pre /\
    (runTunnelAccept ts).1 = pre ≫= conn_of /\
    match (runTunnelAccept ts).2 with
    | None => ts = pre
    | Some r => exists t post, ts = pre ++ t :: post /\ goes_on t = false /\ r = loopReturns t
    end.
Proof.
  destruct (first_stop ts) as [H|(pre & t & post & -> & Hp & Ht)].
  - exists ts. pose proof (runTunnelAccept_app ts [] H) as E. cbn in E. rewrite !app_nil_r in E. by rewrite E.
  - exists pre. rewrite runTunnelAccept_app, runTunnelAccept_stop by done. cbn. rewrite app_nil_r.
    split_and!; [by apply prefix_app_r|done|done|by eauto].
Qed.

End AcceptLoop.

Arguments AcceptTurn : clear implicits.
Arguments mkAcceptTurn {C}.

(** ** The loop among the others *)

#[global] Instance SysAction_eq_dec : EqDecision SysAction.
Proof. solve_decision. Defined.

Section Interleaved.

Context {C : Type}.
Variable i : nat.        (* the listener *)

(** The results of [Accept] on it along a run, with what the loop sees of
    [shutdownCh] at each. *)
Definition accept_of (y : Sys) (a : SysAction) : list (bool * option bool) :=
  match a with
  | AcceptConn j => if decide (j = i) then [(p_shutdown (y_proxy y), None)] else []
  | AcceptError j temporary => if decide (j = i) then [(p_shutdown (y_proxy y), Some temporary)] else []
  | _ => []
  end.

Fixpoint accepts_of (y : Sys) (acts : list SysAction) : list (bool * option bool) :=
  match acts with
  | [] => []
  | a :: acts => accept_of y a ++ match sys_step y a with Some y' => accepts_of y' acts | None => [] end
  end.

Definition seen (t : AcceptTurn C) : bool * option bool :=
  (at_shutdown t, match at_result t with inl _ => None | inr err => Some (isTemporary err) end).

(** The goroutines the loop has started. *)
Definition spawns (acts : list SysAction) : nat := length (filter (fun a => a = Spawn i) acts).

(** Where the loop is, for what [runTunnelAccept] has done so far: a
    connection may still be on its way to its goroutine. *)
Definition loop_at (ts : list (AcceptTurn C)) (spawned : nat) (l : LoopPhase) : Prop :=
  match (runTunnelAccept ts).2 with
  | None => (l = LAccepting \/ l = LSleeping) /\ spawned = length (runTunnelAccept ts).1 \/
            l = LGot /\ S spawned = length (runTunnelAccept ts).1
  | Some r => l = LDone (match r with Some _ => true | None => false end) /\ spawned = length (runTunnelAccept ts).1
  end.

Lemma shut_step_loops y a y' : shut_step y a = Some y' -> y_loops y' !! i = y_loops y !! i.
Proof. intros Hs. destruct a; try done; cbn in Hs; destruct (y_shut y); try done; by injection Hs as <-. Qed.

Lemma peer_step_loops y a y' : peer_step y a = Some y' -> y_loops y' !! i = y_loops y !! i.
Proof.
  intros Hs. destruct a as [| | | | | | | | | | | | | | | | | | | |j|j]; try done; cbn in Hs; [|by injection Hs as <-].
  destruct (y_tunnels y !! j) as [ph|]; [|done]. destruct (has_writer ph); [|done]. by injection Hs as <-.
Qed.

(** Another goroutine's step. *)
Lemma other_loop y a y' :
  sys_rel y a y' -> accept_of y a = [] -> a <> Spawn i -> a <> AcceptWake i -> is_Some (y_loops y !! i) ->
  y_loops y' !! i = y_loops y !! i.
Proof.
  unfold sys_rel. intros Hs Ha Hsp Hwk [l0 Hi]. assert (Hlt : (i < length (y_loops y))%nat) by (by eapply lookup_lt_Some).
  assert (Hc : loop_step y a = Some y' \/ tunnel_step y a = Some y' \/ shut_step y a = Some y' \/ peer_step y a = Some y')
    by (destruct a; auto). clear Hs.
  destruct Hc as [Hs|[Hs|[Hs|Hs]]]; [|by destruct (tunnel_step_frame _ _ _ Hs) as (_ & _ & _ & -> & _)|by eapply shut_step_loops|
    by eapply peer_step_loops].
  destruct a as [|j|j tmp|j|j| | | | | | | | | | | | | | | | |]; try done; cbn in Hs;
    try (cbn in Ha; destruct (decide (j = i)) as [->|Hne]; [done|]);
    try (destruct (y_loops y !! j) as [l|] eqn:Hj; [|done]; destruct l; try done).
  - injection Hs as <-. cbn. by rewrite lookup_app_l.
  - case_bool_decide; [done|]. injection Hs as <-. by apply list_lookup_insert_ne.
  - destruct (p_shutdown (y_proxy y)); [|destruct tmp]; injection Hs as <-; by apply list_lookup_insert_ne.
  - injection Hs as <-. apply list_lookup_insert_ne. congruence.
  - injection Hs as <-. apply list_lookup_insert_ne. congruence.
Qed.

(** A result of [Accept] moves the loop as it moves the function. *)
Lemma accept_loop_at y a y' ts t n l :
  sys_rel y a y' -> accept_of y a = [seen t] -> y_loops y !! i = Some l -> loop_at ts n l ->
  exists l', y_loops y' !! i = Some l' /\ loop_at (ts ++ [t]) n l'.
Proof.
  unfold sys_rel, seen. intros Hs Ha Hl Hat. assert (Hlt : (i < length (y_loops y))%nat) by (by eapply lookup_lt_Some).
  destruct a as [|j|j tmp|j|j| | | | | | | | | | | | | | | | |]; cbn in Ha; try done; (destruct (decide (j = i)) as [->|Hne]; [|done]).
  all: unfold sys_step, loop_step in Hs; rewrite Hl in Hs; destruct l; try done.
  all: unfold loop_at in Hat; destruct (runTunnelAccept ts).2 as [r|] eqn:Er; [by destruct Hat|].
  all: destruct Hat as [[_ Hn]|[? _]]; [|done]; unfold loop_at; rewrite runTunnelAccept_snoc by done; cbn [fst snd].
  all: rewrite length_app; unfold goes_on, conn_of, loopReturns; injection Ha as Hsh Hres;
    destruct (at_result t) as [c|err]; try done.
  - case_bool_decide; [done|]. injection Hs as <-. exists LGot. split; [by apply list_lookup_insert_eq|]. right. cbn. split; [done|lia].
  - rewrite Nat.add_0_r, <- Hsh. injection Hres as ->.
    destruct (p_shutdown (y_proxy y)); [|destruct (isTemporary err)]; cbn; injection Hs as <-;
      (eexists; split; [by apply list_lookup_insert_eq|]); [done|by left; split; [right|]|done].
Qed.

(** Other steps leave it where it is, or take it on by one goroutine. *)
Lemma quiet_loop_at y a y' ts n l :
  sys_rel y a y' -> accept_of y a = [] -> y_loops y !! i = Some l -> loop_at ts n l ->
  exists l', y_loops y' !! i = Some l' /\ loop_at ts (n + spawns [a]) l'.
Proof.
  intros Hs Ha Hl Hat. assert (Hlt : (i < length (y_loops y))%nat) by (by eapply lookup_lt_Some).
  unfold spawns. rewrite filter_cons, filter_nil. destruct (decide (a = Spawn i)) as [->|Hsp].
  { unfold sys_rel, sys_step, loop_step in Hs. rewrite Hl in Hs. destruct l; try done. injection Hs as <-.
    exists LAccepting. split; [by apply list_lookup_insert_eq|]. unfold loop_at in *. cbn [length].
    destruct (runTunnelAccept ts).2; [by destruct Hat|]. destruct Hat as [[[?|?] _]|[_ Hn]]; try done. left. split; [by left|lia]. }
  cbn [length]. rewrite Nat.add_0_r. destruct (decide (a = AcceptWake i)) as [->|Hwk].
  { unfold sys_rel, sys_step, loop_step in Hs. rewrite Hl in Hs. destruct l; try done. injection Hs as <-.
    exists LAccepting. split; [by apply list_lookup_insert_eq|]. unfold loop_at in *.
    destruct (runTunnelAccept ts).2; [by destruct Hat|]. destruct Hat as [[_ Hn]|[? _]]; [|done]. left. split; [by left|done]. }
  exists l. split; [|done]. rewrite <- Hl. by eapply other_loop.
Qed.

Lemma accept_of_short y a : accept_of y a = [] \/ exists x, accept_of y a = [x].
Proof. destruct a; cbn; try (by left); (destruct (decide _); [right; by eexists|by left]). Qed.

Lemma loop_run y acts y' :
  steps sys_rel y acts y' -> forall ts ts1 n l, y_loops y !! i = Some l -> loop_at ts n l ->
  accepts_of y acts = seen <$> ts1 ->
  exists l', y_loops y' !! i = Some l' /\ loop_at (ts ++ ts1) (n + spawns acts) l'.
Proof.
  induction 1 as [y|y a y1 acts y2 Hs _ IH]; intros ts ts1 n l Hl Hat Hseen; cbn in Hseen.
  { symmetry in Hseen. apply fmap_nil_inv in Hseen as ->. exists l. by rewrite app_nil_r, Nat.add_0_r. }
  unfold sys_rel in Hs. rewrite Hs in Hseen. fold (sys_rel y a y1) in Hs.
  replace (spawns (a :: acts)) with (spawns [a] + spawns acts)%nat
    by (unfold spawns; change (a :: acts) with ([a] ++ acts); by rewrite filter_app, length_app).
  rewrite Nat.add_assoc. destruct (accept_of_short y a) as [Ha|[x Ha]]; rewrite Ha in Hseen; cbn in Hseen.
  - destruct (quiet_loop_at _ _ _ _ _ _ Hs Ha Hl Hat) as (l1 & Hl1 & Hat1). by apply (IH ts ts1 _ l1).
  - destruct ts1 as [|t ts1]; [done|]. injection Hseen as -> Hseen.
    destruct (accept_loop_at _ _ _ _ _ _ _ Hs Ha Hl Hat) as (l1 & Hl1 & Hat1).
    replace (n + spawns [a])%nat with n.
    + replace (ts ++ t :: ts1) with ((ts ++ [t]) ++ ts1) by (by rewrite <- app_assoc). by apply (IH _ _ _ l1).
    + unfold spawns. rewrite filter_cons_False; [cbn; lia|]. intros ->. done.
Qed.

(** C37. [runTunnelAccept], as the sequential function it is, and the accept
    loop of the step relation are the same: in every interleaving with the
    other loops, the connections' goroutines and [Shutdown], a loop that got
    these results from [Accept], seeing [shutdownCh] as it was then, has
    started a goroutine for each connection the function hands over (the last
    may be on its way), is still accepting when the function has not
    returned, and otherwise has ended, with an error exactly when the
    function returns one. *)
Theorem accept_loop_refines y acts y' ts :
  steps sys_rel y acts y' -> y_loops y !! i = Some LAccepting -> accepts_of y acts = seen <$> ts ->
  exists l, y_loops y' !! i = Some l /\
    match (runTunnelAccept ts).2 with
    | None => (l = LAccepting \/ l = LSleeping) /\ spawns acts = length (runTunnelAccept ts).1 \/
              l = LGot /\ S (spawns acts) = length (runTunnelAccept ts).1
    | Some r => l = LDone (match r with Some _ => true | None => false end) /\ spawns acts = length (runTunnelAccept ts).1
    end.
Proof.
  intros Hr Hl Hs. destruct (loop_run _ _ _ Hr [] ts 0 LAccepting Hl) as (l & Hl' & Hat); [by left; split; [left|]|done|].
  by exists l.
Qed.

End Interleaved.

(** ** The public listener *)

(** The [http.Server] of [ListenAndServePublic] from the outside: whether it
    serves TLS, whether [shutdownCh] is closed, whether the goroutine of
    [BaseContext] has cancelled the context all requests inherit, the
    requests handed to the handler (each with the state of its context), and
    the error the server has returned. *)
Record PublicServer := mkPublicServer {
  ps_tls : bool;
  ps_shutdown : bool;
  ps_cancelled : bool;
  ps_requests : list bool;
  ps_returned : option gerror
}.

Inductive PublicEv :=
| PubShutdown                    (* [close(p.shutdownCh)] *)
| PubCancel                      (* [<-p.shutdownCh], [cancel()] *)
| PubRequest
| PubListenError (e : gerror).   (* the listener fails *)

(** [ListenAndServeTLS] with a configuration, [ListenAndServe] without. *)
Definition publicServer (tlsConfig : option (list string)) (shutdown : bool) : PublicServer :=
  mkPublicServer (match tlsConfig with Some _ => true | None => false end) shutdown false [] None.

(** Nothing calls [srv.Shutdown] or [srv.Close]: what net/http documents is
    that the server then returns its listener's error, and no other. *)
Definition public_step (s : PublicServer) (a : PublicEv) : option PublicServer :=
  match a with
  | PubShutdown =>
      if ps_shutdown s then None else Some (mkPublicServer (ps_tls s) true (ps_cancelled s) (ps_requests s) (ps_returned s))
  | PubCancel =>
      if ps_shutdown s && negb (ps_cancelled s) then Some (mkPublicServer (ps_tls s) (ps_shutdown s) true (ps_requests s) (ps_returned s))
      else None
  | PubRequest =>
      match ps_returned s with
      | None => Some (mkPublicServer (ps_tls s) (ps_shutdown s) (ps_cancelled s) (ps_requests s ++ [ps_cancelled s]) None)
      | Some _ => None
      end
  | PubListenError e =>
      match ps_returned s with
      | None => Some (mkPublicServer (ps_tls s) (ps_shutdown s) (ps_cancelled s) (ps_requests s) (Some e))
      | Some _ => None
      end
  end.

Definition public_rel (s : PublicServer) (a : PublicEv) (s' : PublicServer) : Prop := public_step s a = Some s'.

Definition listen_errors (acts : list PublicEv) : list gerror :=
  acts ≫= (fun a => match a with PubListenError e => [e] | _ => [] end).

Lemma public_run s acts s' :
  steps public_rel s acts s' ->
  ps_returned s' = match ps_returned s with Some e => Some e | None => head (listen_errors acts) end.
Proof.
  induction 1 as [s|s a s1 acts s2 Hs _ IH]; [by destruct (ps_returned s)|]. rewrite IH. clear IH s2.
  unfold public_rel in Hs. unfold listen_errors. rewrite bind_cons. destruct a; cbn in Hs.
  - destruct (ps_shutdown s); [done|]. by injection Hs as <-.
  - destruct (_ && _); [|done]. by injection Hs as <-.
  - destruct (ps_returned s) eqn:E; [done|]. by injection Hs as <-.
  - destruct (ps_returned s) eqn:E; [done|]. by injection Hs as <-.
Qed.

(** [ListenAndServePublic] does not return at [Shutdown], as its comment says
    it does: whatever has happened, short of an error of the listener, it has
    not returned and takes the next request, which, once [Shutdown] has
    returned, finds no worker and is answered 503. *)
Theorem public_listener_survives_shutdown {HD : HpackDecoder} tlsConfig acts s y g range req x :
  steps public_rel (publicServer tlsConfig false) acts s -> listen_errors acts = [] ->
  reachable y -> Accept.shutdownReturns y = true -> g_proxy g = y_proxy y ->
  ps_returned s = None /\ (exists s', public_rel s PubRequest s') /\
  (serveRequest leastInFlightPick range req g x).1.2 = ErrorPage 503.
Proof.
  intros Hs Hno Hy%sys_reachable_inv Hr Hg.
  assert (E : ps_returned s = None) by (rewrite (public_run _ _ _ Hs), Hno; done). split_and!; [done| |].
  - unfold public_rel, public_step. rewrite E. by eexists.
  - destruct (all_gone y Hy) as [_ Hw]; [unfold Accept.shutdownReturns in Hr; destruct (y_shut y); try done; by bool_prop|].
    unfold serveRequest, views, availableWorkers. rewrite Hg, Hw. done.
Qed.

(** ** Witnesses *)

Module ListenDemo.

Definition refused : NetError := mkNetError (ErrExternal 1) (Some false) (Some true).
Definition closed : NetError := mkNetError (ErrExternal 2) None None.

(** Two connections with a temporary error between, then the listener is
    closed by [Shutdown]; another loop runs beside it. *)
Definition results : list (AcceptTurn nat) :=
  [mkAcceptTurn false (inl 7%nat); mkAcceptTurn false (inr refused); mkAcceptTurn false (inl 8%nat); mkAcceptTurn true (inr closed)].

Example loop_result : runTunnelAccept results = ([7; 8]%nat, Some None).
Proof. reflexivity. Qed.

Definition demo_acts : list SysAction :=
  [ServeListener; AcceptConn 1; AcceptConn 0; Spawn 0; Spawn 1; AcceptError 0 true; Handshaken 1; AcceptWake 0;
   AcceptConn 0; Spawn 0; ShutClose; ShutListener; AcceptError 0 false].

Definition demo_start : Sys := default sys_init (sys_step sys_init ServeListener).

Lemma accept_loop_refines_witness : exists y, y_loops y !! 0%nat = Some (LDone false) /\ spawns 0 demo_acts = 2%nat.
Proof.
  assert (Hr : exists y, steps sys_rel demo_start demo_acts y)
    by (eexists; repeat (eapply steps_cons; [vm_compute; reflexivity|]); apply steps_nil).
  destruct Hr as [y Hr]. exists y.
  destruct (accept_loop_refines 0 demo_start demo_acts y results Hr) as (l & Hl & H); [reflexivity|vm_compute; reflexivity|].
  destruct H as [-> H]. exact (conj Hl H).
Defined.

Lemma public_listener_survives_shutdown_witness :
  (serveRequest (HD := Plain.plain_decoder) leastInFlightPick map_to_list ForwardDemo.demo_request
    (mkGateway (mkProxy [] true []) ∅) (mkScript [] [] None [] WaitDetached [] [] true 0)).1.2 = ErrorPage 503.
Proof.
  assert (Hy : reachable (mkSys (mkProxy [] true []) None [] ∅ 0 [] ShDone [] ∅)).
  { exists [ShutClose; ShutListener; ShutPoke]. repeat (eapply steps_cons; [reflexivity|]). apply steps_nil. }
  eapply (public_listener_survives_shutdown None [PubShutdown; PubRequest; PubCancel; PubRequest]);
    [|reflexivity|exact Hy|reflexivity..].
  repeat (eapply steps_cons; [reflexivity|]). apply steps_nil.
Defined.

End ListenDemo.
