(* ===== verification/Pool.v ===== *)
(** * The worker's connection pool (pool.go, connection.go)

    [NewConnectionPool] with one maintainer goroutine per slot
    ([maintainConnection] around [dial]), the reapers of draining
    connections, and [Shutdown], as a step relation: each step is one
    goroutine's progress to its next blocking point, each outcome of the
    network a different step.  The theorems are about the two WaitGroups, the
    connection registry, and which steps a goroutine can take when the network
    does nothing: that depends on the read deadlines. *)

From S2P Require Import Prelude Errors.

(** ** Options *)

(** [o_cert]: a certificate chain and a private key are present. *)
Record ServerOptions := mkOptions {
  o_addr : string; o_handler : bool; o_cert : bool; o_caPool : bool; o_nbConn : Z;
  o_sni : string; o_maxStreams : Z
}.

Definition validateOptions (o : ServerOptions) : option gerror :=
  if bool_decide (o_addr o = ""%string) then Some ErrAddrRequired
  else if negb (o_handler o) then Some ErrHandlerRequired
  else if negb (o_cert o) then Some ErrMTLSRequired
  else None.

(** ** State *)

(** Where a maintainer is: at the top of its loop, in [tls.Dial] and the
    preface, waiting for the peer's SETTINGS, serving, in the pause, gone. *)
Inductive Phase :=
| SCheck
| SDialing
| SHandshake (c : nat)
| SServing (c : nat)
| SPause
| SExit.

(** [s_once]: [once.Do(p.ready.Done)] has run for this slot. *)
Record Slot := mkSlot { s_phase : Phase; s_once : bool }.

(** [pl_ready], [pl_maintainers]: the WaitGroup counters; [pl_conns]: the
    registry; [pl_reapers]: the draining connections with a reaper;
    [pl_shutdown]: [shutdownCh] is closed; [pl_poked]: the connections whose
    read deadline Shutdown has set, once it has taken its snapshot;
    [pl_blocked]: the connections whose writer is in a [Write] that does not
    return because the peer does not read. *)
Record Pool := mkPool {
  pl_ready : Z;
  pl_maintainers : Z;
  pl_conns : gset nat;
  pl_slots : list Slot;
  pl_reapers : list nat;
  pl_shutdown : bool;
  pl_poked : option (gset nat);
  pl_next : nat;
  pl_blocked : gset nat
}.

(** [None]: [ready.Add] panics on a negative count. *)
Definition NewConnectionPool (o : ServerOptions) : option (Pool + gerror) :=
  match validateOptions o with
  | Some e => Some (inr e)
  | None =>
      let n := if o_nbConn o =? 0 then 1 else o_nbConn o in
      if n <? 0 then None
      else Some (inl (mkPool n n ∅ (repeat (mkSlot SCheck false) (Z.to_nat n)) [] false None 0 ∅))
  end.

Definition set_slot (p : Pool) (i : nat) (s : Slot) : Pool :=
  mkPool (pl_ready p) (pl_maintainers p) (pl_conns p) (<[i := s]> (pl_slots p)) (pl_reapers p)
    (pl_shutdown p) (pl_poked p) (pl_next p) (pl_blocked p).

(** [once.Do(p.ready.Done)] *)
Definition onceReady (p : Pool) (s : Slot) : Pool :=
  if s_once s then p
  else mkPool (pl_ready p - 1) (pl_maintainers p) (pl_conns p) (pl_slots p) (pl_reapers p)
         (pl_shutdown p) (pl_poked p) (pl_next p) (pl_blocked p).

Definition add_maintainers (p : Pool) (d : Z) : Pool :=
  mkPool (pl_ready p) (pl_maintainers p + d) (pl_conns p) (pl_slots p) (pl_reapers p)
    (pl_shutdown p) (pl_poked p) (pl_next p) (pl_blocked p).

Definition set_conns (p : Pool) (cs : gset nat) : Pool :=
  mkPool (pl_ready p) (pl_maintainers p) cs (pl_slots p) (pl_reapers p) (pl_shutdown p) (pl_poked p) (pl_next p) (pl_blocked p).

Definition set_reapers (p : Pool) (rs : list nat) : Pool :=
  mkPool (pl_ready p) (pl_maintainers p) (pl_conns p) (pl_slots p) rs (pl_shutdown p) (pl_poked p) (pl_next p) (pl_blocked p).

Definition set_blocked (p : Pool) (b : gset nat) : Pool :=
  mkPool (pl_ready p) (pl_maintainers p) (pl_conns p) (pl_slots p) (pl_reapers p) (pl_shutdown p) (pl_poked p) (pl_next p) b.

Definition registerConn (p : Pool) : Pool * nat :=
  (mkPool (pl_ready p) (pl_maintainers p) (pl_conns p ∪ {[pl_next p]}) (pl_slots p) (pl_reapers p)
     (pl_shutdown p) (pl_poked p) (S (pl_next p)) (pl_blocked p), pl_next p).

Definition deregisterConn (p : Pool) (c : nat) : Pool := set_conns p (pl_conns p ∖ {[c]}).

(** The [return] of [maintainConnection]: release the Ready waiter, then
    [p.maintainers.Done()]. *)
Definition exitSlot (p : Pool) (i : nat) (s : Slot) : Pool :=
  set_slot (add_maintainers (onceReady p s) (-1)) i (mkSlot SExit true).

(** ** Steps *)

Inductive PAction :=
| ACheck (i : nat)        (* the select at the top of the loop *)
| ADialFailed (i : nat)   (* any error before [registerConn] *)
| ADialed (i : nat)       (* [startConnection] succeeded *)
| AReady (i : nat)        (* [readyCh] closed *)
| AServeEnded (i : nat)   (* [errCh]: during the handshake or while serving; not
                             before [ShutdownWriter], which waits for the writer *)
| ADrainStarted (i : nat) (* graceful GOAWAY: the reaper takes over *)
| AReaped (c : nat)       (* a draining connection's [serve] returned *)
| ATimer (i : nat)        (* the pause is over *)
| APauseShutdown (i : nat)
| AShutdown              (* [close(p.shutdownCh)], the first time *)
| APoke                  (* the snapshot of the registry, its read deadlines *)
| ABlocked (c : nat)     (* the peer of [c] stops reading and a [Write] blocks *)
| AUnblocked (c : nat).  (* it reads again, or the connection breaks *)

Definition pool_step (p : Pool) (a : PAction) : option Pool :=
  match a with
  | ACheck i =>
      s ← pl_slots p !! i;
      match s_phase s with
      | SCheck => Some (if pl_shutdown p then exitSlot p i s else set_slot p i (mkSlot SDialing (s_once s)))
      | _ => None
      end
  | ADialFailed i =>
      s ← pl_slots p !! i;
      match s_phase s with SDialing => Some (set_slot p i (mkSlot SPause (s_once s))) | _ => None end
  | ADialed i =>
      s ← pl_slots p !! i;
      match s_phase s with
      | SDialing => let '(p, c) := registerConn p in Some (set_slot p i (mkSlot (SHandshake c) (s_once s)))
      | _ => None
      end
  | AReady i =>
      s ← pl_slots p !! i;
      match s_phase s with
      | SHandshake c => Some (set_slot (onceReady p s) i (mkSlot (SServing c) true))
      | _ => None
      end
  | AServeEnded i =>
      s ← pl_slots p !! i;
      match s_phase s with
      | SHandshake c | SServing c =>
          if bool_decide (c ∈ pl_blocked p) then None
          else Some (set_slot (deregisterConn p c) i (mkSlot SPause (s_once s)))
      | _ => None
      end
  | ADrainStarted i =>
      s ← pl_slots p !! i;
      match s_phase s with
      | SServing c =>
          let p := add_maintainers p 1 in
          let p := set_reapers p (c :: pl_reapers p) in
          Some (set_slot p i (mkSlot SPause (s_once s)))
      | _ => None
      end
  | AReaped c =>
      if bool_decide (c ∈ pl_reapers p /\ c ∉ pl_blocked p) then
        let p := deregisterConn p c in
        Some (add_maintainers (set_reapers p (filter (fun x => x <> c) (pl_reapers p))) (-1))
      else None
  | ATimer i =>
      s ← pl_slots p !! i;
      match s_phase s with SPause => Some (set_slot p i (mkSlot SCheck (s_once s))) | _ => None end
  | APauseShutdown i =>
      s ← pl_slots p !! i;
      match s_phase s with
      | SPause => if pl_shutdown p then Some (exitSlot p i s) else None
      | _ => None
      end
  | AShutdown =>
      if pl_shutdown p then None
      else Some (mkPool (pl_ready p) (pl_maintainers p) (pl_conns p) (pl_slots p) (pl_reapers p) true
                   None (pl_next p) (pl_blocked p))
  | APoke =>
      match pl_poked p with
      | None =>
          if pl_shutdown p then
            Some (mkPool (pl_ready p) (pl_maintainers p) (pl_conns p) (pl_slots p) (pl_reapers p) true
                    (Some (pl_conns p)) (pl_next p) (pl_blocked p))
          else None
      | Some _ => None
      end
  | ABlocked c => if bool_decide (c ∈ pl_conns p) then Some (set_blocked p (pl_blocked p ∪ {[c]})) else None
  | AUnblocked c => Some (set_blocked p (pl_blocked p ∖ {[c]}))
  end.

Definition pool_rel (p : Pool) (a : PAction) (p' : Pool) : Prop := pool_step p a = Some p'.

(** The steps that need nothing from the network.  [tls.Dial] has no deadline,
    and until the peer's SETTINGS a connection has none either but the one
    Shutdown sets; the serve loop arms one before each read
    ([SetIdleDeadline]) and looks at [shutdownCh] when it passes. *)
Definition local (p : Pool) (a : PAction) : bool :=
  match a with
  | ACheck _ | ATimer _ | APauseShutdown _ | AShutdown | APoke => true
  | AServeEnded i =>
      match s_phase <$> pl_slots p !! i with
      | Some (SHandshake c) => bool_decide (c ∈ default ∅ (pl_poked p))
      | Some (SServing _) => pl_shutdown p
      | _ => false
      end
  | AReaped _ => pl_shutdown p
  | ADialFailed _ | ADialed _ | AReady _ | ADrainStarted _ | ABlocked _ | AUnblocked _ => false
  end.

(** The goroutines' own steps, not the network's. *)
Definition progress (a : PAction) : bool := match a with ABlocked _ | AUnblocked _ => false | _ => true end.

(** [Shutdown] returns nil once its [Once] is over and [p.maintainers.Wait()]
    returns. *)
Definition shutdownReturns (p : Pool) : bool :=
  pl_shutdown p && bool_decide (is_Some (pl_poked p)) && (pl_maintainers p =? 0).

(** ** Invariant *)

Definition phase_conn (ph : Phase) : option nat :=
  match ph with SHandshake c | SServing c => Some c | _ => None end.

Definition alive (s : Slot) : Z := match s_phase s with SExit => 0 | _ => 1 end.

Definition unready (s : Slot) : Z := if s_once s then 0 else 1.

(** Slot [i] is at connection [c]. *)
Definition at_conn (ss : list Slot) (i c : nat) : Prop :=
  exists s, ss !! i = Some s /\ phase_conn (s_phase s) = Some c.

(** The registry is the connections whose [serve] may still be running, each
    with one owner, a slot or a reaper. *)
Record conns_inv (cs : gset nat) (ss : list Slot) (rs : list nat) (next : nat) : Prop := {
  ci_conns c : c ∈ cs <-> (exists i, at_conn ss i c) \/ c ∈ rs;
  ci_fresh c : c ∈ cs -> (c < next)%nat;
  ci_owner i j c : at_conn ss i c -> at_conn ss j c -> i = j;
  ci_reaper i c : at_conn ss i c -> c ∉ rs;
  ci_nodup : NoDup rs
}.

Record pool_inv (p : Pool) : Prop := {
  pv_maint : pl_maintainers p = zsum alive (pl_slots p) + Z.of_nat (length (pl_reapers p));
  pv_ready : pl_ready p = zsum unready (pl_slots p);
  pv_exit : Forall (fun s => s_phase s = SExit -> s_once s = true /\ pl_shutdown p = true) (pl_slots p);
  pv_conns : conns_inv (pl_conns p) (pl_slots p) (pl_reapers p) (pl_next p)
}.

(** What is at a slot after an update. *)
Lemma at_conn_insert ss i s s' j c :
  ss !! i = Some s ->
  at_conn (<[i := s']> ss) j c <-> (j = i /\ phase_conn (s_phase s') = Some c) \/ (j <> i /\ at_conn ss j c).
Proof.
  intros Hi. unfold at_conn. pose proof (lookup_lt_Some _ _ _ Hi) as Hlt. destruct (decide (j = i)) as [->|Hne].
  - rewrite list_lookup_insert_eq by done. split.
    + intros (x & [= <-] & ?). by left.
    + intros [[_ ?]|[? _]]; [by exists s'|done].
  - rewrite list_lookup_insert_ne by done. split; [by right|]. by intros [[? _]|[_ ?]].
Qed.

Lemma conns_same cs ss rs n i s s' :
  ss !! i = Some s -> phase_conn (s_phase s') = phase_conn (s_phase s) ->
  conns_inv cs ss rs n -> conns_inv cs (<[i := s']> ss) rs n.
Proof.
  intros Hi Hp [H1 H2 H3 H4 H5].
  assert (Heq : forall j c, at_conn (<[i := s']> ss) j c <-> at_conn ss j c).
  { intros j c. rewrite (at_conn_insert _ _ _ _ _ _ Hi), Hp. split; [|destruct (decide (j = i)) as [->|]; [|by right]].
    - intros [[-> ?]|[_ ?]]; [by exists s|done].
    - intros (x & Hx & ?). simplify_eq. by left. }
  split; [|done| | |done].
  - intros c. rewrite H1. by setoid_rewrite Heq.
  - intros j k c. rewrite !Heq. apply H3.
  - intros j c. rewrite Heq. apply H4.
Qed.

Lemma conns_dial cs ss rs n i s s' :
  ss !! i = Some s -> phase_conn (s_phase s) = None -> phase_conn (s_phase s') = Some n ->
  conns_inv cs ss rs n -> conns_inv (cs ∪ {[n]}) (<[i := s']> ss) rs (S n).
Proof.
  intros Hi Hp Hp' [H1 H2 H3 H4 H5].
  assert (Hn : n ∉ cs) by (intros ?%H2; lia).
  assert (Hold : forall j c, at_conn ss j c -> j <> i /\ c ∈ cs).
  { intros j c Hj. split; [|apply H1; eauto]. intros ->. destruct Hj as (x & ? & ?). congruence. }
  split; [| | | |done].
  - intros c. rewrite elem_of_union, elem_of_singleton, H1. setoid_rewrite (at_conn_insert _ _ _ _ _ _ Hi). split.
    + intros [[[j Hj]|?]| ->]; [left|by right|left; exists i; by left]. exists j. right. split; [by apply (Hold j c)|done].
    + intros [[j [[-> Hc]|[_ ?]]]|?]; [right; congruence|left; left; eauto|left; by right].
  - intros c. rewrite elem_of_union, elem_of_singleton. intros [?%H2| ->]; lia.
  - intros j k c. rewrite !(at_conn_insert _ _ _ _ _ _ Hi). intros [[-> ?]|[? Hj]] [[-> ?]|[? Hk]]; [done| | |by eapply H3].
    + destruct (Hold _ _ Hk). exfalso. apply Hn. congruence.
    + destruct (Hold _ _ Hj). exfalso. apply Hn. congruence.
  - intros j c. rewrite (at_conn_insert _ _ _ _ _ _ Hi). intros [[-> ?]|[? Hj]]; [|by eapply H4].
    intros Hr. apply Hn, H1. right. congruence.
Qed.

Lemma conns_end cs ss rs n i s s' c :
  ss !! i = Some s -> phase_conn (s_phase s) = Some c -> phase_conn (s_phase s') = None ->
  conns_inv cs ss rs n -> conns_inv (cs ∖ {[c]}) (<[i := s']> ss) rs n.
Proof.
  intros Hi Hp Hp' [H1 H2 H3 H4 H5]. assert (Hat : at_conn ss i c) by by exists s.
  split; [| | | |done].
  - intros x. rewrite elem_of_difference, elem_of_singleton, H1. setoid_rewrite (at_conn_insert _ _ _ _ _ _ Hi). split.
    + intros [[[j Hj]|?] Hne]; [left|by right]. exists j. right. split; [|done]. intros ->.
      destruct Hj as (y & ? & ?). congruence.
    + intros [[j [[-> ?]|[Hne Hj]]]|Hr]; [congruence| |].
      * split; [left; eauto|]. intros ->. apply Hne. by eapply H3.
      * split; [by right|]. intros ->. by eapply H4.
  - intros x [? _]%elem_of_difference. auto.
  - intros j k x. rewrite !(at_conn_insert _ _ _ _ _ _ Hi). intros [[_ ?]|[_ ?]] [[_ ?]|[_ ?]]; try congruence. by eapply H3.
  - intros j x. rewrite (at_conn_insert _ _ _ _ _ _ Hi). intros [[_ ?]|[_ ?]]; [congruence|by eapply H4].
Qed.

Lemma conns_drain cs ss rs n i s s' c :
  ss !! i = Some s -> phase_conn (s_phase s) = Some c -> phase_conn (s_phase s') = None ->
  conns_inv cs ss rs n -> conns_inv cs (<[i := s']> ss) (c :: rs) n.
Proof.
  intros Hi Hp Hp' [H1 H2 H3 H4 H5]. assert (Hat : at_conn ss i c) by by exists s.
  split; [|done| | |].
  - intros x. rewrite H1, elem_of_cons. setoid_rewrite (at_conn_insert _ _ _ _ _ _ Hi). split.
    + intros [[j Hj]|?]; [|by right; right]. destruct (decide (j = i)) as [->|]; [right; left|left; exists j; by right].
      destruct Hj as (y & ? & ?). congruence.
    + intros [[j [[-> ?]|[_ Hj]]]|[-> |?]]; [congruence|left; eauto|left; eauto|by right].
  - intros j k x. rewrite !(at_conn_insert _ _ _ _ _ _ Hi). intros [[_ ?]|[_ ?]] [[_ ?]|[_ ?]]; try congruence. by eapply H3.
  - intros j x. rewrite (at_conn_insert _ _ _ _ _ _ Hi). intros [[_ ?]|[Hne Hj]]; [congruence|].
    rewrite elem_of_cons. intros [-> |?]; [|by eapply H4]. apply Hne. by eapply H3.
  - constructor; [by eapply H4|done].
Qed.

Lemma conns_reap cs ss rs n c :
  c ∈ rs -> conns_inv cs ss rs n -> conns_inv (cs ∖ {[c]}) ss (filter (fun x => x <> c) rs) n.
Proof.
  intros Hc [H1 H2 H3 H4 H5]. split; [| |done| |by apply NoDup_filter].
  - intros x. rewrite elem_of_difference, elem_of_singleton, H1, list_elem_of_filter. split.
    + intros [[?|?] ?]; [by left|by right].
    + intros [[j Hj]|[? ?]]; [|split; [by right|done]]. split; [left; eauto|]. intros ->. by eapply H4.
  - intros x [? _]%elem_of_difference. auto.
  - intros j x Hj. rewrite list_elem_of_filter. intros [_ ?]. by eapply H4.
Qed.

(** Removing one element of a duplicate-free list. *)
Lemma filter_one_length (c : nat) rs :
  NoDup rs -> c ∈ rs -> length rs = S (length (filter (fun x => x <> c) rs)).
Proof.
  induction 1 as [|x rs Hx Hnd IH]; intros Hc; [by apply elem_of_nil in Hc|]. rewrite filter_cons.
  apply elem_of_cons in Hc as [-> |Hc].
  - rewrite decide_False by (by intros []). simpl. f_equal. rewrite filter_all; [done|]. intros y Hy ->. done.
  - rewrite decide_True by (intros ->; done). simpl. f_equal. by apply IH.
Qed.

(** The counters and the exit condition after a slot's step. *)
Lemma slot_step p p' i s s' :
  pool_inv p -> pl_slots p !! i = Some s -> pl_slots p' = <[i := s']> (pl_slots p) ->
  pl_maintainers p' - Z.of_nat (length (pl_reapers p')) =
    pl_maintainers p - Z.of_nat (length (pl_reapers p)) - alive s + alive s' ->
  pl_ready p' = pl_ready p - unready s + unready s' -> pl_shutdown p' = pl_shutdown p ->
  (s_phase s' = SExit -> s_once s' = true /\ pl_shutdown p = true) ->
  conns_inv (pl_conns p') (<[i := s']> (pl_slots p)) (pl_reapers p') (pl_next p') -> pool_inv p'.
Proof.
  intros [H1 H2 H3 H4] Hi Hs Hm Hr Hsh Hx Hc. split; rewrite Hs; [..|done].
  - rewrite (zsum_insert _ _ _ _ _ Hi). lia.
  - rewrite (zsum_insert _ _ _ _ _ Hi). lia.
  - rewrite Hsh. by apply Forall_insert.
Qed.

Lemma exitSlot_inv p i s :
  pool_inv p -> pl_slots p !! i = Some s -> phase_conn (s_phase s) = None -> alive s = 1 -> pl_shutdown p = true ->
  pool_inv (exitSlot p i s).
Proof.
  intros H Hi Hp Ha Hsh. unfold exitSlot, onceReady. pose proof (pv_conns _ H) as Hc.
  destruct (s_once s) eqn:Ho; eapply (slot_step p _ i s (mkSlot SExit true)); try done; cbn; unfold unready; rewrite ?Ho; cbn;
    try lia; by eapply conns_same.
Qed.

Lemma pool_step_inv p a p' : pool_inv p -> pool_rel p a p' -> pool_inv p'.
Proof.
  unfold pool_rel. intros H Hs. pose proof (pv_conns _ H) as Hc.
  destruct a as [i|i|i|i|i|i|c|i|i| | |c|c]; cbn in Hs;
    try (destruct (pl_slots p !! i) as [s|] eqn:Hi; [|done]; cbn in Hs; destruct (s_phase s) eqn:Hph; try done).
  - destruct (pl_shutdown p) eqn:Hsh; simplify_eq.
    + apply exitSlot_inv; unfold alive; by rewrite ?Hph.
    + eapply (slot_step p _ i s (mkSlot SDialing (s_once s))); try done; cbn; unfold alive, unready; rewrite ?Hph; cbn; try lia.
      eapply conns_same; [done|by rewrite Hph|done].
  - simplify_eq. eapply (slot_step p _ i s (mkSlot SPause (s_once s))); try done; cbn; unfold alive, unready; rewrite ?Hph; cbn; try lia.
    eapply conns_same; [done|by rewrite Hph|done].
  - simplify_eq. eapply (slot_step p _ i s (mkSlot (SHandshake (pl_next p)) (s_once s))); try done; cbn; unfold alive, unready; rewrite ?Hph; cbn; try lia.
    eapply conns_dial; [done|by rewrite Hph|done|done].
  - simplify_eq. unfold onceReady.
    destruct (s_once s) eqn:Ho; eapply (slot_step p _ i s (mkSlot (SServing c) true)); try done; cbn; unfold alive, unready;
      rewrite ?Hph, ?Ho; cbn; try lia; (eapply conns_same; [done|by rewrite Hph|done]).
  - destruct (bool_decide _); simplify_eq. eapply (slot_step p _ i s (mkSlot SPause (s_once s))); try done; cbn; unfold alive, unready; rewrite ?Hph; cbn; try lia.
    eapply conns_end; [done|by rewrite Hph|done|done].
  - destruct (bool_decide _); simplify_eq. eapply (slot_step p _ i s (mkSlot SPause (s_once s))); try done; cbn; unfold alive, unready; rewrite ?Hph; cbn; try lia.
    eapply conns_end; [done|by rewrite Hph|done|done].
  - simplify_eq. eapply (slot_step p _ i s (mkSlot SPause (s_once s))); try done; cbn; unfold alive, unready; rewrite ?Hph; cbn; try lia.
    eapply conns_drain; [done|by rewrite Hph|done|done].
  - case_bool_decide as Hin; [destruct Hin as [Hin _]|done]. simplify_eq. destruct H as [H1 H2 H3 _]. split; cbn; [|done|done|by apply conns_reap].
    pose proof (filter_one_length c (pl_reapers p) (ci_nodup _ _ _ _ Hc) Hin). unfold zsum in *. lia.
  - simplify_eq. eapply (slot_step p _ i s (mkSlot SCheck (s_once s))); try done; cbn; unfold alive, unready; rewrite ?Hph; cbn; try lia.
    eapply conns_same; [done|by rewrite Hph|done].
  - destruct (pl_shutdown p) eqn:Hsh; simplify_eq. apply exitSlot_inv; unfold alive; by rewrite ?Hph.
  - destruct (pl_shutdown p) eqn:Hsh; simplify_eq. destruct H as [H1 H2 H3 _]. split; cbn; try done.
    eapply Forall_impl; [exact H3|]. cbn. intros s Hx Hp. split; [by apply Hx|done].
  - destruct (pl_poked p); [done|]. destruct (pl_shutdown p) eqn:Hsh; simplify_eq. destruct H as [H1 H2 H3 _].
    split; cbn; try done. by rewrite Hsh in H3.
  - destruct (bool_decide _); simplify_eq. by destruct H as [H1 H2 H3 H4].
  - simplify_eq. by destruct H as [H1 H2 H3 H4].
Qed.

Lemma NewConnectionPool_inv o p : NewConnectionPool o = Some (inl p) -> pool_inv p.
Proof.
  unfold NewConnectionPool. intros H. destruct (validateOptions o); [done|].
  set (n := if o_nbConn o =? 0 then 1 else o_nbConn o) in *.
  destruct (Z.ltb_spec n 0) as [|Hpos]; [done|]. injection H as <-.
  assert (Hsum : forall f : Slot -> Z, f (mkSlot SCheck false) = 1 -> zsum f (repeat (mkSlot SCheck false) (Z.to_nat n)) = n).
  { intros f Hf. rewrite <- (Z2Nat.id n) at 2 by done. generalize (Z.to_nat n). intros k.
    induction k as [|k IH]; [done|]. cbn [repeat]. rewrite zsum_cons, Hf, IH. lia. }
  split; cbn [pl_maintainers pl_ready pl_slots pl_reapers pl_conns pl_next pl_shutdown].
  - rewrite Hsum by done. simpl. lia.
  - by rewrite Hsum.
  - apply Forall_forall. intros s Hs. apply list_elem_of_In, repeat_spec in Hs. by subst s.
  - assert (Hno : forall i c, ~ at_conn (repeat (mkSlot SCheck false) (Z.to_nat n)) i c).
    { intros i c (s & Hs & Hp). apply list_elem_of_lookup_2, list_elem_of_In, repeat_spec in Hs. by subst s. }
    split; [| | | |constructor].
    + intros c. split; [by intros ?%elem_of_empty|]. intros [[i Hi]|Hr]; [by apply Hno in Hi|by apply elem_of_nil in Hr].
    + intros c Hc. by apply elem_of_empty in Hc.
    + intros i j c Hi. by apply Hno in Hi.
    + intros i c Hi. by apply Hno in Hi.
Qed.

(** The pools a run can reach. *)
Definition reachable (o : ServerOptions) (p : Pool) : Prop :=
  exists p0 acts, NewConnectionPool o = Some (inl p0) /\ steps pool_rel p0 acts p.

Lemma reachable_inv o p : reachable o p -> pool_inv p.
Proof.
  intros (p0 & acts & H0 & H).
  exact (steps_inv pool_rel pool_inv pool_step_inv _ _ _ H (NewConnectionPool_inv _ _ H0)).
Qed.

(** ** After Shutdown *)

(** How many more steps a maintainer can take once [shutdownCh] is closed. *)
Definition slot_work (s : Slot) : Z :=
  match s_phase s with
  | SExit => 0 | SCheck => 1 | SPause => 2 | SServing _ => 4 | SHandshake _ => 5 | SDialing => 6
  end.

Definition pool_work (p : Pool) : Z :=
  zsum slot_work (pl_slots p) + Z.of_nat (length (pl_reapers p)) +
  match pl_poked p with None => 1 | Some _ => 0 end.

Lemma slot_work_bound ss : zsum slot_work ss <= 6 * Z.of_nat (length ss).
Proof. apply zsum_le. intros s. unfold slot_work. by destruct (s_phase s). Qed.

Lemma pool_work_nonneg p : 0 <= pool_work p.
Proof.
  unfold pool_work. assert (0 <= zsum slot_work (pl_slots p)); [|destruct (pl_poked p); lia].
  apply zsum_nonneg. intros s _. unfold slot_work. by destruct (s_phase s).
Qed.

(** A slot's step takes the work it loses. *)
Lemma slot_work_step p p' i s s' :
  pl_slots p !! i = Some s -> pl_slots p' = <[i := s']> (pl_slots p) -> pl_poked p' = pl_poked p ->
  slot_work s' + Z.of_nat (length (pl_reapers p')) < slot_work s + Z.of_nat (length (pl_reapers p)) ->
  pool_work p' < pool_work p.
Proof. intros Hi Hs Hp Hw. unfold pool_work. rewrite Hs, Hp, (zsum_insert _ _ _ _ _ Hi). lia. Qed.

Lemma exitSlot_fields p i s :
  pl_slots (exitSlot p i s) = <[i := mkSlot SExit true]> (pl_slots p) /\
  pl_poked (exitSlot p i s) = pl_poked p /\ pl_reapers (exitSlot p i s) = pl_reapers p /\
  pl_shutdown (exitSlot p i s) = pl_shutdown p.
Proof. unfold exitSlot, onceReady. by destruct (s_once s). Qed.

Lemma pool_work_decreases p a p' :
  pool_inv p -> pl_shutdown p = true -> pool_rel p a p' ->
  pool_work p' + (if progress a then 1 else 0) <= pool_work p /\ pl_shutdown p' = true /\
  (forall cs, pl_poked p = Some cs -> pl_poked p' = Some cs).
Proof.
  unfold pool_rel. intros H Hsh Hs. pose proof (pv_conns _ H) as Hc.
  assert (Hlt : forall n m, n < m -> n + 1 <= m) by lia.
  destruct a as [i|i|i|i|i|i|c|i|i| | |c|c]; cbn in Hs;
    try (destruct (pl_slots p !! i) as [s|] eqn:Hi; [|done]; cbn in Hs; destruct (s_phase s) eqn:Hph; try done);
    rewrite ?Hsh in Hs; try destruct (bool_decide (_ ∈ pl_blocked p)); simplify_eq; try done; cbn [progress].
  1, 10: destruct (exitSlot_fields p i s) as (E1 & E2 & E3 & E4); rewrite E2, E4; split; [|done];
    apply Hlt, (slot_work_step p _ i s _ Hi E1 E2); unfold slot_work; rewrite Hph, E3; cbn; lia.
  3: unfold onceReady; destruct (s_once s).
  all: try (split; [|done]; apply Hlt; eapply (slot_work_step p _ i s); eauto; unfold slot_work; rewrite Hph; cbn; lia).
  - case_bool_decide as Hin; [destruct Hin as [Hin _]|done]. simplify_eq. split; [|done].
    pose proof (filter_one_length c (pl_reapers p) (ci_nodup _ _ _ _ Hc) Hin). unfold pool_work. cbn -[zsum]. lia.
  - destruct (pl_poked p) eqn:Hp; simplify_eq. split; [|done]. unfold pool_work. rewrite Hp. cbn -[zsum]. lia.
  - destruct (bool_decide _); simplify_eq. split; [|done]. unfold pool_work. cbn -[zsum]. lia.
  - split; [|done]. unfold pool_work. cbn -[zsum]. lia.
Qed.

Lemma pool_run_bounded p acts p' :
  pool_inv p -> pl_shutdown p = true -> steps pool_rel p acts p' ->
  Z.of_nat (length (filter (fun a => progress a = true) acts)) + pool_work p' <= pool_work p /\ pl_shutdown p' = true /\
  (forall cs, pl_poked p = Some cs -> pl_poked p' = Some cs).
Proof.
  intros H Hsh Hr. revert H Hsh. induction Hr as [p|p a p1 acts p2 Ha _ IH]; intros H Hsh; [split; [simpl; lia|done]|].
  destruct (pool_work_decreases _ _ _ H Hsh Ha) as (Hw & Hsh' & Hp).
  destruct (IH (pool_step_inv _ _ _ H Ha) Hsh') as (Hw2 & Hsh2 & Hp2). split_and!; [|done|auto].
  rewrite filter_cons. destruct (progress a); [rewrite decide_True by done|rewrite decide_False by done]; cbn [length]; lia.
Qed.

(** A step of slot [i]'s maintainer that nothing holds up. *)
Definition slot_moves (p : Pool) (i : nat) : Prop :=
  exists a p', (a = ACheck i \/ a = ATimer i \/ a = AServeEnded i) /\ local p a = true /\ pool_rel p a p'.

(** What a slot can be left waiting for after Shutdown: the dial, SETTINGS on
    a connection that is not in [snapshot], or a peer that does not read. *)
Definition slot_waits (snapshot : gset nat) (p : Pool) (s : Slot) : Prop :=
  match s_phase s with
  | SDialing => True
  | SHandshake c => c ∉ snapshot \/ c ∈ pl_blocked p
  | SServing c => c ∈ pl_blocked p
  | _ => False
  end.

Lemma slot_progress snapshot p i s :
  pl_shutdown p = true -> pl_poked p = Some snapshot -> pl_slots p !! i = Some s -> s_phase s <> SExit ->
  slot_moves p i \/ slot_waits snapshot p s.
Proof.
  intros Hsh Hp Hi Hne. unfold slot_moves, slot_waits.
  destruct (s_phase s) as [| |c|c| |] eqn:Hph; try done; [|by right|..].
  - left. exists (ACheck i). eexists. split_and!; [by left|done|]. unfold pool_rel. cbn. by rewrite Hi; cbn; rewrite Hph.
  - destruct (decide (c ∈ pl_blocked p)) as [|Hb]; [by right; right|].
    destruct (decide (c ∈ snapshot)) as [Hc|]; [left|by right; left]. exists (AServeEnded i). eexists. split_and!; [auto| |].
    + cbn. rewrite Hi; cbn. rewrite Hph, Hp. by apply bool_decide_eq_true.
    + unfold pool_rel. cbn. rewrite Hi; cbn. by rewrite Hph, bool_decide_eq_false_2.
  - destruct (decide (c ∈ pl_blocked p)) as [|Hb]; [by right|left]. exists (AServeEnded i). eexists. split_and!; [auto| |].
    + cbn. rewrite Hi; cbn. by rewrite Hph.
    + unfold pool_rel. cbn. rewrite Hi; cbn. by rewrite Hph, bool_decide_eq_false_2.
  - left. exists (ATimer i). eexists. split_and!; [auto|done|]. unfold pool_rel. cbn. by rewrite Hi; cbn; rewrite Hph.
Qed.

Lemma reaper_progress p c :
  pl_shutdown p = true -> c ∈ pl_reapers p -> (local p (AReaped c) = true /\ exists p', pool_rel p (AReaped c) p') \/ c ∈ pl_blocked p.
Proof.
  intros Hsh Hc. destruct (decide (c ∈ pl_blocked p)); [by right|left]. split; [done|]. eexists. unfold pool_rel. cbn.
  by rewrite bool_decide_eq_true_2.
Qed.

(** Shutdown waits only for these. *)
Lemma somebody_left p :
  pool_inv p -> pl_shutdown p = true -> is_Some (pl_poked p) -> shutdownReturns p = false ->
  (exists i s, pl_slots p !! i = Some s /\ s_phase s <> SExit) \/ pl_reapers p <> [].
Proof.
  intros H Hsh Hp Hn. unfold shutdownReturns in Hn. rewrite Hsh, bool_decide_eq_true_2 in Hn by done. simpl in Hn.
  apply Z.eqb_neq in Hn. pose proof (pv_maint _ H) as Hm. destruct (pl_reapers p) as [|c rs] eqn:Hr; [left|by right].
  destruct (decide (Forall (fun s => alive s = 0) (pl_slots p))) as [Hf|Hf].
  - exfalso. apply Hn. rewrite Hm. clear -Hf. induction Hf as [|s ss Hs _ IH]; [done|]. rewrite zsum_cons. simpl in *. lia.
  - apply not_Forall_Exists in Hf; [|intros x; apply _]. apply Exists_exists in Hf as (s & Hin & Hs). apply list_elem_of_lookup in Hin as [i Hi].
    exists i, s. split; [done|]. intros E. apply Hs. unfold alive. by rewrite E.
Qed.

(** ** Properties *)

(** C34. The pool's accounting is exact in every interleaving of maintainers,
    reapers and Shutdown: the maintainers WaitGroup counts the maintainers
    still running plus the reapers, the ready WaitGroup the slots that have
    not reported yet, so neither goes negative (no panic) and Ready is
    released once per slot; the registry holds exactly the connections that a
    slot or a reaper still owns, each owned once; a slot exits only after
    Shutdown, having released its Ready waiter. *)
Theorem pool_accounting_exact o p :
  reachable o p ->
  pl_maintainers p = zsum alive (pl_slots p) + Z.of_nat (length (pl_reapers p)) /\ 0 <= pl_maintainers p /\
  pl_ready p = zsum unready (pl_slots p) /\ 0 <= pl_ready p /\
  conns_inv (pl_conns p) (pl_slots p) (pl_reapers p) (pl_next p) /\
  Forall (fun s => s_phase s = SExit -> s_once s = true /\ pl_shutdown p = true) (pl_slots p).
Proof.
  intros H. destruct (reachable_inv _ _ H) as [H1 H2 H3 H4].
  assert (Ha : 0 <= zsum alive (pl_slots p)) by (apply zsum_nonneg; intros s _; unfold alive; by destruct (s_phase s)).
  assert (Hu : 0 <= zsum unready (pl_slots p)) by (apply zsum_nonneg; intros s _; unfold unready; by destruct (s_once s)).
  split_and!; try done; lia.
Qed.

(** What is left when the maintainers WaitGroup is at zero. *)
Lemma drained p :
  pool_inv p -> pl_maintainers p = 0 ->
  Forall (fun s => s_phase s = SExit) (pl_slots p) /\ pl_reapers p = [] /\ pl_conns p = ∅ /\ pl_ready p = 0.
Proof.
  intros [H1 H2 H3 H4] Hz0.
  assert (Ha : 0 <= zsum alive (pl_slots p)) by (apply zsum_nonneg; intros s _; unfold alive; by destruct (s_phase s)).
  assert (Hz : zsum alive (pl_slots p) = 0) by lia.
  assert (Hr : pl_reapers p = []) by (destruct (pl_reapers p); [done|simpl in *; lia]).
  assert (Hall : Forall (fun s => s_phase s = SExit) (pl_slots p)).
  { eapply Forall_impl; [apply (zsum_zero alive)|]; [|done|]; unfold alive; intros s; by destruct (s_phase s). }
  split_and!; [done|done| |].
  - apply set_eq. intros c. rewrite (ci_conns _ _ _ _ H4), Hr. split; [|by intros ?%elem_of_empty].
    intros [(i & s & Hi & Hp)|Hc]; [|by apply elem_of_nil in Hc].
    rewrite Forall_lookup in Hall. by rewrite (Hall _ _ Hi) in Hp.
  - rewrite H2. assert (Hq : Forall (fun s => unready s = 0) (pl_slots p)).
    { rewrite Forall_lookup in Hall, H3 |- *. intros i s Hi. destruct (H3 i s Hi (Hall i s Hi)) as [Ho _].
      unfold unready. by rewrite Ho. }
    clear -Hq. induction Hq as [|s ss Hs _ IH]; [done|]. rewrite zsum_cons. lia.
Qed.

(** C33. Shutdown drains the pool as far as its deadlines reach: from where it
    takes its snapshot of the registry and sets the read deadlines, whatever
    the goroutines and the network then do, at most six steps per slot and one
    per reaper are left (not counting the peers' pausing and resuming to
    read); every maintainer and reaper left has a step of its own, needing
    nothing from the network, unless it is in the dial, or awaiting SETTINGS
    on a connection registered after the snapshot, or on a connection whose
    peer does not read (no write has a deadline); if none is left Shutdown
    returns nil, and where it does every maintainer and reaper has exited, no
    connection is registered and nobody is left waiting on Ready, even if a
    slot never managed to connect. *)
Theorem shutdown_drains o p p1 acts p' :
  reachable o p -> pl_shutdown p = true -> pool_rel p APoke p1 -> steps pool_rel p1 acts p' ->
  Z.of_nat (length (filter (fun a => progress a = true) acts)) <= 6 * Z.of_nat (length (pl_slots p)) + Z.of_nat (length (pl_reapers p)) /\
  (forall i s, pl_slots p' !! i = Some s -> s_phase s <> SExit -> slot_moves p' i \/ slot_waits (pl_conns p) p' s) /\
  (forall c, c ∈ pl_reapers p' -> (local p' (AReaped c) = true /\ exists p'', pool_rel p' (AReaped c) p'') \/ c ∈ pl_blocked p') /\
  (shutdownReturns p' = false -> (exists i s, pl_slots p' !! i = Some s /\ s_phase s <> SExit) \/ pl_reapers p' <> []) /\
  (shutdownReturns p' = true ->
    Forall (fun s => s_phase s = SExit) (pl_slots p') /\ pl_reapers p' = [] /\ pl_conns p' = ∅ /\ pl_ready p' = 0).
Proof.
  intros H%reachable_inv Hsh Hpoke Hr. pose proof (pool_step_inv _ _ _ H Hpoke) as H1.
  unfold pool_rel in Hpoke. cbn in Hpoke. destruct (pl_poked p); [done|]. rewrite Hsh in Hpoke.
  set (snapshot := pl_conns p). assert (Hp1 : pl_poked p1 = Some snapshot /\ pl_shutdown p1 = true /\ pool_work p1 = zsum slot_work (pl_slots p) + Z.of_nat (length (pl_reapers p)))
    by (simplify_eq; split_and!; [done..|unfold pool_work; cbn -[zsum]; lia]).
  destruct Hp1 as (Hp1 & Hsh1 & Hw1). pose proof (steps_inv pool_rel pool_inv pool_step_inv _ _ _ Hr H1) as H'.
  destruct (pool_run_bounded _ _ _ H1 Hsh1 Hr) as (Hb & Hsh' & Hp'). specialize (Hp' _ Hp1). split_and!.
  - pose proof (pool_work_nonneg p'). pose proof (slot_work_bound (pl_slots p)). lia.
  - intros i s. by apply slot_progress.
  - intros c. by apply reaper_progress.
  - by apply somebody_left.
  - unfold shutdownReturns. intros Hs. bool_prop. by apply drained.
Qed.

(** Before Shutdown nothing bounds the wait for SETTINGS: a slot whose peer
    accepts TLS and stays silent has no step of its own, and does not dial
    again. *)
Theorem silent_peer_holds_slot p i s c :
  pl_slots p !! i = Some s -> s_phase s = SHandshake c -> pl_poked p = None -> ~ slot_moves p i.
Proof.
  intros Hi Hph Hp (a & p' & [->|[->| ->]] & Hl & Hs).
  - unfold pool_rel in Hs. cbn in Hs. rewrite Hi in Hs. cbn in Hs. by rewrite Hph in Hs.
  - unfold pool_rel in Hs. cbn in Hs. rewrite Hi in Hs. cbn in Hs. by rewrite Hph in Hs.
  - cbn in Hl. rewrite Hi in Hl. cbn in Hl. rewrite Hph, Hp in Hl. by case_bool_decide.
Qed.

(** ** A run *)

Module PoolDemo.

Definition opts : ServerOptions := mkOptions "proxy:8443" true true false 2 "" 0.

(** One slot awaits SETTINGS, the other's connection drains. *)
Definition run_acts : list PAction :=
  [ACheck 0; ACheck 1; ADialed 1; AReady 1; ADrainStarted 1; ADialed 0; AShutdown].

Definition run_pool : Pool :=
  mkPool 1 3 {[0%nat; 1%nat]} [mkSlot (SHandshake 1) false; mkSlot SPause true] [0%nat] true None 2 ∅.

Lemma run_reachable : reachable opts run_pool.
Proof.
  eexists _, run_acts. split; [reflexivity|].
  repeat (eapply steps_cons; [unfold pool_rel; cbn; reflexivity|]). cbn. apply steps_nil.
Defined.

Lemma pool_accounting_exact_witness :
  pl_maintainers run_pool = zsum alive (pl_slots run_pool) + 1.
Proof. refine (proj1 (pool_accounting_exact opts run_pool run_reachable)). Defined.

Definition poked_pool : Pool :=
  mkPool 1 3 {[0%nat; 1%nat]} [mkSlot (SHandshake 1) false; mkSlot SPause true] [0%nat] true (Some {[0%nat; 1%nat]}) 2 ∅.

Definition end_acts : list PAction := [AServeEnded 0; APauseShutdown 0; ATimer 1; ACheck 1; AReaped 0].

Definition end_pool : option Pool := foldl (fun p a => p ← p; pool_step p a) (Some poked_pool) end_acts.

Lemma run_pool_steps acts p p' : foldl (fun p a => p ← p; pool_step p a) (Some p) acts = Some p' -> steps pool_rel p acts p'.
Proof.
  revert p. induction acts as [|a acts IH]; intros p H; cbn in H; [simplify_eq; constructor|].
  destruct (pool_step p a) as [p1|] eqn:E; [econstructor; [exact E|by apply IH]|].
  assert (Hn : foldl (fun p a => p ← p; pool_step p a) None acts = None) by (clear; by induction acts). congruence.
Qed.

(** The deadline gets the slot out of its handshake; then all can end. *)
Lemma shutdown_drains_witness :
  slot_moves poked_pool 0 /\
  exists p, end_pool = Some p /\ Forall (fun s => s_phase s = SExit) (pl_slots p) /\ pl_reapers p = [] /\ pl_ready p = 0.
Proof.
  assert (Hpoke : pool_rel run_pool APoke poked_pool) by (vm_compute; reflexivity). split.
  - destruct (proj1 (proj2 (shutdown_drains opts run_pool poked_pool [] poked_pool run_reachable eq_refl Hpoke (steps_nil _ _)))
      0%nat (mkSlot (SHandshake 1) false)) as [Hm|Hw]; [reflexivity|discriminate|exact Hm|].
    exfalso. cbn [slot_waits s_phase] in Hw. destruct Hw as [Hw|Hw]; [apply Hw; set_solver|by apply not_elem_of_empty in Hw].
  - destruct end_pool as [p|] eqn:E; [|by vm_compute in E]. exists p. split; [done|].
    destruct (proj2 (proj2 (proj2 (proj2 (shutdown_drains opts run_pool poked_pool end_acts p run_reachable eq_refl Hpoke (run_pool_steps _ _ _ E))))))
      as (H1 & H2 & _ & H3); [|by split_and!].
    assert (Ep : option_map shutdownReturns end_pool = Some true) by (vm_compute; reflexivity). rewrite E in Ep. by injection Ep.
Defined.

End PoolDemo.
