(* ===== verification/Setup.v ===== *)
(** * Setting a tunnel up (connection.go, internal/proxy/proxy.go, tunnel.go)

    Pool.v and Accept.v take the way from a TCP connection to a served one as
    one step.  Here it is written out on both sides: [dial] with its
    [tls.Config] up to [registerConn], and the goroutine of [runTunnelAccept]
    with [acceptTunnel] up to [serveTunnel].  What the network and crypto/tls
    answer is an argument; what is done to the transport is a trace. *)

From Stdlib Require Import Strings.Byte Strings.Ascii Strings.String.
From S2P Require Import Prelude Errors H2Stream Writer HeaderBlock Conn FrameLoop Serve Tunnel Accept Pool.

Open Scope Z_scope.

Section Setup.

Context {HD : HpackDecoder}.

(** ** The transport *)

Record TLSConfig := mkTLSConfig {
  tc_rootCAs : bool;              (* a pool is given *)
  tc_nextProtos : list string;
  tc_serverName : string;
  tc_certificates : bool;
  tc_minVersion : Z
}.

Inductive NetEvent :=
| NetDialed (addr : string) (conf : TLSConfig)
| NetAccepted
| NetNoDelay
| NetDeadline (set : bool)
| NetWrote (data : list byte)
| NetSettings (settings : list (Z * Z))
| NetGoAway
| NetClosed.

Definition VersionTLS12 : Z := 771.

Definition crlf : string := String "013" (String "010" EmptyString).

(** connection.go *)
Definition clientPreface : list byte :=
  list_byte_of_string ("PRI * HTTP/2.0" ++ crlf ++ crlf ++ "SM" ++ crlf ++ crlf)%string.

(** ** The worker's side *)

(** What [tls.Dial], [Handshake], [ConnectionState], the write of the preface
    and that of the SETTINGS return; whether the transport is a TCP one. *)
Record DialEnv := mkDialEnv {
  de_dial : option gerror;
  de_handshake : option gerror;
  de_protocol : string;
  de_tcp : bool;
  de_write : option gerror;
  de_settings : option gerror
}.

Definition dialConfig (opts : ServerOptions) : TLSConfig :=
  mkTLSConfig (o_caPool opts) ["h2"%string] (o_sni opts) (o_cert opts) VersionTLS12.

(** Up to the [go] that runs [serve]. *)
Definition startConnection (d : decoder) (opts : ServerOptions) (env : DialEnv) : list NetEvent * (Conn + gerror) :=
  match de_write env with
  | Some e => ([NetWrote clientPreface], inr e)
  | None =>
      let '(ss, r) := Conn.New d (o_maxStreams opts) (de_settings env) in
      ([NetWrote clientPreface; NetSettings ss], r)
  end.

(** [dial] up to [p.registerConn]. *)
Definition dialSetup (d : decoder) (opts : ServerOptions) (env : DialEnv) : list NetEvent * (Conn + gerror) :=
  let conf := dialConfig opts in
  match de_dial env with
  | Some e => ([], inr e)
  | None =>
      let opened := [NetDialed (o_addr opts) conf] in
      match de_handshake env with
      | Some e => (opened, inr e)
      | None =>
          if negb (String.eqb (de_protocol env) "h2") then (opened ++ [NetClosed], inr ErrALPN)
          else
            let nodelay := if de_tcp env then [NetNoDelay] else [] in
            let '(tr, r) := startConnection d opts env in
            (opened ++ nodelay ++ tr, r)
      end
  end.

(** ** The proxy's side *)

(** proxy/tunnel.go has its own copy. *)
Definition tunnelPreface : list byte :=
  list_byte_of_string ("PRI * HTTP/2.0" ++ crlf ++ crlf ++ "SM" ++ crlf ++ crlf)%string.

(** What the accepted connection is and does: a [*tls.Conn] or not, the
    results of its handshake (which a deadline bounds), the bytes it sends,
    [ae_ends]: whether its side then ends or fails, or stays silent, the
    result of writing the SETTINGS, its address and the certificates of
    its peer; [ae_shutdown]: [p.shutdownCh] is closed when [attach] looks. *)
Record AcceptEnv {Cert : Type} := mkAcceptEnv {
  ae_tls : bool;
  ae_handshake : option gerror;
  ae_protocol : string;
  ae_stream : list byte;
  ae_ends : bool;
  ae_settings : option gerror;
  ae_remote : string;
  ae_certs : list Cert;
  ae_shutdown : bool
}.

Arguments AcceptEnv : clear implicits.
Arguments mkAcceptEnv {Cert}.

(** A Worker with the fields its frame loop does not use. *)
Record TunnelWorker {Cert : Type} := mkTunnelWorker {
  tw_worker : Worker;
  tw_remote : string;
  tw_cert : option Cert
}.

Arguments TunnelWorker : clear implicits.
Arguments mkTunnelWorker {Cert}.

Definition RemoteAddr {Cert} (w : TunnelWorker Cert) : string := tw_remote w.
Definition Certificate {Cert} (w : TunnelWorker Cert) : option Cert := tw_cert w.
Definition InFlight {Cert} (w : TunnelWorker Cert) : Z := w_inFlight (tw_worker w).
Definition Draining {Cert} (w : TunnelWorker Cert) : bool := Conn.Draining (w_conn (tw_worker w)).

(** [io.ReadFull] of [n] bytes, and what is left for the framer. *)
Definition readFull (n : nat) (stream : list byte) : option (list byte * list byte) :=
  if (length stream <? n)%nat then None else Some (take n stream, drop n stream).

(** How the goroutine of an accepted connection gets on: [serveTunnel] with
    a Worker and what is left of the stream, returned with the connection
    closed, or blocked in [io.ReadFull] (no deadline is set by then). *)
Inductive Accepted {Cert : Type} :=
| Serving (w : TunnelWorker Cert) (rest : list byte)
| Returned
| Waiting.

Arguments Accepted : clear implicits.

(** [acceptTunnel] up to [serveTunnel], the deferred [Close] of its early
    returns included. *)
Definition acceptTunnel {Cert} (m : Mem) (d : decoder) (maxStreams : Z) (env : AcceptEnv Cert)
    : list NetEvent * Accepted Cert :=
  match readFull (length tunnelPreface) (ae_stream env) with
  | None => if ae_ends env then ([NetClosed], Returned) else ([], Waiting)
  | Some (pref, rest) =>
      if negb (bool_decide (pref = tunnelPreface)) then ([NetClosed], Returned)
      else
        let '(ss, r) := Conn.New d maxStreams (ae_settings env) in
        match r with
        | inr _ => ([NetSettings ss; NetClosed], Returned)
        | inl c =>
            let w := mkTunnelWorker (mkWorker m c ∅ 0 false) (ae_remote env) (if ae_tls env then head (ae_certs env) else None) in
            if ae_shutdown env then ([NetSettings ss; NetGoAway; NetClosed], Returned)
            else ([NetSettings ss], Serving w rest)
        end
  end.

(** The goroutine of [runTunnelAccept]. *)
Definition acceptSetup {Cert} (m : Mem) (d : decoder) (maxStreams : Z) (env : AcceptEnv Cert)
    : list NetEvent * Accepted Cert :=
  if ae_tls env then
    match ae_handshake env with
    | Some _ => ([NetAccepted; NetDeadline true; NetClosed], Returned)
    | None =>
        if negb (String.eqb (ae_protocol env) "h2")
        then ([NetAccepted; NetDeadline true; NetDeadline false; NetClosed], Returned)
        else let '(tr, r) := acceptTunnel m d maxStreams env in ([NetAccepted; NetDeadline true; NetDeadline false] ++ tr, r)
    end
  else let '(tr, r) := acceptTunnel m d maxStreams env in (NetAccepted :: tr, r).

(** ** What the traces show *)

Definition isOpen (e : NetEvent) : bool := match e with NetDialed _ _ | NetAccepted => true | _ => false end.
Definition isClosed (e : NetEvent) : bool := match e with NetClosed => true | _ => false end.

(** The transport is open at the end. *)
Definition leftOpen (tr : list NetEvent) : bool := existsb isOpen tr && negb (existsb isClosed tr).

Lemma readFull_spec pre stream :
  match readFull (length pre) stream with
  | Some (p, rest) => stream = p ++ rest /\ (p = pre <-> exists r, stream = pre ++ r)
  | None => ~ exists r, stream = pre ++ r
  end.
Proof.
  unfold readFull. destruct (_ <? _)%nat eqn:E; bool_prop.
  - intros [r ->]. rewrite length_app in E. lia.
  - split; [by rewrite take_drop|]. split; [intros <-; exists (drop (length (take (length pre) stream)) stream)|intros [r ->]].
    + rewrite length_take, Nat.min_l, take_drop by done. done.
    + by rewrite take_app_length.
Qed.

Definition serves {Cert} (r : Accepted Cert) : bool := match r with Serving _ _ => true | _ => false end.
Definition waits {Cert} (r : Accepted Cert) : bool := match r with Waiting => true | _ => false end.

Definition preface_came {Cert} (env : AcceptEnv Cert) : Prop := exists rest, ae_stream env = tunnelPreface ++ rest.

(** The peer has sent less than the preface and stays connected. *)
Definition preface_stalled {Cert} (env : AcceptEnv Cert) : Prop :=
  (length (ae_stream env) < length tunnelPreface)%nat /\ ae_ends env = false.

Lemma acceptTunnel_spec {Cert} m d maxStreams (env : AcceptEnv Cert) :
  let '(tr, r) := acceptTunnel m d maxStreams env in
  existsb isClosed tr = negb (serves r || waits r) /\ existsb isOpen tr = false /\
  (serves r = true <-> preface_came env /\ ae_settings env = None /\ ae_shutdown env = false) /\
  (waits r = true <-> preface_stalled env).
Proof.
  unfold acceptTunnel, preface_came, preface_stalled. pose proof (readFull_spec tunnelPreface (ae_stream env)) as Hf.
  destruct (readFull _ _) as [[p rest]|] eqn:Er; unfold readFull in Er; destruct (_ <? _)%nat eqn:El; simplify_eq; bool_prop.
  2: { destruct (ae_ends env); cbn; split_and!; try done; split; try done; [tauto|by intros [? ?]|tauto]. }
  assert (Hns : ~ ((length (ae_stream env) < length tunnelPreface)%nat /\ ae_ends env = false)) by (intros [? _]; lia).
  destruct Hf as [Hst Hf]. case_bool_decide as Hp; cbn [negb].
  2: { split_and!; [done..| |]; (split; [done|tauto]). }
  unfold Conn.New. destruct (ae_settings env).
  { split_and!; [done..| |]; (split; [done|]); [by intros (_ & ? & _)|tauto]. }
  destruct (ae_shutdown env); (split_and!; [done..| |]).
  - split; [done|by intros (_ & _ & ?)].
  - split; [done|tauto].
  - split; [|done]. intros _. split_and!; [by apply Hf|done..].
  - split; [done|tauto].
Qed.

(** C31. What becomes of an accepted connection: setting it up ends with a
    Worker and the connection open, or with the connection closed, unless the
    peer sends less than the HTTP/2 preface and then neither ends nor
    continues: its goroutine then stays in [io.ReadFull], with the connection
    open and no deadline.  It gives a Worker exactly when (over TLS) the
    handshake succeeded with h2, the peer's first bytes are the preface, the
    SETTINGS could be written and the proxy is not shutting down. *)
Theorem accept_serves_or_closes {Cert} m d maxStreams (env : AcceptEnv Cert) :
  let '(tr, r) := acceptSetup m d maxStreams env in
  let past_tls := ae_tls env = true -> ae_handshake env = None /\ ae_protocol env = "h2"%string in
  leftOpen tr = serves r || waits r /\
  (serves r = true <-> past_tls /\ preface_came env /\ ae_settings env = None /\ ae_shutdown env = false) /\
  (waits r = true <-> past_tls /\ preface_stalled env).
Proof.
  destruct (acceptSetup m d maxStreams env) as [tr r] eqn:E. unfold acceptSetup in E. cbv zeta.
  pose proof (acceptTunnel_spec m d maxStreams env) as Ht.
  destruct (acceptTunnel m d maxStreams env) as [tr0 r0]. destruct Ht as (Hc & Ho & Hr & Hw).
  destruct (ae_tls env); [destruct (ae_handshake env); [|destruct (String.eqb (ae_protocol env) "h2") eqn:Ep]|];
    cbn [negb] in E; simplify_eq; bool_prop.
  - split_and!; [done|..]; (split; [done|]); intros [Hp _]; by destruct (Hp eq_refl).
  - apply String.eqb_eq in Ep. unfold leftOpen. cbn. rewrite Hc, negb_involutive, Hr, Hw. tauto.
  - apply String.eqb_neq in Ep. split_and!; [done|..]; (split; [done|]); intros [Hp _]; by destruct (Hp eq_refl).
  - unfold leftOpen. cbn. rewrite Hc, negb_involutive, Hr, Hw. split; [done|]. split; split; try tauto; intros ?; (split; [done|tauto]).
Qed.

(** Which failures of [dial] leave the connection open. *)
Definition dial_leaks (env : DialEnv) : Prop :=
  de_dial env = None /\
  (de_handshake env <> None \/
   de_handshake env = None /\ de_protocol env = "h2"%string /\ (de_write env <> None \/ de_settings env <> None)).

(** A failed [dial] closes the connection only when ALPN did not give h2: an
    error of the handshake, of the preface or of the SETTINGS leaves it open,
    and the maintainer dials again. *)
Theorem failed_dial_leaves_open d opts env e :
  (dialSetup d opts env).2 = inr e -> (leftOpen (dialSetup d opts env).1 = true <-> dial_leaks env).
Proof.
  unfold dialSetup, dial_leaks. destruct (de_dial env) as [e1|]; [intros _; split; [done|by intros [? _]]|].
  destruct (de_handshake env) as [e2|]; [intros _; split; [intros _; split; [done|by left]|done]|].
  destruct (String.eqb_spec (de_protocol env) "h2") as [Ep|Ep]; cbn [negb].
  2: { intros _. split; [done|]. intros [_ [?|(_ & ? & _)]]; done. }
  unfold startConnection, Conn.New. destruct (de_write env) as [e3|]; [|destruct (de_settings env) as [e4|]]; cbn [fst snd]; intros H; try done.
  - split; [intros _; split; [done|right; split_and!; auto]|by destruct (de_tcp env)].
  - split; [intros _; split; [done|right; split_and!; auto]|by destruct (de_tcp env)].
Qed.

(** The SETTINGS a peer announces. *)
Definition announced (tr : list NetEvent) : list (Z * Z) :=
  flat_map (fun e => match e with NetSettings ss => ss | _ => [] end) tr.

(** What a peer writes before its first frame. *)
Definition written (tr : list NetEvent) : list byte :=
  flat_map (fun e => match e with NetWrote b => b | _ => [] end) tr.

(** The cap a peer asks for. *)
Definition streamCap (maxStreams : Z) : Z := if maxStreams =? 0 then DefaultMaxConcurrentStreams else maxStreams.

Lemma announced_applied c maxStreams :
  ApplyPeerSettings c [(SettingMaxConcurrentStreams, streamCap maxStreams); (SettingMaxHeaderListSize, MaxHeaderListSize)] =
  (set_c_peerMaxStreams c (streamCap maxStreams), None).
Proof. done. Qed.

(** C30. The two ends agree: when the network and TLS do their part, the bytes a
    worker writes first are the preface the proxy looks for, the proxy's framer
    starts at the worker's first frame, and once each end has read the other's
    SETTINGS it acknowledges them and holds itself to the number of concurrent
    streams the other end was configured with (100 when it was left at zero). *)
Theorem tunnel_setup_agrees {Cert} mw mp dw dp opts maxStreams denv (aenv : AcceptEnv Cert) frames :
  let '(dtr, dr) := dialSetup dw opts denv in
  let '(atr, ar) := acceptSetup mp dp maxStreams aenv in
  de_dial denv = None -> de_handshake denv = None -> de_protocol denv = "h2"%string ->
  de_write denv = None -> de_settings denv = None ->
  ae_handshake aenv = None -> ae_protocol aenv = "h2"%string -> ae_stream aenv = written dtr ++ frames ->
  ae_settings aenv = None -> ae_shutdown aenv = false ->
  exists c w st w',
    dr = inl c /\ ar = Serving w frames /\
    awaitSettings (R := workerRole) (mkWS mw c []) [RFrame (FSettings false (announced atr))] = (st, Some None) /\
    awaitSettings (R := proxyRole) (tw_worker w) [RFrame (FSettings false (announced dtr))] = (w', Some None) /\
    PeerMaxStreams (role_conn (Role := workerRole) st) = streamCap maxStreams /\
    PeerMaxStreams (w_conn w') = streamCap (o_maxStreams opts) /\
    c_out (role_conn (Role := workerRole) st) = [SendSettingsAck] /\ c_out (w_conn w') = [SendSettingsAck].
Proof.
  destruct (dialSetup dw opts denv) as [dtr dr] eqn:Ed. destruct (acceptSetup mp dp maxStreams aenv) as [atr ar] eqn:Ea.
  intros H1 H2 H3 H4 H5 H6 H7 H8 H9 H10.
  unfold dialSetup, startConnection in Ed. rewrite H1, H2, H3, H4 in Ed. cbn in Ed. rewrite H5 in Ed.
  assert (Edr : dr = inl (newConn dw) /\ announced dtr =
      [(SettingMaxConcurrentStreams, streamCap (o_maxStreams opts)); (SettingMaxHeaderListSize, MaxHeaderListSize)] /\
    written dtr = clientPreface) by (destruct (de_tcp denv); simplify_eq; done).
  destruct Edr as (-> & Edt & Edw). rewrite Edw in H8.
  assert (Ht : acceptTunnel mp dp maxStreams aenv =
    ([NetSettings [(SettingMaxConcurrentStreams, streamCap maxStreams); (SettingMaxHeaderListSize, MaxHeaderListSize)]],
     Serving (mkTunnelWorker (mkWorker mp (newConn dp) ∅ 0 false) (ae_remote aenv) (if ae_tls aenv then head (ae_certs aenv) else None)) frames)).
  { unfold acceptTunnel, readFull. change tunnelPreface with clientPreface. rewrite H8.
    rewrite (proj2 (Nat.ltb_ge _ _)) by (rewrite length_app; lia). rewrite take_app_length, drop_app_length, bool_decide_true by done.
    unfold Conn.New. by rewrite H9, H10. }
  unfold acceptSetup in Ea. rewrite H6, H7, Ht, String.eqb_refl in Ea. cbn [negb] in Ea.
  assert (Ear : announced atr = [(SettingMaxConcurrentStreams, streamCap maxStreams); (SettingMaxHeaderListSize, MaxHeaderListSize)] /\
    ar = Serving (mkTunnelWorker (mkWorker mp (newConn dp) ∅ 0 false) (ae_remote aenv)
      (if ae_tls aenv then head (ae_certs aenv) else None)) frames) by (destruct (ae_tls aenv); injection Ea as <- <-; by split).
  destruct Ear as [Eat ->]. rewrite Edt, Eat. do 4 eexists. split_and!; done.
Qed.

End Setup.

Arguments AcceptEnv : clear implicits.
Arguments mkAcceptEnv {Cert}.
Arguments Accepted {HD} Cert.
Arguments TunnelWorker {HD} Cert.
Arguments mkTunnelWorker {HD Cert}.

Module SetupDemo.

Import Plain.

Definition opts : ServerOptions := mkOptions "proxy:8443" true true false 1 "" 8.

Definition network : DialEnv := mkDialEnv None None "h2" true None None.

(** The write of the preface fails. *)
Definition broken : DialEnv := mkDialEnv None None "h2" true (Some (ErrExternal 1)) None.

Definition frames : list byte := [x00; x00; x0c].

Definition accepted : AcceptEnv string :=
  mkAcceptEnv true None "h2" (clientPreface ++ frames) false None "10.0.0.1:40000" ["worker-1"%string] false.

Definition mem : Mem := mkMem ∅ ∅ [] 0.

Lemma tunnel_setup_agrees_witness :
  exists c w st w',
    (dialSetup (HD := plain_decoder) tt opts network).2 = inl c /\
    (acceptSetup (HD := plain_decoder) mem tt 0 accepted).2 = Serving w frames /\
    Certificate w = Some "worker-1"%string /\
    awaitSettings (R := workerRole) (mkWS mem c [])
      [RFrame (FSettings false (announced (acceptSetup (HD := plain_decoder) mem tt 0 accepted).1))] = (st, Some None) /\
    PeerMaxStreams (role_conn (Role := workerRole) st) = 100 /\ PeerMaxStreams (w_conn w') = 8.
Proof.
  destruct (tunnel_setup_agrees (HD := plain_decoder) mem mem tt tt opts 0 network accepted frames
    eq_refl eq_refl eq_refl eq_refl eq_refl eq_refl eq_refl eq_refl eq_refl eq_refl)
    as (c & w & st & w' & Hc & Hw & H1 & H2 & H3 & H4 & _).
  exists c, w, st, w'. split_and!; try done. injection Hw as <-. done.
Defined.

Lemma failed_dial_leaves_open_witness :
  leftOpen (dialSetup (HD := plain_decoder) tt opts broken).1 = true.
Proof.
  apply (failed_dial_leaves_open (HD := plain_decoder) tt opts broken (ErrExternal 1) eq_refl).
  split; [reflexivity|]. right. split_and!; [reflexivity..|]. left. discriminate.
Defined.

(** A peer that speaks something else is turned away. *)
Example not_http2 :
  acceptSetup (HD := plain_decoder) mem tt 0
    (mkAcceptEnv true None "h2" (list_byte_of_string "GET / HTTP/1.1, please") true None "10.0.0.1:40000" ([] : list string) false) =
  ([NetAccepted; NetDeadline true; NetDeadline false; NetClosed], Returned).
Proof. by vm_compute. Qed.

(** One that sends nothing is waited for. *)
Example silent_peer :
  acceptSetup (HD := plain_decoder) mem tt 0 (mkAcceptEnv true None "h2" [] false None "10.0.0.1:40000" ([] : list string) false) =
  ([NetAccepted; NetDeadline true; NetDeadline false], Waiting).
Proof. by vm_compute. Qed.

End SetupDemo.
