(* ===== verification/Api.v ===== *)
(** * The public API of the proxy (proxy.go)

    [ProxyWorker] and its accessors, [NewProxy] with its copy of the options,
    [Workers] and the hooks: the layer between the user's code and the
    internal proxy.  Selectors cross it through the adapters of Proxy.v; the
    other methods only call the internal ones. *)

From Stdlib Require Import Strings.String.
From S2P Require Import Prelude Errors Names HeaderBlock Conn Tunnel Forward Exchange Proxy Gateway Accept Listen Setup.

Open Scope Z_scope.

(** ** ProxyWorker *)

Section Worker.

Context {HD : HpackDecoder} {Cert : Type}.
Variable commonName : Cert -> string.        (* c.Subject.CommonName *)

(** A value of type [any]: nil, or a [*x509.Certificate], itself nil or not. *)
Inductive AnyValue := AnyNil | AnyCertificate (c : option Cert).

(** [v == nil] *)
Definition isNil (v : AnyValue) : bool := match v with AnyNil => true | AnyCertificate _ => false end.

Definition CommonName (w : TunnelWorker Cert) : string :=
  match Setup.Certificate w with Some c => commonName c | None => EmptyString end.

(** The method's result type is [any]: the pointer is converted. *)
Definition Certificate (w : TunnelWorker Cert) : AnyValue := AnyCertificate (Setup.Certificate w).

Definition RemoteAddr (w : TunnelWorker Cert) : string := Setup.RemoteAddr w.

Definition InFlight (w : TunnelWorker Cert) : Z := Setup.InFlight w.

Definition Draining (w : TunnelWorker Cert) : bool := Setup.Draining w.

(** A worker without a certificate has no common name, but its [Certificate]
    is never equal to nil, as its comment says it then is: the [any] holds a
    nil pointer. *)
Theorem certificate_is_never_nil (w : TunnelWorker Cert) :
  tw_cert w = None -> CommonName w = EmptyString /\ Certificate w = AnyCertificate None /\ isNil (Certificate w) = false.
Proof. intros H. unfold CommonName, Certificate, Setup.Certificate. by rewrite H. Qed.

End Worker.

(** ** NewProxy *)

Section NewProxy.

Context {TLS Log : Type}.

(** What the user's hooks do, as the calls they get. *)
Record ProxyOptions := mkProxyOptions {
  po_tls : option TLS;
  po_selector : option ProxySelector;
  po_logger : option Log;
  po_onAttach : bool;             (* OnWorkerAttach is not nil *)
  po_onDetach : bool;
  po_maxStreams : Z
}.

(** The internal [Options]; a hook is the adapter [NewProxy] builds. *)
Record InnerOptions := mkInnerOptions {
  io_tls : option TLS;
  io_selector : option InnerPick;
  io_logger : option Log;
  io_onAttach : option (nat -> ProxyWorker);   (* the argument of the user's hook *)
  io_onDetach : option (nat -> ProxyWorker);
  io_maxStreams : Z
}.

(** The internal [Proxy]; [ip_log]: [None] is the discarding logger. *)
Record InnerProxy := mkInnerProxy {
  ip_opts : InnerOptions;
  ip_selector : InnerPick;
  ip_log : option Log;
  ip_state : ProxyState
}.

(** [leastInFlightPick] as a pick; [view] is what reading a worker shows. *)
Definition LeastInFlight (view : nat -> WorkerView) : InnerPick := fun ws => v_ptr <$> leastInFlightPick (view <$> ws).

(** [SelectorFunc(f).Pick] and [ProxySelectorFunc(f).Pick] *)
Definition SelectorFunc (f : InnerPick) : InnerPick := fun ws => f ws.

Definition ProxySelectorFunc (f : list ProxyWorker -> option ProxyWorker) : ProxySelector := SelUser (fun ws => f ws).

Definition ProxyLeastInFlight (view : nat -> WorkerView) : ProxySelector := wrapSelector (LeastInFlight view).

(** At [seq = ctr]; the next pick is at [(roundRobinPick ctr ws).1]. *)
Definition ProxyRoundRobin (ctr : Z) : ProxySelector := wrapSelector (fun ws => (roundRobinPick ctr ws).2).

(** internal/proxy/proxy.go *)
Definition New (view : nat -> WorkerView) (opts : InnerOptions) : InnerProxy + gerror :=
  match io_tls opts with
  | None => inr ErrTunnelTLSConfigRequired
  | Some _ =>
      let selector := default (LeastInFlight view) (io_selector opts) in
      let opts := mkInnerOptions (io_tls opts) (Some selector) (io_logger opts) (io_onAttach opts) (io_onDetach opts) (io_maxStreams opts) in
      inl (mkInnerProxy opts selector (io_logger opts) proxy_init)
  end.

(** [fresh]: the number of the next [ProxyWorker] allocated. *)
Definition NewProxy (view : nat -> WorkerView) (fresh : nat) (opts : ProxyOptions) : InnerProxy + gerror :=
  New view (mkInnerOptions (po_tls opts)
    ((fun s => unwrapSelector s fresh) <$> po_selector opts)
    (po_logger opts)
    (if po_onAttach opts then Some (mkPW fresh) else None)
    (if po_onDetach opts then Some (mkPW fresh) else None)
    (po_maxStreams opts)).

(** [Workers()]: a new [ProxyWorker] for each entry of the snapshot. *)
Definition Workers (p : InnerProxy) (fresh : nat) : list ProxyWorker :=
  (fun '(i, w) => mkPW (fresh + i) w) <$> zip (seq 0 (length (p_workers (ip_state p)))) (p_workers (ip_state p)).

(** The calls the user's hooks get for the internal ones. *)
Inductive HookCall := CallAttach (w : ProxyWorker) | CallDetach (w : ProxyWorker).

Definition runHook (opts : InnerOptions) (e : HookEv) : list HookCall :=
  match e with
  | HAttach w => match io_onAttach opts with Some hook => [CallAttach (hook w)] | None => [] end
  | HDetach w => match io_onDetach opts with Some hook => [CallDetach (hook w)] | None => [] end
  end.

Definition hookCalls (p : InnerProxy) : list HookCall := p_hooks (ip_state p) ≫= runHook (ip_opts p).

Definition run (p : InnerProxy) (ops : list SetOp) : InnerProxy :=
  mkInnerProxy (ip_opts p) (ip_selector p) (ip_log p) (foldl set_op (ip_state p) ops).

(** Which worker a call is about, and which call it is. *)
Definition callOf (c : HookCall) : HookEv :=
  match c with CallAttach w => HAttach (pw_w w) | CallDetach w => HDetach (pw_w w) end.

Definition hooked (opts : InnerOptions) (e : HookEv) : bool :=
  match e with
  | HAttach _ => match io_onAttach opts with Some _ => true | None => false end
  | HDetach _ => match io_onDetach opts with Some _ => true | None => false end
  end.

Lemma NewProxy_spec view fresh opts p :
  NewProxy view fresh opts = inl p ->
  is_Some (po_tls opts) /\ ip_log p = po_logger opts /\ io_maxStreams (ip_opts p) = po_maxStreams opts /\
  ip_selector p = match po_selector opts with Some s => unwrapSelector s fresh | None => LeastInFlight view end /\
  io_onAttach (ip_opts p) = (if po_onAttach opts then Some (mkPW fresh) else None) /\
  io_onDetach (ip_opts p) = (if po_onDetach opts then Some (mkPW fresh) else None) /\ ip_state p = proxy_init.
Proof.
  unfold NewProxy, New. cbn. destruct (po_tls opts); [|done]. intros [= <-]. cbn. split_and!; try done. by destruct (po_selector opts).
Qed.

Lemma hookCalls_about view fresh opts p l :
  NewProxy view fresh opts = inl p ->
  callOf <$> (l ≫= runHook (ip_opts p)) = filter (fun e => hooked (ip_opts p) e = true) l.
Proof.
  intros Hp. destruct (NewProxy_spec _ _ _ _ Hp) as (_ & _ & _ & _ & Ha & Hd & _).
  induction l as [|e l IH]; [done|]. rewrite bind_cons, fmap_app, IH.
  unfold runHook. destruct e as [w|w]; rewrite ?Ha, ?Hd.
  - destruct (po_onAttach opts).
    + rewrite filter_cons_True; [done|]. cbn. by rewrite Ha.
    + rewrite filter_cons_False; [done|]. cbn. by rewrite Ha.
  - destruct (po_onDetach opts).
    + rewrite filter_cons_True; [done|]. cbn. by rewrite Hd.
    + rewrite filter_cons_False; [done|]. cbn. by rewrite Hd.
Qed.

(** The public proxy is the internal one: [NewProxy] fails exactly when the
    TLS configuration is missing; a nil selector means least-in-flight, a
    built-in one is used unwrapped (so a round-robin instance keeps its
    counter), a user's through the adapter; [Workers] lists the attached
    workers in attach order, and the user's hooks, where set, are called once
    for each internal attach and detach, in order, with a [ProxyWorker] for
    the worker concerned. *)
Theorem public_proxy_faithful view fresh opts :
  match NewProxy view fresh opts with
  | inr e => po_tls opts = None /\ e = ErrTunnelTLSConfigRequired
  | inl p =>
      is_Some (po_tls opts) /\
      (po_selector opts = None -> ip_selector p = LeastInFlight view) /\
      (forall inner, po_selector opts = Some (wrapSelector inner) -> ip_selector p = inner) /\
      (forall pick ws w, po_selector opts = Some (SelUser pick) -> (forall l pw, pick l = Some pw -> pw ∈ l) ->
         ip_selector p ws = Some w -> w ∈ ws) /\
      forall ops n, let p' := run p ops in
        (pw_w <$> Workers p' n = p_workers (ip_state p')) /\ NoDup (pw_id <$> Workers p' n) /\
        callOf <$> hookCalls p' =
          filter (fun e => (if e is HAttach _ then po_onAttach opts else po_onDetach opts) = true)
            (p_hooks (foldl set_op proxy_init ops))
  end.
Proof.
  destruct (NewProxy view fresh opts) as [p|e] eqn:Hp.
  2: { unfold NewProxy, New in Hp. cbn in Hp. by destruct (po_tls opts); simplify_eq. }
  destruct (NewProxy_spec _ _ _ _ Hp) as (Ht & _ & _ & Hs & Ha & Hd & Hi). split_and!; [done| | | |].
  - intros E. by rewrite Hs, E.
  - intros inner E. by rewrite Hs, E.
  - intros pick ws w E Hpick. rewrite Hs, E. cbn. unfold unwrapPick.
    destruct (pick _) as [pw|] eqn:Ep; [|done]. intros [= <-].
    rewrite <- (unwrapped_ws fresh 0 ws). apply list_elem_of_fmap. exists pw. split; [done|by apply Hpick].
  - intros ops n p'. split_and!.
    + apply unwrapped_ws.
    + unfold Workers. generalize (p_workers (ip_state p')). intros ws.
      replace (pw_id <$> _) with ((fun i => n + i)%nat <$> seq 0 (length ws)).
      * apply NoDup_fmap; [intros x y; lia|]. apply NoDup_seq.
      * rewrite <- list_fmap_compose. generalize 0%nat. induction ws as [|w ws IH]; intros k; [done|]. cbn. f_equal. apply IH.
    + unfold hookCalls. cbn [p' run ip_opts ip_state]. rewrite (hookCalls_about _ _ _ _ _ Hp), Hi.
      apply list_filter_iff. intros e. unfold hooked. rewrite Ha, Hd. destruct e; [by destruct (po_onAttach opts)|by destruct (po_onDetach opts)].
Qed.

(** ** The public handler *)

Context {HD : HpackDecoder}.

(** [Handler()]: [forward] with the selector [NewProxy] installed. *)
Definition Handler (p : InnerProxy) (range : header -> list (string * list string)) (req : Request) (g : Gateway) (x : Script)
    : Gateway * PublicReply * Phase :=
  match ip_selector p (availableWorkers (g_proxy g) (draining g)) with
  | None => let '(_, r, ph) := forward range req None x in (g, r, ph)
  | Some n =>
      let '(w, r, ph) := forward range req (g_tunnels g !! n) x in
      (mkGateway (g_proxy g) (match w with Some w => <[n := w]> (g_tunnels g) | None => g_tunnels g end), r, ph)
  end.

(** [view] is what reading an attached worker shows. *)
Definition view_current (g : Gateway) (view : nat -> WorkerView) : Prop :=
  forall n, n ∈ p_workers (g_proxy g) -> viewOf g n = Some (view n).

Lemma views_current g view : view_current g view -> views g = view <$> availableWorkers (g_proxy g) (draining g).
Proof.
  unfold view_current, views, availableWorkers. generalize (p_workers (g_proxy g)). intros ws H.
  induction ws as [|n ws IH]; [done|]. rewrite !filter_cons. destruct (decide _).
  - cbn. rewrite H by (by left). f_equal. apply IH. intros m Hm. apply H. by right.
  - apply IH. intros m Hm. apply H. by right.
Qed.

(** The handler of a public proxy forwards as its options say: without a
    selector, or with [ProxyLeastInFlight], it is the gateway of Gateway.v
    under the least-in-flight selector, to the last detail; and whatever the
    user's own selector does, as long as it answers with one of the workers
    it was shown, a request touches no tunnel but one attached and not
    draining. *)
Theorem public_handler_faithful view fresh opts p range req g x :
  NewProxy view fresh opts = inl p -> view_current g view ->
  (po_selector opts = None \/ po_selector opts = Some (ProxyLeastInFlight view) ->
    Handler p range req g x = serveRequest leastInFlightPick range req g x) /\
  (forall f, po_selector opts = Some (ProxySelectorFunc f) -> (forall l pw, f l = Some pw -> pw ∈ l) ->
    forall n, g_tunnels (Handler p range req g x).1.1 !! n <> g_tunnels g !! n ->
      (n ∈ p_workers (g_proxy g)) /\ draining g n = false).
Proof.
  intros Hp Hv. destruct (NewProxy_spec _ _ _ _ Hp) as (_ & _ & _ & Hs & _). split.
  - intros Hsel. assert (E : ip_selector p = LeastInFlight view) by (rewrite Hs; by destruct Hsel as [-> | ->]).
    unfold Handler, serveRequest. rewrite E, (views_current g view Hv). unfold LeastInFlight.
    by destruct (leastInFlightPick _).
  - intros f Hsel Hf n. unfold Handler. rewrite Hs, Hsel. cbn [ProxySelectorFunc unwrapSelector]. unfold unwrapPick.
    set (ws := availableWorkers _ _). destruct (f _) as [pw|] eqn:Ef.
    2: { by destruct (forward range req None x) as [[w r] ph]. }
    apply Hf in Ef. assert (Hin : pw_w pw ∈ ws).
    { rewrite <- (unwrapped_ws fresh 0 ws). apply list_elem_of_fmap. by exists pw. }
    destruct (forward range req _ x) as [[w r] ph]. cbn. intros Hn. unfold ws, availableWorkers in Hin.
    destruct w as [w|]; [|done]. destruct (decide (n = pw_w pw)) as [->|Hne]; [|by rewrite lookup_insert_ne in Hn].
    by apply list_elem_of_filter in Hin as [? ?].
Qed.

End NewProxy.

(** ** Listeners and Shutdown *)

Definition ListenAndServeTunnels {C} := Listen.ListenAndServeTunnels (C := C).

Definition ServeTunnelListener {C} := Listen.ServeTunnelListener (C := C).

Definition ListenAndServePublic : option (list string) -> bool -> PublicServer := publicServer.

(** What [Shutdown] returns in a state of the proxy, [ctxErr] being the error
    of its context, if that has ended; [None]: it is still waiting.  With both
    branches ready [select] takes either ([first]). *)
Definition Shutdown (y : Sys) (ctxErr : option gerror) (first : bool) : option (option gerror) :=
  match Accept.shutdownReturns y, ctxErr with
  | true, Some e => Some (if first then None else Some e)
  | true, None => Some None
  | false, Some e => Some (Some e)
  | false, None => None
  end.

(** [Shutdown] reports success only when nothing is left, and an error only
    when its context has ended, and then the context's. *)
Lemma Shutdown_reports y ctxErr first :
  reachable y ->
  (Shutdown y ctxErr first = Some None -> Forall (fun ph => ph = TGone) (y_tunnels y) /\ p_workers (y_proxy y) = []) /\
  (forall e, Shutdown y ctxErr first = Some (Some e) -> ctxErr = Some e).
Proof.
  intros Hy%sys_reachable_inv. unfold Shutdown, Accept.shutdownReturns. split.
  - intros H. apply (all_gone y Hy). destruct (y_shut y); try (by destruct ctxErr). destruct (y_accepts y =? 0) eqn:E; [by bool_prop|by destruct ctxErr].
  - intros e H. destruct (match y_shut y with ShDone => _ | _ => _ end), ctxErr; try destruct first; congruence.
Qed.

Module ApiDemo.

Import Plain.

Definition anonymous : TunnelWorker (HD := plain_decoder) string :=
  mkTunnelWorker (newWorker tt) "10.0.0.1:40000" None.

Lemma certificate_is_never_nil_witness : CommonName id anonymous = EmptyString /\ isNil (Certificate anonymous) = false.
Proof. destruct (certificate_is_never_nil id anonymous eq_refl) as (H1 & _ & H2). exact (conj H1 H2). Defined.

Definition opts : ProxyOptions (TLS := unit) (Log := unit) := mkProxyOptions (Some tt) None None true false 0.

Example hooks_called :
  match NewProxy (fun n => mkView n false 0) 7 opts with
  | inl p => hookCalls (run p [OAttach 1; OAttach 2; ODetach 1]) = [CallAttach (mkPW 7 1); CallAttach (mkPW 7 2)]
  | inr _ => False
  end.
Proof. by vm_compute. Qed.

Definition current (n : nat) : WorkerView := default (mkView n true 0) (viewOf GatewayDemo.gateway n).

Definition public : InnerProxy (TLS := unit) (Log := unit) :=
  match NewProxy current 0 opts with inl p => p | inr _ => mkInnerProxy (mkInnerOptions None None None None None 0) (fun _ => None) None proxy_init end.

Lemma public_handler_faithful_witness :
  Handler public map_to_list ForwardDemo.demo_request GatewayDemo.gateway (mkScript [] [] None [] WaitDetached [] [] true 0) =
  serveRequest leastInFlightPick map_to_list ForwardDemo.demo_request GatewayDemo.gateway (mkScript [] [] None [] WaitDetached [] [] true 0).
Proof.
  eapply (public_handler_faithful current 0 opts); [reflexivity| |left; reflexivity].
  intros n [->|[->|[]%elem_of_nil]%elem_of_cons]%elem_of_cons; vm_compute; reflexivity.
Defined.

End ApiDemo.
