(* ===== verification/Examples.v ===== *)
(** * The example worker and proxy (examples/worker/main.go, examples/proxy/main.go)

    The two handlers of the example worker as the calls they make, its
    [ServeMux], and the two [main] functions up to the servers they start.
    What the handlers' responses are follows from Respond.v, and what a caller
    of the proxy gets to see of them from RoundTrip.v. *)

From Stdlib Require Import Strings.Byte Strings.Ascii Strings.String.
From stdpp Require Import pretty.
From S2P Require Import Prelude Errors Flow Names Writer HeaderBlock Conn SendPath ResponseWriter Respond Uri FrameLoop Tunnel Forward Wire EndToEnd Exchange RoundTrip Completes Proxy Accept Listen Pool Setup Api.

Open Scope Z_scope.

(** ** Standard library *)

Definition nl : string := String (ascii_of_nat 10) EmptyString.

(** [fmt.Fprintln(w, s)]: one [Write]; [mfs]: the peer's frame size then. *)
Definition Fprintln (mfs : Z) (s : string) : HCall := CWrite mfs (list_byte_of_string (s ++ nl)).

(** [http.Error(w, msg, code)] *)
Definition httpError (mfs : Z) (msg : string) (code : Z) : list HCall :=
  [CDelHeader contentLength; CSetHeader "Content-Type" ["text/plain; charset=utf-8"%string];
   CSetHeader "X-Content-Type-Options" ["nosniff"%string]; CWriteHeader code; Fprintln mfs msg].

(** ** The handlers *)

(** The handler of [/hello]. *)
Definition hello (mfs : Z) : list HCall := [Fprintln mfs "hello from behind the proxy"].

(** [fmt.Fprintf(w, "data: tick %d\n\n", i)] *)
Definition tick (i : nat) : list byte := list_byte_of_string ("data: tick " ++ pretty i ++ nl ++ nl).

(** The loop of [/events]: [n] passes left; [done i]: the request's context has
    ended at the [i]th test. *)
Fixpoint ticks (done : nat -> bool) (mfs : nat -> Z) (n i : nat) : list HCall :=
  match n with
  | O => []
  | S n => if done i then [] else [CWrite (mfs i) (tick i); CFlush] ++ ticks done mfs n (S i)
  end.

(** The handler of [/events]; [flusherOK]: the writer is an [http.Flusher]. *)
Definition events (flusherOK : bool) (done : nat -> bool) (mfs : nat -> Z) : list HCall :=
  [CSetHeader "Content-Type" ["text/event-stream"%string]; CSetHeader "Cache-Control" ["no-cache"%string]] ++
  (if negb flusherOK then httpError (mfs 0%nat) "Streaming unsupported" 500 else ticks done mfs 5 0).

(** ** The mux *)

(** The segments of a path, between slashes. *)
Fixpoint segments (l : list ascii) : list (list ascii) :=
  match l with
  | [] => [[]]
  | c :: l =>
      if Ascii.eqb c "/" then [] :: segments l
      else match segments l with [] => [[c]] | s :: ss => (c :: s) :: ss end
  end.

(** [path.Clean] leaves it alone: no empty segment but at the end, no dots. *)
Definition is_clean (p : list ascii) : bool :=
  match segments p with
  | [] :: ss =>
      forallb (fun s => negb (bool_decide (s = [])) ) (removelast ss) &&
      forallb (fun s => negb (bool_decide (s = ["."%char])) && negb (bool_decide (s = ["."%char; "."%char]))) ss
  | _ => false
  end.

Definition hello_path : list ascii := list_ascii_of_string "/hello".
Definition events_path : list ascii := list_ascii_of_string "/events".

Lemma paths_differ : hello_path <> events_path.
Proof. done. Qed.

(** What [mux] may do with a request: the two patterns match the decoded path
    exactly, for every method and host; another clean path is not found.  Of a
    path that is not clean (or is escaped) nothing is said: net/http may
    redirect. *)
Inductive mux (sv : ServedRequest) : list HCall -> Prop :=
| mux_hello mfs : Path (sv_URL sv) = hello_path -> mux sv (hello mfs)
| mux_events done mfs : Path (sv_URL sv) = events_path -> mux sv (events true done mfs)
| mux_missing mfs :
    Path (sv_URL sv) <> hello_path -> Path (sv_URL sv) <> events_path -> RawPath (sv_URL sv) = [] ->
    is_clean (Path (sv_URL sv)) = true -> mux sv (httpError mfs "404 page not found" 404)
| mux_unclean calls :
    RawPath (sv_URL sv) <> [] \/ is_clean (Path (sv_URL sv)) = false ->
    Path (sv_URL sv) <> hello_path -> Path (sv_URL sv) <> events_path -> mux sv calls.

(** ** Their responses *)

Definition greeting : list byte := list_byte_of_string ("hello from behind the proxy" ++ nl).

Lemma hello_response isHead mfs :
  respond isHead (hello mfs) = mkResponse [] (Some (200, ∅)) (if isHead then [] else greeting) true.
Proof. by destruct isHead. Qed.

Lemma ticks_eq done mfs n i :
  ticks done mfs n i = until done (seq i n) ≫= (fun i => [CWrite (mfs i) (tick i); CFlush]).
Proof.
  revert i. induction n as [|n IH]; intros i; [done|]. cbn [ticks seq until]. destruct (done i); [done|].
  by rewrite bind_cons, IH.
Qed.

Lemma bodyOf_ticks mfs l n :
  bodyOf None n (l ≫= (fun i => [CWrite (mfs i) (tick i); CFlush])) = (l ≫= tick, false).
Proof. revert n. induction l as [|i l IH]; intros n; [done|]. rewrite !bind_cons. cbn [app bodyOf within]. by rewrite IH. Qed.

Definition event_header : header :=
  <["Cache-Control"%string := ["no-cache"%string]]> {["Content-Type"%string := ["text/event-stream"%string]]}.

Lemma event_header_validated :
  validated (headersAfter ∅ [CSetHeader "Content-Type" ["text/event-stream"%string]; CSetHeader "Cache-Control" ["no-cache"%string]]) = event_header.
Proof.
  change (headersAfter _ _) with event_header. unfold validated, headerGet.
  replace (CanonicalMIMEHeaderKey contentLength) with contentLength by (by vm_compute).
  unfold event_header. by rewrite lookup_insert_ne, lookup_singleton_ne.
Qed.

(** The event stream: status 200 with its two headers, and the ticks up to the
    caller's departure, in order; cut short or not, the response is complete. *)
Theorem events_response done mfs :
  respond false (events true done mfs) = mkResponse [] (Some (200, event_header)) (until done (seq 0 5) ≫= tick) true.
Proof.
  unfold events. cbn [negb]. rewrite ticks_eq. generalize (until done (seq 0 5)). intros l.
  set (rest := l ≫= _). assert (Hnp : Forall (fun c => is_panic c = false) rest).
  { unfold rest. apply Forall_bind. apply Forall_forall. intros i _. by repeat constructor. }
  unfold respond. rewrite no_panic_existsb, until_all by (by repeat constructor).
  unfold respondTo. destruct l as [|i l]; [done|]. unfold rest. rewrite bind_cons. cbn [app until since commits].
  rewrite event_header_validated. cbn [bodyless].
  pose proof (bodyOf_ticks mfs (i :: l) 0) as Hb. rewrite bind_cons in Hb. cbn [app] in Hb.
  replace (declared_length event_header) with (@None Z) by (by vm_compute).
  rewrite Hb. done.
Qed.

(** ** What the caller gets *)

Lemma seq_prefix l i n : l `prefix_of` seq i n -> l = seq i (length l).
Proof.
  revert i n. induction l as [|x l IH]; intros i n H; [done|]. destruct n as [|n]; [by apply prefix_nil_inv in H|].
  cbn [seq] in H. pose proof (prefix_cons_inv_1 _ _ _ _ H) as ->. apply prefix_cons_inv_2 in H. cbn. f_equal. by eapply IH.
Qed.

Lemma event_header_forwardable : filter forwardable event_header = event_header.
Proof.
  apply map_filter_id. unfold event_header. intros k vv [[<- <-]|[_ [<- <-]%lookup_singleton_Some]]%lookup_insert_Some; by vm_compute.
Qed.

Section Curl.

Context {FR : Framer} {HE : HpackEncoder} {HD : HpackDecoder} {HC : HpackCodec} {WI : Wire}.

Variable range : header -> list (string * list string).
Hypothesis range_perm : forall h, range h ≡ₚ map_to_list h.

Lemma publicView_path req sv p :
  publicView req = Some sv -> rq_requestURI req = string_of_list_ascii p -> p <> [] ->
  parseRequestURI p = Some (mkURL [] [] p) -> Path (sv_URL sv) = p /\ sv_Method sv = rq_method req.
Proof.
  unfold publicView. intros H E Hne Hp. rewrite E in H. destruct (String.eqb_spec (string_of_list_ascii p) "") as [E0|_].
  { rewrite <- (list_ascii_of_string_of_list_ascii p), E0 in Hne. done. }
  rewrite list_ascii_of_string_of_list_ascii, Hp in H. by injection H as <-.
Qed.

(** C38. [curl .../hello] prints "hello from behind the proxy": a request for
    /hello that the example proxy forwards to the example worker, over a
    tunnel with any history and among whatever else happens, is answered 200
    without further headers, its body is never anything but the greeting's
    beginning, and the whole of it (nothing for HEAD) when the copy loop saw the end, as it
    does when nothing goes wrong. *)
Theorem curl_hello t :
  trip_ok range mux t -> rq_requestURI (tr_request t) = "/hello"%string ->
  tr_status t = 200 /\ tr_header t = ∅ /\ tr_body t `prefix_of` greeting /\
  let body := if String.eqb (rq_method (tr_request t)) "HEAD" then [] else greeting in
  ((tr_copy t).2 = Some CopyEOF -> tr_body t = body) /\
  (forall l wr pre post, delivered range t l wr pre post -> undisturbed t pre -> tr_body t = body).
Proof.
  intros T Hu. destruct (trip_answer range range_perm mux t T) as (sv & Hsv & Hm & (s & h & Hh & Est & Eh) & Hb & He).
  destruct (publicView_path _ _ hello_path Hsv Hu) as [Hp Em]; [done|done|].
  assert (Hc : exists mfs, tr_calls t = hello mfs) by (pose proof paths_differ; inv Hm; [by eexists|congruence..]). destruct Hc as [mfs Hc].
  rewrite Hc, hello_response in Hh, Hb, He. cbn in Hh, Hb, He. injection Hh as <- <-. rewrite Em in Hb, He.
  cbv zeta. split_and!; [done|by rewrite Eh| |by intros [? _]%He|].
  - etrans; [exact Hb|]. destruct (String.eqb _ _); [apply prefix_nil|done].
  - intros l wr pre post D U. destruct (completes range range_perm mux t T l wr pre post D U) as [-> _]; by rewrite Hc, hello_response.
Qed.

(** [curl .../events]: the ticks in order, as far as they have come; no tick
    follows one that is missing. *)
Theorem curl_events t :
  trip_ok range mux t -> rq_requestURI (tr_request t) = "/events"%string -> rq_method (tr_request t) <> "HEAD"%string ->
  tr_status t = 200 /\ tr_header t = event_header /\
  exists n, (n <= 5)%nat /\ tr_body t `prefix_of` (seq 0 n ≫= tick) /\
    ((tr_copy t).2 = Some CopyEOF -> tr_body t = seq 0 n ≫= tick).
Proof.
  intros T Hu Hnh. destruct (trip_answer range range_perm mux t T) as (sv & Hsv & Hm & (s & h & Hh & Est & Eh) & Hb & He).
  destruct (publicView_path _ _ events_path Hsv Hu) as [Hp Em]; [done|done|].
  assert (Hc : exists done mfs, tr_calls t = events true done mfs).
  { pose proof paths_differ. inv Hm; try congruence. by do 2 eexists. }
  destruct Hc as (ended & mfs & Hc). rewrite Em, (proj2 (String.eqb_neq _ _)), Hc, events_response in Hh, Hb, He by done.
  cbn in Hh. injection Hh as <- <-. split_and!; [done|by rewrite Eh, event_header_forwardable|].
  set (l := until ended (seq 0 5)) in *. pose proof (until_prefix ended (seq 0 5)) as Hl. fold l in Hl.
  exists (length l). rewrite <- (seq_prefix l 0 5 Hl). split_and!; [|exact Hb|by intros [? _]%He].
  apply prefix_length in Hl. by rewrite length_seq in Hl.
Qed.

End Curl.

(** ** examples/worker *)

Record WorkerFlags := mkWorkerFlags {
  wf_addr : string; wf_sni : string; wf_cert : string; wf_key : string; wf_ca : string; wf_conns : Z
}.

(** The defaults of the flags. *)
Definition worker_defaults : WorkerFlags :=
  mkWorkerFlags "localhost:8443" "" "rhttp-certs/rhttp-worker.crt" "rhttp-certs/rhttp-worker.key" "" 2.

(** Where a main function gets to: [log.Fatalf], a panic, or running. *)
Inductive MainResult {A : Type} := Fatal (msg : string) (e : option gerror) | Panics | Running (a : A).

Arguments MainResult : clear implicits.

Section Mains.

(** [tls.LoadX509KeyPair] (a certificate it returns has a chain and a key),
    [os.ReadFile], and whether [AppendCertsFromPEM] finds a certificate. *)
Variable LoadX509KeyPair : string -> string -> option gerror.
Variable ReadFile : string -> list byte + gerror.
Variable AppendCertsFromPEM : list byte -> bool.

(** The CA pool of a flag: none, or the file's. *)
Definition loadCA (path readMsg emptyMsg : string) : unit + string * option gerror :=
  match ReadFile path with
  | inr e => inr (readMsg, Some e)
  | inl pem => if AppendCertsFromPEM pem then inl tt else inr (emptyMsg, None)
  end.

(** [main] of the worker up to [pool.Ready().Wait()]. *)
Definition workerMain (f : WorkerFlags) : MainResult Pool :=
  match LoadX509KeyPair (wf_cert f) (wf_key f) with
  | Some e => Fatal "load worker cert" (Some e)
  | None =>
      let ca := if String.eqb (wf_ca f) "" then inl false
                else match loadCA (wf_ca f) "read proxy CA" "proxy CA file contained no certs" with
                     | inl _ => inl true
                     | inr x => inr x
                     end in
      match ca with
      | inr (msg, e) => Fatal msg e
      | inl caPool =>
          match NewConnectionPool (mkOptions (wf_addr f) true true caPool (wf_conns f) (wf_sni f) 0) with
          | None => Panics
          | Some (inr e) => Fatal "new pool" (Some e)
          | Some (inl pool) => Running pool
          end
      end
  end.

(** The files are there. *)
Definition worker_files (f : WorkerFlags) : Prop :=
  LoadX509KeyPair (wf_cert f) (wf_key f) = None /\
  (wf_ca f <> ""%string -> exists pem, ReadFile (wf_ca f) = inl pem /\ AppendCertsFromPEM pem = true).

(** The example worker starts exactly when its files load, it has an address
    and [-conns] is not negative, with one maintainer per connection (one for
    0); a negative [-conns] is no error message but a panic; and everything
    else is fatal. *)
Theorem worker_main_outcomes f :
  match workerMain f with
  | Running pool =>
      worker_files f /\ wf_addr f <> ""%string /\ 0 <= wf_conns f /\
      let n := if wf_conns f =? 0 then 1 else wf_conns f in
      pl_ready pool = n /\ pl_maintainers pool = n /\ Z.of_nat (length (pl_slots pool)) = n /\ pl_conns pool = ∅
  | Panics => worker_files f /\ wf_addr f <> ""%string /\ wf_conns f < 0
  | Fatal _ _ => ~ worker_files f \/ wf_addr f = ""%string
  end.
Proof.
  unfold workerMain, worker_files, loadCA. destruct (LoadX509KeyPair _ _) as [e|]; [left; by intros [? _]|].
  assert (Hca : match (if String.eqb (wf_ca f) "" then inl false else
      match (match ReadFile (wf_ca f) with inr e => inr ("read proxy CA"%string, Some e)
             | inl pem => if AppendCertsFromPEM pem then inl tt else inr ("proxy CA file contained no certs"%string, None) end) with
      | inl _ => inl true | inr x => inr x end) with
    | inl _ => wf_ca f <> ""%string -> exists pem, ReadFile (wf_ca f) = inl pem /\ AppendCertsFromPEM pem = true
    | inr _ => ~ (wf_ca f <> ""%string -> exists pem, ReadFile (wf_ca f) = inl pem /\ AppendCertsFromPEM pem = true)
    end).
  { destruct (String.eqb_spec (wf_ca f) "") as [E|E]; [done|].
    destruct (ReadFile (wf_ca f)) as [pem|e]; [|by intros (? & ? & _)%(fun H => H E)].
    destruct (AppendCertsFromPEM pem) eqn:Ea; [by eauto|]. intros (pem' & [= <-] & ?)%(fun H => H E). congruence. }
  destruct (if String.eqb (wf_ca f) "" then _ else _) as [ca|[msg e]]; [|left; by intros [_ ?]].
  unfold NewConnectionPool, validateOptions. cbn [o_addr o_handler o_cert o_nbConn negb].
  destruct (bool_decide_reflect (wf_addr f = ""%string)) as [E|E]; [by right|].
  destruct (_ <? 0) eqn:En; bool_prop.
  - split_and!; [done..|]. destruct (wf_conns f =? 0) eqn:E0; bool_prop; lia.
  - cbn. rewrite repeat_length. split_and!; [done..| | | | |done]; destruct (wf_conns f =? 0) eqn:E0; bool_prop; lia.
Qed.

(** ** examples/proxy *)

Record ProxyFlags := mkProxyFlags { pf_tunnelAddr : string; pf_publicAddr : string; pf_cert : string; pf_key : string; pf_workersCA : string }.

Definition proxy_defaults : ProxyFlags := mkProxyFlags ":8443" ":8080" "server.crt" "server.key" "rhttp-certs/workers-ca.crt".

Inductive ClientAuthType := NoClientCert | RequireAndVerifyClientCert.

(** The fields of the example's [tls.Config]; [pt_certs]: the certificates'
    files, [pt_clientCAs]: the CA file. *)
Record ProxyTLS := mkProxyTLS {
  pt_certs : list (string * string); pt_clientAuth : ClientAuthType; pt_clientCAs : string; pt_minVersion : Z; pt_nextProtos : list string
}.

(** [main] of the proxy up to its two goroutines; the logger is the text
    handler, [tt]. *)
Definition proxyMain (view : nat -> WorkerView) (fresh : nat) (f : ProxyFlags) : MainResult (InnerProxy (TLS := ProxyTLS) (Log := unit)) :=
  match LoadX509KeyPair (pf_cert f) (pf_key f) with
  | Some e => Fatal "load server cert" (Some e)
  | None =>
      match loadCA (pf_workersCA f) "read workers CA" "workers CA file contained no certs" with
      | inr (msg, e) => Fatal msg e
      | inl _ =>
          let conf := mkProxyTLS [(pf_cert f, pf_key f)] RequireAndVerifyClientCert (pf_workersCA f) VersionTLS12 [] in
          match NewProxy view fresh (mkProxyOptions (Some conf) None (Some tt) true true 0) with
          | inr e => Fatal "new proxy" (Some e)
          | inl p => Running p
          end
      end
  end.

(** The listener goroutines: the [log.Fatalf] of each, if it comes to that. *)
Definition tunnelGoroutine {C} (r : list C * option (option gerror)) : option (string * gerror) :=
  match r.2 with Some (Some e) => Some ("tunnel listener"%string, e) | _ => None end.

Definition publicGoroutine (s : PublicServer) : option (string * gerror) :=
  match ps_returned s with Some e => Some ("public listener"%string, e) | None => None end.

(** The example proxy starts exactly when its files load: its options are
    never refused.  Workers must present a certificate of the CA file,
    requests go to the least loaded worker, and both hooks are called. *)
Theorem proxy_main_outcomes view fresh f :
  match proxyMain view fresh f with
  | Running p =>
      (exists pem, LoadX509KeyPair (pf_cert f) (pf_key f) = None /\ ReadFile (pf_workersCA f) = inl pem /\ AppendCertsFromPEM pem = true) /\
      (exists conf, io_tls (ip_opts p) = Some conf /\ pt_clientAuth conf = RequireAndVerifyClientCert /\ pt_clientCAs conf = pf_workersCA f) /\
      ip_selector p = LeastInFlight view /\ ip_state p = proxy_init /\
      forall e, runHook (ip_opts p) e = [match e with HAttach w => CallAttach (mkPW fresh w) | HDetach w => CallDetach (mkPW fresh w) end]
  | Fatal _ _ =>
      ~ exists pem, LoadX509KeyPair (pf_cert f) (pf_key f) = None /\ ReadFile (pf_workersCA f) = inl pem /\ AppendCertsFromPEM pem = true
  | Panics => False
  end.
Proof.
  unfold proxyMain, loadCA. destruct (LoadX509KeyPair _ _) as [e|]; [by intros (? & ? & _)|].
  destruct (ReadFile _) as [pem|e]; [|by intros (? & _ & ? & _)].
  destruct (AppendCertsFromPEM pem) eqn:Ea; [|intros (pem' & _ & [= <-] & ?); congruence]. cbn. split_and!; [by eauto|by eexists|done|done|].
  by intros [w|w].
Qed.

(** Its tunnel listener takes the process down only when it cannot be opened,
    or when [Accept] fails for good before [Shutdown]; never because of
    [Shutdown]. *)
Theorem tunnel_listener_fatal_iff {C} (listen : list string -> list (AcceptTurn C) + gerror) protos :
  is_Some (tunnelGoroutine (Listen.ListenAndServeTunnels listen protos)) <->
  match listen (cloneAndEnsureH2 protos) with
  | inr _ => True
  | inl ts =>
      exists pre t post err, ts = pre ++ t :: post /\ Forall (fun t => goes_on t = true) pre /\
        at_result t = inr err /\ at_shutdown t = false /\ isTemporary err = false
  end.
Proof.
  unfold Listen.ListenAndServeTunnels. destruct (listen _) as [ts|e]; [|by split; [|eexists]].
  destruct (first_stop ts) as [H|(pre & t & post & -> & Hp & Ht)].
  - pose proof (runTunnelAccept_app ts [] H) as E. cbn in E. rewrite !app_nil_r in E. unfold tunnelGoroutine. rewrite E. cbn.
    split; [by intros []|]. intros (pre & t & post & err & -> & _ & Hr & Hs & Htmp). exfalso.
    apply Forall_app in H as [_ H]. apply Forall_cons in H as [H _]. unfold goes_on in H. rewrite Hr, Hs, Htmp in H. done.
  - rewrite runTunnelAccept_app, runTunnelAccept_stop by done. unfold tunnelGoroutine, loopReturns. cbn. split.
    + intros Hx. unfold goes_on in Ht. destruct (at_result t) as [c|err] eqn:Hr; [done|]. destruct (at_shutdown t) eqn:Hs; [by destruct Hx|].
      exists pre, t, post, err. cbn in Ht. by split_and!.
    + intros (pre' & t' & post' & err & E & Hp' & Hr & Hs & Htmp).
      assert (Ht' : goes_on t' = false) by (unfold goes_on; by rewrite Hr, Hs, Htmp).
      rewrite (first_stop_unique _ _ _ _ _ _ E Hp Ht Hp' Ht'), Hr, Hs. by eexists.
Qed.

End Mains.

(** ** Runs *)

Module ExamplesDemo.

Import PlainWire RoundTripDemo.

Lemma calls_hello : calls = Examples.hello 16384.
Proof. vm_compute. reflexivity. Qed.

(** The trip of RoundTrip.v, its handler being the example's mux. *)
Lemma hello_trip : trip_ok map_to_list mux the_trip.
Proof.
  apply (trip_ok_handler _ handles); [exact the_trip_ok|]. intros sv Hsv. change (tr_calls the_trip) with calls.
  rewrite calls_hello. apply mux_hello. change (tr_dispatched the_trip) with dispatched in Hsv.
  assert (E : Path ∘ sv_URL <$> servedRequest dispatched = Some hello_path) by (vm_compute; reflexivity).
  rewrite Hsv in E. by injection E.
Qed.

Lemma curl_hello_witness : tr_status the_trip = 200 /\ tr_body the_trip = Examples.greeting.
Proof.
  destruct (curl_hello map_to_list (fun h => reflexivity _) the_trip hello_trip eq_refl) as (H1 & _ & _ & H2 & _).
  split; [exact H1|]. apply H2. vm_compute. reflexivity.
Defined.

Example events_cut_short :
  rs_body (respond false (events true (fun i => (2 <=? i)%nat) (fun _ => 16384))) = tick 0 ++ tick 1.
Proof. vm_compute. reflexivity. Qed.

Example clean_paths :
  is_clean (list_ascii_of_string "/a/b/") = true /\ is_clean (list_ascii_of_string "/a//b") = false /\
  is_clean (list_ascii_of_string "/a/../b") = false /\ is_clean (list_ascii_of_string "*") = false.
Proof. vm_compute. done. Qed.

Example worker_starts :
  match workerMain (fun _ _ => None) (fun _ => inr (ErrExternal 0)) (fun _ => true) worker_defaults with
  | Running p => pl_ready p = 2
  | _ => False
  end.
Proof. reflexivity. Qed.

End ExamplesDemo.
