(* ===== verification/Scenarios.v ===== *)
(** * The repository's tests, replayed on the model

    Each [Example] is a test of the repository (its name is in the comment)
    whose scenario is run on the definitions and whose assertions hold of the
    result: a check of the definitions against what their authors expect of
    the code, independent of the theorems. *)

From Stdlib Require Import Strings.Byte Strings.Ascii Strings.String.
From S2P Require Import Prelude Errors Flow Names H2Stream Writer HeaderBlock Conn SendPath ResponseWriter Respond FrameLoop Serve Tunnel Forward Exchange EndToEnd Proxy Pool.

Open Scope Z_scope.

Definition bytes (s : string) : list byte := list_byte_of_string s.

(** What goes out on a connection, as a peer would look at it. *)
Inductive Sent :=
| SHead (status : Z) (contentLength : option (list string)) (fin : bool)
| SData (data : list byte) (fin : bool)
| SReset (code : Z)
| SWindow (id inc : Z)
| SGoAway (last code : Z)
| SOther.

Definition is_window (s : Sent) : bool := match s with SWindow _ _ => true | _ => false end.

Definition sent_of (i : writeIntent) : Sent :=
  match wi_kind i with
  | wkRespHeaders => SHead (wi_status i) (wi_header i !! contentLength) (wi_endStream i)
  | wkData => SData (wi_data i) (wi_endStream i)
  | wkRSTStream => SReset (wi_code i)
  | wkWindowUpdate => SWindow (wi_streamID i) (wi_increment i)
  | wkGoAway => SGoAway (wi_streamID i) (wi_code i)
  | _ => SOther
  end.

(** ** Responses *)

Section Responses.

(** Default windows, a transport that takes everything. *)
Definition wide : World := mkWorld (mkSendCredit false 65535 65535 false) 65535 [] [] [].

Definition response (method : string) (calls : list HCall) : list Sent :=
  sent_of <$> taken (serveStream 1 method true calls true wide).1.

Definition declare (n : string) : HCall := CSetHeader contentLength [n].
Definition say (s : string) : HCall := CWrite 16384 (bytes s).

(** TestResponseShortContentLength *)
Example response_short_content_length :
  response "GET" [declare "100"; say "hi"] = [SHead 200 (Some ["100"%string]) false; SData (bytes "hi") false; SReset ErrCodeInternal].
Proof. vm_compute. reflexivity. Qed.

(** TestResponseExcessContentLength *)
Example response_excess_content_length :
  response "GET" [declare "4"; say "hi"; say "hop"] = [SHead 200 (Some ["4"%string]) false; SData (bytes "hi") false; SReset ErrCodeInternal].
Proof. vm_compute. reflexivity. Qed.

(** TestResponseExactContentLength *)
Example response_exact_content_length :
  response "GET" [declare "5"; say "hello"] = [SHead 200 (Some ["5"%string]) false; SData (bytes "hello") false; SData [] true].
Proof. vm_compute. reflexivity. Qed.

(** TestResponseInvalidContentLengthDropped *)
Example response_invalid_content_length_dropped :
  response "GET" [declare "banana"; say "hi"] = [SHead 200 None false; SData (bytes "hi") false; SData [] true].
Proof. vm_compute. reflexivity. Qed.

(** TestHeadResponseBodyDiscarded *)
Example head_response_body_discarded :
  response "HEAD" [declare "5"; say "hello"] = [SHead 200 (Some ["5"%string]) true].
Proof. vm_compute. reflexivity. Qed.

(** TestNoContentResponseBodyDiscarded *)
Example no_content_response_body_discarded :
  response "GET" [CWriteHeader 204; say "should vanish"] = [SHead 204 None true].
Proof. vm_compute. reflexivity. Qed.

(** TestEarlyHintsThenImplicit200 *)
Example early_hints_then_implicit_200 :
  response "GET" [CSetHeader "Link" ["</style.css>; rel=preload; as=style"%string]; CWriteHeader 103; say "body"] =
  [SHead 103 None false; SHead 200 None false; SData (bytes "body") false; SData [] true].
Proof. vm_compute. reflexivity. Qed.

(** TestEarlyHintsThenExplicitFinal *)
Example early_hints_then_explicit_final :
  response "GET" [declare "4"; CWriteHeader 103; CWriteHeader 201; say "body"] =
  [SHead 103 None false; SHead 201 (Some ["4"%string]) false; SData (bytes "body") false; SData [] true].
Proof. vm_compute. reflexivity. Qed.

(** TestEarlyHintsThenReturn *)
Example early_hints_then_return : response "GET" [CWriteHeader 103] = [SHead 103 None false; SHead 200 None true].
Proof. vm_compute. reflexivity. Qed.

(** TestInformationalAfterFinalIgnored *)
Example informational_after_final_ignored :
  response "GET" [say "a"; CWriteHeader 103; say "b"] =
  [SHead 200 None false; SData (bytes "a") false; SData (bytes "b") false; SData [] true].
Proof. vm_compute. reflexivity. Qed.

(** TestSwitchingProtocolsNotSent *)
Example switching_protocols_not_sent :
  response "GET" [CWriteHeader 101; say "body"] = [SHead 200 None false; SData (bytes "body") false; SData [] true].
Proof. vm_compute. reflexivity. Qed.

(** TestResponseWriterIsFlusher: HEADERS and an empty DATA frame before the
    handler has returned. *)
Example response_writer_is_flusher :
  [SHead 200 None false; SData [] false] `prefix_of` response "GET" [CWriteHeader 200; CFlush].
Proof. eexists. vm_compute. reflexivity. Qed.

(** TestHandlerPanicRecovered *)
Example handler_panic_recovered :
  response "GET" [CPanic] = [SHead 500 None true] /\ response "GET" [CWriteHeader 204] = [SHead 204 None true].
Proof. vm_compute. done. Qed.

(** TestSendFlowControl: a stream window of 50 bytes, refilled by 50 at a time. *)
Definition narrow : World :=
  mkWorld (mkSendCredit false 65535 50 false) 50 ([] :: repeat [EvStream 50] 20) [] [].

Definition squeezed : list writeIntent :=
  taken (serveStream 1 "GET" true [CWriteHeader 200; CWrite 16384 (repeat x58 1024)] true narrow).1.

Example send_flow_control :
  forallb (fun i => (length (wi_data i) <=? 50)%nat) squeezed = true /\ datas squeezed = repeat x58 1024 /\ ends squeezed = true.
Proof. vm_compute. done. Qed.

End Responses.

(** ** The worker's frames *)

Section Frames.

Import Plain EndToEndDemo.

Definition turns (rs : list ReadOutcome) : list (Turn (R := workerRole)) := (fun r => ServeDemo.turn [] r false) <$> rs.

(** After the handshake. *)
Definition session (rs : list ReadOutcome) : WState * LoopResult := frameLoop (R := workerRole) ready (turns rs).

Definition outgoing (st : WState) : list Sent := sent_of <$> c_out (ws_conn st).

Definition post : HeadersFrame := mkHeadersFrame 1 ServeDemo.block false true.

(** TestPaddedDataFlowControlCredit: five bytes, ten of padding and the pad
    length count. *)
Example padded_data_flow_control_credit :
  let st := (session [RFrame (FHeaders post); RFrame (FData 1 (bytes "hello") 16 true)]).1 in
  filter (fun s => is_window s = true) (outgoing st) = [SWindow 0 16; SWindow 1 16] /\
  pending <$> abs (bodies (ws_mem st) (ws_conn st)) !! 1 = Some (bytes "hello").
Proof. vm_compute. done. Qed.

(** TestWindowUpdateOnDataReceive *)
Example window_update_on_data_receive :
  let st := (session [RFrame (FHeaders post); RFrame (FData 1 (repeat x00 1024) 1024 true)]).1 in
  [SWindow 0 1024; SWindow 1 1024] `suffix_of` outgoing st.
Proof. exists [SOther]. vm_compute. reflexivity. Qed.

(** TestContinuationCompletes *)
Example continuation_completes :
  let cut := 12%nat in
  ws_spawned (session [RFrame (FHeaders (mkHeadersFrame 1 (take cut ServeDemo.block) true false));
                       RFrame (FContinuation (mkContinuationFrame 1 (drop cut ServeDemo.block) true))]).1 =
  ws_spawned (session [RFrame (FHeaders ServeDemo.request)]).1.
Proof. vm_compute. reflexivity. Qed.

(** TestContinuationInterruption *)
Example continuation_interruption :
  (session [RFrame (FHeaders (mkHeadersFrame 1 (take 12 ServeDemo.block) true false)); RFrame (FData 1 (bytes "nope") 4 false)]).2 =
  FrameLoop.Returned (Some ErrContInterleaved).
Proof. vm_compute. reflexivity. Qed.

(** TestRSTStreamFailsBodyReader: what had come is read first, then the error. *)
Example rst_stream_fails_body_reader :
  let st := (session [RFrame (FHeaders post); RFrame (FData 1 (bytes "partial") 7 false); RFrame (FRSTStream 1 8)]).1 in
  abs (bodies (ws_mem st) (ws_conn st)) !! 1 = Some (mkFifo (bytes "partial") true (Some ErrStreamReset)).
Proof. vm_compute. reflexivity. Qed.

(** TestGoAwayExitsServe and TestWorkerGoAwayNoStreamsExitsPromptly *)
Example goaway_exits_serve : (session [RFrame (FGoAway 0 0); RTimeout]).2 = FrameLoop.Returned (Some ErrGoaway).
Proof. vm_compute. reflexivity. Qed.

(** TestWorkerGoAwayWithErrorTearsDownImmediately: although a stream is open. *)
Example goaway_with_error_tears_down :
  (session [RFrame (FHeaders post); RFrame (FGoAway 1 2)]).2 = FrameLoop.Returned (Some ErrGoaway).
Proof. vm_compute. reflexivity. Qed.

(** TestWorkerGoAwayGracefulDrain: the open stream is served to its end first. *)
Example goaway_graceful_drain :
  (session [RFrame (FHeaders post); RFrame (FGoAway 1 0)]).2 = Reading /\
  (frameLoop (R := workerRole) ready
     [ServeDemo.turn [] (RFrame (FHeaders post)) false; ServeDemo.turn [] (RFrame (FGoAway 1 0)) false;
      ServeDemo.turn [SDone 1 1] RTimeout false]).2 = FrameLoop.Returned (Some ErrGoaway).
Proof. vm_compute. done. Qed.

(** TestGoAwaySentOnTeardown *)
Example goaway_sent_on_teardown :
  last (sent_of <$> c_out (ws_conn ServeDemo.ended)) = Some (SGoAway 1 ErrCodeNo).
Proof. vm_compute. reflexivity. Qed.

(** TestPingAckClearsTimeout: the peer answers, so the second silence is met
    by another PING and not by a timeout. *)
Example ping_ack_clears_timeout :
  let turn start now r := mkTurn (R := workerRole) false start [] None now r false in
  (frameLoop (R := workerRole) ready
     [turn 0 PingInterval RTimeout; turn PingInterval (PingInterval + 1) (RFrame (FPing true (be64 1)));
      turn (PingInterval + 1) (2 * PingInterval + 1) RTimeout]).2 = Reading.
Proof. vm_compute. reflexivity. Qed.

(** TestMaxConcurrentStreamsInSettings *)
Example max_concurrent_streams_in_settings :
  let announced n := (Conn.New (HD := plain_decoder) tt n None).1 in
  (announced 0 !! 0%nat, announced 500 !! 0%nat, announced 4096 !! 0%nat) =
  (Some (SettingMaxConcurrentStreams, 100), Some (SettingMaxConcurrentStreams, 500), Some (SettingMaxConcurrentStreams, 4096)).
Proof. vm_compute. reflexivity. Qed.

End Frames.

(** ** Flow control (internal/h2/flow_test.go) *)

(** TestSendCreditReserveAvailable *)
Example reserve_available :
  Reserve (mkSendCredit false 500 DefaultInitialWindow false) 1000 200 =
  (Return 200 false, mkSendCredit true 300 DefaultInitialWindow false, 800).
Proof. vm_compute. reflexivity. Qed.

(** TestSendCreditReserveCappedByMin *)
Example reserve_capped_by_min :
  (Reserve (mkSendCredit false 1000 0 false) 50 200).1.1 = Return 50 false /\
  (Reserve (mkSendCredit true 30 0 false) 1000 200).1.1 = Return 30 false.
Proof. vm_compute. done. Qed.

(** TestSendCreditBlocksUntilCredit *)
Example reserve_blocks_until_credit :
  let sc := mkSendCredit false 0 0 false in
  (Reserve sc 0 100).1.1 = Wait /\
  (reserve_pass (AddConn sc 500) 0 100).1.1 = Wait /\
  (reserve_pass (AddConn sc 500) (Flow.AddStream 0 50) 100).1.1 = Return 50 false.
Proof. vm_compute. done. Qed.

(** TestSendCreditMarkDead *)
Example reserve_mark_dead : (reserve_pass (MarkDead (mkSendCredit true 0 0 false)) 0 100).1.1 = Return 0 true.
Proof. vm_compute. reflexivity. Qed.

(** TestSendCreditApplyInitialWindowDelta *)
Example apply_initial_window_delta :
  let '(sc, sws) := ApplyInitialWindowDelta (mkSendCredit false 65535 65535 false) 100000 [65535; 40000] in
  sws = [65535 + (100000 - 65535); 40000 + (100000 - 65535)] /\ PeerInitWindow sc = 100000 /\
  (ApplyInitialWindowDelta sc 10000 sws).2 = [10000; 40000 + (10000 - 65535)].
Proof. vm_compute. done. Qed.

(** ** Options (flow_test.go) *)

Definition complete : ServerOptions := mkOptions "127.0.0.1:1" true true true 1 "" 0.

(** TestNewConnectionPoolRejectsMissingCert, TestValidateOptionsAcceptsNilCA,
    TestNewConnectionPoolRejectsMissingAddr, TestNewConnectionPoolRejectsMissingHandler *)
Example pool_options :
  NewConnectionPool (mkOptions "127.0.0.1:1" true false true 1 "" 0) = Some (inr ErrMTLSRequired) /\
  validateOptions (mkOptions "127.0.0.1:1" true true false 1 "" 0) = None /\
  NewConnectionPool (mkOptions "" true true true 1 "" 0) = Some (inr ErrAddrRequired) /\
  NewConnectionPool (mkOptions "127.0.0.1:1" false true true 1 "" 0) = Some (inr ErrHandlerRequired).
Proof. vm_compute. done. Qed.

(** ** The proxy *)

(** TestProxyHopByHopHeaderStripping *)
Example hop_by_hop_header_stripping :
  let req := mkRequest "GET" "example.com" "" "/h" false
    (list_to_map [("X-End-To-End", ["preserved"]); ("X-Trace-Id", ["abc-123"]); ("Proxy-Authorization", ["should-be-stripped"]);
                  ("Te", ["trailers"]); ("Upgrade", ["websocket"])])%string true 0 in
  let h := buildForwardedHeader map_to_list req in
  (h !! "X-End-To-End", h !! "X-Trace-Id", h !! "Proxy-Authorization", h !! "Te", h !! "Upgrade")%string =
  (Some ["preserved"], Some ["abc-123"], None, None, None)%string.
Proof. vm_compute. reflexivity. Qed.

(** TestProxyRoundRobinDistribution: twenty requests over two workers. *)
Example round_robin_distribution :
  let picks := rr_calls 20 0 ["A"; "B"]%string in
  (length (filter (fun p => p = Some "A"%string) picks), length (filter (fun p => p = Some "B"%string) picks)) = (10, 10)%nat.
Proof. vm_compute. reflexivity. Qed.

(** TestLeastInFlightSkipsSaturatedTunnels *)
Example least_in_flight_skips_saturated :
  v_ptr <$> leastInFlightPick [mkView 0 true 1; mkView 1 false 1] = Some 1%nat.
Proof. vm_compute. reflexivity. Qed.

(** TestProxyNoWorker *)
Example proxy_no_worker :
  (forward (HD := Plain.plain_decoder) map_to_list ForwardDemo.demo_request None (mkScript [] [] None [] WaitDetached [] [] true 0)).1.2 = ErrorPage 503.
Proof. reflexivity. Qed.
